(** * featuretools: the pandas computational backend

    A shallow embedding of
    [featuretools/computational_backends/pandas_backend.py]
    (class [PandasBackend] and its module-level helpers), followed by the
    properties of the feature calculators and of the orchestrator.

    Layout of the development:
    - cell values, Python equality, exceptions and the two monads;
    - the fragment of pandas the backend calls (Series, DataFrame, boolean
      masks, group-by, left and inner merges, append);
    - features, entities and the external services (entity set, feature
      tree, slice provider);
    - the backend itself, one definition per source function;
    - lemmas and theorems. *)

From Stdlib Require Import List String Ascii ZArith QArith Bool Lia Arith.
From Stdlib Require Import Permutation.
Import ListNotations.

Set Warnings "-register-all".
Close Scope Q_scope.
Open Scope string_scope.
Open Scope list_scope.
Open Scope nat_scope.

(* ================================================================= *)
(** ** Cell values *)

(** What a cell of a table, a row label or a default value can hold.
    Floats are idealised as rationals; [VNaN] stands for [np.nan], [None]
    and [NaT]; [VSeq] is a Python list or tuple (the only values with an
    [__iter__] attribute in this code base's Python 2). *)
Inductive value : Type :=
| VNaN
| VBool (b : bool)
| VInt (z : Z)
| VFloat (q : Q)
| VStr (s : string)
| VTime (t : Z)
| VSeq (l : list value).

(** [hasattr(v, '__iter__')]. *)
Definition has_iter (v : value) : bool :=
  match v with VSeq _ => true | _ => false end.

(** [pd.isnull] on one cell. *)
Definition isnull (v : value) : bool :=
  match v with VNaN => true | _ => false end.

(** Numbers compare across [bool], [int] and [float], as in Python. *)
Definition num_of (v : value) : option Q :=
  match v with
  | VBool b => Some (if b then 1%Q else 0%Q)
  | VInt z => Some (inject_Z z)
  | VFloat q => Some q
  | _ => None
  end.

(** Python's [a == b] on cell values: [nan] is equal to nothing, numbers
    compare by value, sequences elementwise. *)
Fixpoint py_eq (a b : value) {struct a} : bool :=
  match a, b with
  | VNaN, _ => false
  | _, VNaN => false
  | VStr x, VStr y => String.eqb x y
  | VTime x, VTime y => Z.eqb x y
  | VSeq x, VSeq y =>
      (fix go (l1 l2 : list value) {struct l1} : bool :=
         match l1, l2 with
         | [], [] => true
         | u :: l1', v :: l2' => py_eq u v && go l1' l2'
         | _, _ => false
         end) x y
  | _, _ =>
      match num_of a, num_of b with
      | Some x, Some y => Qeq_bool x y
      | _, _ => false
      end
  end.

(** Membership up to Python equality ([x in collection]). *)
Definition py_in (x : value) (l : list value) : bool :=
  existsb (py_eq x) l.

(** Equality of join keys in [pd.merge]: as [==], except that two missing
    keys match each other. *)
Definition key_match (a b : value) : bool :=
  py_eq a b || (isnull a && isnull b).

(** The order pandas sorts group keys by: numbers first (by value), then
    strings, then timestamps; other values keep their relative order. *)
Definition value_rank (v : value) : nat :=
  match v with
  | VBool _ | VInt _ | VFloat _ => 0
  | VStr _ => 1
  | VTime _ => 2
  | VSeq _ => 3
  | VNaN => 4
  end.

Definition value_leb (a b : value) : bool :=
  match a, b with
  | VStr x, VStr y => String.leb x y
  | VTime x, VTime y => Z.leb x y
  | _, _ =>
      match num_of a, num_of b with
      | Some x, Some y => Qle_bool x y
      | _, _ => Nat.leb (value_rank a) (value_rank b)
      end
  end.

Fixpoint insert_sorted (x : value) (l : list value) : list value :=
  match l with
  | [] => [x]
  | y :: l' => if value_leb x y then x :: l else y :: insert_sorted x l'
  end.

Definition sort_values (l : list value) : list value :=
  fold_right insert_sorted [] l.

(** First occurrences of each value, up to Python equality
    ([set(...)], [unique()]). *)
Fixpoint py_unique (l : list value) : list value :=
  match l with
  | [] => []
  | x :: l' => x :: filter (fun y => negb (py_eq x y)) (py_unique l')
  end.

(* ================================================================= *)
(** ** Exceptions and monads *)

Inductive exn : Type :=
| AssertionError (msg : string)
| KeyError (key : string)
| ValueError (msg : string)
| TypeError (msg : string)
| IndexError (msg : string)
| AttributeError (msg : string)
| UnboundLocalError (name : string)
| UnknownFeature (msg : string).

Inductive result (A : Type) : Type :=
| Ok (a : A)
| Err (e : exn).
Arguments Ok {A} a.
Arguments Err {A} e.

Definition bind {A B : Type} (r : result A) (k : A -> result B) : result B :=
  match r with
  | Ok a => k a
  | Err e => Err e
  end.

Declare Scope result_scope.
Delimit Scope result_scope with result.
Notation "x <- e ;; k" := (bind e (fun x => k))
  (at level 100, e at next level, right associativity) : result_scope.
Notation "' p <- e ;; k" := (bind e (fun p => k))
  (at level 100, p pattern, e at next level, right associativity)
  : result_scope.
Open Scope result_scope.

(** [assert cond, msg]. *)
Definition py_assert (cond : bool) (msg : string) : result unit :=
  if cond then Ok tt else Err (AssertionError msg).

Fixpoint mapM {A B : Type} (f : A -> result B) (l : list A)
  : result (list B) :=
  match l with
  | [] => Ok []
  | a :: l' => b <- f a ;; bs <- mapM f l' ;; Ok (b :: bs)
  end.

Fixpoint foldM {A S : Type} (f : S -> A -> result S) (l : list A) (s : S)
  : result S :=
  match l with
  | [] => Ok s
  | a :: l' => s' <- f s a ;; foldM f l' s'
  end.

(** [l[0]]. *)
Definition first {A : Type} (l : list A) : result A :=
  match l with
  | a :: _ => Ok a
  | [] => Err (IndexError "list index out of range")
  end.

(* ================================================================= *)
(** ** Python dictionaries

    Keys are strings throughout; insertion order is kept, and assigning to
    an existing key keeps its position. *)

Definition dict (V : Type) : Type := list (string * V).

Fixpoint dict_get {V : Type} (d : dict V) (k : string) : option V :=
  match d with
  | [] => None
  | (k', v) :: d' => if String.eqb k k' then Some v else dict_get d' k
  end.

Definition dict_mem {V : Type} (d : dict V) (k : string) : bool :=
  match dict_get d k with Some _ => true | None => false end.

Fixpoint dict_set {V : Type} (d : dict V) (k : string) (v : V) : dict V :=
  match d with
  | [] => [(k, v)]
  | (k', v') :: d' =>
      if String.eqb k k' then (k, v) :: d' else (k', v') :: dict_set d' k v
  end.

Definition dict_keys {V : Type} (d : dict V) : list string := map fst d.
Definition dict_values {V : Type} (d : dict V) : list V := map snd d.

(** [d[k]], raising [KeyError]. *)
Definition dict_item {V : Type} (d : dict V) (k : string) : result V :=
  match dict_get d k with
  | Some v => Ok v
  | None => Err (KeyError k)
  end.

Definition str_mem (s : string) (l : list string) : bool :=
  existsb (String.eqb s) l.

(** [len(set(l))] for a list of strings. *)
Definition count_distinct (l : list string) : nat :=
  List.length (nodup string_dec l).

(* ================================================================= *)
(** ** The pandas fragment used by the backend *)

Inductive dtype : Type :=
| Int64 | Float64 | BoolT | ObjectT | Category | Datetime64.

Definition dtype_eqb (a b : dtype) : bool :=
  match a, b with
  | Int64, Int64 | Float64, Float64 | BoolT, BoolT
  | ObjectT, ObjectT | Category, Category | Datetime64, Datetime64 => true
  | _, _ => false
  end.

(** [dtype.name], also what [format] prints for a dtype. *)
Definition dtype_name (d : dtype) : string :=
  match d with
  | Int64 => "int64"
  | Float64 => "float64"
  | BoolT => "bool"
  | ObjectT => "object"
  | Category => "category"
  | Datetime64 => "datetime64[ns]"
  end.

(** A column: its dtype and its cells, one per row. *)
Record Series : Type := mkSeries {
  s_dtype : dtype;
  s_values : list value
}.

(** The dtype pandas gives to a column built from a Python list. *)
Definition infer_dtype (vals : list value) : dtype :=
  match vals with
  | [] => ObjectT
  | _ =>
      if forallb (fun v => match v with VBool _ => true | _ => false end) vals
      then BoolT
      else if forallb (fun v => match v with VInt _ => true | _ => false end)
                      vals
      then Int64
      else if forallb (fun v => match v with
                                | VInt _ | VFloat _ | VNaN => true
                                | _ => false end) vals
      then Float64
      else if forallb (fun v => match v with
                                | VTime _ | VNaN => true
                                | _ => false end) vals
      then Datetime64
      else ObjectT
  end.

Definition series_of_list (vals : list value) : Series :=
  mkSeries (infer_dtype vals) vals.

(** A table: row labels and named columns (every column has one cell per
    row label). *)
Record DataFrame : Type := mkDataFrame {
  df_index_name : option string;
  df_index : list value;
  df_columns : dict Series
}.

(** [df.shape[0]]. *)
Definition nrows (df : DataFrame) : nat := List.length (df_index df).

(** [df.empty]: some axis has length zero. *)
Definition df_empty (df : DataFrame) : bool :=
  Nat.eqb (nrows df) 0 || Nat.eqb (List.length (df_columns df)) 0.

(** [name in df], [name in df.columns]. *)
Definition has_column (df : DataFrame) (name : string) : bool :=
  dict_mem (df_columns df) name.

(** [df[name]]. *)
Definition get_column (df : DataFrame) (name : string) : result Series :=
  dict_item (df_columns df) name.

Definition with_columns (df : DataFrame) (cols : dict Series) : DataFrame :=
  mkDataFrame (df_index_name df) (df_index df) cols.

Definition set_column (df : DataFrame) (name : string) (s : Series)
  : DataFrame :=
  with_columns df (dict_set (df_columns df) name s).

(** [df[name] = v] for a scalar [v]: broadcast to every row. *)
Definition assign_scalar (df : DataFrame) (name : string) (v : value)
  : DataFrame :=
  set_column df name (series_of_list (repeat v (nrows df))).

(** [df[name] = vals] for a list: one cell per row, or [ValueError]. *)
Definition assign_list (df : DataFrame) (name : string) (vals : list value)
  : result DataFrame :=
  if Nat.eqb (List.length vals) (nrows df)
  then Ok (set_column df name (series_of_list vals))
  else Err (ValueError "Length of values does not match length of index").

(** Keep the entries of [l] whose mask bit is set. *)
Fixpoint select {A : Type} (mask : list bool) (l : list A) : list A :=
  match mask, l with
  | b :: mask', a :: l' => if b then a :: select mask' l' else select mask' l'
  | _, _ => []
  end.

Definition map_columns (f : list value -> list value) (df : DataFrame)
  : dict Series :=
  map (fun c => (fst c, mkSeries (s_dtype (snd c)) (f (s_values (snd c)))))
      (df_columns df).

(** [df[mask]] for a boolean mask aligned with the rows. *)
Definition filter_rows (mask : list bool) (df : DataFrame) : DataFrame :=
  mkDataFrame (df_index_name df) (select mask (df_index df))
              (map_columns (select mask) df).

(** A column used as a boolean mask. *)
Definition bool_mask (s : Series) : result (list bool) :=
  mapM (fun v => match v with
                 | VBool b => Ok b
                 | _ => Err (ValueError
                          "cannot index with vector containing NA / NaN values")
                 end) (s_values s).

(** The cells of [l] at the positions [ps], in that order. *)
Definition take {A : Type} (d : A) (ps : list nat) (l : list A) : list A :=
  map (fun p => nth p l d) ps.

(** [df.iloc[ps]]. *)
Definition take_rows (ps : list nat) (df : DataFrame) : DataFrame :=
  mkDataFrame (df_index_name df) (take VNaN ps (df_index df))
              (map_columns (take VNaN ps) df).

(** [l[-n:]]: the last [n] entries for a positive [n]; Python reads [-0] as
    [0], so [n = 0] keeps everything, and a negative [n] drops the first
    [-n] entries. *)
Definition iloc_last {A : Type} (n : Z) (l : list A) : list A :=
  if (0 <? n)%Z then skipn (List.length l - Z.to_nat n) l
  else skipn (Z.to_nat (- n)) l.

(** Group keys of [groupby]: the distinct non-missing values, sorted. *)
Definition group_keys (keys : list value) : list value :=
  sort_values (py_unique (filter (fun k => py_eq k k) keys)).

(** Row positions of the group of key [k], in row order. *)
Definition group_positions (keys : list value) (k : value) : list nat :=
  filter (fun p => py_eq (nth p keys VNaN) k) (seq 0 (List.length keys)).

(** Row positions kept by [groupby(...).apply(lambda g: g.iloc[-n:])],
    each with the key of its group. *)
Definition last_n_positions (n : Z) (keys : list value)
  : list (value * nat) :=
  flat_map (fun k => map (fun p => (k, p))
                         (iloc_last n (group_positions keys k)))
           (group_keys keys).

(** [df.groupby(by).apply(last_n)]: the kept rows, group after group, under
    a two-level row label (group key, old label). *)
Definition groupby_apply_last_n (n : Z) (by_ : string) (df : DataFrame)
  : result DataFrame :=
  s <- get_column df by_ ;;
  let kps := last_n_positions n (s_values s) in
  let sub := take_rows (map snd kps) df in
  Ok (mkDataFrame None
        (map (fun kp => VSeq [fst kp; nth (snd kp) (df_index df) VNaN]) kps)
        (df_columns sub)).

(** [s.astype(object)] keeps the cells and boxes them; pandas signals an
    impossible conversion with [ValueError].  Which columns it rejects is
    pandas' business: [rejects] is that test. *)
Definition astype_object (rejects : Series -> bool) (s : Series)
  : result Series :=
  if rejects s then Err (ValueError "astype") else
  Ok (mkSeries ObjectT (s_values s)).

(** [float(v)], as [astype(float)] applies it to one cell: a number or
    a boolean gives its float and a missing cell stays missing; a string
    is parsed as Python's [float] parses it ([parse] is that parser,
    [None] where it raises [ValueError]); a list is refused with
    [ValueError] and a timestamp with [TypeError]. *)
Definition float_cell (parse : string -> option value) (v : value)
  : result value :=
  match v with
  | VNaN => Ok VNaN
  | VSeq _ => Err (ValueError "could not convert to float")
  | VStr x =>
      match parse x with
      | Some r => Ok r
      | None => Err (ValueError "could not convert to float")
      end
  | VTime _ =>
      Err (TypeError "float() argument must be a string or a number")
  | _ => match num_of v with
         | Some q => Ok (VFloat q)
         | None => Ok VNaN
         end
  end.

(** [s.astype(float)]. *)
Definition astype_float (parse : string -> option value) (s : Series)
  : result Series :=
  vals <- mapM (float_cell parse) (s_values s) ;;
  Ok (mkSeries Float64 vals).

(** [df.rename(columns=m)]. *)
Definition rename_columns (m : dict string) (df : DataFrame) : DataFrame :=
  with_columns df
    (map (fun c => (match dict_get m (fst c) with
                    | Some n => n
                    | None => fst c
                    end, snd c)) (df_columns df)).

(** [df[names]] for a list of names. *)
Definition select_columns (df : DataFrame) (names : list string)
  : result DataFrame :=
  cols <- mapM (fun n => s <- get_column df n ;; Ok (n, s)) names ;;
  Ok (with_columns df cols).

(** [df.set_index(name, drop=drop)]. *)
Definition set_index (df : DataFrame) (name : string) (drop : bool)
  : result DataFrame :=
  s <- get_column df name ;;
  Ok (mkDataFrame (Some name) (s_values s)
        (if drop
         then filter (fun c => negb (String.eqb (fst c) name)) (df_columns df)
         else df_columns df)).

(** Positions of [labels] whose label matches the join key [k]. *)
Definition key_positions (k : value) (labels : list value) : list nat :=
  filter (fun j => key_match k (nth j labels VNaN))
         (seq 0 (List.length labels)).

(** Row pairing of a left join: every left row, in order, with each
    matching right row, or with no right row when nothing matches. *)
Definition left_join_pairs (keys labels : list value)
  : list (nat * option nat) :=
  flat_map (fun i =>
              match key_positions (nth i keys VNaN) labels with
              | [] => [(i, None)]
              | js => map (fun j => (i, Some j)) js
              end)
           (seq 0 (List.length keys)).

(** Row pairing of an inner join. *)
Definition inner_join_pairs (keys labels : list value)
  : list (nat * option nat) :=
  flat_map (fun i => map (fun j => (i, Some j))
                         (key_positions (nth i keys VNaN) labels))
           (seq 0 (List.length keys)).

(** Cells of a right-hand column along a pairing; a missing partner leaves
    the cell missing. *)
Definition take_opt (ps : list (option nat)) (vals : list value)
  : list value :=
  map (fun p => match p with
                | Some j => nth j vals VNaN
                | None => VNaN
                end) ps.

Definition all_paired (ps : list (option nat)) : bool :=
  forallb (fun p => match p with Some _ => true | None => false end) ps.

(** pandas renames columns present on both sides of a merge. *)
Definition suffixed (other : list string) (sfx : string) (cols : dict Series)
  : dict Series :=
  map (fun c => (if str_mem (fst c) other
                 then String.append (fst c) sfx else fst c,
                 snd c)) cols.

Definition merged_frame (left right : DataFrame)
  (pairs : list (nat * option nat)) : DataFrame :=
  let lrows := take_rows (map fst pairs) left in
  let rps := map snd pairs in
  let rcols :=
    map (fun c =>
           let vals := take_opt rps (s_values (snd c)) in
           (fst c, mkSeries (if all_paired rps then s_dtype (snd c)
                             else infer_dtype vals) vals))
        (df_columns right) in
  mkDataFrame (df_index_name left) (df_index lrows)
    (suffixed (dict_keys (df_columns right)) "_x" (df_columns lrows) ++
     suffixed (dict_keys (df_columns left)) "_y" rcols).

(** [pd.merge(left, right, left_on=key, right_index=True, how='left')]. *)
Definition merge_left_on (left right : DataFrame) (key : string)
  : result DataFrame :=
  ks <- get_column left key ;;
  Ok (merged_frame left right
        (left_join_pairs (s_values ks) (df_index right))).

(** [pd.merge(left, right, left_index=True, right_index=True)]. *)
Definition merge_on_index (left right : DataFrame) : DataFrame :=
  merged_frame left right (inner_join_pairs (df_index left) (df_index right)).

(** Two columns stacked; the dtype stays when both agree. *)
Definition joined_series (a b : Series) : Series :=
  let vals := s_values a ++ s_values b in
  mkSeries (if dtype_eqb (s_dtype a) (s_dtype b) then s_dtype a
            else infer_dtype vals) vals.

(** The column of a table that lacks it: [n] missing cells. *)
Definition absent_series (n : nat) : Series :=
  mkSeries ObjectT (repeat VNaN n).

(** [df.append(other)]: the rows of both, over the union of the columns. *)
Definition append (df other : DataFrame) : DataFrame :=
  mkDataFrame (df_index_name df) (df_index df ++ df_index other)
    (map (fun c =>
            (fst c,
             joined_series (snd c)
               (match dict_get (df_columns other) (fst c) with
                | Some s => s
                | None => absent_series (nrows other)
                end))) (df_columns df) ++
     map (fun c => (fst c, joined_series (absent_series (nrows df)) (snd c)))
         (filter (fun c => negb (has_column df (fst c)))
                 (df_columns other))).

(** [pd.DataFrame(matrix, columns=cols, index=labels)] from a list of
    rows. *)
Definition frame_of_rows (matrix : list (list value)) (cols : list string)
  (labels : list value) : DataFrame :=
  mkDataFrame None labels
    (map (fun jc => (snd jc,
                     series_of_list (map (fun row => nth (fst jc) row VNaN)
                                         matrix)))
         (combine (seq 0 (List.length cols)) cols)).

(** [df.fillna(d)]: in the columns named by [d], missing cells get the
    value [d] gives. *)
Definition fillna (d : dict value) (df : DataFrame) : DataFrame :=
  with_columns df
    (map (fun c =>
            match dict_get d (fst c) with
            | Some v =>
                (fst c,
                 series_of_list
                   (map (fun x => if isnull x then v else x)
                        (s_values (snd c))))
            | None => c
            end) (df_columns df)).

(** [df.at[label, name] = v]. *)
Definition set_at (df : DataFrame) (label : value) (name : string)
  (v : value) : result DataFrame :=
  s <- get_column df name ;;
  Ok (set_column df name
        (series_of_list
           (map (fun lx => if key_match label (fst lx) then v else snd lx)
                (combine (df_index df) (s_values s))))).

(** The rows of one group. *)
Definition group_frame (keys : list value) (k : value) (df : DataFrame)
  : DataFrame :=
  take_rows (group_positions keys k) df.

(** [df.groupby(keys).apply(wrap)] for a [wrap] that returns a table: the
    tables of all groups stacked, each row labelled (group key, its label
    in the table [wrap] returned). *)
Definition groupby_apply (wrap : DataFrame -> result DataFrame)
  (keys : list value) (df : DataFrame) : result DataFrame :=
  foldM (fun acc k =>
           g <- wrap (group_frame keys k df) ;;
           Ok (append acc
                 (mkDataFrame None
                    (map (fun l => VSeq [k; l]) (df_index g))
                    (df_columns g))))
        (group_keys keys)
        (mkDataFrame None [] []).

(** [df.reset_index(1, drop=True)] on a two-level row index. *)
Definition reset_index_level1 (df : DataFrame) : result DataFrame :=
  labels <- mapM (fun l => match l with
                           | VSeq [k; _] => Ok k
                           | _ => Err (IndexError "Too many levels")
                           end) (df_index df) ;;
  Ok (mkDataFrame None labels (df_columns df)).

(** A function given a [__name__]. *)
Definition named_func : Type := (string * (list value -> value))%type.

(** [df.groupby(keys).agg(to_agg)] for a dictionary from column names to
    lists of named functions: one row per group, one column per (column,
    function name). *)
Definition groupby_agg (to_agg : dict (list named_func))
  (keys : list value) (df : DataFrame)
  : result (list value * list ((string * string) * Series)) :=
  cols <- mapM (fun cf =>
                  s <- get_column df (fst cf) ;;
                  Ok (map (fun nf =>
                             ((fst cf, fst nf),
                              series_of_list
                                (map (fun k =>
                                        snd nf
                                          (take VNaN (group_positions keys k)
                                                (s_values s)))
                                     (group_keys keys))))
                          (snd cf)))
               to_agg ;;
  Ok (group_keys keys, List.concat cols).

(* ================================================================= *)
(** ** Entities, features and the external services *)

(** Cutoff times and time-index cells share one clock, counted in [Z]. *)
Definition time : Type := Z.

Record Entity : Type := mkEntity {
  e_id : string;
  e_index : string;
  e_time_index : option string
}.

(** A "use previous" window: [is_absolute()] tells a duration from a number
    of observations; [value] is the duration or the count. *)
Record Timedelta : Type := mkTimedelta {
  is_absolute : bool;
  td_value : Z
}.

Inductive variable_type_t : Type :=
| Numeric | Boolean | Categorical | Datetime | Text | Id.

Definition is_numeric (t : variable_type_t) : bool :=
  match t with Numeric => true | _ => false end.

(** The classes the dispatcher tells apart with [isinstance]. *)
Inductive feature_class : Type :=
| TransformPrimitive
| DirectFeature
| AggregationPrimitive
| IdentityFeature
| OtherClass (class_name : string).

(** A feature object, with the attributes the backend reads.  An attribute
    a class does not have is [None]. *)
Inductive feature : Type := mkFeature {
  f_class : feature_class;
  get_name : string;
  entity : Entity;
  parent_entity : option Entity;
  base_features : list feature;
  where_ : option feature;
  use_previous : option Timedelta;
  default_value : value;
  get_function : list (list value) -> option time -> value;
  uses_calc_time : bool;
  expanding : bool;
  variable_type : variable_type_t
}.

(** One hop of a relationship path; the variables are given by their ids. *)
Record Relationship : Type := mkRelationship {
  parent_entity_id : string;
  parent_variable : string;
  child_entity_id : string;
  child_variable : string
}.

(** The dependency-order service ([FeatureTree]). *)
Record FeatureTree : Type := mkFeatureTree {
  ordered_entities : list string;
  ordered_feature_groups : dict (list (list feature))
}.

(** Tables are objects: the store holds them and dictionaries refer to
    them by position, so that a table reachable from two dictionaries is
    one table.  The store also counts the UUIDs drawn so far. *)
Record world : Type := mkWorld {
  heap : list DataFrame;
  uuid_count : nat
}.

Definition M (A : Type) : Type := world -> result (A * world).

Definition ret {A : Type} (a : A) : M A := fun w => Ok (a, w).

Definition bindM {A B : Type} (m : M A) (k : A -> M B) : M B :=
  fun w => match m w with
           | Ok (a, w') => k a w'
           | Err e => Err e
           end.

Definition lift {A : Type} (r : result A) : M A :=
  fun w => match r with
           | Ok a => Ok (a, w)
           | Err e => Err e
           end.

Declare Scope world_scope.
Delimit Scope world_scope with world.
Notation "x <~ e ;; k" := (bindM e (fun x => k))
  (at level 100, e at next level, right associativity) : world_scope.
Notation "' p <~ e ;; k" := (bindM e (fun p => k))
  (at level 100, p pattern, e at next level, right associativity)
  : world_scope.
Notation "e ;;; k" := (bindM e (fun _ => k))
  (at level 100, right associativity) : world_scope.

Definition read (l : nat) : M DataFrame :=
  fun w => match nth_error (heap w) l with
           | Some df => Ok (df, w)
           | None => Err (KeyError "no such table")
           end.

Fixpoint replace_nth {A : Type} (n : nat) (a : A) (l : list A) : list A :=
  match n, l with
  | O, _ :: l' => a :: l'
  | S n', x :: l' => x :: replace_nth n' a l'
  | _, [] => []
  end.

Definition write (l : nat) (df : DataFrame) : M unit :=
  fun w => Ok (tt, mkWorld (replace_nth l df (heap w)) (uuid_count w)).

Definition alloc (df : DataFrame) : M nat :=
  fun w => Ok (List.length (heap w),
               mkWorld (heap w ++ [df]) (uuid_count w)).

Fixpoint foldW {A S : Type} (f : S -> A -> M S) (l : list A) (s : S)
  : M S :=
  match l with
  | [] => ret s
  | a :: l' => bindM (f s a) (fun s' => foldW f l' s')
  end.

Definition forW {A : Type} (f : A -> M unit) (l : list A) : M unit :=
  foldW (fun _ a => f a) l tt.

(** The tables visible while one filter entity is processed, by entity
    id. *)
Definition entity_frames_t : Type := dict nat.

(** The entity set, as far as the backend consults it. *)
Record EntitySet : Type := mkEntitySet {
  es_entity : string -> result Entity;
  find_forward_path : string -> string -> option (list Relationship);
  find_backward_path : string -> string -> option (list Relationship);
  get_pandas_data_slice :
    list string -> string -> list value -> option time -> option Z ->
    M (option (dict entity_frames_t))
}.

(** What the module takes from outside the class: the link-variable
    naming of [Relationship], the feature-tree constructor, the clock,
    [uuid.uuid1], pandas' decision to refuse a boxing conversion and
    Python's reading of a string as a float. *)
Record Externals : Type := mkExternals {
  _get_link_variable_name : list Relationship -> string;
  make_feature_tree :
    EntitySet -> list feature -> option (list string) -> FeatureTree;
  datetime_now : time;
  uuid1 : nat -> string;
  astype_object_rejects : Series -> bool;
  float_of_str : string -> option value
}.

(** [self].  [time_last] is unset until [calculate_all_features] assigns
    it ([instance_ids], assigned there too, is never read back). *)
Record PandasBackend : Type := mkPandasBackend {
  entityset : EntitySet;
  target_eid : string;
  features : list feature;
  feature_tree : FeatureTree;
  time_last : option time
}.

(* ================================================================= *)
(** ** The backend *)

Open Scope world_scope.

Section Backend.

Variable ext : Externals.

(** [PandasBackend.__init__]. *)
Definition PandasBackend_init (es : EntitySet) (feats : list feature)
  : result PandasBackend :=
  _ <- py_assert
         (Nat.eqb (count_distinct (map (fun f => e_id (entity f)) feats)) 1)
         "Features must all be defined on the same entity" ;;
  f0 <- first feats ;;
  Ok (mkPandasBackend es (e_id (entity f0)) feats
        (make_feature_tree ext es feats None) None).

(** [self.time_last], once assigned. *)
Definition self_time_last (self : PandasBackend) : result time :=
  match time_last self with
  | Some t => Ok t
  | None => Err (AttributeError "time_last")
  end.

(** Module-level [set_default_column(frame, f)], on the table's value. *)
Definition set_default_column (frame : DataFrame) (f : feature)
  : result DataFrame :=
  let default := default_value f in
  if has_iter default then
    let l := nrows frame in
    assign_list frame (get_name f) (repeat (default_value f) l)
  else
    Ok (assign_scalar frame (get_name f) default).

(** The same, on the table object at [loc]. *)
Definition set_default_column_at (loc : nat) (f : feature) : M unit :=
  frame <~ read loc ;;
  frame' <~ lift (set_default_column frame f) ;;
  write loc frame'.

(** [generate_default_df]. *)
Definition generate_default_df (self : PandasBackend)
  (instance_ids : list value) (extra_columns : option (list string))
  : result DataFrame :=
  f0 <- first (features self) ;;
  let index_name := e_index (entity f0) in
  let default_row := map default_value (features self) in
  let default_cols := map get_name (features self) in
  let default_matrix := repeat default_row (List.length instance_ids) in
  let default_df := frame_of_rows default_matrix default_cols instance_ids in
  let default_df :=
    mkDataFrame (Some index_name) (df_index default_df)
                (df_columns default_df) in
  match extra_columns with
  | None => Ok default_df
  | Some cols =>
      foldM (fun df c =>
               if negb (has_column df c)
               then assign_list df c
                      (repeat VNaN (List.length instance_ids))
               else Ok df)
            cols default_df
  end.

(** [_calculate_identity_features]. *)
Definition _calculate_identity_features (self : PandasBackend)
  (feats : list feature) (entity_frames : entity_frames_t)
  : M entity_frames_t :=
  f0 <~ lift (first feats) ;;
  let entity_id := e_id (entity f0) in
  match dict_get entity_frames entity_id with
  | None => lift (Err (AssertionError ""))
  | Some loc =>
      frame <~ read loc ;;
      lift (py_assert (has_column frame (get_name f0)) "") ;;;
      ret entity_frames
  end.

(** [list(values)] on what a feature function returned. *)
Definition py_list (v : value) : result (list value) :=
  match v with
  | VSeq l => Ok l
  | VStr s => Ok (map (fun c => VStr (String c EmptyString))
                      (list_ascii_of_string s))
  | _ => Err (TypeError "object is not iterable")
  end.

(** One turn of the loop of [_calculate_transform_features], on the
    table's value. *)
Definition transform_step (self : PandasBackend) (frame : DataFrame)
  (f : feature) : result DataFrame :=
  if Nat.eqb (nrows frame) 0 then set_default_column frame f
  else
    variable_data <-
      mapM (fun bf => s <- get_column frame (get_name bf) ;;
                      Ok (s_values s))
           (base_features f) ;;
    let feature_func := get_function f in
    values <-
      (if uses_calc_time f
       then t <- self_time_last self ;;
            Ok (feature_func variable_data (Some t))
       else Ok (feature_func variable_data None)) ;;
    vals <- py_list values ;;
    assign_list frame (get_name f) vals.

(** [_calculate_transform_features]: every feature of the group adds its
    column to the one table object of the owning entity. *)
Definition _calculate_transform_features (self : PandasBackend)
  (feats : list feature) (entity_frames : entity_frames_t)
  : M entity_frames_t :=
  f0 <~ lift (first feats) ;;
  let entity_id := e_id (entity f0) in
  lift (py_assert
          (Nat.eqb (count_distinct (map (fun f => e_id (entity f)) feats))
                   1)
          "features must share base entity") ;;;
  lift (py_assert (dict_mem entity_frames entity_id) "") ;;;
  loc <~ lift (dict_item entity_frames entity_id) ;;
  forW (fun f =>
          frame <~ read loc ;;
          frame' <~ lift (transform_step self frame f) ;;
          write loc frame')
       feats ;;;
  ret (dict_set entity_frames entity_id loc).

(** The loop of [_calculate_direct_features] that builds [col_map] and
    finds the feature defined on the parent's join key. *)
Definition direct_col_map (child_df : DataFrame) (parent_var : string)
  (merge_var : string) (feats : list feature)
  : result (dict string * option feature) :=
  foldM (fun acc f =>
           bf0 <- first (base_features f) ;;
           let index_as_feature :=
             if String.eqb (get_name bf0) parent_var
             then Some f else snd acc in
           if has_column child_df (get_name f)
           then Ok (fst acc, index_as_feature)
           else Ok (dict_set (fst acc) (get_name bf0) (get_name f),
                    index_as_feature))
        feats
        ([(parent_var, merge_var)], None).

(** Lines 287-292: the slice of the parent table that is joined onto the
    child table. *)
Definition direct_merge_df (parent_df : DataFrame) (col_map : dict string)
  (index_as_feature : option feature) (merge_var : string)
  : result DataFrame :=
  sel <- select_columns parent_df (dict_keys col_map) ;;
  let merge_df := rename_columns col_map sel in
  match index_as_feature with
  | Some f => set_index merge_df (get_name f) false
  | None => set_index merge_df merge_var true
  end.

(** [_calculate_direct_features]. *)
Definition _calculate_direct_features (self : PandasBackend)
  (feats : list feature) (entity_frames : entity_frames_t)
  : M entity_frames_t :=
  f0 <~ lift (first feats) ;;
  let entity_id := e_id (entity f0) in
  parent <~ lift (match parent_entity f0 with
                  | Some p => Ok p
                  | None => Err (AttributeError "parent_entity")
                  end) ;;
  let parent_entity_id := e_id parent in
  lift (py_assert (dict_mem entity_frames entity_id &&
                   dict_mem entity_frames parent_entity_id) "") ;;;
  path <~ lift (match find_forward_path (entityset self)
                        entity_id parent_entity_id with
                | Some p => Ok p
                | None => Err (TypeError
                            "object of type 'NoneType' has no len()")
                end) ;;
  lift (py_assert (Nat.eqb (List.length path) 1)
          "Error calculating DirectFeatures, len(path) > 1") ;;;
  ploc <~ lift (dict_item entity_frames parent_entity_id) ;;
  parent_df <~ read ploc ;;
  cloc <~ lift (dict_item entity_frames entity_id) ;;
  child_df <~ read cloc ;;
  hop <~ lift (first path) ;;
  let merge_var := child_variable hop in
  '(col_map, index_as_feature) <~
    lift (direct_col_map child_df (parent_variable hop) merge_var feats) ;;
  merge_df <~ lift (direct_merge_df parent_df col_map index_as_feature
                      merge_var) ;;
  new_df <~ lift (merge_left_on child_df merge_df merge_var) ;;
  nloc <~ alloc new_df ;;
  ret (dict_set entity_frames entity_id nloc).

(** Module-level [check_no_related_instances]: the two loops, with the
    [break] out of the inner one. *)
Fixpoint related_scan (s : value) (set_base_frame : list value)
  (some_instances : bool) : bool :=
  match set_base_frame with
  | [] => some_instances
  | b :: rest =>
      if py_eq s b then true else related_scan s rest some_instances
  end.

Definition check_no_related_instances (array1 array2 : list value)
  : bool :=
  let set_frame := py_unique array1 in
  let set_base_frame := py_unique array2 in
  let some_instances :=
    fold_left (fun some s => related_scan s set_base_frame some)
              set_frame false in
  negb some_instances.

(** Equality of feature objects (by name and owning entity). *)
Definition feature_eqb (f g : feature) : bool :=
  String.eqb (get_name f) (get_name g) &&
  String.eqb (e_id (entity f)) (e_id (entity g)).

(** Module-level [_can_agg]. *)
Definition _can_agg (f : feature) : result bool :=
  _ <- py_assert (match f_class f with
                  | AggregationPrimitive => true
                  | _ => false
                  end) "" ;;
  let n_base_features :=
    match where_ f with
    | Some w =>
        List.length
          (filter (fun bf => negb (String.eqb (get_name bf) (get_name w)))
                  (base_features f))
    | None => List.length (base_features f)
    end in
  if uses_calc_time f then Ok false
  else Ok (Nat.eqb n_base_features 1 && negb (expanding f)).

(** Module-level [agg_wrapper(feats, time_last)]: the function applied to
    the rows of each group, returning a one-row table. *)
Definition agg_wrapper (feats : list feature) (t_last : time)
  (df : DataFrame) : result DataFrame :=
  d <- foldM (fun d f =>
                let func := get_function f in
                let variable_ids := map get_name (base_features f) in
                args <- mapM (fun v => s <- get_column df v ;;
                                       Ok (s_values s)) variable_ids ;;
                if uses_calc_time f
                then Ok (dict_set d (get_name f) (func args (Some t_last)))
                else Ok (dict_set d (get_name f) (func args None)))
             feats [] ;;
  Ok (mkDataFrame None [VInt 0]
        (map (fun kv => (fst kv, series_of_list [snd kv])) d)).

(** Lines 321-323: the where clause. *)
Definition agg_where (where' : option feature) (base_frame : DataFrame)
  : result DataFrame :=
  match where' with
  | Some w =>
      s <- get_column base_frame (get_name w) ;;
      mask <- bool_mask s ;;
      Ok (filter_rows mask base_frame)
  | None => Ok base_frame
  end.

(** [column >= time_first], cell by cell: a cell that is not a timestamp
    is after no time. *)
Definition time_ge (time_first : time) (v : value) : bool :=
  match v with
  | VTime t => (time_first <=? t)%Z
  | _ => false
  end.

(** Lines 330-346: the "use previous" window. *)
Definition agg_use_previous (self : PandasBackend) (child_entity : Entity)
  (groupby_var : string) (use_prev : option Timedelta)
  (base_frame : DataFrame) : result DataFrame :=
  match use_prev with
  | Some up =>
      if negb (df_empty base_frame) then
        t_last <- self_time_last self ;;
        if is_absolute up then
          let time_first := (t_last - td_value up)%Z in
          match e_time_index child_entity with
          | Some ti =>
              s <- get_column base_frame ti ;;
              Ok (filter_rows (map (time_ge time_first) (s_values s))
                              base_frame)
          | None => Ok base_frame
          end
        else
          let n := td_value up in
          groupby_apply_last_n n groupby_var base_frame
      else Ok base_frame
  | None => Ok base_frame
  end.

(** [dtype.name.find('category') > -1]. *)
Definition is_category (d : dtype) : bool :=
  match d with Category => true | _ => false end.

Definition join_error_message (ent : Entity) (index_var : string)
  (d1 : dtype) (child_entity : Entity) (groupby_var : string) (d2 : dtype)
  : string :=
  String.concat ""
    ["Could not join "; e_id ent; "."; index_var;
     " (dtype="; dtype_name d1; ") with ";
     e_id child_entity; "."; groupby_var;
     " (dtype="; dtype_name d2; ")"].

(** [try: ... except ValueError: handler]. *)
Definition except_ValueError {A : Type} (body handler : result A)
  : result A :=
  match body with
  | Err (ValueError _) => handler
  | _ => body
  end.

(** Lines 348-370: the local [no_instances].  [None] is the local left
    unassigned. *)
Definition agg_no_instances (ent child_entity : Entity)
  (groupby_var : string) (frame base_frame : DataFrame)
  : result (option bool) :=
  let index_var := e_index ent in
  if negb (df_empty base_frame) then
    if negb (has_column base_frame groupby_var) then Ok (Some true)
    else
      fi <- get_column frame index_var ;;
      bg <- get_column base_frame groupby_var ;;
      if negb (dtype_eqb (s_dtype fi) (s_dtype bg)) ||
         is_category (s_dtype fi)
      then
        '(frame_as_obj, base_frame_as_obj) <-
          except_ValueError
            (a <- astype_object (astype_object_rejects ext) fi ;;
             b <- astype_object (astype_object_rejects ext) bg ;;
             Ok (a, b))
            (Err (ValueError
                    (join_error_message ent index_var (s_dtype fi)
                       child_entity groupby_var (s_dtype bg)))) ;;
        Ok (Some (check_no_related_instances (s_values frame_as_obj)
                    (s_values base_frame_as_obj)))
      else
        Ok (Some (check_no_related_instances (s_values fi) (s_values bg)))
  else Ok None.

(** Reading a local variable: unassigned, it raises. *)
Definition read_local {A : Type} (name : string) (x : option A)
  : result A :=
  match x with
  | Some a => Ok a
  | None => Err (UnboundLocalError name)
  end.

(** Line 372, [base_frame.empty or no_instances]: [or] evaluates its
    right operand only when the left one is false. *)
Definition agg_no_data (base_frame : DataFrame)
  (no_instances : option bool) : result bool :=
  if df_empty base_frame then Ok true
  else read_local "no_instances" no_instances.

(** [str(uuid.uuid1())]. *)
Definition fresh_uuid : M string :=
  fun w => Ok (uuid1 ext (uuid_count w),
               mkWorld (heap w) (S (uuid_count w))).

(** The three collections filled by the partition loop (lines 384-404);
    [to_apply] is a set, kept here in insertion order. *)
Record agg_buckets : Type := mkBuckets {
  to_agg : dict (list named_func);
  agg_rename : dict string;
  to_apply : list feature
}.

(** [u"{}-{}".format(n1, n2)]. *)
Definition dash (n1 n2 : string) : string :=
  String.append n1 (String.append "-" n2).

(** [wrap_func_with_name(func, name)] for a one-column function. *)
Definition wrap_func_with_name (func : list (list value) -> option time
                                       -> value)
  (name : string) : named_func :=
  (name, fun x => func [x] None).

(** One turn of the partition loop. *)
Definition agg_partition_step (b : agg_buckets) (f : feature)
  : M agg_buckets :=
  can <~ lift (_can_agg f) ;;
  if can then
    bf0 <~ lift (first (base_features f)) ;;
    let variable_id := get_name bf0 in
    let to_agg0 :=
      if negb (dict_mem (to_agg b) variable_id)
      then dict_set (to_agg b) variable_id []
      else to_agg b in
    let func := get_function f in
    random_id <~ fresh_uuid ;;
    let func := wrap_func_with_name func random_id in
    let funcname := random_id in
    let funcs := match dict_get to_agg0 variable_id with
                 | Some l => l
                 | None => []
                 end in
    ret (mkBuckets
           (dict_set to_agg0 variable_id (funcs ++ [func]))
           (dict_set (agg_rename b) (dash variable_id funcname)
                     (get_name f))
           (to_apply b))
  else
    ret (mkBuckets (to_agg b) (agg_rename b)
           (if existsb (feature_eqb f) (to_apply b) then to_apply b
            else to_apply b ++ [f])).

Definition agg_partition (feats : list feature) : M agg_buckets :=
  foldW agg_partition_step feats (mkBuckets [] [] []).

(** Lines 406-418: the complex bucket, applied group by group and joined
    onto the parent table. *)
Definition agg_apply_bucket (self : PandasBackend) (b : agg_buckets)
  (index_var groupby_var : string) (frame base_frame : DataFrame)
  : result DataFrame :=
  if negb (Nat.eqb (List.length (to_apply b)) 0) then
    t_last <- self_time_last self ;;
    let wrap := agg_wrapper (to_apply b) t_last in
    by_ <- get_column base_frame groupby_var ;;
    to_merge <- groupby_apply wrap (s_values by_) base_frame ;;
    to_merge <- reset_index_level1 to_merge ;;
    merge_left_on frame to_merge index_var
  else Ok frame.

(** Lines 420-441: the simple bucket, through the grouped aggregation. *)
Definition agg_agg_bucket (b : agg_buckets)
  (index_var groupby_var : string) (frame base_frame : DataFrame)
  : result DataFrame :=
  if negb (Nat.eqb (List.length (to_agg b)) 0) then
    by_ <- get_column base_frame groupby_var ;;
    '(keys, cols) <- groupby_agg (to_agg b) (s_values by_) base_frame ;;
    let to_merge :=
      mkDataFrame (Some groupby_var) keys
        (map (fun c => (dash (fst (fst c)) (snd (fst c)), snd c)) cols) in
    let to_merge := rename_columns (agg_rename b) to_merge in
    let variables := dict_values (agg_rename b) in
    to_merge <- select_columns to_merge variables ;;
    merge_left_on frame to_merge index_var
  else Ok frame.

(** Lines 443-455: default values for the cells the joins left missing. *)
Definition agg_fill_defaults (feats : list feature) (frame : DataFrame)
  : result DataFrame :=
  let iterfeats := filter (fun f => has_iter (default_value f)) feats in
  frame <-
    foldM (fun frame f =>
             s <- get_column frame (get_name f) ;;
             let nulls :=
               select (map isnull (s_values s)) (df_index frame) in
             foldM (fun frame ni =>
                      set_at frame ni (get_name f) (default_value f))
                   nulls frame)
          iterfeats frame ;;
  let fillna_dict :=
    fold_left (fun d f => dict_set d (get_name f) (default_value f))
              (filter (fun f => negb (existsb (feature_eqb f) iterfeats))
                      feats)
              [] in
  Ok (fillna fillna_dict frame).

(** Lines 457-462: numeric columns held as objects or booleans become
    floats. *)
Definition agg_float_columns (feats : list feature) (frame : DataFrame)
  : result DataFrame :=
  foldM (fun frame f =>
           if negb (expanding f) && is_numeric (variable_type f) then
             s <- get_column frame (get_name f) ;;
             if str_mem (dtype_name (s_dtype s)) ["object"; "bool"] then
               s' <- astype_float (float_of_str ext) s ;;
               Ok (set_column frame (get_name f) s')
             else Ok frame
           else Ok frame)
        feats frame.

(** What lines 301-346 of [_calculate_agg_features] leave in the local
    variables. *)
Record agg_locals : Type := mkAggLocals {
  l_entity : Entity;
  l_child_entity : Entity;
  l_loc : nat;
  l_frame : DataFrame;
  l_features : list feature;
  l_groupby_var : string;
  l_base_frame : DataFrame
}.

(** Lines 301-346: the locals, the features still to compute, and the
    child rows after the where clause and the window.  [None] is the
    early [return] of line 319. *)
Definition agg_setup (self : PandasBackend) (feats : list feature)
  (entity_frames : entity_frames_t) : M (option agg_locals) :=
  test_feature <~ lift (first feats) ;;
  let use_prev := use_previous test_feature in
  let base_feats := base_features test_feature in
  let where' := where_ test_feature in
  let ent := entity test_feature in
  bf0 <~ lift (first base_feats) ;;
  let child_entity := entity bf0 in
  lift (py_assert (dict_mem entity_frames (e_id ent) &&
                   dict_mem entity_frames (e_id child_entity)) "") ;;;
  loc <~ lift (dict_item entity_frames (e_id ent)) ;;
  frame <~ read loc ;;
  bloc <~ lift (dict_item entity_frames (e_id child_entity)) ;;
  base_frame <~ read bloc ;;
  let feats := filter (fun f => negb (has_column frame (get_name f)))
                      feats in
  if Nat.eqb (List.length feats) 0 then ret None else
  base_frame <~ lift (agg_where where' base_frame) ;;
  relationship_path <~
    lift (match find_backward_path (entityset self)
                  (e_id ent) (e_id child_entity) with
          | Some p => Ok p
          | None => Err (TypeError "'NoneType' object is not subscriptable")
          end) ;;
  let groupby_var := _get_link_variable_name ext relationship_path in
  base_frame <~ lift (agg_use_previous self child_entity groupby_var
                        use_prev base_frame) ;;
  ret (Some (mkAggLocals ent child_entity loc frame feats groupby_var
               base_frame)).

(** Lines 372-376: every remaining feature gets its default column on
    the parent's table object. *)
Definition agg_write_defaults (loc : nat) (feats : list feature)
  : M unit :=
  forW (fun f => set_default_column_at loc f) feats.

(** Lines 378-464: the aggregates proper. *)
Definition agg_compute (self : PandasBackend) (c : agg_locals)
  (entity_frames : entity_frames_t) : M entity_frames_t :=
  let index_var := e_index (l_entity c) in
  b <~ agg_partition (l_features c) ;;
  frame <~ lift (agg_apply_bucket self b index_var (l_groupby_var c)
                   (l_frame c) (l_base_frame c)) ;;
  frame <~ lift (agg_agg_bucket b index_var (l_groupby_var c)
                   frame (l_base_frame c)) ;;
  frame <~ lift (agg_fill_defaults (l_features c) frame) ;;
  frame <~ lift (agg_float_columns (l_features c) frame) ;;
  if Nat.eqb (List.length (to_apply b)) 0 &&
     Nat.eqb (List.length (to_agg b)) 0
  then write (l_loc c) frame ;;;
       ret (dict_set entity_frames (e_id (l_entity c)) (l_loc c))
  else nloc <~ alloc frame ;;
       ret (dict_set entity_frames (e_id (l_entity c)) nloc).

(** [_calculate_agg_features]. *)
Definition _calculate_agg_features (self : PandasBackend)
  (feats : list feature) (entity_frames : entity_frames_t)
  : M entity_frames_t :=
  locals <~ agg_setup self feats entity_frames ;;
  match locals with
  | None => ret entity_frames
  | Some c =>
      no_instances <~
        lift (agg_no_instances (l_entity c) (l_child_entity c)
                (l_groupby_var c) (l_frame c) (l_base_frame c)) ;;
      no_data <~ lift (agg_no_data (l_base_frame c) no_instances) ;;
      if no_data then
        agg_write_defaults (l_loc c) (l_features c) ;;;
        ret entity_frames
      else agg_compute self c entity_frames
  end.

(** [_feature_type_handler]. *)
Definition _feature_type_handler (self : PandasBackend) (f : feature)
  : result (list feature -> entity_frames_t -> M entity_frames_t) :=
  match f_class f with
  | TransformPrimitive => Ok (_calculate_transform_features self)
  | DirectFeature => Ok (_calculate_direct_features self)
  | AggregationPrimitive => Ok (_calculate_agg_features self)
  | IdentityFeature => Ok (_calculate_identity_features self)
  | OtherClass c =>
      Err (UnknownFeature (String.append c " feature unknown"))
  end.

(** [eframes_by_filter[k1][k2] = loc]. *)
Definition set_frame (eframes : dict entity_frames_t) (k1 k2 : string)
  (loc : nat) : result (dict entity_frames_t) :=
  inner <- dict_item eframes k1 ;;
  Ok (dict_set eframes k1 (dict_set inner k2 loc)).

(** [eframes_by_filter[k1][k2]]. *)
Definition get_frame (eframes : dict entity_frames_t) (k1 k2 : string)
  : result nat :=
  inner <- dict_item eframes k1 ;;
  dict_item inner k2.

(** Lines 109-125: precalculated feature values enter the tables. *)
Definition merge_precalculated (self : PandasBackend)
  (precalculated_features : dict DataFrame)
  (eframes_by_filter : dict entity_frames_t)
  : M (dict entity_frames_t * list string) :=
  if Nat.ltb 0 (List.length precalculated_features) then
    foldW (fun st item =>
             let '(eframes, finished_entity_ids) := st in
             let '(entity_id, precalc_feature_values) := item in
             if dict_mem eframes entity_id then
               loc <~ lift (get_frame eframes entity_id entity_id) ;;
               frame <~ read loc ;;
               nloc <~ alloc (merge_on_index frame
                                precalc_feature_values) ;;
               eframes <~ lift (set_frame eframes entity_id entity_id
                                  nloc) ;;
               ret (eframes, finished_entity_ids)
             else
               ent <~ lift (es_entity (entityset self) entity_id) ;;
               let entity_id_var := e_index ent in
               values <~ lift (assign_list precalc_feature_values
                                 entity_id_var
                                 (df_index precalc_feature_values)) ;;
               nloc <~ alloc values ;;
               ret (dict_set eframes entity_id [(entity_id, nloc)],
                    finished_entity_ids ++ [entity_id]))
          precalculated_features
          (eframes_by_filter, [])
  else ret (eframes_by_filter, []).

(** [not path] for what a path finder returned. *)
Definition no_path (p : option (list Relationship)) : bool :=
  match p with
  | None | Some [] => true
  | Some _ => false
  end.

(** Lines 140-166: one filter entity. *)
Definition process_entity (self : PandasBackend)
  (st : dict entity_frames_t * list string) (filter_eid : string)
  : M (dict entity_frames_t * list string) :=
  let '(eframes, finished_entity_ids) := st in
  lift (dict_item eframes filter_eid) ;;;
  eframes <~
    foldW (fun eframes eid =>
             if no_path (find_backward_path (entityset self)
                           filter_eid eid)
             then loc <~ lift (get_frame eframes eid eid) ;;
                  lift (set_frame eframes filter_eid eid loc)
             else ret eframes)
          finished_entity_ids eframes ;;
  eframes <~
    match dict_get (ordered_feature_groups (feature_tree self))
                   filter_eid with
    | Some groups =>
        foldW (fun eframes group =>
                 g0 <~ lift (first group) ;;
                 handler <~ lift (_feature_type_handler self g0) ;;
                 entity_frames <~ lift (dict_item eframes filter_eid) ;;
                 entity_frames <~ handler group entity_frames ;;
                 ret (dict_set eframes filter_eid entity_frames))
              groups eframes
    | None => ret eframes
    end ;;
  ret (eframes, finished_entity_ids ++ [filter_eid]).

(** [i in df[col]]: membership in a Series looks at its row labels. *)
Definition in_series (df : DataFrame) (col : string) (i : value)
  : result bool :=
  _ <- get_column df col ;;
  Ok (py_in i (df_index df)).

Fixpoint filterM {A : Type} (p : A -> result bool) (l : list A)
  : result (list A) :=
  match l with
  | [] => Ok []
  | a :: l' =>
      b <- p a ;;
      rest <- filterM p l' ;;
      Ok (if b then a :: rest else rest)
  end.

(** Lines 187-195: the result table is cut out of the target entity's
    table. *)
Definition assemble_result (self : PandasBackend) (target_entity : Entity)
  (instance_ids : list value) (df : DataFrame) : result DataFrame :=
  missing_ids <-
    filterM (fun i => b <- in_series df (e_index target_entity) i ;;
                      Ok (negb b))
            instance_ids ;;
  df <- match missing_ids with
        | _ :: _ =>
            dflt <- generate_default_df self missing_ids
                      (Some (dict_keys (df_columns df))) ;;
            Ok (append df dflt)
        | [] => Ok df
        end ;;
  select_columns df (map get_name (features self)).

(** Truth value of the [ignored] argument. *)
Definition truthy {A : Type} (x : option (list A)) : bool :=
  match x with
  | Some (_ :: _) => true
  | _ => false
  end.

(** Lines 90-95: the entities whose tables are requested and then walked. *)
Definition ordered_for (self : PandasBackend)
  (ignored : option (list string)) : list string :=
  if truthy ignored
  then ordered_entities
         (make_feature_tree ext (entityset self) (features self) ignored)
  else ordered_entities (feature_tree self).

(** The table of the target entity among the finished tables (line
    187). *)
Definition target_frame (self : PandasBackend)
  (eframes : dict entity_frames_t) : M DataFrame :=
  loc <~ lift (get_frame eframes (target_eid self) (target_eid self)) ;;
  read loc.

(** Lines 74-172 of [calculate_all_features]: everything up to the
    finished tables ([None] when the slice provider had no data).  The
    profiler and the progress bar leave no trace in the result and are
    left out. *)
Definition computed_frames (self : PandasBackend)
  (instance_ids : list value) (time_last_arg : option time)
  (training_window : option Z)
  (precalculated_features : option (dict DataFrame))
  (ignored : option (list string))
  : M (PandasBackend * Entity * option (dict entity_frames_t)) :=
  lift (py_assert (Nat.ltb 0 (List.length instance_ids))
          "0 instance ids provided") ;;;
  let self :=
    mkPandasBackend (entityset self) (target_eid self) (features self)
      (feature_tree self)
      (Some (match time_last_arg with
             | Some t => t
             | None => datetime_now ext
             end)) in
  let precalculated_features :=
    match precalculated_features with
    | Some d => d
    | None => []
    end in
  target_entity <~ lift (es_entity (entityset self) (target_eid self)) ;;
  let ordered := ordered_for self ignored in
  eframes_by_filter <~
    get_pandas_data_slice (entityset self) ordered (target_eid self)
      instance_ids time_last_arg training_window ;;
  match eframes_by_filter with
  | None => ret (self, target_entity, None)
  | Some eframes =>
      st <~ merge_precalculated self precalculated_features eframes ;;
      st <~ foldW (process_entity self) ordered st ;;
      ret (self, target_entity, Some (fst st))
  end.

(** [calculate_all_features]. *)
Definition calculate_all_features (self : PandasBackend)
  (instance_ids : list value) (time_last_arg : option time)
  (training_window : option Z)
  (precalculated_features : option (dict DataFrame))
  (ignored : option (list string)) : M DataFrame :=
  '(self, target_entity, eframes_by_filter) <~
    computed_frames self instance_ids time_last_arg training_window
      precalculated_features ignored ;;
  match eframes_by_filter with
  | None => lift (generate_default_df self instance_ids None)
  | Some eframes =>
      df <~ target_frame self eframes ;;
      lift (assemble_result self target_entity instance_ids df)
  end.

End Backend.

(* ================================================================= *)
(** ** A small entity set

    Orders and their items: [order_items.order_id] refers to [orders.id].
    The theorems below are instantiated on it. *)

Module Shop.

Definition orders : Entity := mkEntity "orders" "id" None.
Definition items : Entity := mkEntity "order_items" "item_id" (Some "time").

Definition identity (e : Entity) (name : string) : feature :=
  mkFeature IdentityFeature name e None [] None None VNaN
            (fun _ _ => VNaN) false false Numeric.

(** [len] of the first argument. *)
Definition count_rows (args : list (list value)) (_ : option time) : value :=
  VInt (Z.of_nat (List.length (hd [] args))).

(** [COUNT(order_items)], on [orders]; its default is [0]. *)
Definition item_count : feature :=
  mkFeature AggregationPrimitive "COUNT(order_items)" orders None
            [identity items "item_id"] None None (VInt 0) count_rows
            false false Numeric.

(** [MAX(order_items.item_id)], on [orders]; no default but missing. *)
Definition max_value (args : list (list value)) (_ : option time) : value :=
  fold_right (fun v acc => match v, acc with
                           | VInt a, VInt b => VInt (Z.max a b)
                           | VInt a, _ => VInt a
                           | _, _ => acc
                           end) VNaN (hd [] args).

Definition item_id_max : feature :=
  mkFeature AggregationPrimitive "MAX(order_items.item_id)" orders None
            [identity items "item_id"] None None VNaN max_value
            false false Numeric.

(** The same count over the items where [big] holds, with the where
    feature listed among the base features. *)
Definition big_item_count : feature :=
  mkFeature AggregationPrimitive "COUNT(order_items WHERE big)" orders None
            [identity items "item_id"; identity items "big"]
            (Some (identity items "big")) None (VInt 0) count_rows
            false false Numeric.

(** The count over the last [n] items of each order. *)
Definition last_item_count (n : Z) : feature :=
  mkFeature AggregationPrimitive "COUNT(order_items, Last n)" orders None
            [identity items "item_id"] None (Some (mkTimedelta false n))
            (VInt 0) count_rows false false Numeric.

(** [orders.COUNT(order_items)] seen from the items: a direct feature whose
    default is the count's default, [0]. *)
Definition order_item_count : feature :=
  mkFeature DirectFeature "orders.COUNT(order_items)" items (Some orders)
            [item_count] None None (VInt 0) (fun _ _ => VNaN)
            false false Numeric.

(** Twice the item id, elementwise. *)
Definition double (args : list (list value)) (_ : option time) : value :=
  VSeq (map (fun v => match v with
                      | VInt z => VInt (2 * z)
                      | _ => VNaN
                      end) (hd [] args)).

Definition double_id : feature :=
  mkFeature TransformPrimitive "DOUBLE(item_id)" items None
            [identity items "item_id"] None None VNaN double
            false false Numeric.

Definition hop : Relationship :=
  mkRelationship "orders" "id" "order_items" "order_id".

Definition orders_df : DataFrame :=
  mkDataFrame (Some "id") [VInt 1; VInt 2; VInt 3]
    [("id", series_of_list [VInt 1; VInt 2; VInt 3])].

Definition items_df : DataFrame :=
  mkDataFrame (Some "item_id") [VInt 10; VInt 11; VInt 12]
    [("item_id", series_of_list [VInt 10; VInt 11; VInt 12]);
     ("order_id", series_of_list [VInt 1; VInt 1; VInt 2]);
     ("time", series_of_list [VTime 5; VTime 6; VTime 7])].

(** The items when one of them has lost its order: pandas then holds the
    link column as floats. *)
Definition loose_items_df : DataFrame :=
  mkDataFrame (Some "item_id") [VInt 10; VInt 11; VInt 12]
    [("item_id", series_of_list [VInt 10; VInt 11; VInt 12]);
     ("order_id", series_of_list [VFloat 1; VNaN; VFloat 2]);
     ("time", series_of_list [VTime 5; VTime 6; VTime 7])].

(** The orders with item counts computed beforehand, and an items table
    that lost all its rows. *)
Definition counted_orders_df : DataFrame :=
  mkDataFrame (Some "id") [VInt 1; VInt 2; VInt 3]
    [("id", series_of_list [VInt 1; VInt 2; VInt 3]);
     ("COUNT(order_items)", series_of_list [VInt 5; VInt 6; VInt 7])].

Definition no_items_df : DataFrame :=
  mkDataFrame (Some "item_id") []
    [("item_id", series_of_list []);
     ("order_id", series_of_list []);
     ("time", series_of_list [])].

(** Items of which the last refers to an order that is not there. *)
Definition stray_items_df : DataFrame :=
  mkDataFrame (Some "item_id") [VInt 10; VInt 11; VInt 12]
    [("item_id", series_of_list [VInt 10; VInt 11; VInt 12]);
     ("order_id", series_of_list [VInt 1; VInt 1; VInt 9]);
     ("time", series_of_list [VTime 5; VTime 6; VTime 7])].

Definition related (child parent : string) : option (list Relationship) :=
  if String.eqb child "order_items" && String.eqb parent "orders"
  then Some [hop] else None.

(** An entity set whose slice provider hands out the two tables, or
    reports no data when [with_data] is off. *)
Definition es (with_data : bool) : EntitySet :=
  mkEntitySet
    (fun e => if String.eqb e "orders" then Ok orders
              else if String.eqb e "order_items" then Ok items
              else Err (KeyError e))
    related
    (fun parent child => related child parent)
    (fun _ _ _ _ _ w =>
       if with_data
       then Ok (Some [("orders", [("orders", 0); ("order_items", 1)])],
                mkWorld [orders_df; items_df] (uuid_count w))
       else Ok (None, w)).

Definition ext : Externals :=
  mkExternals
    (fun path => match path with
                 | r :: _ => child_variable r
                 | [] => ""
                 end)
    (fun _ _ _ => mkFeatureTree ["orders"] [("orders", [[item_count]])])
    0%Z
    (fun n => String.concat "" (repeat "u" (S n)))
    (fun _ => false)
    (fun _ => None).

Definition backend (with_data : bool) : PandasBackend :=
  mkPandasBackend (es with_data) "orders" [item_count]
    (mkFeatureTree ["orders"] [("orders", [[item_count]])]) None.

(** The backend in the middle of a run with cutoff time [10]. *)
Definition running_backend : PandasBackend :=
  mkPandasBackend (es true) "orders" [item_count]
    (mkFeatureTree ["orders"] [("orders", [[item_count]])]) (Some 10%Z).

Definition w0 : world := mkWorld [] 0.

(** The tables as a calculator finds them: orders at [0], items at [1]. *)
Definition frames : entity_frames_t := [("orders", 0); ("order_items", 1)].

Definition world_of (orders_table items_table : DataFrame) : world :=
  mkWorld [orders_table; items_table] 0.

(** The item ids of an order, as a list; its default is the empty list. *)
Definition list_values (args : list (list value)) (_ : option time)
  : value :=
  VSeq (hd [] args).

Definition item_ids : feature :=
  mkFeature AggregationPrimitive "LIST(order_items.item_id)" orders None
            [identity items "item_id"] None None (VSeq []) list_values
            false false Categorical.

(** The orders once both aggregates are joined on; the third order has no
    item. *)
Definition joined_orders_df : DataFrame :=
  mkDataFrame (Some "id") [VInt 1; VInt 2; VInt 3]
    [("id", series_of_list [VInt 1; VInt 2; VInt 3]);
     ("COUNT(order_items)", series_of_list [VInt 2; VInt 1; VNaN]);
     ("LIST(order_items.item_id)",
      series_of_list [VSeq [VInt 10; VInt 11]; VSeq [VInt 12]; VNaN])].

(** A flag per order, computed as a numeric feature and held by pandas as
    booleans. *)
Definition has_items : feature :=
  mkFeature AggregationPrimitive "ANY(order_items)" orders None
            [identity items "item_id"] None None (VBool false)
            (fun args _ => VBool (negb (Nat.eqb (List.length (hd [] args))
                                                0)))
            false false Numeric.

Definition flagged_orders_df : DataFrame :=
  mkDataFrame (Some "id") [VInt 1; VInt 2; VInt 3]
    [("id", series_of_list [VInt 1; VInt 2; VInt 3]);
     ("ANY(order_items)",
      series_of_list [VBool true; VBool true; VBool false])].

(** A backend asked for two features while its feature tree plans the
    first only. *)
Definition short_planned_backend : PandasBackend :=
  mkPandasBackend (es true) "orders" [item_count; item_id_max]
    (mkFeatureTree ["orders"] [("orders", [[item_count]])]) None.

(** The table dictionaries of a slice that serves both entities. *)
Definition both_frames : dict entity_frames_t :=
  [("orders", [("orders", 0)]); ("order_items", [("order_items", 1)])].

(** Feature values computed beforehand: the item counts of the orders, and
    a flag for two of the items. *)
Definition precalculated_counts : DataFrame :=
  mkDataFrame (Some "id") [VInt 1; VInt 2; VInt 3]
    [("COUNT(order_items)", series_of_list [VInt 5; VInt 6; VInt 7])].

Definition precalculated_flags : DataFrame :=
  mkDataFrame (Some "item_id") [VInt 10; VInt 12]
    [("big", series_of_list [VBool true; VBool false])].

(** The table dictionaries of a slice that serves the items only. *)
Definition items_frames : dict entity_frames_t :=
  [("order_items", [("order_items", 1)])].


(** The items with their [big] flag and the times they were bought, and
    the count of the big items of an order bought at most four time units
    before the cutoff. *)
Definition flagged_items_df : DataFrame :=
  mkDataFrame (Some "item_id") [VInt 10; VInt 11; VInt 12; VInt 13]
    [("item_id", series_of_list [VInt 10; VInt 11; VInt 12; VInt 13]);
     ("order_id", series_of_list [VInt 1; VInt 1; VInt 2; VInt 2]);
     ("time", series_of_list [VTime 8; VTime 3; VTime 9; VTime 7]);
     ("big", series_of_list [VBool true; VBool true; VBool false;
                             VBool true])].

Definition recent_big_count : feature :=
  mkFeature AggregationPrimitive "COUNT(order_items WHERE big, Last 4)"
            orders None [identity items "item_id"; identity items "big"]
            (Some (identity items "big")) (Some (mkTimedelta true 4))
            (VInt 0) count_rows false false Numeric.


(** The time from the last item of an order to the cutoff: a time-aware
    function of the items' times. *)
Definition time_since (args : list (list value)) (t : option time)
  : value :=
  match t, last (hd [] args) VNaN with
  | Some now, VTime x => VInt (now - x)
  | _, _ => VNaN
  end.

Definition time_since_last : feature :=
  mkFeature AggregationPrimitive "TIME_SINCE_LAST(order_items.time)"
            orders None [identity items "time"] None None VNaN time_since
            true false Numeric.

End Shop.

(* ================================================================= *)
(** ** Induction on values

    The induction principle that reaches inside sequences, and the
    sequence case of [py_eq] as a function of its own. *)

Section ValueInduction.

Variable P : value -> Prop.
Hypothesis HNaN : P VNaN.
Hypothesis HBool : forall b, P (VBool b).
Hypothesis HInt : forall z, P (VInt z).
Hypothesis HFloat : forall q, P (VFloat q).
Hypothesis HStr : forall s, P (VStr s).
Hypothesis HTime : forall t, P (VTime t).
Hypothesis HSeq : forall l, Forall P l -> P (VSeq l).

Fixpoint value_nested_ind (v : value) : P v :=
  match v with
  | VNaN => HNaN
  | VBool b => HBool b
  | VInt z => HInt z
  | VFloat q => HFloat q
  | VStr s => HStr s
  | VTime t => HTime t
  | VSeq l =>
      HSeq l ((fix all (l : list value) : Forall P l :=
                 match l with
                 | [] => Forall_nil P
                 | x :: l' => Forall_cons x (value_nested_ind x) (all l')
                 end) l)
  end.

End ValueInduction.

(** The sequence case of [py_eq], named. *)
Fixpoint py_eq_list (l1 l2 : list value) : bool :=
  match l1, l2 with
  | [], [] => true
  | u :: l1', v :: l2' => py_eq u v && py_eq_list l1' l2'
  | _, _ => false
  end.

(* ================================================================= *)
(** ** Vocabulary of the statements *)

(** The base features [_can_agg] counts: all of them, or, when the feature
    has a where clause, those not named like the where feature. *)
Definition counted_base_features (f : feature) : list feature :=
  match where_ f with
  | Some w =>
      filter (fun bf => negb (String.eqb (get_name bf) (get_name w)))
             (base_features f)
  | None => base_features f
  end.

(** The test [_can_agg] makes. *)
Definition simple_aggregable (f : feature) : bool :=
  Nat.eqb (List.length (counted_base_features f)) 1 &&
  negb (uses_calc_time f) && negb (expanding f).

(** An outcome that is not an exception of the kind [bad]. *)
Definition avoids (bad : exn -> bool) {A : Type} (r : result A) : Prop :=
  match r with
  | Err e => bad e = false
  | Ok _ => True
  end.

Definition avoidsM (bad : exn -> bool) {A : Type} (m : M A) : Prop :=
  forall w, avoids bad (m w).

(** Python's complaint about a local variable read before assignment. *)
Definition is_unbound_local (e : exn) : bool :=
  match e with
  | UnboundLocalError _ => true
  | _ => false
  end.

(** The error of lines 362-366, told by the way its message starts. *)
Definition is_join_error (e : exn) : bool :=
  match e with
  | ValueError msg => String.prefix "Could not join " msg
  | _ => false
  end.

(** A kind of exception that neither pandas nor the plain Python steps of
    the calculators raise. *)
Record foreign (bad : exn -> bool) : Prop := mkForeign {
  foreign_assert : forall m, bad (AssertionError m) = false;
  foreign_key : forall k, bad (KeyError k) = false;
  foreign_type : forall m, bad (TypeError m) = false;
  foreign_index : forall m, bad (IndexError m) = false;
  foreign_attr : forall m, bad (AttributeError m) = false;
  foreign_length :
    bad (ValueError "Length of values does not match length of index")
    = false;
  foreign_mask :
    bad (ValueError "cannot index with vector containing NA / NaN values")
    = false;
  foreign_float : bad (ValueError "could not convert to float") = false;
  foreign_astype : bad (ValueError "astype") = false
}.

(** The boxing conversion of line 359-360, with the environment's pandas. *)
Definition coerced (ext : Externals) (s : Series) : result Series :=
  astype_object (astype_object_rejects ext) s.

(** The test of lines 356-357: the two join columns cannot be compared as
    they are. *)
Definition dtypes_disagree (fi bg : Series) : bool :=
  negb (dtype_eqb (s_dtype fi) (s_dtype bg)) || is_category (s_dtype fi).

(** The cell of the [j]-th column in the [i]-th row, and the name of the
    [j]-th column. *)
Definition cell (df : DataFrame) (j i : nat) : option value :=
  match nth_error (df_columns df) j with
  | Some c => nth_error (s_values (snd c)) i
  | None => None
  end.

Definition column_name (df : DataFrame) (j : nat) : option string :=
  option_map fst (nth_error (df_columns df) j).

(** A column holding the default value of [f] in each of [n] rows. *)
Definition default_column (f : feature) (n : nat) : string * Series :=
  (get_name f, series_of_list (repeat (default_value f) n)).

(** No two entries equal in Python's sense. *)
Fixpoint py_nodup (l : list value) : bool :=
  match l with
  | [] => true
  | x :: l' => negb (py_in x l') && py_nodup l'
  end.

(** Every entry equal to itself (no [nan] among them). *)
Definition self_equal (l : list value) : bool :=
  forallb (fun x => py_eq x x) l.

(** Number of row labels equal to [i]. *)
Definition count_label (i : value) (labels : list value) : nat :=
  List.length (filter (py_eq i) labels).

(** The requested ids with no row in a table of row labels [labels]. *)
Definition missing_from (labels ids : list value) : list value :=
  filter (fun i => negb (py_in i labels)) ids.

(** The value sequences of the base-feature columns of [f] in [frame]
    (lines 242-243). *)
Definition base_column_values (frame : DataFrame) (f : feature)
  : result (list (list value)) :=
  mapM (fun bf => s <- get_column frame (get_name bf) ;; Ok (s_values s))
       (base_features f).

(** What a transform function is called with after the columns: the cutoff
    time under the keyword [time] when the feature is time-aware. *)
Definition time_keyword (f : feature) (t : time) : option time :=
  if uses_calc_time f then Some t else None.

(** The store after the table object at [loc] became [df]. *)
Definition with_table (w : world) (loc : nat) (df : DataFrame) : world :=
  mkWorld (replace_nth loc df (heap w)) (uuid_count w).

(** No value of the child's link column equals a value of the parent's
    index column (nothing to compare when a column is absent). *)
Definition unrelated (frame base_frame : DataFrame)
  (index_var groupby_var : string) : Prop :=
  forall fi bg,
    get_column frame index_var = Ok fi ->
    get_column base_frame groupby_var = Ok bg ->
    forall a b, In a (s_values fi) -> In b (s_values bg) ->
                py_eq a b = false.

(** Name of the first base feature of [f] (the parent column a direct
    feature copies). *)
Definition base_name (f : feature) : string :=
  match base_features f with
  | bf :: _ => get_name bf
  | [] => ""
  end.

(** The column [k] of [df], empty if there is none. *)
Definition column_of (df : DataFrame) (k : string) : Series :=
  match dict_get (df_columns df) k with
  | Some s => s
  | None => mkSeries ObjectT []
  end.

(** The name [rename(columns=m)] gives to the column [k]. *)
Definition renamed (m : dict string) (k : string) : string :=
  match dict_get m k with
  | Some n => n
  | None => k
  end.

(** The cell a left join puts in a right-hand column: the partner's cell,
    or a missing value without partner. *)
Definition joined_cell (vals : list value) (partner : option nat) : value :=
  match partner with
  | Some j => nth j vals VNaN
  | None => VNaN
  end.

(** The dictionary [col_map] after the loop, when no feature of the group
    is on the child table yet. *)
Definition col_map_of (parent_var merge_var : string)
  (feats : list feature) : dict string :=
  fold_left (fun m f => dict_set m (base_name f) (get_name f)) feats
            [(parent_var, merge_var)].

(** The feature defined on the parent's join key, if any: the last one
    met. *)
Definition index_feature_of (parent_var : string) (feats : list feature)
  : option feature :=
  fold_left (fun o f => if String.eqb (base_name f) parent_var
                        then Some f else o) feats None.

(** What the direct calculator relies on for a group [feats] copied from
    the parent table [parent_df] onto the child table [child_df] along the
    hop from [merge_var] to [parent_var]: each feature has a base feature
    whose column is on the parent table and is itself not yet on the child
    table; base names and feature names do not repeat; both join columns
    exist. *)
Definition direct_group_ok (child_df parent_df : DataFrame)
  (parent_var merge_var : string) (feats : list feature) : Prop :=
  (forall f, In f feats ->
             base_features f <> [] /\
             has_column child_df (get_name f) = false /\
             has_column parent_df (base_name f) = true) /\
  NoDup (map base_name feats) /\
  NoDup (map get_name feats) /\
  has_column parent_df parent_var = true /\
  has_column child_df merge_var = true.

(** The last [n] entries of a list (all of them if there are fewer). *)
Definition last_rows {A : Type} (n : nat) (l : list A) : list A :=
  skipn (List.length l - n) l.

(** The cells of a timestamp column that pass [column >= time_first]. *)
Definition within_window (time_first : time) (s : Series) : list bool :=
  map (time_ge time_first) (s_values s).

(** Every column of the table has one cell per row. *)
Definition wf_frame (df : DataFrame) : bool :=
  forallb (fun c => Nat.eqb (List.length (s_values (snd c))) (nrows df))
          (df_columns df).

(** The cell [wrap] computes for one feature on the rows [df] of a group. *)
Definition group_cell_of (t_last : time) (df : DataFrame) (f : feature)
  : value :=
  get_function f
    (map (fun bf => s_values (column_of df (get_name bf))) (base_features f))
    (time_keyword f t_last).

(** A column after its missing cells got the value [v]. *)
Definition filled (v : value) (vals : list value) : list value :=
  map (fun x => if isnull x then v else x) vals.

(** Row labels that tell the rows apart: each matches itself and no
    other. *)
Definition distinct_labels (labels : list value) : Prop :=
  forall i j, i < List.length labels -> j < List.length labels ->
    (key_match (nth i labels VNaN) (nth j labels VNaN) = true <-> i = j).

(** The cell [astype(float)] makes of a number; a missing cell stays. *)
Definition as_float (v : value) : value :=
  match num_of v with
  | Some q => VFloat q
  | None => v
  end.

(** The cells [astype(float)] accepts: numbers, booleans, missing cells. *)
Definition floatable (v : value) : bool :=
  match v with
  | VSeq _ | VStr _ | VTime _ => false
  | _ => true
  end.

(** The test of lines 460-461: a numeric feature that is not expanding and
    whose column is held as objects or booleans. *)
Definition needs_float (frame : DataFrame) (f : feature) : bool :=
  negb (expanding f) && is_numeric (variable_type f) &&
  str_mem (dtype_name (s_dtype (column_of frame (get_name f))))
          ["object"; "bool"].

(** What a simple aggregate puts in the parent row of key [key]: the
    feature's function on the cells that the child rows linked to [key]
    have in the base column, in row order; a missing value when no child
    row is linked to [key]. *)
Definition agg_cell (f : feature) (links vals : list value) (key : value)
  : value :=
  if existsb (fun l => py_eq l key) links
  then get_function f [take VNaN (group_positions links key) vals] None
  else VNaN.

(** The column a simple aggregate computes: one cell per group key. *)
Definition agg_series (f : feature) (links vals : list value) : Series :=
  series_of_list
    (map (fun k => get_function f [take VNaN (group_positions links k) vals]
                     None)
         (group_keys links)).

(** From the store [w] to the store [w']: no table is dropped, and every
    table object other than the one at [loc] is what it was. *)
Definition touches_only (loc : option nat) (w w' : world) : Prop :=
  List.length (heap w) <= List.length (heap w') /\
  forall l frame,
    nth_error (heap w) l = Some frame -> loc <> Some l ->
    nth_error (heap w') l = Some frame.

(** One turn of the loop of lines 111-125, as [merge_precalculated] has
    it. *)
Definition precalculated_turn (self : PandasBackend)
  (st : dict entity_frames_t * list string) (item : string * DataFrame)
  : M (dict entity_frames_t * list string) :=
  let '(eframes, finished_entity_ids) := st in
  let '(entity_id, precalc_feature_values) := item in
  if dict_mem eframes entity_id then
    loc <~ lift (get_frame eframes entity_id entity_id) ;;
    frame <~ read loc ;;
    nloc <~ alloc (merge_on_index frame precalc_feature_values) ;;
    eframes <~ lift (set_frame eframes entity_id entity_id nloc) ;;
    ret (eframes, finished_entity_ids)
  else
    ent <~ lift (es_entity (entityset self) entity_id) ;;
    let entity_id_var := e_index ent in
    values <~ lift (assign_list precalc_feature_values entity_id_var
                      (df_index precalc_feature_values)) ;;
    nloc <~ alloc values ;;
    ret (dict_set eframes entity_id [(entity_id, nloc)],
         finished_entity_ids ++ [entity_id]).

(** The where clause holds in row [i] of the child table: the where
    feature's cell is [True] (without where clause, every row passes). *)
Definition where_holds (where' : option feature) (df : DataFrame) (i : nat)
  : bool :=
  match where' with
  | Some wf =>
      match nth i (s_values (column_of df (get_name wf))) VNaN with
      | VBool b => b
      | _ => false
      end
  | None => true
  end.

(** Row [i] of the child table lies in the absolute window [up] that ends
    at [t_last]: its time-index cell is a time not before
    [t_last - duration] (without window or without time index, every row
    passes). *)
Definition in_time_window (t_last : time) (up : option Timedelta)
  (ti : option string) (df : DataFrame) (i : nat) : bool :=
  match up, ti with
  | Some u, Some ti =>
      time_ge (t_last - td_value u)%Z
              (nth i (s_values (column_of df ti)) VNaN)
  | _, _ => true
  end.

(** A table seen through a mask: its row labels and each of its columns
    are those of [df] at the rows the mask lets pass. *)
Definition masked (mask : list bool) (df df' : DataFrame) : Prop :=
  df_index df' = select mask (df_index df) /\
  forall n,
    option_map s_values (dict_get (df_columns df') n)
    = option_map (fun s => select mask (s_values s))
                 (dict_get (df_columns df) n).

(** What a feature applied group by group puts in the parent row of key
    [key]: its function on the base columns of the child rows linked to
    [key]; a missing value when no child row is linked to [key]. *)
Definition apply_cell (t_last : time) (f : feature) (links : list value)
  (base : DataFrame) (key : value) : value :=
  if existsb (fun l => py_eq l key) links
  then group_cell_of t_last (group_frame links key base) f
  else VNaN.

(** A table of per-group results: one row per key of [ks], labelled
    (key, 0), and under each feature's name the cell of each key. *)
Definition applied_rows (fs : list feature)
  (cell : value -> feature -> value) (ks : list value) (df : DataFrame)
  : Prop :=
  df_index df = map (fun k => VSeq [k; VInt 0]) ks /\
  (ks = [] -> df_columns df = []) /\
  (ks <> [] ->
   dict_keys (df_columns df) = map get_name fs /\
   forall f, In f fs ->
     s_values (column_of df (get_name f)) = map (fun k => cell k f) ks).

(** Two arrays on which every comparison [check_no_related_instances]
    makes is Python's [==] as [py_eq] has it: no cell is a list, which
    [set] refuses; no comparison has a missing cell on both sides, where
    [None == None] holds although [nan == nan] does not; and none is
    between an integer and a float, which numpy compares after rounding
    the integer. *)
Definition comparable_keys (array1 array2 : list value) : bool :=
  forallb (fun v => negb (has_iter v)) (array1 ++ array2) &&
  (forallb (fun v => negb (isnull v)) array1 ||
   forallb (fun v => negb (isnull v)) array2) &&
  (forallb (fun v => match v with VFloat _ => false | _ => true end)
           (array1 ++ array2) ||
   forallb (fun v => match v with VInt _ => false | _ => true end)
           (array1 ++ array2)).

(** Cells that tell rows apart as join keys: a key matches one cell at
    most. *)
Definition unique_cells (vals : list value) : Prop :=
  forall k, List.length (key_positions k vals) <= 1.

(** The table [T'] is the table [T] after calculators have worked on it:
    the same rows, at least the same columns, every new column named in
    [names], and the cells of the columns not named in [names] as they
    were. *)
Definition extends (names : list string) (T T' : DataFrame) : Prop :=
  df_index T' = df_index T /\
  (wf_frame T = true -> wf_frame T' = true) /\
  (forall n, has_column T n = true -> has_column T' n = true) /\
  (forall n, has_column T' n = true ->
             has_column T n = true \/ In n names) /\
  (forall n, ~ In n names -> has_column T n = true ->
             s_values (column_of T' n) = s_values (column_of T n)).

(** Every entry of a table dictionary is a table of the store with one
    cell per row in every column, and the table bound to an entity [e]
    tells its rows apart in each of the entity's key columns [K e] it
    has. *)
Definition sound_frames (K : string -> list string)
  (ef : entity_frames_t) (w : world) : Prop :=
  forall e loc,
    dict_get ef e = Some loc ->
    exists T,
      nth_error (heap w) loc = Some T /\
      wf_frame T = true /\
      forall n, In n (K e) -> has_column T n = true ->
                unique_cells (s_values (column_of T n)).

(** The same of every entry of [eframes_by_filter]. *)
Definition sound_store (K : string -> list string)
  (eframes : dict entity_frames_t) (w : world) : Prop :=
  forall filter_eid ef,
    dict_get eframes filter_eid = Some ef -> sound_frames K ef w.

(** From the store [w] to the store [w']: UUIDs were drawn at most, every
    table object is still there, extended at most, and every table of
    [w'] extends a table of [w]. *)
Definition world_extends (names : list string) (w w' : world) : Prop :=
  uuid_count w <= uuid_count w' /\
  (forall l T, nth_error (heap w) l = Some T ->
     exists T', nth_error (heap w') l = Some T' /\ extends names T T') /\
  (forall l T', nth_error (heap w') l = Some T' ->
     exists l0 T, nth_error (heap w) l0 = Some T /\ extends names T T').

(** What a calculator run on a group owned by the entity [owner] has
    done: the store is extended, the table dictionary binds the other
    entities as before, and the table now bound to [owner] extends the
    one bound before and has the columns [must]. *)
Definition calc_effect (names : list string) (owner : string)
  (must : list string) (ef : entity_frames_t) (w : world)
  (ef' : entity_frames_t) (w' : world) : Prop :=
  world_extends names w w' /\
  (forall e, e <> owner -> dict_get ef' e = dict_get ef e) /\
  exists loc loc' T T',
    dict_get ef owner = Some loc /\
    dict_get ef' owner = Some loc' /\
    nth_error (heap w) loc = Some T /\
    nth_error (heap w') loc' = Some T' /\
    extends names T T' /\
    forall n, In n must -> has_column T' n = true.

(** The features a group's calculator computes: all of them, except that
    the identity calculator computes none. *)
Definition computed_by (g : list feature) : list feature :=
  match g with
  | g0 :: _ => match f_class g0 with
               | IdentityFeature => []
               | _ => g
               end
  | [] => []
  end.

(** The names of the columns the calculators of a feature tree compute. *)
Definition computed_names (tree : FeatureTree) : list string :=
  flat_map (fun eg => flat_map (fun g => map get_name (computed_by g))
                               (snd eg))
           (ordered_feature_groups tree).

(** The first [n] UUIDs are pairwise distinct strings of one length. *)
Definition fresh_uuids (ext : Externals) (n : nat) : Prop :=
  forall i j, i < n -> j < n ->
    String.length (uuid1 ext i) = String.length (uuid1 ext j) /\
    (i <> j -> uuid1 ext i <> uuid1 ext j).

(** The columns a group answers for: one per feature, except that the
    identity calculator looks at its first feature only. *)
Definition ensured_by (g : list feature) : list string :=
  match g with
  | g0 :: _ => match f_class g0 with
               | IdentityFeature => [get_name g0]
               | _ => map get_name g
               end
  | [] => []
  end.

(** What the calculators rely on in a feature tree: the features of a
    group have distinct names and, in a group of direct features,
    distinct base features. *)
Definition sound_groups (tree : FeatureTree) : Prop :=
  forall e groups g g0,
    In (e, groups) (ordered_feature_groups tree) -> In g groups ->
    hd_error g = Some g0 ->
    (f_class g0 <> IdentityFeature -> NoDup (map get_name g)) /\
    (f_class g0 = DirectFeature -> NoDup (map base_name g)).

(** What the calculators rely on in the relationships: a one-hop path to
    a parent goes to one of the parent's key columns [K p], and no
    computed column is named as a key column or as a link variable. *)
Definition sound_keys (es : EntitySet) (K : string -> list string)
  (names : list string) : Prop :=
  (forall e n, In n (K e) -> ~ In n names) /\
  forall c p hop,
    find_forward_path es c p = Some [hop] ->
    In (parent_variable hop) (K p) /\ ~ In (child_variable hop) names.

(** The feature tree plans the column [n] for the entity [target]: among
    the groups listed for the entity's own turn, one of features of the
    entity answers for the column. *)
Definition planned_column (tree : FeatureTree) (target : string)
  (n : string) : Prop :=
  exists groups g g0,
    dict_get (ordered_feature_groups tree) target = Some groups /\
    In g groups /\ hd_error g = Some g0 /\
    e_id (entity g0) = target /\ In n (ensured_by g).

(** One turn of the loop of lines 145-152, as [process_entity] has it:
    the table of a finished entity with no path back from the filter
    entity is shared with the filter entity's dictionary. *)
Definition share_turn (self : PandasBackend) (filter_eid : string)
  (eframes : dict entity_frames_t) (eid : string)
  : M (dict entity_frames_t) :=
  if no_path (find_backward_path (entityset self) filter_eid eid)
  then loc <~ lift (get_frame eframes eid eid) ;;
       lift (set_frame eframes filter_eid eid loc)
  else ret eframes.

(** One turn of the loop of lines 154-164, as [process_entity] has it:
    one feature group goes to its calculator. *)
Definition group_turn (ext : Externals) (self : PandasBackend)
  (filter_eid : string) (eframes : dict entity_frames_t)
  (group : list feature) : M (dict entity_frames_t) :=
  g0 <~ lift (first group) ;;
  handler <~ lift (_feature_type_handler ext self g0) ;;
  entity_frames <~ lift (dict_item eframes filter_eid) ;;
  entity_frames <~ handler group entity_frames ;;
  ret (dict_set eframes filter_eid entity_frames).

(** The tables are ready for the walk of lines 140-166: every dictionary
    is sound, and the target entity's own table has the entity's index
    column, distinct row labels, all of them requested ids, and a column
    for every requested feature that the feature tree plans no group
    for. *)
Definition ready_tables (K : string -> list string) (self : PandasBackend)
  (index_var : string) (ids : list value)
  (eframes : dict entity_frames_t) (w : world) : Prop :=
  sound_store K eframes w /\
  exists loc T,
    get_frame eframes (target_eid self) (target_eid self) = Ok loc /\
    nth_error (heap w) loc = Some T /\
    has_column T index_var = true /\
    py_nodup (df_index T) = true /\
    forallb (fun l => py_in l ids) (df_index T) = true /\
    forall f, In f (features self) ->
      planned_column (feature_tree self) (target_eid self) (get_name f) \/
      has_column T (get_name f) = true.

(** What the merge of lines 109-125 relies on in the precalculated
    values: one table per entity, each with one cell per row in every
    column, with row labels that tell its rows apart as join keys, with
    none of its entity's key columns and with no column of its entity's
    own table. *)
Definition sound_precalculated (K : string -> list string)
  (pre : dict DataFrame) (eframes : dict entity_frames_t) (w : world)
  : Prop :=
  NoDup (dict_keys pre) /\
  forall k V, In (k, V) pre ->
    wf_frame V = true /\
    unique_cells (df_index V) /\
    (forall n, In n (K k) -> has_column V n = false) /\
    forall loc F,
      get_frame eframes k k = Ok loc ->
      nth_error (heap w) loc = Some F ->
      forall n, has_column V n = true -> has_column F n = false.

(** No two cells match each other as join keys. *)
Fixpoint distinct_keys (vals : list value) : bool :=
  match vals with
  | [] => true
  | x :: rest => negb (existsb (key_match x) rest) && distinct_keys rest
  end.

(* ================================================================= *)
(** * Properties *)

(** ** Python equality is a partial equivalence *)

Lemma py_eq_seq l1 l2 : py_eq (VSeq l1) (VSeq l2) = py_eq_list l1 l2.
Proof.
  destruct l1, l2; reflexivity.
Qed.

Lemma Qeq_bool_sym x y : Qeq_bool x y = Qeq_bool y x.
Proof.
  destruct (Qeq_bool x y) eqn:E1, (Qeq_bool y x) eqn:E2; try reflexivity.
  - apply Qeq_bool_iff in E1. symmetry in E1. apply Qeq_bool_iff in E1.
    congruence.
  - apply Qeq_bool_iff in E2. symmetry in E2. apply Qeq_bool_iff in E2.
    congruence.
Qed.

Lemma Qeq_bool_trans' x y z :
  Qeq_bool x y = true -> Qeq_bool y z = true -> Qeq_bool x z = true.
Proof.
  rewrite !Qeq_bool_iff. intros H1 H2. rewrite H1. exact H2.
Qed.

Lemma py_eq_sym : forall a b, py_eq a b = py_eq b a.
Proof.
  induction a as [| | | | | |l IH] using value_nested_ind;
    intros [| | | | | |l']; cbn [py_eq num_of];
    try reflexivity; try apply Qeq_bool_sym;
    try apply String.eqb_sym; try apply Z.eqb_sym.
  change (py_eq (VSeq l) (VSeq l') = py_eq (VSeq l') (VSeq l)).
  rewrite !py_eq_seq. revert l'.
  induction IH as [|u l Hu _ IHl]; intros [|v l']; cbn [py_eq_list];
    try reflexivity.
  rewrite Hu, IHl. reflexivity.
Qed.

Lemma py_eq_trans : forall a b c,
  py_eq a b = true -> py_eq b c = true -> py_eq a c = true.
Proof.
  induction a as [| | | | | |l IH] using value_nested_ind;
    intros [| | | | | |l'] [| | | | | |l'']; cbn [py_eq num_of];
    try discriminate; try apply Qeq_bool_trans'.
  - rewrite !String.eqb_eq. congruence.
  - rewrite !Z.eqb_eq. congruence.
  - change (py_eq (VSeq l) (VSeq l') = true ->
            py_eq (VSeq l') (VSeq l'') = true ->
            py_eq (VSeq l) (VSeq l'') = true).
    rewrite !py_eq_seq. revert l' l''.
    induction IH as [|u l Hu _ IHl]; intros [|v l'] [|x l''];
      cbn [py_eq_list]; try discriminate; auto.
    rewrite !andb_true_iff. intros [H1 H2] [H3 H4]. split.
    + eapply Hu; eassumption.
    + eapply IHl; eassumption.
Qed.

(** A value equal to something is equal to itself. *)
Lemma py_eq_refl_of a b : py_eq a b = true -> py_eq a a = true.
Proof.
  intros H. eapply py_eq_trans; [exact H|]. rewrite py_eq_sym. exact H.
Qed.

(* ================================================================= *)
(** ** Stepping through the monads *)

Lemma bind_Ok {A B : Type} (r : result A) (k : A -> result B) (b : B) :
  bind r k = Ok b <-> exists a, r = Ok a /\ k a = Ok b.
Proof.
  destruct r as [a|e]; cbn; split.
  - intros H; eauto.
  - intros [a' [H1 H2]]; congruence.
  - discriminate.
  - intros [a' [H1 _]]; discriminate.
Qed.

Lemma bindM_Ok {A B : Type} (m : M A) (k : A -> M B) w b w' :
  bindM m k w = Ok (b, w') <->
  exists a w1, m w = Ok (a, w1) /\ k a w1 = Ok (b, w').
Proof.
  unfold bindM. destruct (m w) as [[a w1]|e]; split.
  - intros H; eauto.
  - intros [a' [w2 [H1 H2]]]. congruence.
  - discriminate.
  - intros [a' [w2 [H1 _]]]. discriminate.
Qed.

Lemma bindM_step {A B : Type} (m : M A) (k : A -> M B) w a w1 :
  m w = Ok (a, w1) -> bindM m k w = k a w1.
Proof. unfold bindM. intros ->. reflexivity. Qed.

Lemma lift_Ok {A : Type} (r : result A) w a :
  r = Ok a -> lift r w = Ok (a, w).
Proof. intros ->. reflexivity. Qed.

Lemma lift_inv {A : Type} (r : result A) w a w' :
  lift r w = Ok (a, w') -> r = Ok a /\ w' = w.
Proof. unfold lift. destruct r; intros H; inversion H; auto. Qed.

(* ================================================================= *)
(** ** Dictionaries *)

Lemma dict_get_set_same {V : Type} (d : dict V) k v :
  dict_get (dict_set d k v) k = Some v.
Proof.
  induction d as [|[k' v'] d IH]; cbn.
  - rewrite String.eqb_refl. reflexivity.
  - destruct (String.eqb k k') eqn:E; cbn.
    + rewrite String.eqb_refl. reflexivity.
    + rewrite E. exact IH.
Qed.

Lemma dict_get_set_other {V : Type} (d : dict V) k k' v :
  k' <> k -> dict_get (dict_set d k v) k' = dict_get d k'.
Proof.
  intros Hne. induction d as [|[k0 v0] d IH]; cbn.
  - destruct (String.eqb k' k) eqn:E; [|reflexivity].
    apply String.eqb_eq in E. contradiction.
  - destruct (String.eqb k k0) eqn:E; cbn.
    + apply String.eqb_eq in E. subst k0.
      destruct (String.eqb k' k) eqn:E'; [|reflexivity].
      apply String.eqb_eq in E'. contradiction.
    + destruct (String.eqb k' k0); [reflexivity|exact IH].
Qed.

Lemma dict_mem_set {V : Type} (d : dict V) k v k' :
  dict_mem (dict_set d k v) k' = String.eqb k' k || dict_mem d k'.
Proof.
  unfold dict_mem.
  destruct (String.eqb k' k) eqn:E.
  - apply String.eqb_eq in E. subst. rewrite dict_get_set_same. reflexivity.
  - rewrite dict_get_set_other; [reflexivity|].
    intros ->. rewrite String.eqb_refl in E. discriminate.
Qed.

Lemma dict_mem_app {V : Type} (d1 d2 : dict V) k :
  dict_mem (d1 ++ d2) k = dict_mem d1 k || dict_mem d2 k.
Proof.
  unfold dict_mem. induction d1 as [|[k1 v1] d1 IH]; [reflexivity|].
  cbn. destruct (String.eqb k k1); [reflexivity|exact IH].
Qed.

Lemma dict_mem_map_values {V W : Type} (g : string * V -> W) (d : dict V) k :
  dict_mem (map (fun c => (fst c, g c)) d) k = dict_mem d k.
Proof.
  unfold dict_mem. induction d as [|[k1 v1] d IH]; [reflexivity|].
  cbn. destruct (String.eqb k k1); [reflexivity|exact IH].
Qed.

Lemma dict_mem_In {V : Type} (d : dict V) k :
  In k (dict_keys d) -> dict_mem d k = true.
Proof.
  unfold dict_mem, dict_keys. induction d as [|[k1 v1] d IH]; cbn.
  - contradiction.
  - intros [->|H]; [rewrite String.eqb_refl; reflexivity|].
    destruct (String.eqb k k1); [reflexivity|auto].
Qed.

Lemma dict_get_app {V : Type} (d1 d2 : dict V) k :
  dict_get (d1 ++ d2) k
  = match dict_get d1 k with
    | Some v => Some v
    | None => dict_get d2 k
    end.
Proof.
  induction d1 as [|[k1 v1] d1 IH]; [reflexivity|].
  cbn. destruct (String.eqb k k1); [reflexivity|exact IH].
Qed.

Lemma dict_get_map_snd {V W : Type} (h : V -> W) (d : dict V) k :
  dict_get (map (fun c => (fst c, h (snd c))) d) k
  = option_map h (dict_get d k).
Proof.
  induction d as [|[k1 v1] d IH]; [reflexivity|].
  cbn. destruct (String.eqb k k1); [reflexivity|exact IH].
Qed.

Lemma dict_get_map_keyed {V W : Type} (g : string -> V -> W) (d : dict V)
  k :
  dict_get (map (fun c => (fst c, g (fst c) (snd c))) d) k
  = option_map (g k) (dict_get d k).
Proof.
  induction d as [|[k1 v1] d IH]; [reflexivity|].
  cbn. destruct (String.eqb k k1) eqn:E; [|exact IH].
  apply String.eqb_eq in E. subst. reflexivity.
Qed.

Lemma dict_get_filter_key {V : Type} (p : string -> bool) (d : dict V) k :
  dict_get (filter (fun c => p (fst c)) d) k
  = if p k then dict_get d k else None.
Proof.
  induction d as [|[k1 v1] d IH]; [destruct (p k); reflexivity|].
  cbn [filter fst]. destruct (String.eqb k k1) eqn:E.
  - apply String.eqb_eq in E. subst k1.
    destruct (p k) eqn:Ep.
    + cbn. rewrite String.eqb_refl. reflexivity.
    + rewrite IH. reflexivity.
  - destruct (p k1); cbn; rewrite ?E; exact IH.
Qed.

Lemma dict_get_None_not_In {V : Type} (d : dict V) k :
  ~ In k (dict_keys d) -> dict_get d k = None.
Proof.
  unfold dict_keys. induction d as [|[k1 v1] d IH]; [reflexivity|].
  cbn. intros H. destruct (String.eqb k k1) eqn:E.
  - apply String.eqb_eq in E. subst. tauto.
  - apply IH. tauto.
Qed.

Lemma dict_get_Some_In {V : Type} (d : dict V) k v :
  dict_get d k = Some v -> In k (dict_keys d).
Proof.
  unfold dict_keys. induction d as [|[k1 v1] d IH]; [discriminate|].
  cbn. destruct (String.eqb k k1) eqn:E.
  - apply String.eqb_eq in E. auto.
  - intros H. right. apply IH. exact H.
Qed.

(** Looking a name up in columns listed by key: the first key with that
    name answers. *)
Lemma dict_get_keyed {K V : Type} (r : K -> string) (v : K -> V)
  (keys : list K) (k0 : K) :
  In k0 keys ->
  (forall k, In k keys -> r k = r k0 -> k = k0) ->
  dict_get (map (fun k => (r k, v k)) keys) (r k0) = Some (v k0).
Proof.
  induction keys as [|k keys IH]; [contradiction|].
  intros Hin Huniq. cbn.
  destruct (String.eqb (r k0) (r k)) eqn:E.
  - apply String.eqb_eq in E.
    rewrite (Huniq k (or_introl eq_refl) (eq_sym E)). reflexivity.
  - destruct Hin as [->|Hin]; [rewrite String.eqb_refl in E; discriminate|].
    apply IH; [exact Hin|]. intros k' Hk'. apply Huniq. right. exact Hk'.
Qed.

Lemma dict_keys_set {V : Type} (d : dict V) k v k' :
  In k' (dict_keys (dict_set d k v)) <-> k' = k \/ In k' (dict_keys d).
Proof.
  unfold dict_keys. induction d as [|[k1 v1] d IH]; cbn.
  - intuition auto.
  - destruct (String.eqb k k1) eqn:E; cbn.
    + apply String.eqb_eq in E. subst. intuition auto.
    + rewrite IH. intuition auto.
Qed.

Lemma dict_get_filter_ne {V : Type} (d : dict V) k n :
  n <> k ->
  dict_get (filter (fun c => negb (String.eqb (fst c) k)) d) n
  = dict_get d n.
Proof.
  intros Hne. induction d as [|[k1 v1] d IH]; [reflexivity|].
  cbn [filter fst]. destruct (String.eqb k1 k) eqn:E; cbn.
  - apply String.eqb_eq in E. subst k1.
    destruct (String.eqb n k) eqn:E'; [|exact IH].
    apply String.eqb_eq in E'. contradiction.
  - destruct (String.eqb n k1); [reflexivity|exact IH].
Qed.

Lemma NoDup_map_inj {A B : Type} (h : A -> B) (l : list A) x y :
  NoDup (map h l) -> In x l -> In y l -> h x = h y -> x = y.
Proof.
  induction l as [|a l IH]; [contradiction|].
  cbn. intros Hnd Hx Hy Heq. inversion Hnd as [|? ? Hnotin Hnd']. subst.
  destruct Hx as [->|Hx], Hy as [->|Hy]; auto.
  - exfalso. apply Hnotin. rewrite Heq. apply in_map. exact Hy.
  - exfalso. apply Hnotin. rewrite <- Heq. apply in_map. exact Hx.
Qed.

Lemma str_mem_In s l : str_mem s l = true <-> In s l.
Proof.
  unfold str_mem. rewrite existsb_exists. split.
  - intros [x [Hx E]]. apply String.eqb_eq in E. subst. exact Hx.
  - intros H. exists s. split; [exact H|apply String.eqb_refl].
Qed.

(* ================================================================= *)
(** ** Preconditions (lines 38-40 and 74) *)

Lemma count_distinct_one (l : list string) :
  count_distinct l = 1 -> exists e, forall x, In x l -> x = e.
Proof.
  unfold count_distinct. intros H.
  destruct (nodup string_dec l) as [|e [|e' r]] eqn:E; try discriminate.
  exists e. intros x Hx.
  apply (nodup_In string_dec) in Hx. rewrite E in Hx.
  destruct Hx as [Hx|[]]. congruence.
Qed.

(** Claim C3.  An empty instance batch makes [calculate_all_features] fail
    with the assertion of line 74, whatever the entity set, the slice
    provider and the store are: nothing is requested or computed first and
    no table comes back.  Features defined on two different entities make
    the constructor fail with the assertion of lines 39-40: no backend is
    built. *)
Theorem preconditions_are_fatal (ext : Externals) (es : EntitySet)
  (feats : list feature) (self : PandasBackend)
  (time_last_arg : option time) (training_window : option Z)
  (precalculated : option (dict DataFrame)) (ignored : option (list string))
  (w : world) :
  calculate_all_features ext self [] time_last_arg training_window
      precalculated ignored w
    = Err (AssertionError "0 instance ids provided")
  /\ ((exists f g, In f feats /\ In g feats /\
                   e_id (entity f) <> e_id (entity g)) ->
      PandasBackend_init ext es feats
        = Err (AssertionError
                 "Features must all be defined on the same entity")).
Proof.
  split; [reflexivity|].
  intros [f [g [Hf [Hg Hne]]]].
  unfold PandasBackend_init.
  destruct (Nat.eqb (count_distinct (map (fun f => e_id (entity f)) feats)) 1)
    eqn:E; [|reflexivity].
  apply Nat.eqb_eq in E. apply count_distinct_one in E.
  destruct E as [e He]. exfalso. apply Hne.
  rewrite (He (e_id (entity f))), (He (e_id (entity g)));
    [reflexivity| |]; apply in_map_iff; eauto.
Qed.

Lemma preconditions_are_fatal_witness :
  (exists f g, In f [Shop.item_count; Shop.double_id] /\
               In g [Shop.item_count; Shop.double_id] /\
               e_id (entity f) <> e_id (entity g)) /\
  PandasBackend_init Shop.ext (Shop.es true)
      [Shop.item_count; Shop.double_id]
    = Err (AssertionError "Features must all be defined on the same entity").
Proof.
  assert (H : exists f g, In f [Shop.item_count; Shop.double_id] /\
                          In g [Shop.item_count; Shop.double_id] /\
                          e_id (entity f) <> e_id (entity g)).
  { exists Shop.item_count, Shop.double_id. simpl.
    repeat split; auto. discriminate. }
  split; [exact H|].
  exact (proj2 (preconditions_are_fatal Shop.ext (Shop.es true)
                  [Shop.item_count; Shop.double_id] (Shop.backend true)
                  None None None None Shop.w0) H).
Defined.

(* ================================================================= *)
(** ** The all-default table (lines 104-106 and 197-210) *)

Lemma map_nth_repeat {A : Type} (row : list A) (d : A) j n :
  map (fun r => nth j r d) (repeat row n) = repeat (nth j row d) n.
Proof. induction n; cbn; congruence. Qed.

Lemma default_columns_of_rows (pre feats : list feature) (n : nat) :
  map (fun jc =>
         (snd jc,
          series_of_list
            (map (fun row => nth (fst jc) row VNaN)
                 (repeat (map default_value (pre ++ feats)) n))))
      (combine (seq (List.length pre) (List.length feats))
               (map get_name feats))
  = map (fun f => default_column f n) feats.
Proof.
  revert pre. induction feats as [|f feats IH]; intros pre; [reflexivity|].
  cbn [List.length seq map combine fst snd]. f_equal.
  - unfold default_column. f_equal. f_equal.
    rewrite map_nth_repeat. f_equal.
    rewrite map_app. rewrite app_nth2; rewrite length_map; [|lia].
    rewrite Nat.sub_diag. reflexivity.
  - specialize (IH (pre ++ [f])).
    rewrite <- app_assoc in IH. cbn [app] in IH.
    rewrite length_app in IH. cbn [List.length] in IH.
    rewrite Nat.add_1_r in IH. exact IH.
Qed.

Lemma generate_default_df_plain (self : PandasBackend) (ids : list value) :
  features self <> [] ->
  exists f0,
    hd_error (features self) = Some f0 /\
    generate_default_df self ids None
      = Ok (mkDataFrame (Some (e_index (entity f0))) ids
              (map (fun f => default_column f (List.length ids))
                   (features self))).
Proof.
  intros Hne. unfold generate_default_df.
  destruct (features self) as [|f0 rest] eqn:E; [contradiction|].
  exists f0. split; [reflexivity|]. cbn [first bind].
  unfold frame_of_rows. cbn [df_index df_columns].
  rewrite length_map.
  rewrite (default_columns_of_rows [] (f0 :: rest)). reflexivity.
Qed.

Lemma init_inv ext es feats self :
  PandasBackend_init ext es feats = Ok self ->
  entityset self = es /\ features self = feats /\ feats <> [] /\
  time_last self = None /\
  forall f, In f feats -> e_id (entity f) = target_eid self.
Proof.
  unfold PandasBackend_init, py_assert.
  destruct (Nat.eqb (count_distinct (map (fun f => e_id (entity f)) feats)) 1)
    eqn:E; [|discriminate].
  destruct feats as [|f0 rest]; [discriminate|]. cbn [bind first].
  intros H. inversion H. cbn. repeat split; try discriminate.
  intros f Hf. apply Nat.eqb_eq in E. apply count_distinct_one in E.
  destruct E as [e He].
  rewrite (He (e_id (entity f))), (He (e_id (entity f0))); auto.
  - apply in_map_iff. exists f0. split; [reflexivity|]. left. reflexivity.
  - apply in_map_iff. eauto.
Qed.

(** Claim C2.  When the slice provider answers [None] for a non-empty
    batch, [calculate_all_features] returns at once a table whose row
    labels are the requested ids and whose columns are the requested
    features in order, every cell holding the default value of its
    column's feature. *)
Theorem no_data_gives_defaults (ext : Externals) (es : EntitySet)
  (feats : list feature) (self : PandasBackend) (ids : list value)
  (time_last_arg : option time) (training_window : option Z)
  (precalculated : option (dict DataFrame)) (ignored : option (list string))
  (target_entity : Entity) (w w1 : world) :
  PandasBackend_init ext es feats = Ok self ->
  ids <> [] ->
  es_entity es (target_eid self) = Ok target_entity ->
  get_pandas_data_slice es (ordered_for ext self ignored) (target_eid self)
      ids time_last_arg training_window w = Ok (None, w1) ->
  exists res,
    calculate_all_features ext self ids time_last_arg training_window
        precalculated ignored w = Ok (res, w1) /\
    df_index res = ids /\
    df_columns res = map (fun f => default_column f (List.length ids)) feats /\
    forall i j id f,
      nth_error ids i = Some id -> nth_error feats j = Some f ->
      column_name res j = Some (get_name f) /\
      cell res j i = Some (default_value f).
Proof.
  intros Hinit Hids Hte Hslice.
  destruct (init_inv _ _ _ _ Hinit) as [Hes [Hfe [Hne _]]].
  subst es feats.
  destruct (generate_default_df_plain
              (mkPandasBackend (entityset self) (target_eid self)
                 (features self) (feature_tree self)
                 (Some (match time_last_arg with
                        | Some t => t
                        | None => datetime_now ext
                        end))) ids Hne) as [f0 [_ Hgen]].
  cbn [features] in Hgen.
  eexists. split; [|split; [|split]].
  - unfold calculate_all_features, computed_frames.
    destruct ids as [|id0 ids']; [contradiction|].
    cbn [List.length Nat.ltb Nat.leb py_assert entityset target_eid].
    rewrite Hte.
    change (ordered_for ext _ ignored) with (ordered_for ext self ignored).
    unfold bindM, lift, ret. rewrite Hslice, Hgen. reflexivity.
  - reflexivity.
  - reflexivity.
  - intros i j id f Hi Hj. unfold column_name, cell. cbn [df_columns].
    rewrite nth_error_map, Hj. cbn. split; [reflexivity|].
    apply nth_error_repeat. apply nth_error_Some. congruence.
Qed.

Lemma no_data_gives_defaults_witness :
  exists res,
    calculate_all_features Shop.ext (Shop.backend false) [VInt 1; VInt 2]
        None None None None Shop.w0 = Ok (res, Shop.w0) /\
    df_index res = [VInt 1; VInt 2] /\
    df_columns res = [default_column Shop.item_count 2].
Proof.
  destruct (no_data_gives_defaults Shop.ext (Shop.es false)
              [Shop.item_count] (Shop.backend false) [VInt 1; VInt 2]
              None None None None Shop.orders Shop.w0 Shop.w0)
    as [res [H1 [H2 [H3 _]]]].
  - reflexivity.
  - discriminate.
  - reflexivity.
  - reflexivity.
  - exists res. auto.
Defined.

(* ================================================================= *)
(** ** Counting row labels *)

Lemma py_in_true x l :
  py_in x l = true <-> exists y, In y l /\ py_eq x y = true.
Proof. unfold py_in. apply existsb_exists. Qed.

Lemma py_in_false x l :
  py_in x l = false -> forall y, In y l -> py_eq x y = false.
Proof.
  intros H y Hy. destruct (py_eq x y) eqn:E; [|reflexivity].
  assert (py_in x l = true) by (apply py_in_true; eauto). congruence.
Qed.

Lemma existsb_py_unique (p : value -> bool) (l : list value) :
  (forall x y, py_eq x y = true -> p y = true -> p x = true) ->
  existsb p (py_unique l) = existsb p l.
Proof.
  intros Hp. induction l as [|x l IH]; [reflexivity|].
  cbn [py_unique existsb]. rewrite <- IH.
  destruct (p x) eqn:Ex; [reflexivity|]. cbn.
  destruct (existsb p (py_unique l)) eqn:E.
  - apply existsb_exists in E. destruct E as [y [Hy Hpy]].
    apply existsb_exists. exists y. split; [|exact Hpy].
    apply filter_In. split; [exact Hy|].
    destruct (py_eq x y) eqn:Exy; [|reflexivity].
    rewrite (Hp x y Exy Hpy) in Ex. discriminate.
  - destruct (existsb p (filter _ (py_unique l))) eqn:E'; [|reflexivity].
    apply existsb_exists in E'. destruct E' as [y [Hy Hpy]].
    apply filter_In in Hy. destruct Hy as [Hy _].
    assert (existsb p (py_unique l) = true)
      by (apply existsb_exists; eauto).
    congruence.
Qed.

Lemma py_in_py_unique s l : py_in s (py_unique l) = py_in s l.
Proof.
  unfold py_in. apply existsb_py_unique. intros x y Hxy Hsy.
  eapply py_eq_trans; [exact Hsy|]. rewrite py_eq_sym. exact Hxy.
Qed.

Lemma count_label_zero x l : py_in x l = false -> count_label x l = 0.
Proof.
  intros H. unfold count_label. induction l as [|a l IH]; [reflexivity|].
  cbn in *. apply orb_false_iff in H. destruct H as [H1 H2].
  rewrite H1. auto.
Qed.

Lemma count_label_pos x l : py_in x l = true -> 1 <= count_label x l.
Proof.
  intros H. unfold count_label. induction l as [|a l IH]; [discriminate|].
  cbn in *. destruct (py_eq x a); cbn; [lia|]. auto.
Qed.

Lemma count_label_le_one l :
  py_nodup l = true -> forall x, count_label x l <= 1.
Proof.
  induction l as [|a l IH]; intros Hn x; [cbn; lia|].
  cbn in Hn. apply andb_true_iff in Hn. destruct Hn as [Ha Hn].
  apply negb_true_iff in Ha. unfold count_label. cbn.
  destruct (py_eq x a) eqn:E; [|apply IH; exact Hn].
  cbn. enough (count_label x l = 0) as H0 by (unfold count_label in H0; lia).
  apply count_label_zero. destruct (py_in x l) eqn:Ex; [|reflexivity].
  apply py_in_true in Ex. destruct Ex as [y [Hy Hxy]].
  assert (py_in a l = true); [|congruence].
  apply py_in_true. exists y. split; [exact Hy|].
  eapply py_eq_trans; [|exact Hxy]. rewrite py_eq_sym. exact E.
Qed.

Lemma count_label_app x l1 l2 :
  count_label x (l1 ++ l2) = count_label x l1 + count_label x l2.
Proof. unfold count_label. rewrite filter_app, length_app. reflexivity. Qed.

Lemma py_in_filter x p l :
  py_in x (filter p l) = true -> py_in x l = true.
Proof.
  rewrite !py_in_true. intros [y [Hy Hxy]].
  apply filter_In in Hy. destruct Hy. eauto.
Qed.

Lemma py_nodup_filter p l : py_nodup l = true -> py_nodup (filter p l) = true.
Proof.
  induction l as [|a l IH]; [reflexivity|]. cbn. intros H.
  apply andb_true_iff in H. destruct H as [Ha Hn].
  destruct (p a); cbn; [|auto].
  rewrite IH by exact Hn. rewrite andb_true_r.
  apply negb_true_iff in Ha. apply negb_true_iff.
  destruct (py_in a (filter p l)) eqn:E; [|reflexivity].
  apply py_in_filter in E. congruence.
Qed.

(** Rows of the finished table followed by one row per missing id: every
    requested id labels exactly one row, and every row is labelled by a
    requested id. *)
Lemma backfilled_labels (labels ids : list value) :
  py_nodup ids = true -> self_equal ids = true ->
  py_nodup labels = true ->
  forallb (fun l => py_in l ids) labels = true ->
  (forall i, In i ids ->
             count_label i (labels ++ missing_from labels ids) = 1) /\
  (forall l, In l (labels ++ missing_from labels ids) ->
             py_in l ids = true).
Proof.
  intros Hids Hself Hlab Hsub. unfold self_equal in Hself.
  rewrite forallb_forall in Hself, Hsub. split.
  - intros i Hi. rewrite count_label_app.
    destruct (py_in i labels) eqn:E.
    + assert (count_label i (missing_from labels ids) = 0).
      { apply count_label_zero.
        destruct (py_in i (missing_from labels ids)) eqn:Em; [|reflexivity].
        apply py_in_true in Em. destruct Em as [m [Hm Him]].
        apply filter_In in Hm. destruct Hm as [_ Hm].
        apply negb_true_iff in Hm.
        apply py_in_true in E. destruct E as [l [Hl Hil]].
        assert (py_in m labels = true); [|congruence].
        apply py_in_true. exists l. split; [exact Hl|].
        eapply py_eq_trans; [|exact Hil]. rewrite py_eq_sym. exact Him. }
      pose proof (count_label_pos _ _ E).
      pose proof (count_label_le_one _ Hlab i). lia.
    + rewrite (count_label_zero _ _ E). cbn.
      assert (py_in i (missing_from labels ids) = true).
      { apply py_in_true. exists i. split; [|apply Hself; exact Hi].
        apply filter_In. split; [exact Hi|]. rewrite E. reflexivity. }
      pose proof (count_label_pos _ _ H).
      pose proof (count_label_le_one _
                    (py_nodup_filter (fun i => negb (py_in i labels)) _ Hids)
                    i).
      unfold missing_from in *. lia.
  - intros l Hl. apply in_app_or in Hl. destruct Hl as [Hl|Hl].
    + apply Hsub. exact Hl.
    + apply filter_In in Hl. destruct Hl as [Hl _].
      apply py_in_true. exists l. split; [exact Hl|apply Hself; exact Hl].
Qed.

Lemma filter_or_length {A : Type} (p q : A -> bool) (l : list A) :
  (forall x, In x l -> p x = true -> q x = false) ->
  List.length (filter (fun x => p x || q x) l)
  = List.length (filter p l) + List.length (filter q l).
Proof.
  induction l as [|a l IH]; intros H; [reflexivity|]. cbn.
  assert (Hl : forall x, In x l -> p x = true -> q x = false)
    by (intros; apply H; [right|]; assumption).
  specialize (IH Hl).
  destruct (p a) eqn:Ep; cbn.
  - rewrite (H a (or_introl eq_refl) Ep). cbn. lia.
  - destruct (q a); cbn; lia.
Qed.

(** As many requested ids have a row as there are rows. *)
Lemma present_ids_count (labels ids : list value) :
  py_nodup ids = true -> py_nodup labels = true ->
  forallb (fun l => py_in l ids) labels = true ->
  List.length (filter (fun i => py_in i labels) ids) = List.length labels.
Proof.
  intros Hids. induction labels as [|a labels IH]; intros Hlab Hsub.
  - clear. induction ids as [|i ids IH]; [reflexivity|exact IH].
  - cbn in Hlab, Hsub.
    apply andb_true_iff in Hlab. destruct Hlab as [Ha Hlab].
    apply andb_true_iff in Hsub. destruct Hsub as [Hain Hsub].
    apply negb_true_iff in Ha.
    cbn [py_in existsb List.length].
    rewrite (filter_ext _ (fun i => py_eq a i || py_in i labels)).
    2:{ intros i. rewrite (py_eq_sym i a). reflexivity. }
    rewrite filter_or_length.
    + rewrite (IH Hlab Hsub).
      change (count_label a ids + List.length labels
              = S (List.length labels)).
      pose proof (count_label_pos _ _ Hain).
      pose proof (count_label_le_one _ Hids a). lia.
    + intros i _ Hai. destruct (py_in i labels) eqn:E; [|reflexivity].
      apply py_in_true in E. destruct E as [l [Hl Hil]].
      assert (py_in a labels = true); [|congruence].
      apply py_in_true. exists l. split; [exact Hl|].
      eapply py_eq_trans; eassumption.
Qed.

Lemma backfilled_length (labels ids : list value) :
  py_nodup ids = true -> py_nodup labels = true ->
  forallb (fun l => py_in l ids) labels = true ->
  List.length (labels ++ missing_from labels ids) = List.length ids.
Proof.
  intros Hids Hlab Hsub. rewrite length_app.
  rewrite <- (present_ids_count labels ids Hids Hlab Hsub).
  unfold missing_from.
  rewrite Nat.add_comm. symmetry.
  rewrite <- (filter_length (fun i => py_in i labels) ids) at 1.
  lia.
Qed.

(* ================================================================= *)
(** ** Cutting out the result table (lines 187-195) *)

Lemma select_columns_keys (df : DataFrame) (keys : list string) :
  (forall k, In k keys -> has_column df k = true) ->
  select_columns df keys
  = Ok (with_columns df (map (fun k => (k, column_of df k)) keys)).
Proof.
  intros H. unfold select_columns.
  assert (Hm : mapM (fun n => s <- get_column df n ;; Ok (n, s)) keys
               = Ok (map (fun k => (k, column_of df k)) keys)).
  { induction keys as [|k keys IH]; [reflexivity|].
    cbn [mapM map]. rewrite IH by (intros; apply H; right; assumption).
    specialize (H k (or_introl eq_refl)).
    unfold has_column, dict_mem in H.
    unfold get_column, dict_item, column_of.
    destruct (dict_get (df_columns df) k); [reflexivity|discriminate]. }
  rewrite Hm. reflexivity.
Qed.

Lemma select_columns_all (df : DataFrame) (names : list string) :
  (forall n, In n names -> has_column df n = true) ->
  exists res,
    select_columns df names = Ok res /\
    df_index res = df_index df /\
    dict_keys (df_columns res) = names.
Proof.
  intros H. unfold select_columns.
  assert (Hm : exists cols,
             mapM (fun n => s <- get_column df n ;; Ok (n, s)) names
               = Ok cols /\ dict_keys cols = names).
  { induction names as [|n names IH]; [exists []; auto|].
    destruct IH as [cols [Hc Hk]]; [intros; apply H; right; assumption|].
    specialize (H n (or_introl eq_refl)).
    unfold has_column, dict_mem in H. cbn [mapM].
    unfold get_column at 1, dict_item.
    destruct (dict_get (df_columns df) n) as [s|]; [|discriminate].
    cbn [bind]. rewrite Hc. cbn [bind].
    eexists. split; [reflexivity|].
    unfold dict_keys in *. cbn. congruence. }
  destruct Hm as [cols [Hc Hk]]. rewrite Hc. cbn [bind].
  eexists. split; [reflexivity|]. split; [reflexivity|exact Hk].
Qed.

Lemma has_column_append df other n :
  has_column (append df other) n = has_column df n || has_column other n.
Proof.
  unfold has_column, dict_mem, append. cbn [df_columns].
  rewrite dict_get_app.
  rewrite (dict_get_map_keyed
             (fun k a => joined_series a
                           match dict_get (df_columns other) k with
                           | Some s => s
                           | None => absent_series (nrows other)
                           end)).
  rewrite (dict_get_map_snd (joined_series (absent_series (nrows df)))).
  rewrite (dict_get_filter_key (fun k => negb (has_column df k))).
  unfold has_column, dict_mem.
  destruct (dict_get (df_columns df) n); [reflexivity|].
  cbn. destruct (dict_get (df_columns other) n); reflexivity.
Qed.

Lemma has_column_set_column df k s n :
  has_column (set_column df k s) n = String.eqb n k || has_column df n.
Proof. unfold has_column, set_column. cbn. apply dict_mem_set. Qed.

Lemma assign_list_ok df name vals :
  List.length vals = nrows df ->
  assign_list df name vals = Ok (set_column df name (series_of_list vals)).
Proof. intros H. unfold assign_list. rewrite H, Nat.eqb_refl. reflexivity. Qed.

Lemma default_extras (n : nat) (cols : list string) :
  forall df, nrows df = n ->
  exists df',
    foldM (fun df c =>
             if negb (has_column df c)
             then assign_list df c (repeat VNaN n)
             else Ok df) cols df = Ok df' /\
    df_index df' = df_index df /\
    forall k, has_column df k = true -> has_column df' k = true.
Proof.
  induction cols as [|c cols IH]; intros df Hn.
  - exists df. cbn. auto.
  - cbn [foldM]. destruct (negb (has_column df c)).
    + rewrite assign_list_ok by (rewrite repeat_length; auto).
      cbn [bind].
      destruct (IH (set_column df c (series_of_list (repeat VNaN n))))
        as [df' [H1 [H2 H3]]]; [exact Hn|].
      exists df'. split; [exact H1|]. split; [exact H2|].
      intros k Hk. apply H3. rewrite has_column_set_column, Hk.
      apply orb_true_r.
    + cbn [bind]. apply IH. exact Hn.
Qed.

Lemma has_default_column (feats : list feature) (n : nat) (f : feature) :
  In f feats ->
  dict_mem (map (fun f => default_column f n) feats) (get_name f) = true.
Proof.
  intros H. apply dict_mem_In. unfold dict_keys. rewrite map_map.
  apply in_map_iff. exists f. auto.
Qed.

Lemma generate_default_df_extras (self : PandasBackend) (ids : list value)
  (extra : list string) :
  features self <> [] ->
  exists dflt,
    generate_default_df self ids (Some extra) = Ok dflt /\
    df_index dflt = ids /\
    forall f, In f (features self) -> has_column dflt (get_name f) = true.
Proof.
  intros Hne. unfold generate_default_df.
  destruct (features self) as [|f0 rest] eqn:E; [contradiction|].
  cbn [first bind].
  destruct (default_extras (List.length ids) extra
              (mkDataFrame (Some (e_index (entity f0))) ids
                 (df_columns (frame_of_rows
                    (repeat (map default_value (f0 :: rest))
                            (List.length ids))
                    (map get_name (f0 :: rest)) ids))))
    as [dflt [H1 [H2 H3]]]; [reflexivity|].
  exists dflt. split; [exact H1|]. split; [exact H2|].
  intros f Hf. apply H3. unfold has_column, frame_of_rows.
  cbn [df_columns]. rewrite length_map.
  rewrite (default_columns_of_rows [] (f0 :: rest)).
  apply has_default_column. exact Hf.
Qed.

Lemma missing_ids_of_labels (df : DataFrame) (col : string)
  (ids : list value) :
  has_column df col = true ->
  filterM (fun i => b <- in_series df col i ;; Ok (negb b)) ids
  = Ok (missing_from (df_index df) ids).
Proof.
  intros H. unfold has_column, dict_mem in H.
  induction ids as [|i ids IH]; [reflexivity|].
  cbn [filterM]. unfold in_series at 1, get_column, dict_item.
  destruct (dict_get (df_columns df) col); [|discriminate].
  cbn [bind]. rewrite IH. reflexivity.
Qed.

(** The cut: the rows of the finished table, then one row per missing id;
    the requested columns, in order. *)
Lemma assemble_result_shape (self : PandasBackend) (te : Entity)
  (ids : list value) (df : DataFrame) :
  features self <> [] ->
  has_column df (e_index te) = true ->
  (forallb (has_column df) (map get_name (features self)) = true \/
   missing_from (df_index df) ids <> []) ->
  exists res,
    assemble_result self te ids df = Ok res /\
    df_index res = df_index df ++ missing_from (df_index df) ids /\
    dict_keys (df_columns res) = map get_name (features self).
Proof.
  intros Hne Hcol Hnames. unfold assemble_result.
  rewrite (missing_ids_of_labels df _ ids Hcol). cbn [bind].
  destruct (missing_from (df_index df) ids) as [|m ms] eqn:Em.
  - destruct Hnames as [Hnames|Hnames]; [|contradiction].
    cbn [bind]. rewrite forallb_forall in Hnames.
    destruct (select_columns_all df _ Hnames) as [res [H1 [H2 H3]]].
    exists res. rewrite app_nil_r. auto.
  - destruct (generate_default_df_extras self (m :: ms)
                (dict_keys (df_columns df)) Hne) as [dflt [H1 [H2 H3]]].
    rewrite H1. cbn [bind].
    destruct (select_columns_all (append df dflt)
                (map get_name (features self))) as [res [R1 [R2 R3]]].
    + intros n Hn. apply in_map_iff in Hn. destruct Hn as [f [<- Hf]].
      rewrite has_column_append, (H3 f Hf). apply orb_true_r.
    + exists res. split; [exact R1|]. split; [|exact R3].
      rewrite R2. cbn [append df_index]. rewrite H2. reflexivity.
Qed.

Lemma default_extras_keeps (n : nat) (cols : list string) :
  forall df df',
    foldM (fun df c =>
             if negb (has_column df c)
             then assign_list df c (repeat VNaN n)
             else Ok df) cols df = Ok df' ->
    forall k s, dict_get (df_columns df) k = Some s ->
                dict_get (df_columns df') k = Some s.
Proof.
  induction cols as [|c cols IH]; intros df df' H k s Hk.
  - cbn in H. inversion H. subst. exact Hk.
  - cbn [foldM] in H. destruct (has_column df c) eqn:Ec; cbn [negb] in H.
    + cbn [bind] in H. eapply IH; eassumption.
    + apply bind_Ok in H. destruct H as [df1 [H1 H2]].
      unfold assign_list in H1.
      destruct (Nat.eqb (List.length (repeat VNaN n)) (nrows df));
        [|discriminate].
      inversion H1. subst df1. eapply IH; [exact H2|].
      unfold set_column. cbn [df_columns with_columns].
      rewrite dict_get_set_other; [exact Hk|].
      intros ->. unfold has_column, dict_mem in Ec. rewrite Hk in Ec.
      discriminate.
Qed.

(** The default table made for the missing ids holds, under each feature's
    name, the feature's default in every row. *)
Lemma generate_default_df_column (self : PandasBackend) (ids : list value)
  (extra : list string) (dflt : DataFrame) (f : feature) :
  generate_default_df self ids (Some extra) = Ok dflt ->
  NoDup (map get_name (features self)) ->
  In f (features self) ->
  dict_get (df_columns dflt) (get_name f)
  = Some (series_of_list (repeat (default_value f) (List.length ids))).
Proof.
  unfold generate_default_df. intros H Hnd Hin.
  destruct (features self) as [|f0 rest] eqn:E; [contradiction|].
  cbn [first bind] in H.
  eapply default_extras_keeps; [exact H|].
  unfold frame_of_rows. cbn [df_columns]. rewrite length_map.
  rewrite (default_columns_of_rows [] (f0 :: rest)).
  unfold default_column.
  apply (dict_get_keyed get_name
           (fun f => series_of_list (repeat (default_value f)
                                            (List.length ids)))
           (f0 :: rest) f Hin).
  intros g Hg Heq. eapply NoDup_map_inj; eassumption.
Qed.

Lemma wf_frame_column df n s :
  wf_frame df = true -> dict_get (df_columns df) n = Some s ->
  List.length (s_values s) = nrows df.
Proof.
  unfold wf_frame. rewrite forallb_forall. intros Hwf Hn.
  assert (Hin : In (n, s) (df_columns df)).
  { clear Hwf. induction (df_columns df) as [|[k v] d IH]; [discriminate|].
    cbn in Hn. destruct (String.eqb n k) eqn:Ek.
    - apply String.eqb_eq in Ek. inversion Hn. subst. left. reflexivity.
    - right. apply IH. exact Hn. }
  specialize (Hwf _ Hin). apply Nat.eqb_eq in Hwf. exact Hwf.
Qed.

(** In the appended table, the rows that come from [other] hold [other]'s
    cells in every column [other] has. *)
Lemma append_tail_cell (df other : DataFrame) n s k :
  wf_frame df = true ->
  dict_get (df_columns other) n = Some s ->
  nth_error (s_values (column_of (append df other) n)) (nrows df + k)
  = nth_error (s_values s) k.
Proof.
  intros Hwf Hs. unfold column_of, append. cbn [df_columns].
  rewrite dict_get_app.
  rewrite (dict_get_map_keyed
             (fun k a => joined_series a
                           match dict_get (df_columns other) k with
                           | Some s => s
                           | None => absent_series (nrows other)
                           end)).
  rewrite (dict_get_map_snd (joined_series (absent_series (nrows df)))).
  rewrite (dict_get_filter_key (fun k => negb (has_column df k))).
  unfold has_column, dict_mem. rewrite Hs.
  destruct (dict_get (df_columns df) n) as [a|] eqn:Ea;
    cbn [option_map negb joined_series absent_series s_values].
  - rewrite nth_error_app2;
      rewrite (wf_frame_column df n a Hwf Ea); [|lia].
    f_equal. lia.
  - rewrite nth_error_app2; rewrite repeat_length; [|lia].
    f_equal. lia.
Qed.

(** The rows added for the missing ids: labelled by them, in order, with
    every feature's default in the feature's column. *)
Lemma assemble_result_defaults (self : PandasBackend) (te : Entity)
  (ids : list value) (df res : DataFrame) :
  assemble_result self te ids df = Ok res ->
  has_column df (e_index te) = true ->
  wf_frame df = true ->
  NoDup (map get_name (features self)) ->
  forall k m j f,
    nth_error (missing_from (df_index df) ids) k = Some m ->
    nth_error (features self) j = Some f ->
    nth_error (df_index res) (nrows df + k) = Some m /\
    column_name res j = Some (get_name f) /\
    cell res j (nrows df + k) = Some (default_value f).
Proof.
  intros Hres Hcol Hwf Hnd k m j f Hk Hj.
  unfold assemble_result in Hres.
  rewrite (missing_ids_of_labels df _ ids Hcol) in Hres. cbn [bind] in Hres.
  destruct (missing_from (df_index df) ids) as [|m0 ms] eqn:Em.
  { destruct k; discriminate. }
  apply bind_Ok in Hres. destruct Hres as [df2 [Hd Hsel]].
  apply bind_Ok in Hd. destruct Hd as [dflt [Hgen Hd]].
  inversion Hd. subst df2.
  assert (Hfe : features self <> []) by (intros E; rewrite E in Hj;
                                         destruct j; discriminate).
  destruct (generate_default_df_extras self (m0 :: ms)
              (dict_keys (df_columns df)) Hfe) as [dflt' [H1 [H2 H3]]].
  rewrite H1 in Hgen. inversion Hgen. subst dflt'.
  rewrite select_columns_keys in Hsel.
  2:{ intros n Hn. apply in_map_iff in Hn. destruct Hn as [g [<- Hg]].
      rewrite has_column_append, (H3 g Hg). apply orb_true_r. }
  inversion Hsel. subst res. clear Hsel.
  assert (Hin : In f (features self)) by (eapply nth_error_In; exact Hj).
  split; [|split].
  - cbn [with_columns df_index append]. rewrite H2.
    rewrite nth_error_app2 by (unfold nrows; lia).
    unfold nrows. rewrite Nat.add_comm, Nat.add_sub. exact Hk.
  - unfold column_name, with_columns. cbn [df_columns].
    rewrite !nth_error_map, Hj. reflexivity.
  - unfold cell, with_columns. cbn [df_columns].
    rewrite !nth_error_map, Hj. cbn [option_map snd].
    rewrite (append_tail_cell df dflt (get_name f) _ k Hwf
               (generate_default_df_column self _ _ _ f H1 Hnd Hin)).
    cbn [series_of_list s_values].
    apply nth_error_repeat. apply nth_error_Some. congruence.
Qed.

(* ================================================================= *)
(** ** Transform features (lines 228-257) *)

Lemma nth_error_replace_nth {A : Type} (l : list A) n a x :
  nth_error l n = Some x -> nth_error (replace_nth n a l) n = Some a.
Proof.
  revert n. induction l as [|y l IH]; intros [|n]; cbn; try discriminate.
  - reflexivity.
  - apply IH.
Qed.

Lemma replace_nth_twice {A : Type} (l : list A) n a b :
  replace_nth n b (replace_nth n a l) = replace_nth n b l.
Proof.
  revert n. induction l as [|y l IH]; intros [|n]; cbn; try reflexivity.
  rewrite IH. reflexivity.
Qed.

Lemma replace_nth_same {A : Type} (l : list A) n x :
  nth_error l n = Some x -> replace_nth n x l = l.
Proof.
  revert n. induction l as [|y l IH]; intros [|n]; cbn; try discriminate.
  - intros H. inversion H. reflexivity.
  - intros H. rewrite IH by exact H. reflexivity.
Qed.

Lemma get_column_set_column df name s :
  get_column (set_column df name s) name = Ok s.
Proof.
  unfold get_column, set_column, dict_item. cbn [df_columns with_columns].
  rewrite dict_get_set_same. reflexivity.
Qed.

Lemma get_column_set_column_other df name s n :
  n <> name -> get_column (set_column df name s) n = get_column df n.
Proof.
  intros H. unfold get_column, set_column, dict_item.
  cbn [df_columns with_columns]. rewrite dict_get_set_other by exact H.
  reflexivity.
Qed.

Lemma set_default_column_spec frame f :
  set_default_column frame f
  = Ok (set_column frame (get_name f)
          (series_of_list (repeat (default_value f) (nrows frame)))).
Proof.
  unfold set_default_column. destruct (has_iter (default_value f)).
  - apply assign_list_ok. apply repeat_length.
  - reflexivity.
Qed.

(** A loop over the group that updates the one table object at [loc] is the
    iteration of its body on the table's value. *)
Lemma table_loop (step : DataFrame -> feature -> result DataFrame)
  (loc : nat) (feats : list feature) :
  forall w frame0,
    nth_error (heap w) loc = Some frame0 ->
    forW (fun f => frame <~ read loc ;;
                   frame' <~ lift (step frame f) ;;
                   write loc frame') feats w
    = match foldM step feats frame0 with
      | Ok fr => Ok (tt, with_table w loc fr)
      | Err e => Err e
      end.
Proof.
  unfold forW. induction feats as [|f feats IH]; intros w frame0 Hloc.
  - cbn. unfold with_table. rewrite (replace_nth_same _ _ _ Hloc).
    destruct w; reflexivity.
  - cbn [foldW foldM]. unfold bindM at 1. unfold bindM at 1.
    unfold read at 1. rewrite Hloc. unfold bindM at 1, lift at 1.
    destruct (step frame0 f) as [fr|e]; [|reflexivity].
    cbn [bind write].
    rewrite (IH _ fr).
    + destruct (foldM step feats fr); [|reflexivity].
      unfold with_table. cbn [heap uuid_count].
      rewrite replace_nth_twice. reflexivity.
    + cbn [heap]. eapply nth_error_replace_nth. exact Hloc.
Qed.

(** Claim C4.  One turn of the transform loop on a table without rows
    raises nothing and writes the feature's column with its default value
    in each of the (zero) rows.  On a table with rows whose base-feature
    columns are present, when the feature's function returns one value per
    row, the turn writes exactly the sequence the function returned for the
    base columns' value sequences (called with the cutoff time as keyword
    when the feature is time-aware), keeps the row labels and leaves the
    other columns alone.  The calculator is this turn repeated over the
    group, on the table object of the owning entity. *)
Theorem transform_column_values (self : PandasBackend) :
  (forall frame f,
     nrows frame = 0 ->
     transform_step self frame f
       = Ok (set_column frame (get_name f)
               (series_of_list (repeat (default_value f) (nrows frame))))) /\
  (forall frame f cols t out,
     nrows frame <> 0 ->
     base_column_values frame f = Ok cols ->
     (uses_calc_time f = true -> time_last self = Some t) ->
     get_function f cols (time_keyword f t) = VSeq out ->
     List.length out = nrows frame ->
     exists frame',
       transform_step self frame f = Ok frame' /\
       df_index frame' = df_index frame /\
       (s <- get_column frame' (get_name f) ;; Ok (s_values s)) = Ok out /\
       forall n, n <> get_name f ->
                 get_column frame' n = get_column frame n) /\
  (forall feats entity_frames w f0 loc frame0,
     hd_error feats = Some f0 ->
     count_distinct (map (fun f => e_id (entity f)) feats) = 1 ->
     dict_get entity_frames (e_id (entity f0)) = Some loc ->
     nth_error (heap w) loc = Some frame0 ->
     _calculate_transform_features self feats entity_frames w
     = match foldM (transform_step self) feats frame0 with
       | Ok frame =>
           Ok (dict_set entity_frames (e_id (entity f0)) loc,
               with_table w loc frame)
       | Err e => Err e
       end).
Proof.
  split; [|split].
  - intros frame f H0. unfold transform_step. rewrite H0. cbn [Nat.eqb].
    rewrite <- H0. apply set_default_column_spec.
  - intros frame f cols t out Hn Hcols Ht Hout Hlen.
    exists (set_column frame (get_name f) (series_of_list out)).
    split; [|split; [reflexivity|split]].
    + unfold transform_step. apply Nat.eqb_neq in Hn. rewrite Hn.
      unfold base_column_values in Hcols. rewrite Hcols. cbn [bind].
      unfold time_keyword in Hout.
      destruct (uses_calc_time f).
      * unfold self_time_last. rewrite (Ht eq_refl). cbn [bind].
        rewrite Hout. cbn [py_list bind]. apply assign_list_ok. exact Hlen.
      * cbn [bind]. rewrite Hout. cbn [py_list bind].
        apply assign_list_ok. exact Hlen.
    + rewrite get_column_set_column. reflexivity.
    + intros n Hne. apply get_column_set_column_other. exact Hne.
  - intros feats ef w f0 loc frame0 Hhd Hcd Hget Hloc.
    unfold _calculate_transform_features.
    destruct feats as [|f feats']; [discriminate|].
    cbn [hd_error] in Hhd. inversion Hhd. subst f.
    cbn [first]. unfold bindM at 1, lift at 1.
    rewrite Hcd. cbn [Nat.eqb py_assert].
    unfold bindM at 1, lift at 1.
    unfold dict_mem, dict_item. rewrite Hget. cbn [py_assert].
    unfold bindM at 1, lift at 1.
    unfold bindM at 1, lift at 1.
    unfold bindM at 1.
    rewrite (table_loop (transform_step self) loc (f0 :: feats') w frame0
               Hloc).
    destruct (foldM (transform_step self) (f0 :: feats') frame0);
      reflexivity.
Qed.

Lemma transform_column_values_witness :
  exists frame',
    transform_step (Shop.backend true) Shop.items_df Shop.double_id
      = Ok frame' /\
    df_index frame' = df_index Shop.items_df /\
    (s <- get_column frame' "DOUBLE(item_id)" ;; Ok (s_values s))
      = Ok [VInt 20; VInt 22; VInt 24].
Proof.
  destruct (proj1 (proj2 (transform_column_values (Shop.backend true)))
              Shop.items_df Shop.double_id
              [[VInt 10; VInt 11; VInt 12]] 0%Z
              [VInt 20; VInt 22; VInt 24])
    as [frame' [H1 [H2 [H3 _]]]].
  - discriminate.
  - reflexivity.
  - discriminate.
  - reflexivity.
  - reflexivity.
  - exists frame'. auto.
Defined.

(* ================================================================= *)
(** ** Direct features (lines 259-298) *)

Lemma direct_col_map_fold child_df pv mv feats :
  (forall f, In f feats ->
             base_features f <> [] /\
             has_column child_df (get_name f) = false) ->
  direct_col_map child_df pv mv feats
  = Ok (col_map_of pv mv feats, index_feature_of pv feats).
Proof.
  unfold direct_col_map, col_map_of, index_feature_of.
  generalize (@None feature). generalize [(pv, mv)].
  induction feats as [|f feats IH]; intros m o H; [reflexivity|].
  cbn [foldM fold_left].
  destruct (H f (or_introl eq_refl)) as [Hb Hc].
  unfold base_name. destruct (base_features f) as [|bf rest];
    [contradiction|].
  cbn [first bind fst snd]. rewrite Hc. cbn [bind].
  specialize (IH (dict_set m (get_name bf) (get_name f))
                 (if String.eqb (get_name bf) pv then Some f else o)).
  unfold base_name in IH. apply IH.
  intros g Hg. apply H. right. exact Hg.
Qed.

Lemma fold_set_keys (feats : list feature) :
  forall (m : dict string) k,
    In k (dict_keys (fold_left (fun m f => dict_set m (base_name f)
                                             (get_name f)) feats m)) <->
    In k (dict_keys m) \/ exists f, In f feats /\ base_name f = k.
Proof.
  induction feats as [|f feats IH]; intros m k; cbn [fold_left].
  - split; [auto|]. intros [H|[f [[] _]]]. exact H.
  - rewrite IH, dict_keys_set. split.
    + intros [[->|H]|[g [Hg Hk]]]; eauto.
      * right. exists f. split; [left|]; reflexivity.
      * right. exists g. split; [right|]; assumption.
    + intros [H|[g [[<-|Hg] Hk]]]; eauto.
Qed.

Lemma fold_set_get_other (feats : list feature) :
  forall (m : dict string) k,
    (forall f, In f feats -> base_name f <> k) ->
    dict_get (fold_left (fun m f => dict_set m (base_name f) (get_name f))
                        feats m) k = dict_get m k.
Proof.
  induction feats as [|f feats IH]; intros m k H; [reflexivity|].
  cbn [fold_left]. rewrite IH.
  - apply dict_get_set_other. intros ->.
    apply (H f (or_introl eq_refl)). reflexivity.
  - intros g Hg. apply H. right. exact Hg.
Qed.

Lemma fold_set_get (feats : list feature) :
  forall (m : dict string) f,
    NoDup (map base_name feats) -> In f feats ->
    dict_get (fold_left (fun m f => dict_set m (base_name f) (get_name f))
                        feats m) (base_name f) = Some (get_name f).
Proof.
  induction feats as [|g feats IH]; intros m f Hnd Hin; [contradiction|].
  cbn [fold_left]. cbn in Hnd. inversion Hnd as [|? ? Hnotin Hnd']. subst.
  destruct Hin as [->|Hin].
  - rewrite fold_set_get_other.
    + apply dict_get_set_same.
    + intros h Hh Heq. apply Hnotin. rewrite <- Heq.
      apply in_map. exact Hh.
  - apply IH; assumption.
Qed.

Lemma index_feature_of_spec pv (feats : list feature) :
  match index_feature_of pv feats with
  | Some f => In f feats /\ base_name f = pv
  | None => forall f, In f feats -> base_name f <> pv
  end.
Proof.
  unfold index_feature_of.
  assert (G : forall o,
             match o with
             | Some f => base_name f = pv
             | None => True
             end ->
             match fold_left (fun o f => if String.eqb (base_name f) pv
                                         then Some f else o) feats o with
             | Some f => (In f feats \/ o = Some f) /\ base_name f = pv
             | None => o = None /\
                       forall f, In f feats -> base_name f <> pv
             end).
  { induction feats as [|g feats IH]; intros o Ho.
    - cbn. destruct o as [f|];
        [split; [right; reflexivity|exact Ho]
        |split; [reflexivity|intros f []]].
    - cbn [fold_left].
      specialize (IH (if String.eqb (base_name g) pv then Some g else o)).
      destruct (String.eqb (base_name g) pv) eqn:E.
      + apply String.eqb_eq in E. specialize (IH E).
        destruct (fold_left _ feats (Some g)) as [f|].
        * destruct IH as [[H|H] Hb]; split; auto.
          -- left. right. exact H.
          -- inversion H. subst. left. left. reflexivity.
        * destruct IH as [H _]. discriminate.
      + specialize (IH Ho).
        destruct (fold_left _ feats o) as [f|].
        * destruct IH as [[H|H] Hb]; split; auto. left. right. exact H.
        * destruct IH as [H1 H2]. split; [exact H1|].
          intros f [<-|Hf]; [|auto].
          intros Heq. rewrite Heq, String.eqb_refl in E. discriminate. }
  specialize (G None I).
  destruct (fold_left _ feats None) as [f|].
  - destruct G as [[H|H] Hb]; [auto|discriminate].
  - destruct G as [_ H]. exact H.
Qed.

Lemma has_column_column_of df k s :
  get_column df k = Ok s -> column_of df k = s.
Proof.
  unfold get_column, dict_item, column_of.
  destruct (dict_get (df_columns df) k); intros H; inversion H; reflexivity.
Qed.

(** The joined slice: indexed by the parent's key column, it holds, under
    each feature's name, the parent column of the feature's base feature,
    and no column under another name. *)
Lemma direct_merge_df_spec child_df parent_df pv mv feats :
  direct_group_ok child_df parent_df pv mv feats ->
  exists merge_df,
    direct_merge_df parent_df (col_map_of pv mv feats)
                    (index_feature_of pv feats) mv = Ok merge_df /\
    df_index merge_df = s_values (column_of parent_df pv) /\
    (forall f, In f feats ->
        dict_get (df_columns merge_df) (get_name f)
        = Some (column_of parent_df (base_name f))) /\
    (forall n, In n (dict_keys (df_columns merge_df)) ->
               exists f, In f feats /\ get_name f = n).
Proof.
  intros [Hf [Hnb [Hnn [Hpv Hmv]]]].
  set (cm := col_map_of pv mv feats).
  assert (Hkeys : forall k, In k (dict_keys cm) <->
                            k = pv \/ exists f, In f feats /\ base_name f = k).
  { intros k. unfold cm, col_map_of. rewrite fold_set_keys. cbn.
    intuition auto. }
  assert (Hren : forall f, In f feats ->
                           renamed cm (base_name f) = get_name f).
  { intros f Hin. unfold renamed, cm, col_map_of.
    rewrite fold_set_get by assumption. reflexivity. }
  assert (Hne : forall f, In f feats -> get_name f <> mv).
  { intros f Hin Heq. destruct (Hf f Hin) as [_ [Hc _]].
    rewrite Heq in Hc. congruence. }
  assert (Hall : forall k, In k (dict_keys cm) ->
                           has_column parent_df k = true).
  { intros k Hk. apply Hkeys in Hk. destruct Hk as [->|[f [Hin <-]]];
      [exact Hpv|]. apply (Hf f Hin). }
  unfold direct_merge_df. fold cm.
  rewrite (select_columns_keys parent_df _ Hall). cbn [bind].
  unfold rename_columns. cbn [df_columns with_columns].
  rewrite map_map. cbn [fst snd].
  fold (renamed cm).
  change (map (fun x => (match dict_get cm x with
                         | Some n => n
                         | None => x
                         end, column_of parent_df x)) (dict_keys cm))
    with (map (fun k => (renamed cm k, column_of parent_df k))
              (dict_keys cm)).
  set (L := map (fun k => (renamed cm k, column_of parent_df k))
                (dict_keys cm)).
  pose proof (index_feature_of_spec pv feats) as Hidx.
  assert (Huniq : forall f k,
             In f feats -> In k (dict_keys cm) ->
             renamed cm k = renamed cm (base_name f) -> k = base_name f).
  { intros f k Hin Hk Heq. rewrite (Hren f Hin) in Heq.
    apply Hkeys in Hk. destruct Hk as [->|[g [Hg <-]]].
    - destruct (index_feature_of pv feats) as [fs|].
      + destruct Hidx as [Hfs Hbs]. rewrite <- Hbs in Heq |- *.
        rewrite (Hren fs Hfs) in Heq.
        rewrite (NoDup_map_inj get_name feats fs f Hnn Hfs Hin Heq).
        reflexivity.
      + exfalso. apply (Hne f Hin). rewrite <- Heq.
        unfold renamed, cm, col_map_of.
        rewrite fold_set_get_other by exact Hidx.
        cbn. rewrite String.eqb_refl. reflexivity.
    - rewrite (Hren g Hg) in Heq.
      rewrite (NoDup_map_inj get_name feats g f Hnn Hg Hin Heq).
      reflexivity. }
  assert (HL : forall f, In f feats ->
                 dict_get L (get_name f)
                 = Some (column_of parent_df (base_name f))).
  { intros f Hin. rewrite <- (Hren f Hin). unfold L.
    apply dict_get_keyed.
    - apply Hkeys. right. eauto.
    - intros k Hk. apply Huniq; assumption. }
  destruct (index_feature_of pv feats) as [fs|] eqn:Ei.
  - destruct Hidx as [Hfs Hbs].
    unfold set_index, get_column, dict_item, with_columns.
    cbn [df_columns df_index].
    rewrite (HL fs Hfs). cbn [bind]. rewrite Hbs.
    eexists. split; [reflexivity|]. cbn [df_index df_columns].
    split; [reflexivity|]. split; [exact HL|].
    intros n Hn. unfold dict_keys, L in Hn. rewrite map_map in Hn.
    cbn [fst] in Hn. apply in_map_iff in Hn. destruct Hn as [k [<- Hk]].
    apply Hkeys in Hk. destruct Hk as [->|[g [Hg <-]]].
    + exists fs. split; [exact Hfs|]. rewrite <- Hbs. symmetry.
      apply Hren. exact Hfs.
    + exists g. split; [exact Hg|]. symmetry. apply Hren. exact Hg.
  - assert (Hpvmv : renamed cm pv = mv).
    { unfold renamed, cm, col_map_of.
      rewrite fold_set_get_other by exact Hidx.
      cbn. rewrite String.eqb_refl. reflexivity. }
    assert (Hmvcol : dict_get L mv = Some (column_of parent_df pv)).
    { rewrite <- Hpvmv. unfold L. apply dict_get_keyed.
      - apply Hkeys. left. reflexivity.
      - intros k Hk Heq. apply Hkeys in Hk.
        destruct Hk as [->|[g [Hg <-]]]; [reflexivity|].
        exfalso. apply (Hne g Hg). rewrite <- (Hren g Hg), Heq.
        exact Hpvmv. }
    unfold set_index, get_column, dict_item, with_columns.
    cbn [df_columns df_index].
    rewrite Hmvcol. cbn [bind].
    eexists. split; [reflexivity|]. cbn [df_index df_columns].
    split; [reflexivity|]. split.
    + intros f Hin. rewrite dict_get_filter_ne by (apply Hne; exact Hin).
      apply HL. exact Hin.
    + intros n Hn. unfold dict_keys in Hn. apply in_map_iff in Hn.
      destruct Hn as [[n' s] [<- Hin]]. apply filter_In in Hin.
      destruct Hin as [Hin Hneq]. cbn [fst] in *.
      apply negb_true_iff in Hneq.
      unfold L in Hin. apply in_map_iff in Hin.
      destruct Hin as [k [Hk Hkin]]. inversion Hk. subst n' s.
      apply Hkeys in Hkin. destruct Hkin as [->|[g [Hg <-]]].
      * rewrite Hpvmv, String.eqb_refl in Hneq. discriminate.
      * exists g. split; [exact Hg|]. symmetry. apply Hren. exact Hg.
Qed.

Lemma suffixed_disjoint other sfx (cols : dict Series) :
  (forall n, In n (dict_keys cols) -> ~ In n other) ->
  suffixed other sfx cols = cols.
Proof.
  unfold suffixed, dict_keys. induction cols as [|[n s] cols IH];
    [reflexivity|].
  intros H. cbn [map fst snd].
  destruct (str_mem n other) eqn:E.
  - apply str_mem_In in E. exfalso. apply (H n); [left; reflexivity|exact E].
  - rewrite IH; [reflexivity|]. intros k Hk. apply H. right. exact Hk.
Qed.

Lemma dict_keys_map_columns f df :
  dict_keys (map_columns f df) = dict_keys (df_columns df).
Proof.
  unfold dict_keys, map_columns. rewrite map_map. reflexivity.
Qed.

Lemma take_opt_joined rps vals :
  take_opt rps vals = map (joined_cell vals) rps.
Proof. reflexivity. Qed.

(** The columns of a left join whose two sides share no column name. *)
Lemma merged_frame_columns (left right : DataFrame)
  (pairs : list (nat * option nat)) :
  (forall n, In n (dict_keys (df_columns left)) ->
             ~ In n (dict_keys (df_columns right))) ->
  df_index (merged_frame left right pairs)
    = take VNaN (map fst pairs) (df_index left) /\
  (forall n s, dict_get (df_columns left) n = Some s ->
     s_values (column_of (merged_frame left right pairs) n)
     = take VNaN (map fst pairs) (s_values s)) /\
  (forall n s, dict_get (df_columns left) n = None ->
     dict_get (df_columns right) n = Some s ->
     s_values (column_of (merged_frame left right pairs) n)
     = map (joined_cell (s_values s)) (map snd pairs)).
Proof.
  intros Hdisj. unfold merged_frame. cbn [df_index df_columns take_rows].
  rewrite suffixed_disjoint.
  2:{ intros n Hn. rewrite dict_keys_map_columns in Hn. auto. }
  rewrite suffixed_disjoint.
  2:{ intros n Hn Hl. unfold dict_keys in Hn. rewrite map_map in Hn.
      cbn [fst] in Hn. apply (Hdisj n Hl). exact Hn. }
  split; [reflexivity|]. split.
  - intros n s Hs. unfold column_of. cbn [df_columns].
    rewrite dict_get_app. unfold map_columns.
    rewrite (dict_get_map_snd
               (fun s => mkSeries (s_dtype s)
                                  (take VNaN (map fst pairs) (s_values s)))).
    rewrite Hs. reflexivity.
  - intros n s Hl Hr. unfold column_of. cbn [df_columns].
    rewrite dict_get_app. unfold map_columns.
    rewrite (dict_get_map_snd
               (fun s => mkSeries (s_dtype s)
                                  (take VNaN (map fst pairs) (s_values s)))).
    rewrite Hl. cbn [option_map].
    rewrite (dict_get_map_snd
               (fun s => mkSeries
                           (if all_paired (map snd pairs) then s_dtype s
                            else infer_dtype
                                   (take_opt (map snd pairs) (s_values s)))
                           (take_opt (map snd pairs) (s_values s)))).
    rewrite Hr. reflexivity.
Qed.

(** Which rows a left join pairs. *)
Lemma left_join_pairs_spec (keys labels : list value) i oj :
  In (i, oj) (left_join_pairs keys labels) <->
  i < List.length keys /\
  match oj with
  | Some j => j < List.length labels /\
              key_match (nth i keys VNaN) (nth j labels VNaN) = true
  | None => forall j, j < List.length labels ->
                      key_match (nth i keys VNaN) (nth j labels VNaN) = false
  end.
Proof.
  unfold left_join_pairs. rewrite in_flat_map.
  assert (Hpos : forall k j,
             In j (key_positions k labels) <->
             j < List.length labels /\
             key_match k (nth j labels VNaN) = true).
  { intros k j. unfold key_positions. rewrite filter_In, in_seq.
    intuition lia. }
  split.
  - intros [i' [Hi' Hin]]. apply in_seq in Hi'.
    destruct (key_positions (nth i' keys VNaN) labels) as [|j0 js] eqn:E.
    + destruct Hin as [Hin|[]]. inversion Hin. subst.
      split; [lia|]. intros j Hj.
      destruct (key_match (nth i keys VNaN) (nth j labels VNaN)) eqn:Ek;
        [|reflexivity].
      assert (In j (key_positions (nth i keys VNaN) labels))
        by (apply Hpos; auto).
      rewrite E in H. contradiction.
    + apply in_map_iff in Hin. destruct Hin as [j [Hj Hin]].
      inversion Hj. subst. split; [lia|].
      apply Hpos. rewrite E. exact Hin.
  - intros [Hi Hoj]. exists i. split; [apply in_seq; lia|].
    destruct oj as [j|].
    + apply Hpos in Hoj.
      destruct (key_positions (nth i keys VNaN) labels) as [|j0 js] eqn:E;
        [contradiction|].
      apply in_map_iff. exists j. auto.
    + destruct (key_positions (nth i keys VNaN) labels) as [|j0 js] eqn:E;
        [left; reflexivity|].
      assert (Hj0 : In j0 (key_positions (nth i keys VNaN) labels))
        by (rewrite E; left; reflexivity).
      apply Hpos in Hj0. destruct Hj0 as [Hlt Hm].
      rewrite (Hoj j0 Hlt) in Hm. discriminate.
Qed.

(** Claim C8, as the code has it.  With the child and parent tables at
    hand, a forward path that is not exactly one hop long stops the direct
    calculator on its assertion, and no path at all stops it too.  With a
    single hop, and a group that meets
    [direct_group_ok], the calculator binds the child entity to a new
    table: the left join of the child table with the parent table on child
    link column = parent key column.  Row by row of that join: the child's
    own cells are those of the child row; each feature's cell is the cell
    of its base feature's column in the paired parent row; a child row is
    paired with exactly the parent rows whose key matches its link, and a
    child row whose link matches no parent key stays, unpaired, with a
    missing value (not the feature's default) in every feature column. *)
Theorem direct_feature_values (self : PandasBackend) (feats : list feature)
  (entity_frames : entity_frames_t) (w : world) (f0 : feature)
  (parent : Entity) (cloc ploc : nat) (child_df parent_df : DataFrame) :
  hd_error feats = Some f0 ->
  parent_entity f0 = Some parent ->
  dict_get entity_frames (e_id (entity f0)) = Some cloc ->
  dict_get entity_frames (e_id parent) = Some ploc ->
  nth_error (heap w) cloc = Some child_df ->
  nth_error (heap w) ploc = Some parent_df ->
  (forall path,
     find_forward_path (entityset self) (e_id (entity f0)) (e_id parent)
       = Some path ->
     List.length path <> 1 ->
     _calculate_direct_features self feats entity_frames w
       = Err (AssertionError
                "Error calculating DirectFeatures, len(path) > 1")) /\
  (find_forward_path (entityset self) (e_id (entity f0)) (e_id parent)
     = None ->
   exists e, _calculate_direct_features self feats entity_frames w = Err e) /\
  (forall hop,
     find_forward_path (entityset self) (e_id (entity f0)) (e_id parent)
       = Some [hop] ->
     direct_group_ok child_df parent_df (parent_variable hop)
                     (child_variable hop) feats ->
     let links := s_values (column_of child_df (child_variable hop)) in
     let keys := s_values (column_of parent_df (parent_variable hop)) in
     let pairs := left_join_pairs links keys in
     exists new_df,
       _calculate_direct_features self feats entity_frames w
         = Ok (dict_set entity_frames (e_id (entity f0))
                        (List.length (heap w)),
               mkWorld (heap w ++ [new_df]) (uuid_count w)) /\
       df_index new_df = take VNaN (map fst pairs) (df_index child_df) /\
       (forall n, has_column child_df n = true ->
          s_values (column_of new_df n)
          = take VNaN (map fst pairs) (s_values (column_of child_df n))) /\
       (forall f, In f feats ->
          s_values (column_of new_df (get_name f))
          = map (joined_cell (s_values (column_of parent_df (base_name f))))
                (map snd pairs)) /\
       (forall i partner,
          In (i, partner) pairs <->
          i < List.length links /\
          match partner with
          | Some j => j < List.length keys /\
                      key_match (nth i links VNaN) (nth j keys VNaN) = true
          | None => forall j, j < List.length keys ->
                      key_match (nth i links VNaN) (nth j keys VNaN) = false
          end)).
Proof.
  intros Hhd Hpar Hc Hp Hcdf Hpdf.
  destruct feats as [|f feats']; [discriminate|].
  cbn [hd_error] in Hhd. inversion Hhd. subst f.
  assert (Hpre : forall path,
             find_forward_path (entityset self) (e_id (entity f0))
                               (e_id parent) = Some path ->
             _calculate_direct_features self (f0 :: feats') entity_frames w
             = bindM (lift (py_assert (Nat.eqb (List.length path) 1)
                       "Error calculating DirectFeatures, len(path) > 1"))
                 (fun _ =>
                    ploc <~ lift (dict_item entity_frames (e_id parent)) ;;
                    parent_df <~ read ploc ;;
                    cloc <~ lift (dict_item entity_frames
                                    (e_id (entity f0))) ;;
                    child_df <~ read cloc ;;
                    hop <~ lift (first path) ;;
                    '(col_map, index_as_feature) <~
                      lift (direct_col_map child_df (parent_variable hop)
                              (child_variable hop) (f0 :: feats')) ;;
                    merge_df <~ lift (direct_merge_df parent_df col_map
                                        index_as_feature
                                        (child_variable hop)) ;;
                    new_df <~ lift (merge_left_on child_df merge_df
                                      (child_variable hop)) ;;
                    nloc <~ alloc new_df ;;
                    ret (dict_set entity_frames (e_id (entity f0)) nloc))
                 w).
  { intros path Hpath. unfold _calculate_direct_features.
    cbn [first]. unfold bindM at 1, lift at 1.
    rewrite Hpar. unfold bindM at 1, lift at 1.
    unfold dict_mem. rewrite Hc, Hp. cbn [andb py_assert].
    unfold bindM at 1, lift at 1.
    unfold bindM at 1, lift at 1. rewrite Hpath. reflexivity. }
  split; [|split].
  - intros path Hpath Hlen. rewrite (Hpre path Hpath).
    apply Nat.eqb_neq in Hlen. rewrite Hlen. reflexivity.
  - intros Hnone. eexists. unfold _calculate_direct_features.
    cbn [first]. unfold bindM at 1, lift at 1.
    rewrite Hpar. unfold bindM at 1, lift at 1.
    unfold dict_mem. rewrite Hc, Hp. cbn [andb py_assert].
    unfold bindM at 1, lift at 1.
    unfold bindM at 1, lift at 1. rewrite Hnone. reflexivity.
  - intros hop Hpath Hok links keys pairs.
    rewrite (Hpre [hop] Hpath).
    cbn [List.length Nat.eqb py_assert]. unfold bindM at 1, lift at 1.
    unfold dict_item. rewrite Hp, Hc.
    unfold bindM at 1, lift at 1. unfold bindM at 1, read at 1.
    rewrite Hpdf.
    unfold bindM at 1, lift at 1. unfold bindM at 1, read at 1.
    rewrite Hcdf. cbn [first].
    unfold bindM at 1, lift at 1.
    pose proof Hok as [Hf [Hnb [Hnn [Hpv Hmv]]]].
    rewrite direct_col_map_fold.
    2:{ intros f Hin. destruct (Hf f Hin) as [H1 [H2 _]]. auto. }
    unfold bindM at 1, lift at 1.
    destruct (direct_merge_df_spec _ _ _ _ _ Hok)
      as [merge_df [Hm [Hmi [Hmc Hmn]]]].
    rewrite Hm. unfold bindM at 1, lift at 1.
    unfold merge_left_on, get_column, dict_item.
    unfold has_column, dict_mem in Hmv.
    destruct (dict_get (df_columns child_df) (child_variable hop))
      as [ks|] eqn:Eks; [|discriminate].
    cbn [bind]. unfold bindM, alloc, ret.
    assert (Hlinks : s_values ks = links).
    { unfold links, column_of. rewrite Eks. reflexivity. }
    rewrite Hlinks, Hmi. fold keys. fold pairs.
    assert (Hdisj : forall n, In n (dict_keys (df_columns child_df)) ->
                              ~ In n (dict_keys (df_columns merge_df))).
    { intros n Hn Hr. destruct (Hmn n Hr) as [f [Hin <-]].
      destruct (Hf f Hin) as [_ [Hcf _]].
      unfold has_column in Hcf. rewrite (dict_mem_In _ _ Hn) in Hcf.
      discriminate. }
    destruct (merged_frame_columns child_df merge_df pairs Hdisj)
      as [Hidx [Hleft Hright]].
    eexists. split; [reflexivity|]. split; [exact Hidx|]. split; [|split].
    + intros n Hn. unfold has_column, dict_mem in Hn.
      destruct (dict_get (df_columns child_df) n) as [s|] eqn:En;
        [|discriminate].
      rewrite (Hleft n s En). unfold column_of at 1. rewrite En.
      reflexivity.
    + intros f Hin. destruct (Hf f Hin) as [_ [Hcf _]].
      apply Hright; [|apply Hmc; exact Hin].
      unfold has_column, dict_mem in Hcf.
      destruct (dict_get (df_columns child_df) (get_name f));
        [discriminate|reflexivity].
    + intros i partner. apply left_join_pairs_spec.
Qed.

Lemma direct_feature_values_witness :
  exists new_df,
    _calculate_direct_features (Shop.backend true) [Shop.order_item_count]
        Shop.frames
        (Shop.world_of Shop.counted_orders_df Shop.stray_items_df)
      = Ok (dict_set Shop.frames "order_items" 2,
            mkWorld [Shop.counted_orders_df; Shop.stray_items_df; new_df]
                    0) /\
    s_values (column_of new_df "orders.COUNT(order_items)")
      = [VInt 5; VInt 5; VNaN].
Proof.
  destruct (proj2 (proj2 (direct_feature_values (Shop.backend true)
                     [Shop.order_item_count] Shop.frames
                     (Shop.world_of Shop.counted_orders_df
                                    Shop.stray_items_df)
                     Shop.order_item_count Shop.orders 1 0
                     Shop.stray_items_df Shop.counted_orders_df
                     eq_refl eq_refl eq_refl eq_refl eq_refl eq_refl))
              Shop.hop eq_refl)
    as [new_df [H1 [_ [_ [H2 _]]]]].
  - repeat split.
    + destruct H as [<-|[]]. discriminate.
    + destruct H as [<-|[]]. reflexivity.
    + destruct H as [<-|[]]. reflexivity.
    + constructor; [intros []|constructor].
    + constructor; [intros []|constructor].
  - exists new_df. split; [exact H1|].
    exact (H2 Shop.order_item_count (or_introl eq_refl)).
Defined.

(** Against claim C8 as stated: the third item refers to order 9, which is
    not on the orders table; its cell of [orders.COUNT(order_items)] is
    missing, while the feature's declared default is [0]. *)
Lemma unresolved_link_gets_missing_value :
  default_value Shop.order_item_count = VInt 0 /\
  match _calculate_direct_features (Shop.backend true)
          [Shop.order_item_count] Shop.frames
          (Shop.world_of Shop.counted_orders_df Shop.stray_items_df) with
  | Ok (frames, w') =>
      match dict_get frames "order_items" with
      | Some loc =>
          match nth_error (heap w') loc with
          | Some new_df =>
              s_values (column_of new_df "order_id")
                = [VInt 1; VInt 1; VInt 9] /\
              s_values (column_of new_df "orders.COUNT(order_items)")
                = [VInt 5; VInt 5; VNaN]
          | None => False
          end
      | None => False
      end
  | Err _ => False
  end.
Proof. repeat split. Qed.

(* ================================================================= *)
(** ** Aggregation: what the set-up leaves (lines 301-346) *)

Lemma read_inv l w df w' :
  read l w = Ok (df, w') -> nth_error (heap w) l = Some df /\ w' = w.
Proof.
  unfold read. destruct (nth_error (heap w) l); intros H; inversion H; auto.
Qed.

Lemma dict_item_inv {V : Type} (d : dict V) k v :
  dict_item d k = Ok v -> dict_get d k = Some v.
Proof.
  unfold dict_item. destruct (dict_get d k); intros H; inversion H; auto.
Qed.

Lemma first_inv {A : Type} (l : list A) a :
  first l = Ok a -> hd_error l = Some a.
Proof. destruct l; intros H; inversion H; reflexivity. Qed.

Lemma agg_setup_inv ext self feats ef w c w1 :
  agg_setup ext self feats ef w = Ok (Some c, w1) ->
  exists test bf0 bloc base0 filtered path,
    hd_error feats = Some test /\
    hd_error (base_features test) = Some bf0 /\
    l_entity c = entity test /\
    l_child_entity c = entity bf0 /\
    dict_get ef (e_id (entity test)) = Some (l_loc c) /\
    nth_error (heap w) (l_loc c) = Some (l_frame c) /\
    dict_get ef (e_id (entity bf0)) = Some bloc /\
    nth_error (heap w) bloc = Some base0 /\
    l_features c
      = filter (fun f => negb (has_column (l_frame c) (get_name f))) feats /\
    l_features c <> [] /\
    agg_where (where_ test) base0 = Ok filtered /\
    find_backward_path (entityset self) (e_id (entity test))
                       (e_id (entity bf0)) = Some path /\
    l_groupby_var c = _get_link_variable_name ext path /\
    agg_use_previous self (entity bf0) (l_groupby_var c)
                     (use_previous test) filtered = Ok (l_base_frame c) /\
    w1 = w.
Proof.
  unfold agg_setup. intros H.
  apply bindM_Ok in H. destruct H as [test [w2 [H1 H]]].
  apply lift_inv in H1. destruct H1 as [H1 ->].
  apply bindM_Ok in H. destruct H as [bf0 [w2 [H2 H]]].
  apply lift_inv in H2. destruct H2 as [H2 ->].
  apply bindM_Ok in H. destruct H as [u [w2 [H3 H]]].
  apply lift_inv in H3. destruct H3 as [_ ->].
  apply bindM_Ok in H. destruct H as [loc [w2 [H4 H]]].
  apply lift_inv in H4. destruct H4 as [H4 ->].
  apply bindM_Ok in H. destruct H as [frame [w2 [H5 H]]].
  apply read_inv in H5. destruct H5 as [H5 ->].
  apply bindM_Ok in H. destruct H as [bloc [w2 [H6 H]]].
  apply lift_inv in H6. destruct H6 as [H6 ->].
  apply bindM_Ok in H. destruct H as [base0 [w2 [H7 H]]].
  apply read_inv in H7. destruct H7 as [H7 ->].
  destruct (Nat.eqb (List.length
                       (filter (fun f => negb (has_column frame (get_name f)))
                               feats)) 0) eqn:El; [discriminate|].
  apply bindM_Ok in H. destruct H as [filtered [w2 [H8 H]]].
  apply lift_inv in H8. destruct H8 as [H8 ->].
  apply bindM_Ok in H. destruct H as [path [w2 [H9 H]]].
  apply lift_inv in H9. destruct H9 as [H9 ->].
  apply bindM_Ok in H. destruct H as [windowed [w2 [H10 H]]].
  apply lift_inv in H10. destruct H10 as [H10 ->].
  inversion H. subst. cbn.
  exists test, bf0, bloc, base0, filtered, path.
  repeat split; auto using first_inv, dict_item_inv.
  - intros E. rewrite E in El. discriminate.
  - destruct (find_backward_path (entityset self) (e_id (entity test))
                (e_id (entity bf0))); inversion H9; reflexivity.
Qed.

(** The set-up only reads the store; the parent table it found is the one
    at [l_loc]; the features it keeps are those without a column yet. *)
Lemma agg_setup_reads ext self feats ef w c w1 :
  agg_setup ext self feats ef w = Ok (Some c, w1) ->
  w1 = w /\
  nth_error (heap w) (l_loc c) = Some (l_frame c) /\
  l_features c
    = filter (fun f => negb (has_column (l_frame c) (get_name f))) feats.
Proof.
  intros H. destruct (agg_setup_inv _ _ _ _ _ _ _ H)
    as (test & bf0 & bloc & base0 & filtered & path & H').
  intuition auto.
Qed.

(* ================================================================= *)
(** ** The "use previous" window (lines 330-346) *)

Lemma filter_insert_sorted_length (p : value -> bool) x l :
  List.length (filter p (insert_sorted x l))
  = List.length (filter p (x :: l)).
Proof.
  induction l as [|y l IH]; [reflexivity|].
  cbn [insert_sorted]. destruct (value_leb x y); [reflexivity|].
  cbn [filter] in *. destruct (p y), (p x); cbn [List.length] in *; lia.
Qed.

Lemma filter_sort_values_length (p : value -> bool) l :
  List.length (filter p (sort_values l)) = List.length (filter p l).
Proof.
  unfold sort_values. induction l as [|x l IH]; [reflexivity|].
  cbn [fold_right]. rewrite filter_insert_sorted_length.
  cbn [filter]. destruct (p x); cbn [List.length]; lia.
Qed.

Lemma py_nodup_py_unique l : py_nodup (py_unique l) = true.
Proof.
  induction l as [|x l IH]; [reflexivity|].
  cbn [py_unique py_nodup]. apply andb_true_iff. split.
  - apply negb_true_iff.
    destruct (py_in x (filter (fun y => negb (py_eq x y)) (py_unique l)))
      eqn:E; [|reflexivity].
    apply py_in_true in E. destruct E as [y [Hy Hxy]].
    apply filter_In in Hy. destruct Hy as [_ Hy].
    rewrite Hxy in Hy. discriminate.
  - apply py_nodup_filter. exact IH.
Qed.

(** At most one group key stands for a given value. *)
Lemma group_keys_unique keys k :
  List.length (filter (fun g => py_eq g k) (group_keys keys)) <= 1.
Proof.
  unfold group_keys. rewrite filter_sort_values_length.
  rewrite (filter_ext _ (py_eq k)) by (intros; apply py_eq_sym).
  apply (count_label_le_one _ (py_nodup_py_unique _) k).
Qed.

(** Every value that labels a row has a group key. *)
Lemma group_keys_cover keys k p :
  p < List.length keys -> py_eq (nth p keys VNaN) k = true ->
  1 <= List.length (filter (fun g => py_eq g k) (group_keys keys)).
Proof.
  intros Hp Hk. unfold group_keys. rewrite filter_sort_values_length.
  rewrite (filter_ext _ (py_eq k)) by (intros; apply py_eq_sym).
  apply count_label_pos. rewrite py_in_py_unique.
  apply py_in_true. exists (nth p keys VNaN). split.
  - apply filter_In. split; [apply nth_In; exact Hp|].
    eapply py_eq_refl_of. exact Hk.
  - rewrite py_eq_sym. exact Hk.
Qed.

Lemma filter_flat_map {A B : Type} (p : B -> bool) (F : A -> list B) l :
  filter p (flat_map F l) = flat_map (fun a => filter p (F a)) l.
Proof.
  induction l as [|a l IH]; [reflexivity|].
  cbn. rewrite filter_app, IH. reflexivity.
Qed.

Lemma map_snd_flat_map_pair {A B : Type} (F : A -> list B) l :
  map snd (flat_map (fun a => map (fun b => (a, b)) (F a)) l)
  = flat_map F l.
Proof.
  induction l as [|a l IH]; [reflexivity|].
  cbn. rewrite map_app, IH, map_map. cbn. rewrite map_id. reflexivity.
Qed.

Lemma flat_map_one_of {A B : Type} (p : A -> bool) (X : list B)
  (F : A -> list B) l :
  (forall a, In a l -> F a = if p a then X else []) ->
  List.length (filter p l) <= 1 ->
  flat_map F l = if Nat.eqb (List.length (filter p l)) 0 then [] else X.
Proof.
  induction l as [|a l IH]; intros HF Hc; [reflexivity|].
  cbn [flat_map filter]. rewrite (HF a (or_introl eq_refl)).
  assert (HF' : forall b, In b l -> F b = if p b then X else [])
    by (intros; apply HF; right; assumption).
  cbn [filter] in Hc. destruct (p a); cbn [List.length] in *.
  - rewrite (IH HF') by lia.
    assert (List.length (filter p l) = 0) as -> by lia.
    cbn. apply app_nil_r.
  - rewrite (IH HF' Hc). reflexivity.
Qed.

Lemma iloc_last_incl {A : Type} n (l : list A) x :
  In x (iloc_last n l) -> In x l.
Proof.
  unfold iloc_last. destruct (0 <? n)%Z; intros H.
  - rewrite <- (firstn_skipn (List.length l - Z.to_nat n) l).
    apply in_or_app. right. exact H.
  - rewrite <- (firstn_skipn (Z.to_nat (- n)) l).
    apply in_or_app. right. exact H.
Qed.

Lemma filter_all {A : Type} (p : A -> bool) l :
  (forall x, In x l -> p x = true) -> filter p l = l.
Proof.
  induction l as [|a l IH]; intros H; [reflexivity|].
  cbn. rewrite (H a (or_introl eq_refl)), IH; [reflexivity|].
  intros; apply H; right; assumption.
Qed.

Lemma filter_none {A : Type} (p : A -> bool) l :
  (forall x, In x l -> p x = false) -> filter p l = [].
Proof.
  induction l as [|a l IH]; intros H; [reflexivity|].
  cbn. rewrite (H a (or_introl eq_refl)). apply IH.
  intros; apply H; right; assumption.
Qed.

(** The rows kept by [groupby(link).apply(last_n)], group by group: of the
    rows of each group, exactly those [df.iloc[-n:]] keeps, in row order. *)
Lemma last_n_positions_per_group (n : Z) (keys : list value) (k : value) :
  filter (fun p => py_eq (nth p keys VNaN) k)
         (map snd (last_n_positions n keys))
  = iloc_last n (group_positions keys k).
Proof.
  unfold last_n_positions. rewrite map_snd_flat_map_pair, filter_flat_map.
  rewrite (flat_map_one_of (fun g => py_eq g k)
             (iloc_last n (group_positions keys k))).
  - destruct (Nat.eqb (List.length (filter (fun g => py_eq g k)
                                           (group_keys keys))) 0) eqn:E;
      [|reflexivity].
    apply Nat.eqb_eq in E.
    assert (Hnone : group_positions keys k = []).
    { unfold group_positions. apply filter_none. intros p Hp.
      apply in_seq in Hp.
      destruct (py_eq (nth p keys VNaN) k) eqn:Ek; [|reflexivity].
      pose proof (group_keys_cover keys k p (proj2 Hp) Ek). lia. }
    rewrite Hnone. unfold iloc_last.
    destruct (0 <? n)%Z; rewrite skipn_nil; reflexivity.
  - intros g _. destruct (py_eq g k) eqn:Egk.
    + assert (Hsame : group_positions keys g = group_positions keys k).
      { unfold group_positions. apply filter_ext. intros p.
        destruct (py_eq (nth p keys VNaN) g) eqn:E1,
                 (py_eq (nth p keys VNaN) k) eqn:E2; try reflexivity.
        - rewrite (py_eq_trans _ _ _ E1 Egk) in E2. discriminate.
        - rewrite py_eq_sym in Egk.
          rewrite (py_eq_trans _ _ _ E2 Egk) in E1. discriminate. }
      rewrite Hsame. apply filter_all. intros p Hp.
      apply iloc_last_incl in Hp. unfold group_positions in Hp.
      apply filter_In in Hp. apply Hp.
    + apply filter_none. intros p Hp. apply iloc_last_incl in Hp.
      unfold group_positions in Hp. apply filter_In in Hp.
      destruct Hp as [_ Hp].
      destruct (py_eq (nth p keys VNaN) k) eqn:E; [|reflexivity].
      rewrite py_eq_sym in Hp.
      rewrite (py_eq_trans _ _ _ Hp E) in Egk. discriminate.
  - apply group_keys_unique.
Qed.

Lemma iloc_last_positive {A : Type} (n : nat) (l : list A) :
  0 < n -> iloc_last (Z.of_nat n) l = last_rows n l.
Proof.
  intros H. unfold iloc_last, last_rows.
  assert ((0 <? Z.of_nat n)%Z = true) as -> by (apply Z.ltb_lt; lia).
  rewrite Nat2Z.id. reflexivity.
Qed.

Lemma iloc_last_zero {A : Type} (l : list A) : iloc_last 0 l = l.
Proof. reflexivity. Qed.

(** The window of lines 330-346, case by case.  It is skipped when the
    feature has none or the child table is empty.  An absolute window of
    duration [d] keeps the rows whose time-index cell is a time not before
    [time_last - d], and nothing is filtered when the child entity has no
    time index.  A count window of [n] keeps, of the rows of each link
    group, those that [df.iloc[-n:]] keeps: for a positive [n], the last
    [n] in row order. *)
Lemma use_previous_window (self : PandasBackend) (child : Entity)
  (groupby_var : string) (base_frame : DataFrame) :
  (forall up, up = None \/ df_empty base_frame = true ->
     agg_use_previous self child groupby_var up base_frame = Ok base_frame) /\
  (forall d t,
     df_empty base_frame = false -> time_last self = Some t ->
     agg_use_previous self child groupby_var (Some (mkTimedelta true d))
                      base_frame
     = match e_time_index child with
       | Some ti =>
           s <- get_column base_frame ti ;;
           Ok (filter_rows (within_window (t - d)%Z s) base_frame)
       | None => Ok base_frame
       end) /\
  (forall n t s,
     df_empty base_frame = false -> time_last self = Some t ->
     get_column base_frame groupby_var = Ok s ->
     let kept := map snd (last_n_positions n (s_values s)) in
     exists windowed,
       agg_use_previous self child groupby_var (Some (mkTimedelta false n))
                        base_frame = Ok windowed /\
       df_columns windowed = map_columns (take VNaN kept) base_frame /\
       nrows windowed = List.length kept /\
       (forall k,
          filter (fun p => py_eq (nth p (s_values s) VNaN) k) kept
          = iloc_last n (group_positions (s_values s) k)) /\
       ((0 < n)%Z ->
        forall k,
          filter (fun p => py_eq (nth p (s_values s) VNaN) k) kept
          = last_rows (Z.to_nat n) (group_positions (s_values s) k))).
Proof.
  split; [|split].
  - intros up [->|He]; [reflexivity|].
    unfold agg_use_previous. destruct up; [|reflexivity].
    rewrite He. reflexivity.
  - intros d t He Ht. unfold agg_use_previous, self_time_last.
    rewrite He, Ht. reflexivity.
  - intros n t s He Ht Hs kept.
    unfold agg_use_previous, self_time_last. rewrite He, Ht.
    cbn [negb bind is_absolute td_value].
    unfold groupby_apply_last_n. rewrite Hs. cbn [bind].
    eexists. split; [reflexivity|]. cbn [df_columns take_rows].
    split; [reflexivity|]. split.
    { unfold nrows. cbn [df_index]. unfold kept.
      rewrite !length_map. reflexivity. }
    split.
    + intros k. apply last_n_positions_per_group.
    + intros Hn k. unfold kept. rewrite last_n_positions_per_group.
      rewrite <- (Z2Nat.id n) at 1 by lia.
      apply iloc_last_positive. lia.
Qed.

(** Claim C5, at a count window of [0] observations.  Python reads
    [df.iloc[-0:]] as [df.iloc[0:]]: the window keeps every row of every
    link group, where the last [0] rows of a group are none.  On the three
    items of the shop, all three rows come back. *)
Theorem count_window_of_zero_keeps_every_row :
  (forall keys k,
     filter (fun p => py_eq (nth p keys VNaN) k)
            (map snd (last_n_positions 0 keys))
     = group_positions keys k) /\
  last_rows 0 (group_positions
                 (s_values (column_of Shop.items_df "order_id")) (VInt 1))
    = [] /\
  match agg_use_previous Shop.running_backend Shop.items "order_id"
          (Some (mkTimedelta false 0)) Shop.items_df with
  | Ok windowed =>
      nrows windowed = 3 /\
      s_values (column_of windowed "order_id") = [VInt 1; VInt 1; VInt 2] /\
      s_values (column_of windowed "item_id") = [VInt 10; VInt 11; VInt 12]
  | Err _ => False
  end.
Proof.
  split; [|repeat split].
  intros keys k. rewrite last_n_positions_per_group. reflexivity.
Qed.

(* ================================================================= *)
(** ** Exceptions a calculator cannot raise *)

Lemma unbound_local_foreign : foreign is_unbound_local.
Proof. constructor; reflexivity. Qed.

Lemma join_error_foreign : foreign is_join_error.
Proof. constructor; reflexivity. Qed.

Create HintDb avoid.

Section Avoiding.

Variable bad : exn -> bool.
Hypothesis Hbad : foreign bad.

Lemma avoids_bind {A B : Type} (r : result A) (k : A -> result B) :
  avoids bad r -> (forall a, r = Ok a -> avoids bad (k a)) ->
  avoids bad (bind r k).
Proof. destruct r as [a|e]; cbn; auto. Qed.

Lemma avoidsM_bind {A B : Type} (m : M A) (k : A -> M B) :
  avoidsM bad m ->
  (forall a w w1, m w = Ok (a, w1) -> avoids bad (k a w1)) ->
  avoidsM bad (bindM m k).
Proof.
  intros Hm Hk w. unfold bindM. specialize (Hm w).
  destruct (m w) as [[a w1]|e] eqn:E; [eapply Hk; exact E|exact Hm].
Qed.

Lemma avoidsM_lift {A : Type} (r : result A) :
  avoids bad r -> avoidsM bad (lift r).
Proof. intros H w. unfold lift. destruct r; cbn in *; auto. Qed.

Lemma avoidsM_ret {A : Type} (a : A) : avoidsM bad (ret a).
Proof. intros w. exact I. Qed.

Lemma avoids_mapM {A B : Type} (f : A -> result B) (l : list A) :
  (forall a, avoids bad (f a)) -> avoids bad (mapM f l).
Proof.
  intros Hf. induction l as [|a l IH]; cbn; [exact I|].
  apply avoids_bind; [apply Hf|]. intros b _.
  apply avoids_bind; [exact IH|]. intros bs _. exact I.
Qed.

Lemma avoids_foldM {A S : Type} (f : S -> A -> result S) (l : list A) :
  (forall s a, avoids bad (f s a)) -> forall s, avoids bad (foldM f l s).
Proof.
  intros Hf. induction l as [|a l IH]; intros s; cbn; [exact I|].
  apply avoids_bind; [apply Hf|]. intros s' _. apply IH.
Qed.

Lemma avoidsM_foldW {A S : Type} (f : S -> A -> M S) (l : list A) :
  (forall s a, avoidsM bad (f s a)) -> forall s, avoidsM bad (foldW f l s).
Proof.
  intros Hf. induction l as [|a l IH]; intros s; cbn.
  - apply avoidsM_ret.
  - apply avoidsM_bind; [apply Hf|]. intros s' w w1 _. apply IH.
Qed.

Lemma avoidsM_read l : avoidsM bad (read l).
Proof.
  intros w. unfold read. destruct (nth_error (heap w) l); [exact I|].
  apply (foreign_key _ Hbad).
Qed.

Lemma avoidsM_write l df : avoidsM bad (write l df).
Proof. intros w. exact I. Qed.

Lemma avoidsM_alloc df : avoidsM bad (alloc df).
Proof. intros w. exact I. Qed.

(** One step of a proof that a computation avoids [bad]: split the binds,
    case on the tests and the scrutinees, close the leaves. *)
Ltac avoid_step :=
  match goal with
  | |- avoids _ (Ok _) => exact I
  | |- avoids _ (Err _) =>
      first [ apply (foreign_assert _ Hbad) | apply (foreign_key _ Hbad)
            | apply (foreign_type _ Hbad) | apply (foreign_index _ Hbad)
            | apply (foreign_attr _ Hbad) | apply (foreign_length _ Hbad)
            | apply (foreign_mask _ Hbad) | apply (foreign_float _ Hbad)
            | apply (foreign_astype _ Hbad) ]
  | |- avoids _ (bind _ _) => apply avoids_bind; [|intros ? ?]
  | |- avoids _ (mapM _ _) => apply avoids_mapM; intros ?
  | |- avoids _ (foldM _ _ _) => apply avoids_foldM; intros ? ?
  | |- avoids _ (if ?c then _ else _) => destruct c eqn:?
  | |- avoids _ (match ?x with _ => _ end) => destruct x eqn:?
  | |- avoids _ (let _ := _ in _) => cbv zeta
  | |- avoidsM _ (ret _) => apply avoidsM_ret
  | |- avoidsM _ (lift _) => apply avoidsM_lift
  | |- avoidsM _ (read _) => apply avoidsM_read
  | |- avoidsM _ (write _ _) => apply avoidsM_write
  | |- avoidsM _ (alloc _) => apply avoidsM_alloc
  | |- avoidsM _ (bindM _ _) => apply avoidsM_bind; [|intros ? ? ? ?]
  | |- avoidsM _ (foldW _ _ _) => apply avoidsM_foldW; intros ? ?
  | |- avoidsM _ (if ?c then _ else _) => destruct c eqn:?
  | |- avoidsM _ (match ?x with _ => _ end) => destruct x eqn:?
  | |- avoids _ (?m ?w) =>
      match type of w with
      | world => refine ((_ : avoidsM bad m) w)
      end
  end.

Ltac avoid_tac :=
  repeat (cbv beta; first [avoid_step | solve [auto with avoid]]).

Lemma avoids_first {A : Type} (l : list A) : avoids bad (first l).
Proof. unfold first. avoid_tac. Qed.

Lemma avoids_dict_item {V : Type} (d : dict V) k : avoids bad (dict_item d k).
Proof. unfold dict_item. avoid_tac. Qed.

Lemma avoids_py_assert c msg : avoids bad (py_assert c msg).
Proof. unfold py_assert. avoid_tac. Qed.

Lemma avoids_get_column df n : avoids bad (get_column df n).
Proof. apply avoids_dict_item. Qed.

Lemma avoids_assign_list df n vals : avoids bad (assign_list df n vals).
Proof. unfold assign_list. avoid_tac. Qed.

#[local] Hint Resolve avoids_first avoids_dict_item avoids_py_assert
  avoids_get_column avoids_assign_list : avoid.

Lemma avoids_bool_mask s : avoids bad (bool_mask s).
Proof. unfold bool_mask. avoid_tac. Qed.

Lemma avoids_select_columns df names : avoids bad (select_columns df names).
Proof. unfold select_columns. avoid_tac. Qed.

Lemma avoids_set_index df n d : avoids bad (set_index df n d).
Proof. unfold set_index. avoid_tac. Qed.

Lemma avoids_merge_left_on l r k : avoids bad (merge_left_on l r k).
Proof. unfold merge_left_on. avoid_tac. Qed.

Lemma avoids_groupby_apply_last_n n by_ df :
  avoids bad (groupby_apply_last_n n by_ df).
Proof. unfold groupby_apply_last_n. avoid_tac. Qed.

Lemma avoids_astype_object rej s : avoids bad (astype_object rej s).
Proof. unfold astype_object. avoid_tac. Qed.

Lemma avoids_astype_float parse s : avoids bad (astype_float parse s).
Proof. unfold astype_float, float_cell. avoid_tac. Qed.

Lemma avoids_set_at df l n v : avoids bad (set_at df l n v).
Proof. unfold set_at. avoid_tac. Qed.

Lemma avoids_reset_index_level1 df : avoids bad (reset_index_level1 df).
Proof. unfold reset_index_level1. avoid_tac. Qed.

Lemma avoids_groupby_agg d keys df : avoids bad (groupby_agg d keys df).
Proof. unfold groupby_agg. avoid_tac. Qed.

Lemma avoids_groupby_apply wrap keys df :
  (forall g, avoids bad (wrap g)) -> avoids bad (groupby_apply wrap keys df).
Proof. intros H. unfold groupby_apply. avoid_tac. Qed.

#[local] Hint Resolve avoids_bool_mask avoids_select_columns avoids_set_index
  avoids_merge_left_on avoids_groupby_apply_last_n avoids_astype_object
  avoids_astype_float avoids_set_at avoids_reset_index_level1
  avoids_groupby_agg : avoid.

Lemma avoids_self_time_last self : avoids bad (self_time_last self).
Proof. unfold self_time_last. avoid_tac. Qed.

Lemma avoids_set_default_column frame f :
  avoids bad (set_default_column frame f).
Proof. unfold set_default_column. avoid_tac. Qed.

Lemma avoids_can_agg f : avoids bad (_can_agg f).
Proof. unfold _can_agg. avoid_tac. Qed.

#[local] Hint Resolve avoids_self_time_last avoids_set_default_column
  avoids_can_agg : avoid.

Lemma avoids_agg_wrapper feats t df : avoids bad (agg_wrapper feats t df).
Proof. unfold agg_wrapper. avoid_tac. Qed.

Lemma avoids_agg_where w' df : avoids bad (agg_where w' df).
Proof. unfold agg_where. avoid_tac. Qed.

Lemma avoids_agg_use_previous self child gv up df :
  avoids bad (agg_use_previous self child gv up df).
Proof. unfold agg_use_previous. avoid_tac. Qed.

Lemma avoids_agg_apply_bucket self b iv gv frame base :
  avoids bad (agg_apply_bucket self b iv gv frame base).
Proof.
  unfold agg_apply_bucket. avoid_tac.
  apply avoids_groupby_apply. intros g. apply avoids_agg_wrapper.
Qed.

Lemma avoids_agg_agg_bucket b iv gv frame base :
  avoids bad (agg_agg_bucket b iv gv frame base).
Proof. unfold agg_agg_bucket. avoid_tac. Qed.

Lemma avoids_agg_fill_defaults feats frame :
  avoids bad (agg_fill_defaults feats frame).
Proof. unfold agg_fill_defaults. avoid_tac. Qed.

Lemma avoids_agg_float_columns ext feats frame :
  avoids bad (agg_float_columns ext feats frame).
Proof. unfold agg_float_columns. avoid_tac. Qed.

#[local] Hint Resolve avoids_agg_wrapper avoids_agg_where
  avoids_agg_use_previous avoids_agg_apply_bucket avoids_agg_agg_bucket
  avoids_agg_fill_defaults avoids_agg_float_columns : avoid.

Lemma avoidsM_fresh_uuid ext : avoidsM bad (fresh_uuid ext).
Proof. intros w. exact I. Qed.

Lemma avoidsM_agg_partition ext feats : avoidsM bad (agg_partition ext feats).
Proof.
  unfold agg_partition. apply avoidsM_foldW. intros b f.
  unfold agg_partition_step. avoid_tac. apply avoidsM_fresh_uuid.
Qed.

Lemma avoidsM_agg_setup ext self feats ef :
  avoidsM bad (agg_setup ext self feats ef).
Proof. unfold agg_setup. avoid_tac. Qed.

Lemma avoidsM_agg_write_defaults loc feats :
  avoidsM bad (agg_write_defaults loc feats).
Proof.
  unfold agg_write_defaults, forW. apply avoidsM_foldW. intros [] f.
  unfold set_default_column_at. avoid_tac.
Qed.

Lemma avoidsM_agg_compute ext self c ef :
  avoidsM bad (agg_compute ext self c ef).
Proof.
  unfold agg_compute. avoid_tac. apply avoidsM_agg_partition.
Qed.

End Avoiding.

(* ================================================================= *)
(** ** The local [no_instances] (lines 348-376) *)

Lemma no_instances_not_unbound ext ent child gv frame base :
  avoids is_unbound_local (agg_no_instances ext ent child gv frame base).
Proof.
  pose proof unbound_local_foreign as Hf.
  unfold agg_no_instances.
  destruct (negb (df_empty base)); [|exact I].
  destruct (negb (has_column base gv)); [exact I|].
  apply avoids_bind; [apply (avoids_get_column _ Hf)|]. intros fi _.
  apply avoids_bind; [apply (avoids_get_column _ Hf)|]. intros bg _.
  destruct (negb (dtype_eqb (s_dtype fi) (s_dtype bg))
            || is_category (s_dtype fi)); [|exact I].
  apply avoids_bind; [|intros [a b] _; exact I].
  unfold except_ValueError.
  destruct (astype_object (astype_object_rejects ext) fi) as [a|e] eqn:Ea.
  - cbn [bind].
    destruct (astype_object (astype_object_rejects ext) bg) as [b|e] eqn:Eb.
    + exact I.
    + cbn [bind]. pose proof (avoids_astype_object _ Hf
                                (astype_object_rejects ext) bg) as H.
      rewrite Eb in H. destruct e; try exact H; reflexivity.
  - cbn [bind]. pose proof (avoids_astype_object _ Hf
                              (astype_object_rejects ext) fi) as H.
    rewrite Ea in H. destruct e; try exact H; reflexivity.
Qed.

(** When the flag is computed without error, it is unassigned only if the
    child table is empty. *)
Lemma no_instances_unassigned ext ent child gv frame base flag :
  agg_no_instances ext ent child gv frame base = Ok flag ->
  (flag = None <-> df_empty base = true).
Proof.
  unfold agg_no_instances.
  destruct (df_empty base); cbn [negb].
  - intros H. inversion H. split; reflexivity.
  - intros H. split; [|discriminate]. intros ->. exfalso.
    destruct (has_column base gv); cbn [negb] in H; [|discriminate].
    destruct (get_column frame (e_index ent)) as [fi|]; [|discriminate].
    destruct (get_column base gv) as [bg|]; [|discriminate].
    cbn [bind] in H.
    destruct (negb (dtype_eqb (s_dtype fi) (s_dtype bg))
              || is_category (s_dtype fi)); [|discriminate].
    apply bind_Ok in H. destruct H as [[a b] [_ H]]. discriminate.
Qed.

(** The guard of line 372 after a flag computed without error. *)
Lemma guard_reads_assigned_flag ext ent child gv frame base flag :
  agg_no_instances ext ent child gv frame base = Ok flag ->
  exists no_data,
    agg_no_data base flag = Ok no_data /\
    (df_empty base = true -> no_data = true) /\
    (df_empty base = false -> flag = Some no_data).
Proof.
  intros H. pose proof (no_instances_unassigned _ _ _ _ _ _ _ H) as Hu.
  unfold agg_no_data. destruct (df_empty base) eqn:E.
  - exists true. repeat split; auto. discriminate.
  - destruct flag as [b|].
    + exists b. cbn. repeat split; auto. discriminate.
    + destruct Hu as [Hu _]. specialize (Hu eq_refl). discriminate.
Qed.

(** Claim C10, as the code has it.  Whenever lines 348-370 run to their
    end, the guard of line 372 evaluates without touching an unassigned
    local: the flag is left unassigned only when the child table is empty,
    and then [or] answers from its left operand alone. *)
Theorem no_instances_assigned_when_read (ext : Externals)
  (ent child : Entity) (groupby_var : string) (frame base_frame : DataFrame)
  (flag : option bool) :
  agg_no_instances ext ent child groupby_var frame base_frame = Ok flag ->
  (flag = None <-> df_empty base_frame = true) /\
  exists no_data,
    agg_no_data base_frame flag = Ok no_data /\
    (df_empty base_frame = true -> no_data = true) /\
    (df_empty base_frame = false -> flag = Some no_data).
Proof.
  intros H. split.
  - exact (no_instances_unassigned _ _ _ _ _ _ _ H).
  - exact (guard_reads_assigned_flag _ _ _ _ _ _ _ H).
Qed.

Lemma no_instances_assigned_when_read_witness :
  agg_no_instances Shop.ext Shop.orders Shop.items "order_id"
      Shop.orders_df Shop.items_df = Ok (Some false) /\
  exists no_data,
    agg_no_data Shop.items_df (Some false) = Ok no_data /\
    (df_empty Shop.items_df = true -> no_data = true) /\
    (df_empty Shop.items_df = false -> Some false = Some no_data).
Proof.
  split; [reflexivity|].
  exact (proj2 (no_instances_assigned_when_read Shop.ext Shop.orders
                  Shop.items "order_id" Shop.orders_df Shop.items_df
                  (Some false) eq_refl)).
Defined.

Lemma calculate_agg_features_not_unbound ext self feats ef :
  avoidsM is_unbound_local (_calculate_agg_features ext self feats ef).
Proof.
  pose proof unbound_local_foreign as Hf.
  unfold _calculate_agg_features.
  apply avoidsM_bind; [apply (avoidsM_agg_setup _ Hf)|].
  intros [c|] w w1 _; [|exact I].
  unfold bindM at 1, lift at 1.
  destruct (agg_no_instances ext (l_entity c) (l_child_entity c)
              (l_groupby_var c) (l_frame c) (l_base_frame c))
    as [flag|e] eqn:E.
  - destruct (guard_reads_assigned_flag _ _ _ _ _ _ _ E) as [nd [Hnd _]].
    unfold bindM at 1, lift at 1. rewrite Hnd.
    destruct nd.
    + refine ((_ : avoidsM is_unbound_local
                     (bindM (agg_write_defaults (l_loc c) (l_features c))
                            (fun _ => ret ef))) w1).
      apply avoidsM_bind; [apply (avoidsM_agg_write_defaults _ Hf)|].
      intros; exact I.
    + apply (avoidsM_agg_compute _ Hf).
  - pose proof (no_instances_not_unbound ext (l_entity c) (l_child_entity c)
                  (l_groupby_var c) (l_frame c) (l_base_frame c)) as Hq.
    rewrite E in Hq. exact Hq.
Qed.

(** Against claim C10 as stated: no run of the aggregation calculator ends
    in Python's error for a local read before assignment. *)
Lemma no_instances_never_read_unassigned :
  ~ exists (ext : Externals) (self : PandasBackend) (feats : list feature)
           (entity_frames : entity_frames_t) (w : world) (name : string),
      _calculate_agg_features ext self feats entity_frames w
        = Err (UnboundLocalError name).
Proof.
  intros [ext [self [feats [ef [w [name H]]]]]].
  pose proof (calculate_agg_features_not_unbound ext self feats ef w) as Hq.
  rewrite H in Hq. discriminate.
Qed.

(* ================================================================= *)
(** ** Join keys of different dtypes (lines 348-370) *)

Lemma coerced_cases ext s :
  (coerced ext s = Err (ValueError "astype") /\
   astype_object_rejects ext s = true) \/
  (coerced ext s = Ok (mkSeries ObjectT (s_values s)) /\
   astype_object_rejects ext s = false).
Proof.
  unfold coerced, astype_object.
  destruct (astype_object_rejects ext s); auto.
Qed.

(** The aggregation calculator ends in the join error exactly when its
    set-up succeeds and lines 348-370 raise it: no other step does. *)
Lemma join_error_source ext self feats ef w msg :
  String.prefix "Could not join " msg = true ->
  _calculate_agg_features ext self feats ef w = Err (ValueError msg) <->
  exists c,
    agg_setup ext self feats ef w = Ok (Some c, w) /\
    agg_no_instances ext (l_entity c) (l_child_entity c) (l_groupby_var c)
        (l_frame c) (l_base_frame c) = Err (ValueError msg).
Proof.
  intros Hmsg. pose proof join_error_foreign as Hf.
  assert (Hno : forall A (r : result A),
             avoids is_join_error r -> r <> Err (ValueError msg)).
  { intros A r Hr ->. cbn in Hr. congruence. }
  unfold _calculate_agg_features. unfold bindM at 1.
  pose proof (avoidsM_agg_setup _ Hf ext self feats ef w) as Hs.
  destruct (agg_setup ext self feats ef w) as [[[c|] w1]|e] eqn:Es.
  - destruct (agg_setup_reads _ _ _ _ _ _ _ Es) as [-> _].
    unfold bindM at 1, lift at 1.
    destruct (agg_no_instances ext (l_entity c) (l_child_entity c)
                (l_groupby_var c) (l_frame c) (l_base_frame c))
      as [flag|e] eqn:E.
    + destruct (guard_reads_assigned_flag _ _ _ _ _ _ _ E) as [nd [Hnd _]].
      unfold bindM at 1, lift at 1. rewrite Hnd.
      split.
      * intros H. exfalso. revert H. apply Hno. destruct nd.
        -- refine ((_ : avoidsM is_join_error
                          (bindM (agg_write_defaults (l_loc c)
                                    (l_features c))
                                 (fun _ => ret ef))) w).
           apply avoidsM_bind;
             [apply (avoidsM_agg_write_defaults _ Hf)|intros; exact I].
        -- apply (avoidsM_agg_compute _ Hf).
      * intros [c' [Hc' He]]. inversion Hc'. subst c'. congruence.
    + split.
      * intros H. inversion H. subst e. exists c. auto.
      * intros [c' [Hc' He]]. inversion Hc'. subst c'. congruence.
  - split; [discriminate|]. intros [c' [Hc' _]]. discriminate.
  - split.
    + intros H. exfalso. revert H. apply Hno. exact Hs.
    + intros [c' [Hc' _]]. discriminate.
Qed.

(** Claim C6.  The calculator raises a [ValueError] out of lines 348-370
    exactly when the child table is not empty, carries the link column, the
    two join columns disagree in dtype (or the parent's is categorical) and
    boxing one of them fails; the message then names the parent entity, its
    index column and dtype, and the child entity, its link column and
    dtype.  When the dtypes disagree and boxing succeeds, the relatedness
    test is made on the two boxed columns, both of dtype [object]. *)
Theorem join_type_mismatch (ext : Externals) (ent child : Entity)
  (groupby_var : string) (frame base_frame : DataFrame) :
  (forall msg,
     agg_no_instances ext ent child groupby_var frame base_frame
       = Err (ValueError msg) <->
     exists fi bg,
       df_empty base_frame = false /\
       get_column frame (e_index ent) = Ok fi /\
       get_column base_frame groupby_var = Ok bg /\
       dtypes_disagree fi bg = true /\
       ((exists e, coerced ext fi = Err e) \/
        (exists e, coerced ext bg = Err e)) /\
       msg = String.concat ""
               ["Could not join "; e_id ent; "."; e_index ent;
                " (dtype="; dtype_name (s_dtype fi); ") with ";
                e_id child; "."; groupby_var;
                " (dtype="; dtype_name (s_dtype bg); ")"]) /\
  (forall fi bg a b,
     df_empty base_frame = false ->
     get_column frame (e_index ent) = Ok fi ->
     get_column base_frame groupby_var = Ok bg ->
     dtypes_disagree fi bg = true ->
     coerced ext fi = Ok a -> coerced ext bg = Ok b ->
     s_dtype a = ObjectT /\ s_dtype b = ObjectT /\
     s_values a = s_values fi /\ s_values b = s_values bg /\
     agg_no_instances ext ent child groupby_var frame base_frame
       = Ok (Some (check_no_related_instances (s_values a) (s_values b)))) /\
  (forall self feats entity_frames w msg,
     String.prefix "Could not join " msg = true ->
     _calculate_agg_features ext self feats entity_frames w
       = Err (ValueError msg) <->
     exists c,
       agg_setup ext self feats entity_frames w = Ok (Some c, w) /\
       agg_no_instances ext (l_entity c) (l_child_entity c)
           (l_groupby_var c) (l_frame c) (l_base_frame c)
         = Err (ValueError msg)).
Proof.
  split; [|split; [|intros; apply join_error_source; assumption]].
  - intros msg. unfold agg_no_instances, dtypes_disagree.
    destruct (df_empty base_frame) eqn:Ee; cbn [negb].
    { split; [discriminate|]. intros [fi [bg [H _]]]. discriminate. }
    unfold has_column, get_column, dict_item, dict_mem.
    destruct (dict_get (df_columns base_frame) groupby_var) as [bg|] eqn:Eb;
      cbn [negb].
    2:{ split; [discriminate|].
        intros [fi [bg [_ [_ [H _]]]]]. discriminate. }
    destruct (dict_get (df_columns frame) (e_index ent)) as [fi|] eqn:Ef;
      cbn [bind].
    2:{ split; [discriminate|].
        intros [fi [bg' [_ [H _]]]]. discriminate. }
    destruct (negb (dtype_eqb (s_dtype fi) (s_dtype bg))
              || is_category (s_dtype fi)) eqn:Ed.
    2:{ split; [discriminate|].
        intros [fi' [bg' [_ [H1 [H2 [H3 _]]]]]].
        inversion H1; inversion H2; subst. congruence. }
    fold (coerced ext fi). fold (coerced ext bg).
    destruct (coerced_cases ext fi) as [[Hf _]|[Hf _]];
      destruct (coerced_cases ext bg) as [[Hb _]|[Hb _]];
      rewrite Hf, ?Hb; cbn [bind except_ValueError].
    1-3: split;
      [ intros H; inversion H; exists fi, bg;
        repeat split; eauto
      | intros [fi' [bg' [_ [H1 [H2 [_ [_ ->]]]]]]];
        inversion H1; inversion H2; subst; reflexivity ].
    split; [discriminate|].
    intros [fi' [bg' [_ [H1 [H2 [_ [[[e He]|[e He]] _]]]]]]];
      inversion H1; inversion H2; subst; congruence.
  - intros fi bg a b Ee Hfi Hbg Hd Ha Hb.
    destruct (coerced_cases ext fi) as [[Hf _]|[Hf _]]; [congruence|].
    destruct (coerced_cases ext bg) as [[Hg _]|[Hg _]]; [congruence|].
    assert (a = mkSeries ObjectT (s_values fi)) by congruence.
    assert (b = mkSeries ObjectT (s_values bg)) by congruence.
    subst a b. cbn [s_dtype s_values]. repeat split.
    unfold agg_no_instances. rewrite Ee. cbn [negb].
    assert (Hc : has_column base_frame groupby_var = true).
    { unfold has_column, dict_mem. unfold get_column, dict_item in Hbg.
      destruct (dict_get (df_columns base_frame) groupby_var);
        [reflexivity|discriminate]. }
    rewrite Hc, Hfi, Hbg. cbn [negb bind].
    unfold dtypes_disagree in Hd. rewrite Hd.
    fold (coerced ext fi). fold (coerced ext bg). rewrite Hf, Hg.
    reflexivity.
Qed.

Lemma join_type_mismatch_witness :
  let fi := series_of_list [VInt 1; VInt 2; VInt 3] in
  let bg := series_of_list [VFloat 1; VNaN; VFloat 2] in
  dtypes_disagree fi bg = true /\
  agg_no_instances Shop.ext Shop.orders Shop.items "order_id"
      Shop.orders_df Shop.loose_items_df
    = Ok (Some (check_no_related_instances (s_values fi) (s_values bg))).
Proof.
  intros fi bg. split; [reflexivity|].
  exact (proj2 (proj2 (proj2 (proj2
           (proj1 (proj2 (join_type_mismatch Shop.ext Shop.orders Shop.items
                            "order_id" Shop.orders_df Shop.loose_items_df))
              fi bg (mkSeries ObjectT (s_values fi))
              (mkSeries ObjectT (s_values bg))
              eq_refl eq_refl eq_refl eq_refl eq_refl eq_refl))))).
Defined.

(* ================================================================= *)
(** ** Aggregation: no related instances (lines 372-376 and 497-514) *)

Lemma related_scan_spec s l some :
  related_scan s l some = some || py_in s l.
Proof.
  induction l as [|b l IH]; cbn.
  - rewrite orb_false_r. reflexivity.
  - rewrite IH. destruct (py_eq s b), some; reflexivity.
Qed.

Lemma check_no_related_instances_spec a1 a2 :
  check_no_related_instances a1 a2
  = negb (existsb (fun s => py_in s a2) a1).
Proof.
  unfold check_no_related_instances. f_equal.
  rewrite <- (existsb_py_unique (fun s => py_in s a2) a1).
  2:{ intros x y Hxy Hy. apply py_in_true in Hy.
      destruct Hy as [b [Hb Hyb]]. apply py_in_true. exists b.
      split; [exact Hb|]. eapply py_eq_trans; eassumption. }
  generalize (py_unique a1). intros l.
  assert (G : forall acc,
             fold_left (fun some s =>
                          related_scan s (py_unique a2) some) l acc
             = acc || existsb (fun s => py_in s a2) l).
  { induction l as [|s l IH]; intros acc; cbn.
    - rewrite orb_false_r. reflexivity.
    - rewrite IH, related_scan_spec, py_in_py_unique.
      rewrite orb_assoc. reflexivity. }
  rewrite G. reflexivity.
Qed.

Lemma check_no_related_instances_true a1 a2 :
  (forall a b, In a a1 -> In b a2 -> py_eq a b = false) ->
  check_no_related_instances a1 a2 = true.
Proof.
  intros H. rewrite check_no_related_instances_spec.
  apply negb_true_iff.
  destruct (existsb (fun s => py_in s a2) a1) eqn:E; [|reflexivity].
  apply existsb_exists in E. destruct E as [a [Ha Hin]].
  apply py_in_true in Hin. destruct Hin as [b [Hb Hab]].
  rewrite (H a b Ha Hb) in Hab. discriminate.
Qed.

(** With unrelated tables, the guard of line 372 holds. *)
Lemma no_data_when_unrelated ext ent child gv frame base flag :
  agg_no_instances ext ent child gv frame base = Ok flag ->
  df_empty base = true \/ unrelated frame base (e_index ent) gv ->
  agg_no_data base flag = Ok true.
Proof.
  intros Hflag Hcond. unfold agg_no_data.
  destruct (df_empty base) eqn:Ee; [reflexivity|].
  destruct Hcond as [Hc|Hun]; [discriminate|].
  unfold agg_no_instances in Hflag. rewrite Ee in Hflag.
  cbn [negb] in Hflag.
  destruct (has_column base gv); cbn [negb] in Hflag;
    [|inversion Hflag; reflexivity].
  destruct (get_column frame (e_index ent)) as [fi|] eqn:Ef;
    [|discriminate].
  destruct (get_column base gv) as [bg|] eqn:Eb; [|discriminate].
  cbn [bind] in Hflag. specialize (Hun fi bg Ef Eb).
  destruct (negb (dtype_eqb (s_dtype fi) (s_dtype bg))
            || is_category (s_dtype fi)).
  - fold (coerced ext fi) in Hflag. fold (coerced ext bg) in Hflag.
    destruct (coerced_cases ext fi) as [[Hf _]|[Hf _]];
      destruct (coerced_cases ext bg) as [[Hb _]|[Hb _]];
      rewrite Hf, ?Hb in Hflag; cbn in Hflag; try discriminate.
    inversion Hflag.
    rewrite (check_no_related_instances_true _ _ Hun). reflexivity.
  - inversion Hflag.
    rewrite (check_no_related_instances_true _ _ Hun). reflexivity.
Qed.

Lemma nrows_set_column df n s : nrows (set_column df n s) = nrows df.
Proof. reflexivity. Qed.

Lemma defaults_fold (feats : list feature) :
  forall frame,
  exists frame',
    foldM set_default_column feats frame = Ok frame' /\
    df_index frame' = df_index frame /\
    (NoDup (map get_name feats) ->
     forall f, In f feats ->
       get_column frame' (get_name f)
       = Ok (series_of_list (repeat (default_value f) (nrows frame)))) /\
    (forall n, ~ In n (map get_name feats) ->
               get_column frame' n = get_column frame n).
Proof.
  induction feats as [|f feats IH]; intros frame.
  - exists frame. cbn. repeat split; auto. intros _ f [].
  - cbn [foldM]. rewrite set_default_column_spec. cbn [bind].
    destruct (IH (set_column frame (get_name f)
                    (series_of_list (repeat (default_value f)
                                            (nrows frame)))))
      as [frame' [H1 [H2 [H3 H4]]]].
    exists frame'. split; [exact H1|]. split; [exact H2|]. split.
    + intros Hnd g [<-|Hg].
      * cbn in Hnd. inversion Hnd as [|? ? Hnotin Hnd']. subst.
        rewrite (H4 _ Hnotin). apply get_column_set_column.
      * cbn in Hnd. inversion Hnd as [|? ? Hnotin Hnd']. subst.
        apply (H3 Hnd' g Hg).
    + intros n Hn. cbn in Hn. rewrite H4 by tauto.
      apply get_column_set_column_other. intros ->. tauto.
Qed.

Lemma with_table_shape w loc df :
  uuid_count (with_table w loc df) = uuid_count w /\
  List.length (heap (with_table w loc df)) = List.length (heap w).
Proof.
  split; [reflexivity|]. unfold with_table. cbn [heap].
  generalize (heap w). intros l. revert loc.
  induction l as [|x l IH]; intros [|n]; cbn; auto.
Qed.

(** Claim C7.  Let the set-up of the aggregation calculator succeed,
    leaving as the group the features whose column is not yet on the
    parent table (line 316), and let the relatedness stage raise
    nothing.  If the where-filtered, windowed child table is empty, or no
    value of its link column equals a value of the parent's index column,
    then the calculator returns the table dictionary unchanged after
    writing, on the parent's table object, the default value of each of
    those features in every row of its column; the row labels and the other
    columns stay, no UUID is drawn and no table is created: no aggregate is
    computed. *)
Theorem agg_defaults_without_related_rows (ext : Externals)
  (self : PandasBackend) (feats : list feature)
  (entity_frames : entity_frames_t) (w w1 : world) (c : agg_locals)
  (flag : option bool) :
  agg_setup ext self feats entity_frames w = Ok (Some c, w1) ->
  agg_no_instances ext (l_entity c) (l_child_entity c) (l_groupby_var c)
      (l_frame c) (l_base_frame c) = Ok flag ->
  df_empty (l_base_frame c) = true \/
  unrelated (l_frame c) (l_base_frame c) (e_index (l_entity c))
            (l_groupby_var c) ->
  exists frame',
    _calculate_agg_features ext self feats entity_frames w
      = Ok (entity_frames, with_table w (l_loc c) frame') /\
    l_features c
      = filter (fun f => negb (has_column (l_frame c) (get_name f))) feats /\
    df_index frame' = df_index (l_frame c) /\
    (NoDup (map get_name (l_features c)) ->
     forall f, In f (l_features c) ->
       get_column frame' (get_name f)
       = Ok (series_of_list (repeat (default_value f)
                                    (nrows (l_frame c))))) /\
    (forall n, ~ In n (map get_name (l_features c)) ->
               get_column frame' n = get_column (l_frame c) n) /\
    uuid_count (with_table w (l_loc c) frame') = uuid_count w /\
    List.length (heap (with_table w (l_loc c) frame'))
      = List.length (heap w).
Proof.
  intros Hsetup Hflag Hcond.
  destruct (agg_setup_reads _ _ _ _ _ _ _ Hsetup) as [-> [Hloc Hfeats]].
  destruct (defaults_fold (l_features c) (l_frame c))
    as [frame' [Hfold [Hidx [Hdef Hother]]]].
  exists frame'.
  split; [|split; [exact Hfeats|split; [exact Hidx|split; [exact Hdef|
           split; [exact Hother|apply with_table_shape]]]]].
  unfold _calculate_agg_features.
  rewrite (bindM_step _ _ _ _ _ Hsetup).
  rewrite (bindM_step _ _ _ _ _ (lift_Ok _ w _ Hflag)).
  rewrite (bindM_step _ _ _ _ _
             (lift_Ok _ w _ (no_data_when_unrelated _ _ _ _ _ _ _
                               Hflag Hcond))).
  unfold agg_write_defaults, set_default_column_at. unfold bindM at 1.
  rewrite (table_loop set_default_column (l_loc c) (l_features c) w
             (l_frame c) Hloc).
  rewrite Hfold. reflexivity.
Qed.

Lemma agg_defaults_without_related_rows_witness :
  exists frame',
    _calculate_agg_features Shop.ext (Shop.backend true) [Shop.item_count]
        Shop.frames (Shop.world_of Shop.orders_df Shop.no_items_df)
      = Ok (Shop.frames,
            with_table (Shop.world_of Shop.orders_df Shop.no_items_df)
                       0 frame') /\
    get_column frame' "COUNT(order_items)"
      = Ok (series_of_list [VInt 0; VInt 0; VInt 0]).
Proof.
  destruct (agg_defaults_without_related_rows Shop.ext (Shop.backend true)
              [Shop.item_count] Shop.frames
              (Shop.world_of Shop.orders_df Shop.no_items_df) _ _ _
              eq_refl eq_refl (or_introl eq_refl))
    as [frame' [H1 [_ [_ [H2 _]]]]].
  exists frame'. split; [exact H1|].
  refine (H2 _ Shop.item_count _).
  - cbn. constructor; [intros []|constructor].
  - left. reflexivity.
Defined.

(* ================================================================= *)
(** ** The two aggregation buckets (lines 384-404 and 467-477) *)

Lemma feature_eqb_refl f : feature_eqb f f = true.
Proof. unfold feature_eqb. rewrite !String.eqb_refl. reflexivity. Qed.

Lemma can_agg_spec (f : feature) :
  f_class f = AggregationPrimitive ->
  _can_agg f = Ok (simple_aggregable f).
Proof.
  intros Hc. unfold _can_agg, simple_aggregable, counted_base_features.
  rewrite Hc. cbn [py_assert bind].
  destruct (where_ f), (uses_calc_time f), (expanding f);
    cbn; rewrite ?andb_false_r, ?andb_true_r; reflexivity.
Qed.

(** Claim C9, as the code has it.  An aggregation feature goes to the
    simple bucket exactly when [_can_agg] holds: among its base features,
    not counting those named like its where feature, exactly one is left,
    and the feature is neither time-aware nor expanding.  It then gets a
    freshly named function under its first base feature's column in
    [to_agg] and an entry in [agg_rename]; every other aggregation feature
    is added to [to_apply] and nothing else changes. *)
Theorem agg_bucket_of_feature (ext : Externals) (f : feature)
  (b : agg_buckets) (w : world) :
  f_class f = AggregationPrimitive ->
  _can_agg f = Ok (simple_aggregable f) /\
  (simple_aggregable f = true ->
   exists bf0 funcs b',
     hd_error (base_features f) = Some bf0 /\
     agg_partition_step ext b f w
       = Ok (b', mkWorld (heap w) (S (uuid_count w))) /\
     to_apply b' = to_apply b /\
     dict_get (agg_rename b')
              (dash (get_name bf0) (uuid1 ext (uuid_count w)))
       = Some (get_name f) /\
     dict_get (to_agg b') (get_name bf0)
       = Some (funcs ++ [wrap_func_with_name (get_function f)
                           (uuid1 ext (uuid_count w))])) /\
  (simple_aggregable f = false ->
   exists b',
     agg_partition_step ext b f w = Ok (b', w) /\
     to_agg b' = to_agg b /\
     agg_rename b' = agg_rename b /\
     existsb (feature_eqb f) (to_apply b') = true).
Proof.
  intros Hc. pose proof (can_agg_spec f Hc) as Hcan.
  split; [exact Hcan|]. split; intros Hs.
  - assert (Hne : exists bf0 rest, base_features f = bf0 :: rest).
    { unfold simple_aggregable, counted_base_features in Hs.
      destruct (base_features f) as [|bf0 rest]; [|eauto].
      destruct (where_ f); cbn in Hs; discriminate. }
    destruct Hne as [bf0 [rest Hbf]].
    unfold agg_partition_step.
    rewrite (bindM_step _ _ w _ w (lift_Ok _ w _ Hcan)), Hs, Hbf.
    cbn [first lift bindM fresh_uuid ret].
    eexists bf0, _, _. split; [reflexivity|].
    split; [reflexivity|]. cbn [to_apply agg_rename to_agg].
    split; [reflexivity|]. split; apply dict_get_set_same.
  - unfold agg_partition_step.
    rewrite (bindM_step _ _ w _ w (lift_Ok _ w _ Hcan)), Hs.
    cbn [ret]. eexists. split; [reflexivity|].
    cbn [to_apply agg_rename to_agg]. repeat split.
    destruct (existsb (feature_eqb f) (to_apply b)) eqn:E; [exact E|].
    rewrite existsb_app. cbn. rewrite feature_eqb_refl.
    apply orb_true_r.
Qed.

Lemma agg_bucket_of_feature_witness :
  f_class Shop.item_count = AggregationPrimitive /\
  _can_agg Shop.item_count = Ok (simple_aggregable Shop.item_count).
Proof.
  split; [reflexivity|].
  exact (proj1 (agg_bucket_of_feature Shop.ext Shop.item_count
                  (mkBuckets [] [] []) Shop.w0 eq_refl)).
Defined.

(** Against claim C9 as stated: [COUNT(order_items WHERE big)] lists two
    base features, its where feature among them, and is placed in the
    simple bucket all the same. *)
Lemma two_base_features_in_simple_bucket :
  List.length (base_features Shop.big_item_count) = 2 /\
  uses_calc_time Shop.big_item_count = false /\
  expanding Shop.big_item_count = false /\
  _can_agg Shop.big_item_count = Ok true /\
  match agg_partition Shop.ext [Shop.big_item_count] Shop.w0 with
  | Ok (b, _) =>
      to_apply b = [] /\
      dict_values (agg_rename b) = ["COUNT(order_items WHERE big)"]
  | Err _ => False
  end.
Proof. repeat split. Qed.

(* ================================================================= *)
(** * Further properties *)

(** ** The constructor (lines 38-45) *)

Lemma count_distinct_same (l : list string) e :
  l <> [] -> (forall x, In x l -> x = e) -> count_distinct l = 1.
Proof.
  unfold count_distinct. induction l as [|x l IH]; [contradiction|].
  intros _ H. cbn [nodup].
  destruct l as [|y l'].
  - reflexivity.
  - destruct (in_dec string_dec x (y :: l')) as [_|Hn].
    + apply IH; [discriminate|]. intros z Hz. apply H. right. exact Hz.
    + exfalso. apply Hn. left.
      rewrite (H x (or_introl eq_refl)).
      apply H. right. left. reflexivity.
Qed.

(** X1.  The constructor accepts exactly the non-empty feature lists whose
    features all sit on the entity of the first one.  The backend it builds
    targets that entity, keeps the features in the order given, holds the
    feature tree of the entity set and the features (nothing ignored) and
    has no cutoff time yet.  An empty list fails the assertion, before
    [features[0]] is looked at. *)
Theorem init_accepts_one_entity (ext : Externals) (es : EntitySet)
  (feats : list feature) :
  (forall self,
     PandasBackend_init ext es feats = Ok self <->
     exists f0 rest,
       feats = f0 :: rest /\
       (forall f, In f feats -> e_id (entity f) = e_id (entity f0)) /\
       self = mkPandasBackend es (e_id (entity f0)) feats
                (make_feature_tree ext es feats None) None) /\
  PandasBackend_init ext es []
    = Err (AssertionError "Features must all be defined on the same entity").
Proof.
  split; [|reflexivity]. intros self. split.
  - intros H. destruct (init_inv _ _ _ _ H) as [_ [_ [Hne [_ Hall]]]].
    destruct feats as [|f0 rest]; [contradiction|].
    exists f0, rest. split; [reflexivity|].
    unfold PandasBackend_init in H.
    destruct (py_assert _ _) in H; [|discriminate].
    cbn [bind first] in H. inversion H. subst self. cbn in Hall.
    split; [|reflexivity]. intros f Hf.
    rewrite (Hall f Hf). reflexivity.
  - intros [f0 [rest [-> [Hall ->]]]]. unfold PandasBackend_init.
    rewrite (count_distinct_same _ (e_id (entity f0))).
    + reflexivity.
    + discriminate.
    + intros x Hx. apply in_map_iff in Hx. destruct Hx as [f [<- Hf]].
      apply Hall. exact Hf.
Qed.

Lemma init_accepts_one_entity_witness :
  PandasBackend_init Shop.ext (Shop.es true)
      [Shop.item_count; Shop.item_id_max]
  = Ok (mkPandasBackend (Shop.es true) "orders"
          [Shop.item_count; Shop.item_id_max]
          (make_feature_tree Shop.ext (Shop.es true)
             [Shop.item_count; Shop.item_id_max] None) None).
Proof.
  apply (proj1 (init_accepts_one_entity Shop.ext (Shop.es true)
                  [Shop.item_count; Shop.item_id_max])).
  exists Shop.item_count, [Shop.item_id_max].
  split; [reflexivity|]. split; [|reflexivity].
  intros f [<-|[<-|[]]]; reflexivity.
Defined.

(* ================================================================= *)
(** ** The default table with extra columns (lines 197-210) *)

Lemma dict_set_absent {V : Type} (d : dict V) k (v : V) :
  dict_get d k = None -> dict_set d k v = d ++ [(k, v)].
Proof.
  induction d as [|[k1 v1] d IH]; [reflexivity|].
  cbn. destruct (String.eqb k k1); [discriminate|].
  intros H. rewrite (IH H). reflexivity.
Qed.

Lemma dict_mem_iff {V : Type} (d : dict V) k :
  dict_mem d k = true <-> In k (dict_keys d).
Proof.
  split; [|apply dict_mem_In]. unfold dict_mem.
  destruct (dict_get d k) eqn:E; [|discriminate].
  intros _. eapply dict_get_Some_In. exact E.
Qed.

(** The loop of lines 207-209 appends, after the columns already there, one
    all-missing column per new name. *)
Lemma default_extras_tail (n : nat) (cols : list string) :
  forall df, nrows df = n ->
  exists tail,
    foldM (fun df c =>
             if negb (has_column df c)
             then assign_list df c (repeat VNaN n)
             else Ok df) cols df
      = Ok (with_columns df (df_columns df ++ tail)) /\
    (forall c, In c tail ->
       snd c = series_of_list (repeat VNaN n) /\
       In (fst c) cols /\ has_column df (fst c) = false) /\
    (forall k, In k cols -> has_column df k = false ->
               In k (dict_keys tail)).
Proof.
  induction cols as [|c cols IH]; intros df Hn.
  - exists []. cbn. rewrite app_nil_r. destruct df.
    split; [reflexivity|]. split; [intros c []|intros k []].
  - cbn [foldM]. destruct (has_column df c) eqn:Ec; cbn [negb bind].
    + destruct (IH df Hn) as [tail [H1 [H2 H3]]].
      exists tail. split; [exact H1|]. split.
      * intros x Hx. destruct (H2 x Hx) as [Ha [Hb Hc]].
        split; [exact Ha|]. split; [right; exact Hb|exact Hc].
      * intros k [<-|Hk] Hf; [congruence|]. apply H3; assumption.
    + rewrite assign_list_ok by (rewrite repeat_length; auto).
      cbn [bind].
      destruct (IH (set_column df c (series_of_list (repeat VNaN n))) Hn)
        as [tail [H1 [H2 H3]]].
      assert (Hset : df_columns (set_column df c
                                   (series_of_list (repeat VNaN n)))
                     = df_columns df
                         ++ [(c, series_of_list (repeat VNaN n))]).
      { unfold set_column. cbn [df_columns with_columns].
        apply dict_set_absent. unfold has_column, dict_mem in Ec.
        destruct (dict_get (df_columns df) c); [discriminate|reflexivity]. }
      exists ((c, series_of_list (repeat VNaN n)) :: tail).
      split; [|split].
      * rewrite H1. rewrite Hset. rewrite <- app_assoc. reflexivity.
      * intros x [<-|Hx].
        -- cbn. split; [reflexivity|]. split; [left; reflexivity|exact Ec].
        -- destruct (H2 x Hx) as [Ha [Hb Hc]].
           split; [exact Ha|]. split; [right; exact Hb|].
           rewrite has_column_set_column in Hc.
           apply orb_false_iff in Hc. apply Hc.
      * intros k [<-|Hk] Hf; [left; reflexivity|].
        destruct (String.eqb k c) eqn:Ekc.
        -- apply String.eqb_eq in Ekc. left. symmetry. exact Ekc.
        -- right. apply H3; [exact Hk|].
           rewrite has_column_set_column, Ekc, Hf. reflexivity.
Qed.

(** X2.  For features of distinct names, [generate_default_df] with extra
    columns never fails.  Its table is labelled by the ids given, under the
    index name of the first feature's entity; its first columns are the
    features' in order, each holding the feature's default value in every
    row; after them comes one column per extra name that is not a feature's,
    holding a missing value in every row.  No extra name replaces a
    feature's column, and every column has one cell per row. *)
Theorem default_table_with_extra_columns (self : PandasBackend)
  (ids : list value) (extra : list string) (f0 : feature) :
  hd_error (features self) = Some f0 ->
  NoDup (map get_name (features self)) ->
  exists dflt tail,
    generate_default_df self ids (Some extra) = Ok dflt /\
    df_index dflt = ids /\
    df_index_name dflt = Some (e_index (entity f0)) /\
    df_columns dflt
      = map (fun f => default_column f (List.length ids)) (features self)
        ++ tail /\
    (forall k, In k (dict_keys tail) <->
               In k extra /\ ~ In k (map get_name (features self))) /\
    (forall c, In c tail ->
               snd c = series_of_list (repeat VNaN (List.length ids))) /\
    (forall f, In f (features self) ->
       get_column dflt (get_name f)
       = Ok (series_of_list (repeat (default_value f) (List.length ids)))) /\
    wf_frame dflt = true.
Proof.
  intros Hhd Hnd. unfold generate_default_df.
  destruct (features self) as [|f rest] eqn:E; [discriminate|].
  cbn in Hhd. inversion Hhd. subst f. cbn [first bind].
  unfold frame_of_rows. cbn [df_index df_columns]. rewrite length_map.
  rewrite (default_columns_of_rows [] (f0 :: rest)).
  set (base := mkDataFrame (Some (e_index (entity f0))) ids
                 (map (fun f => default_column f (List.length ids))
                      (f0 :: rest))).
  destruct (default_extras_tail (List.length ids) extra base eq_refl)
    as [tail [H1 [H2 H3]]].
  assert (Hhas : forall k, has_column base k = true
                           <-> In k (map get_name (f0 :: rest))).
  { intros k. unfold has_column, base. cbn [df_columns].
    rewrite dict_mem_iff. unfold dict_keys. rewrite map_map.
    reflexivity. }
  exists (with_columns base (df_columns base ++ tail)), tail.
  split; [exact H1|]. split; [reflexivity|]. split; [reflexivity|].
  split; [reflexivity|]. split; [|split; [|split]].
  - intros k. split.
    + intros Hk. unfold dict_keys in Hk. apply in_map_iff in Hk.
      destruct Hk as [c [<- Hc]]. destruct (H2 c Hc) as [_ [Hb Hc']].
      split; [exact Hb|]. intros Hin. apply Hhas in Hin. congruence.
    + intros [Hk Hn]. apply H3; [exact Hk|].
      destruct (has_column base k) eqn:Eb; [|reflexivity].
      exfalso. apply Hn. apply Hhas. exact Eb.
  - intros c Hc. apply (H2 c Hc).
  - intros f Hf. unfold get_column, dict_item, base, default_column.
    cbn [with_columns df_columns].
    rewrite dict_get_app.
    rewrite (dict_get_keyed get_name
               (fun f => series_of_list (repeat (default_value f)
                                                (List.length ids)))
               (f0 :: rest) f Hf).
    + reflexivity.
    + intros g Hg Heq. eapply NoDup_map_inj; eassumption.
  - unfold wf_frame, base, nrows. cbn [with_columns df_columns df_index].
    rewrite forallb_app. apply andb_true_iff. split.
    + apply forallb_forall. intros c Hc. apply in_map_iff in Hc.
      destruct Hc as [f [<- _]]. cbn. rewrite repeat_length.
      apply Nat.eqb_refl.
    + apply forallb_forall. intros c Hc. rewrite (proj1 (H2 c Hc)).
      cbn. rewrite repeat_length. apply Nat.eqb_refl.
Qed.

Lemma default_table_with_extra_columns_witness :
  exists dflt,
    generate_default_df (Shop.backend true) [VInt 7; VInt 8]
        (Some ["id"; "COUNT(order_items)"; "id"]) = Ok dflt /\
    df_index dflt = [VInt 7; VInt 8] /\
    df_columns dflt
      = [default_column Shop.item_count 2;
         ("id", series_of_list [VNaN; VNaN])].
Proof.
  destruct (default_table_with_extra_columns (Shop.backend true)
              [VInt 7; VInt 8] ["id"; "COUNT(order_items)"; "id"]
              Shop.item_count eq_refl)
    as [dflt [tail [H1 [H2 _]]]].
  - cbn. constructor; [intros []|constructor].
  - exists dflt. split; [exact H1|]. split; [exact H2|].
    cbv in H1. inversion H1. reflexivity.
Defined.

(* ================================================================= *)
(** ** Identity features (lines 224-226) *)

(** X3.  The identity calculator computes nothing: it returns exactly when
    the owning entity of the group's first feature has a table and that
    table has the first feature's column, and then the table dictionary
    and the store are what they were.  Only the first feature of the group
    is looked at.  A missing table or a missing column fails the
    assertion. *)
Theorem identity_features_only_check (self : PandasBackend)
  (feats : list feature) (entity_frames : entity_frames_t) (w : world) :
  (forall ef' w',
     _calculate_identity_features self feats entity_frames w = Ok (ef', w')
     <->
     ef' = entity_frames /\ w' = w /\
     exists f0 loc frame,
       hd_error feats = Some f0 /\
       dict_get entity_frames (e_id (entity f0)) = Some loc /\
       nth_error (heap w) loc = Some frame /\
       has_column frame (get_name f0) = true) /\
  (forall f0,
     hd_error feats = Some f0 ->
     (dict_get entity_frames (e_id (entity f0)) = None \/
      exists loc frame,
        dict_get entity_frames (e_id (entity f0)) = Some loc /\
        nth_error (heap w) loc = Some frame /\
        has_column frame (get_name f0) = false) ->
     _calculate_identity_features self feats entity_frames w
       = Err (AssertionError "")).
Proof.
  unfold _calculate_identity_features. split.
  - intros ef' w'. destruct feats as [|f0 rest].
    + cbn. split; [discriminate|].
      intros [_ [_ [f [loc [frame [H _]]]]]]. discriminate.
    + cbn [first hd_error]. unfold bindM at 1, lift at 1.
      destruct (dict_get entity_frames (e_id (entity f0))) as [loc|] eqn:El.
      * unfold bindM, read, lift, ret.
        destruct (nth_error (heap w) loc) as [frame|] eqn:Ef.
        -- destruct (has_column frame (get_name f0)) eqn:Ec; cbn.
           ++ split.
              ** intros H. inversion H. subst.
                 split; [reflexivity|]. split; [reflexivity|].
                 exists f0, loc, frame. auto.
              ** intros [-> [-> _]]. reflexivity.
           ++ split; [discriminate|].
              intros [_ [_ [f [l [fr [Hf [Hl [Hfr Hc]]]]]]]].
              inversion Hf. subst f. rewrite El in Hl. inversion Hl. subst l.
              rewrite Ef in Hfr. inversion Hfr. subst fr. congruence.
        -- split; [discriminate|].
           intros [_ [_ [f [l [fr [Hf [Hl [Hfr _]]]]]]]].
           inversion Hf. subst f. rewrite El in Hl. inversion Hl. subst l.
           congruence.
      * cbn. split; [discriminate|].
        intros [_ [_ [f [l [fr [Hf [Hl _]]]]]]].
        inversion Hf. subst f. congruence.
  - intros f0 Hhd Hcase. destruct feats as [|f rest]; [discriminate|].
    cbn in Hhd. inversion Hhd. subst f. cbn [first].
    unfold bindM at 1, lift at 1.
    destruct Hcase as [Hn|[loc [frame [Hl [Hf Hc]]]]].
    + rewrite Hn. reflexivity.
    + rewrite Hl. unfold bindM, read, lift. rewrite Hf, Hc. reflexivity.
Qed.

Lemma identity_features_only_check_witness :
  _calculate_identity_features (Shop.backend true)
      [Shop.identity Shop.items "price"] Shop.frames
      (Shop.world_of Shop.orders_df Shop.items_df)
    = Err (AssertionError "").
Proof.
  apply (proj2 (identity_features_only_check (Shop.backend true)
                  [Shop.identity Shop.items "price"] Shop.frames
                  (Shop.world_of Shop.orders_df Shop.items_df))
               (Shop.identity Shop.items "price") eq_refl).
  right. exists 1, Shop.items_df. repeat split.
Defined.

(* ================================================================= *)
(** ** The transform calculator as a whole (lines 228-257) *)

Lemma dict_set_same_value {V : Type} (d : dict V) k (v : V) :
  dict_get d k = Some v -> dict_set d k v = d.
Proof.
  induction d as [|[k1 v1] d IH]; [discriminate|].
  cbn. destruct (String.eqb k k1) eqn:E.
  - apply String.eqb_eq in E. intros H. inversion H. subst. reflexivity.
  - intros H. rewrite (IH H). reflexivity.
Qed.

Lemma forallb_dict_set {V : Type} (p : string * V -> bool) (d : dict V)
  k v :
  forallb p d = true -> p (k, v) = true ->
  forallb p (dict_set d k v) = true.
Proof.
  intros Hd Hv. induction d as [|[k1 v1] d IH]; cbn.
  - rewrite Hv. reflexivity.
  - cbn in Hd. apply andb_true_iff in Hd. destruct Hd as [H1 H2].
    destruct (String.eqb k k1); cbn.
    + rewrite Hv, H2. reflexivity.
    + rewrite H1, (IH H2). reflexivity.
Qed.

Lemma wf_frame_set_column df k vals :
  wf_frame df = true -> List.length vals = nrows df ->
  wf_frame (set_column df k (series_of_list vals)) = true.
Proof.
  intros Hwf Hlen. unfold wf_frame, set_column.
  cbn [with_columns df_columns]. apply forallb_dict_set.
  - exact Hwf.
  - cbn. change (nrows (with_columns df _)) with (nrows df).
    rewrite Hlen. apply Nat.eqb_refl.
Qed.

(** Whatever the feature and its function, a turn of the loop that raises
    nothing has written one column of one cell per row. *)
Lemma transform_step_inv self frame f frame' :
  transform_step self frame f = Ok frame' ->
  exists vals,
    List.length vals = nrows frame /\
    frame' = set_column frame (get_name f) (series_of_list vals).
Proof.
  unfold transform_step. destruct (Nat.eqb (nrows frame) 0).
  - rewrite set_default_column_spec. intros H. inversion H.
    eexists. split; [|reflexivity]. apply repeat_length.
  - intros H. apply bind_Ok in H. destruct H as [cols [_ H]].
    apply bind_Ok in H. destruct H as [values [_ H]].
    apply bind_Ok in H. destruct H as [vals [_ H]].
    unfold assign_list in H.
    destruct (Nat.eqb (List.length vals) (nrows frame)) eqn:E;
      [|discriminate].
    inversion H. exists vals. split; [|reflexivity].
    apply Nat.eqb_eq. exact E.
Qed.

Lemma transform_fold_inv self feats :
  forall frame frame',
    foldM (transform_step self) feats frame = Ok frame' ->
    df_index frame' = df_index frame /\
    df_index_name frame' = df_index_name frame /\
    (forall f, In f feats -> has_column frame' (get_name f) = true) /\
    (forall n, ~ In n (map get_name feats) ->
               get_column frame' n = get_column frame n) /\
    (wf_frame frame = true -> wf_frame frame' = true).
Proof.
  induction feats as [|f feats IH]; intros frame frame' H.
  - cbn in H. inversion H. subst.
    split; [reflexivity|]. split; [reflexivity|].
    split; [intros f []|]. split; [reflexivity|auto].
  - cbn [foldM] in H. apply bind_Ok in H. destruct H as [fr [H1 H2]].
    destruct (transform_step_inv _ _ _ _ H1) as [vals [Hlen ->]].
    destruct (IH _ _ H2) as [I1 [I2 [I3 [I4 I5]]]].
    split; [exact I1|]. split; [exact I2|]. split; [|split].
    + intros g [<-|Hg]; [|apply I3; exact Hg].
      destruct (in_dec string_dec (get_name f) (map get_name feats))
        as [Hin|Hnin].
      * apply in_map_iff in Hin. destruct Hin as [g [Hg1 Hg2]].
        rewrite <- Hg1. apply I3. exact Hg2.
      * unfold has_column, dict_mem.
        pose proof (I4 _ Hnin) as Hc.
        rewrite get_column_set_column in Hc.
        unfold get_column, dict_item in Hc.
        destruct (dict_get (df_columns frame') (get_name f));
          [reflexivity|discriminate].
    + intros n Hn. cbn in Hn. rewrite I4 by tauto.
      apply get_column_set_column_other. intros ->. tauto.
    + intros Hwf. apply I5. apply wf_frame_set_column; assumption.
Qed.

(** A run of the transform calculator that raises nothing. *)
Lemma transform_run self feats entity_frames w ef' w' :
  _calculate_transform_features self feats entity_frames w = Ok (ef', w') ->
  exists f0 loc frame0 frame',
    hd_error feats = Some f0 /\
    dict_get entity_frames (e_id (entity f0)) = Some loc /\
    nth_error (heap w) loc = Some frame0 /\
    foldM (transform_step self) feats frame0 = Ok frame' /\
    ef' = entity_frames /\ w' = with_table w loc frame'.
Proof.
  unfold _calculate_transform_features. intros H.
  destruct feats as [|f0 rest]; [discriminate|].
  cbn [first] in H. unfold bindM at 1, lift at 1 in H.
  apply bindM_Ok in H. destruct H as [u1 [w1 [H1 H]]].
  apply lift_inv in H1. destruct H1 as [_ ->].
  apply bindM_Ok in H. destruct H as [u2 [w2 [H2 H]]].
  apply lift_inv in H2. destruct H2 as [_ ->].
  apply bindM_Ok in H. destruct H as [loc [w3 [H3 H]]].
  apply lift_inv in H3. destruct H3 as [H3 ->].
  apply dict_item_inv in H3.
  apply bindM_Ok in H. destruct H as [u4 [w4 [H4 H]]].
  unfold ret in H. inversion H. subst ef' w4. clear H.
  destruct (nth_error (heap w) loc) as [frame0|] eqn:Eloc.
  - rewrite (table_loop (transform_step self) loc (f0 :: rest) w frame0
               Eloc) in H4.
    destruct (foldM (transform_step self) (f0 :: rest) frame0)
      as [frame'|] eqn:Efold; [|discriminate].
    inversion H4. subst w'.
    exists f0, loc, frame0, frame'. repeat split; auto.
    apply dict_set_same_value. exact H3.
  - exfalso. unfold forW in H4. cbn [foldW] in H4.
    unfold bindM at 1 in H4. unfold bindM at 1 in H4.
    unfold read in H4. rewrite Eloc in H4. discriminate.
Qed.

(** X4.  A run of the transform calculator that raises nothing leaves the
    table dictionary as it was and changes one table object only, the
    owning entity's, in place.  That table keeps its row labels and index
    name; every feature of the group has a column on it; the columns not
    named like a feature of the group are untouched; and if every column
    had one cell per row before, so it is afterwards. *)
Theorem transform_group_keeps_table (self : PandasBackend)
  (feats : list feature) (entity_frames ef' : entity_frames_t)
  (w w' : world) :
  _calculate_transform_features self feats entity_frames w = Ok (ef', w') ->
  exists f0 loc frame0 frame',
    hd_error feats = Some f0 /\
    dict_get entity_frames (e_id (entity f0)) = Some loc /\
    nth_error (heap w) loc = Some frame0 /\
    ef' = entity_frames /\
    w' = with_table w loc frame' /\
    df_index frame' = df_index frame0 /\
    df_index_name frame' = df_index_name frame0 /\
    (forall f, In f feats -> has_column frame' (get_name f) = true) /\
    (forall n, ~ In n (map get_name feats) ->
               get_column frame' n = get_column frame0 n) /\
    (wf_frame frame0 = true -> wf_frame frame' = true).
Proof.
  intros H. destruct (transform_run _ _ _ _ _ _ H)
    as [f0 [loc [frame0 [frame' [H1 [H2 [H3 [H4 [H5 H6]]]]]]]]].
  destruct (transform_fold_inv _ _ _ _ H4) as [I1 [I2 [I3 [I4 I5]]]].
  exists f0, loc, frame0, frame'. repeat split; assumption.
Qed.

Lemma transform_group_keeps_table_witness :
  exists frame',
    _calculate_transform_features (Shop.backend true) [Shop.double_id]
        Shop.frames (Shop.world_of Shop.orders_df Shop.items_df)
      = Ok (Shop.frames,
            with_table (Shop.world_of Shop.orders_df Shop.items_df) 1
                       frame') /\
    df_index frame' = df_index Shop.items_df /\
    has_column frame' "DOUBLE(item_id)" = true.
Proof.
  destruct (transform_group_keeps_table (Shop.backend true)
              [Shop.double_id] Shop.frames _
              (Shop.world_of Shop.orders_df Shop.items_df) _ eq_refl)
    as [f0 [loc [frame0 [frame' [H1 [H2 [H3 [_ [H5 [H6 [_ [H8 _]]]]]]]]]]]].
  inversion H1. subst f0. inversion H2. subst loc.
  inversion H3. subst frame0.
  exists frame'. split; [|split; [exact H6|]].
  - rewrite <- H5. reflexivity.
  - apply (H8 Shop.double_id). left. reflexivity.
Defined.

(* ================================================================= *)
(** ** The relatedness test (lines 497-506) *)

Lemma related_iff a1 a2 :
  existsb (fun s => py_in s a2) a1 = true <->
  exists a b, In a a1 /\ In b a2 /\ py_eq a b = true.
Proof.
  rewrite existsb_exists. split.
  - intros [a [Ha Hin]]. apply py_in_true in Hin.
    destruct Hin as [b [Hb Hab]]. exists a, b. auto.
  - intros [a [b [Ha [Hb Hab]]]]. exists a. split; [exact Ha|].
    apply py_in_true. exists b. auto.
Qed.

(** X5.  On arrays of comparable keys (no list cell, missing cells on
    one side at most, integers and floats not mixed),
    [check_no_related_instances] answers [False] exactly when some value
    of the first array equals some value of the second.  So the answer
    does not depend on which array comes first, it is [True] when either
    array is empty, and it is [True] when every cell of the second array
    is missing. *)
Theorem no_related_instances_iff (array1 array2 : list value) :
  comparable_keys array1 array2 = true ->
  (check_no_related_instances array1 array2 = false <->
   exists a b, In a array1 /\ In b array2 /\ py_eq a b = true) /\
  check_no_related_instances array1 array2
    = check_no_related_instances array2 array1 /\
  (array1 = [] \/ array2 = [] ->
   check_no_related_instances array1 array2 = true) /\
  (forallb isnull array2 = true ->
   check_no_related_instances array1 array2 = true).
Proof.
  intros _. split; [|split; [|split]].
  - rewrite check_no_related_instances_spec, negb_false_iff.
    apply related_iff.
  - rewrite !check_no_related_instances_spec. f_equal.
    apply eq_true_iff_eq. rewrite !related_iff. split.
    + intros [a [b [Ha [Hb Hab]]]]. exists b, a.
      rewrite py_eq_sym. auto.
    + intros [a [b [Ha [Hb Hab]]]]. exists b, a.
      rewrite py_eq_sym. auto.
  - intros [->| ->].
    + reflexivity.
    + apply check_no_related_instances_true. intros a b _ [].
  - intros Hnull. apply check_no_related_instances_true.
    intros a b _ Hb.
    rewrite forallb_forall in Hnull. specialize (Hnull b Hb).
    destruct b; try discriminate. rewrite py_eq_sym. reflexivity.
Qed.

Lemma no_related_instances_iff_witness :
  comparable_keys [VInt 1; VInt 2; VInt 3] [VInt 7; VNaN; VInt 2] = true /\
  check_no_related_instances [VInt 1; VInt 2; VInt 3]
                             [VInt 7; VNaN; VInt 2] = false.
Proof.
  split; [reflexivity|].
  apply (proj1 (no_related_instances_iff [VInt 1; VInt 2; VInt 3]
                  [VInt 7; VNaN; VInt 2] eq_refl)).
  exists (VInt 2), (VInt 2).
  split; [right; left; reflexivity|].
  split; [right; right; left; reflexivity|reflexivity].
Defined.

(* ================================================================= *)
(** ** Aggregation: features that are already there (lines 316-319) *)

Lemma agg_early_return (ext : Externals)
  (self : PandasBackend) (feats : list feature)
  (entity_frames : entity_frames_t) (w : world) (test bf0 : feature)
  (loc bloc : nat) (frame base_frame : DataFrame) :
  hd_error feats = Some test ->
  hd_error (base_features test) = Some bf0 ->
  dict_get entity_frames (e_id (entity test)) = Some loc ->
  nth_error (heap w) loc = Some frame ->
  dict_get entity_frames (e_id (entity bf0)) = Some bloc ->
  nth_error (heap w) bloc = Some base_frame ->
  (forall f, In f feats -> has_column frame (get_name f) = true) ->
  _calculate_agg_features ext self feats entity_frames w
    = Ok (entity_frames, w).
Proof.
  intros Hhd Hbf Hloc Hframe Hbloc Hbase Hall.
  assert (Hf1 : first (base_features test) = Ok bf0)
    by (destruct (base_features test); inversion Hbf; reflexivity).
  unfold _calculate_agg_features, agg_setup.
  destruct feats as [|t rest]; [discriminate|].
  cbn in Hhd. inversion Hhd. subst t. cbn [first].
  unfold bindM, lift, read, ret, dict_mem, dict_item.
  rewrite Hf1, Hloc, Hbloc. cbn [andb py_assert]. rewrite Hframe, Hbase.
  rewrite (filter_none (fun f => negb (has_column frame (get_name f)))
             (test :: rest)).
  - reflexivity.
  - intros f Hf. rewrite (Hall f Hf). reflexivity.
Qed.

Lemma defaults_fold_columns (feats : list feature) :
  forall frame frame',
    foldM set_default_column feats frame = Ok frame' ->
    forall k, has_column frame k = true \/ In k (map get_name feats) ->
              has_column frame' k = true.
Proof.
  induction feats as [|f feats IH]; intros frame frame' H k Hk.
  - cbn in H. inversion H. subst. destruct Hk as [Hk|[]]. exact Hk.
  - cbn [foldM] in H. rewrite set_default_column_spec in H.
    cbn [bind] in H. apply (IH _ _ H).
    rewrite has_column_set_column.
    destruct Hk as [Hk|[<-|Hk]].
    + left. rewrite Hk. apply orb_true_r.
    + left. rewrite String.eqb_refl. reflexivity.
    + right. exact Hk.
Qed.

Lemma nth_error_with_table w loc df l :
  l <> loc ->
  nth_error (heap (with_table w loc df)) l = nth_error (heap w) l.
Proof.
  unfold with_table. cbn [heap]. generalize (heap w). intros h.
  revert loc l. induction h as [|x h IH]; intros [|loc] [|l] Hne;
    cbn; try reflexivity.
  - contradiction.
  - apply IH. congruence.
Qed.

Lemma nth_error_with_table_same w loc df x :
  nth_error (heap w) loc = Some x ->
  nth_error (heap (with_table w loc df)) loc = Some df.
Proof. unfold with_table. cbn [heap]. apply nth_error_replace_nth. Qed.

(** X6.  When every feature of the group already has its column on the
    parent table, the aggregation calculator returns at once: the table
    dictionary and the store stay as they are, whatever the child table
    holds, whether or not the where column, the relationship path or the
    window can be resolved.  So running the calculator again after a run
    that ended on the default values changes nothing: the first run has
    given every feature of the group its column. *)
Theorem agg_skips_computed_features (ext : Externals)
  (self : PandasBackend) (feats : list feature)
  (entity_frames : entity_frames_t) (w : world) :
  (forall test bf0 loc bloc frame base_frame,
     hd_error feats = Some test ->
     hd_error (base_features test) = Some bf0 ->
     dict_get entity_frames (e_id (entity test)) = Some loc ->
     nth_error (heap w) loc = Some frame ->
     dict_get entity_frames (e_id (entity bf0)) = Some bloc ->
     nth_error (heap w) bloc = Some base_frame ->
     (forall f, In f feats -> has_column frame (get_name f) = true) ->
     _calculate_agg_features ext self feats entity_frames w
       = Ok (entity_frames, w)) /\
  (forall w1 c flag,
     agg_setup ext self feats entity_frames w = Ok (Some c, w1) ->
     agg_no_instances ext (l_entity c) (l_child_entity c) (l_groupby_var c)
         (l_frame c) (l_base_frame c) = Ok flag ->
     df_empty (l_base_frame c) = true \/
     unrelated (l_frame c) (l_base_frame c) (e_index (l_entity c))
               (l_groupby_var c) ->
     exists w',
       _calculate_agg_features ext self feats entity_frames w
         = Ok (entity_frames, w') /\
       _calculate_agg_features ext self feats entity_frames w'
         = Ok (entity_frames, w')).
Proof.
  split; [intros; eapply agg_early_return; eassumption|].
  intros w1 c flag Hsetup Hflag Hcond.
  destruct (agg_setup_inv _ _ _ _ _ _ _ Hsetup)
    as (test & bf0 & bloc & base0 & filtered & path & Hhd & Hbf & _ & _ &
        Hloc & Hframe & Hbloc & Hbase & Hfeats & _ & _ & _ & _ & _ & ->).
  destruct (defaults_fold (l_features c) (l_frame c))
    as [frame' [Hfold _]].
  exists (with_table w (l_loc c) frame'). split.
  - unfold _calculate_agg_features.
    rewrite (bindM_step _ _ _ _ _ Hsetup).
    rewrite (bindM_step _ _ _ _ _ (lift_Ok _ w _ Hflag)).
    rewrite (bindM_step _ _ _ _ _
               (lift_Ok _ w _ (no_data_when_unrelated _ _ _ _ _ _ _
                                 Hflag Hcond))).
    unfold agg_write_defaults, set_default_column_at. unfold bindM at 1.
    rewrite (table_loop set_default_column (l_loc c) (l_features c) w
               (l_frame c) Hframe).
    rewrite Hfold. reflexivity.
  - assert (Hchild : exists base1,
               nth_error (heap (with_table w (l_loc c) frame')) bloc
               = Some base1).
    { destruct (Nat.eq_dec bloc (l_loc c)) as [->|Hne].
      - exists frame'. eapply nth_error_with_table_same. exact Hframe.
      - exists base0. rewrite nth_error_with_table by exact Hne.
        exact Hbase. }
    destruct Hchild as [base1 Hbase1].
    apply (agg_early_return ext self feats entity_frames _
             test bf0 (l_loc c) bloc frame' base1 Hhd Hbf Hloc
             (nth_error_with_table_same _ _ _ _ Hframe) Hbloc Hbase1).
    intros f Hf. apply (defaults_fold_columns _ _ _ Hfold).
    destruct (has_column (l_frame c) (get_name f)) eqn:Ec;
      [left; reflexivity|right].
    apply in_map. rewrite Hfeats. apply filter_In. split; [exact Hf|].
    rewrite Ec. reflexivity.
Qed.

Lemma agg_skips_computed_features_witness :
  _calculate_agg_features Shop.ext (Shop.backend true) [Shop.item_count]
      Shop.frames (Shop.world_of Shop.counted_orders_df Shop.items_df)
    = Ok (Shop.frames, Shop.world_of Shop.counted_orders_df Shop.items_df)
  /\
  exists w',
    _calculate_agg_features Shop.ext (Shop.backend true) [Shop.item_count]
        Shop.frames (Shop.world_of Shop.orders_df Shop.no_items_df)
      = Ok (Shop.frames, w') /\
    _calculate_agg_features Shop.ext (Shop.backend true) [Shop.item_count]
        Shop.frames w'
      = Ok (Shop.frames, w').
Proof.
  split.
  - apply (proj1 (agg_skips_computed_features Shop.ext (Shop.backend true)
                    [Shop.item_count] Shop.frames
                    (Shop.world_of Shop.counted_orders_df Shop.items_df))
                 Shop.item_count (Shop.identity Shop.items "item_id") 0 1
                 Shop.counted_orders_df Shop.items_df
                 eq_refl eq_refl eq_refl eq_refl eq_refl eq_refl).
    intros f [<-|[]]. reflexivity.
  - exact (proj2 (agg_skips_computed_features Shop.ext (Shop.backend true)
                    [Shop.item_count] Shop.frames
                    (Shop.world_of Shop.orders_df Shop.no_items_df))
                 _ _ _ eq_refl eq_refl (or_introl eq_refl)).
Defined.

(* ================================================================= *)
(** ** The count window for one observation or more (lines 340-346) *)

Lemma NoDup_skipn {A : Type} (n : nat) (l : list A) :
  NoDup l -> NoDup (skipn n l).
Proof.
  intros H. rewrite <- (firstn_skipn n l) in H.
  eapply NoDup_app_remove_l. exact H.
Qed.

Lemma NoDup_iloc_last {A : Type} (n : Z) (l : list A) :
  NoDup l -> NoDup (iloc_last n l).
Proof.
  intros H. unfold iloc_last. destruct (0 <? n)%Z; apply NoDup_skipn, H.
Qed.

Lemma NoDup_group_positions keys k : NoDup (group_positions keys k).
Proof. unfold group_positions. apply NoDup_filter, seq_NoDup. Qed.

Lemma filter_length_pos {A : Type} (p : A -> bool) (l : list A) x :
  In x l -> p x = true -> 1 <= List.length (filter p l).
Proof.
  induction l as [|a l IH]; [contradiction|].
  intros [->|Hx] Hp; cbn.
  - rewrite Hp. cbn. lia.
  - destruct (p a); cbn; [lia|]. apply IH; assumption.
Qed.

(** The positions kept for one group key belong to that group. *)
Lemma kept_in_group n keys k p :
  In p (iloc_last n (group_positions keys k)) ->
  p < List.length keys /\ py_eq (nth p keys VNaN) k = true.
Proof.
  intros H. apply iloc_last_incl in H. unfold group_positions in H.
  apply filter_In in H. destruct H as [H1 H2].
  apply in_seq in H1. split; [lia|exact H2].
Qed.

(** No row is kept for two group keys. *)
Lemma NoDup_kept_positions n keys (gs : list value) :
  (forall k, List.length (filter (fun g => py_eq g k) gs) <= 1) ->
  NoDup (flat_map (fun k => iloc_last n (group_positions keys k)) gs).
Proof.
  induction gs as [|a gs IH]; intros Hu; [constructor|].
  cbn [flat_map].
  assert (Hu' : forall k,
             List.length (filter (fun g => py_eq g k) gs) <= 1).
  { intros k. specialize (Hu k). cbn in Hu.
    destruct (py_eq a k); cbn in Hu; lia. }
  apply NoDup_app.
  - apply NoDup_iloc_last, NoDup_group_positions.
  - apply IH. exact Hu'.
  - intros p Hp Hq. apply in_flat_map in Hq.
    destruct Hq as [b [Hb Hq]].
    apply kept_in_group in Hp. apply kept_in_group in Hq.
    destruct Hp as [_ Hpa]. destruct Hq as [_ Hpb].
    assert (Hab : py_eq a b = true).
    { eapply py_eq_trans; [|exact Hpb]. rewrite py_eq_sym. exact Hpa. }
    assert (Hbb : py_eq b b = true).
    { eapply py_eq_trans; [|exact Hab]. rewrite py_eq_sym. exact Hab. }
    specialize (Hu b). cbn in Hu. rewrite Hab in Hu. cbn in Hu.
    pose proof (filter_length_pos (fun g => py_eq g b) gs b Hb Hbb).
    lia.
Qed.

(** X7.  A count window of [n >= 1] observations on a child table that is
    not empty keeps, of the rows of each link group, the last [n] in row
    order (all of them when the group has fewer).  Every kept row is a row
    of the table whose link is not missing: rows without link are dropped.
    No row is kept twice, so the windowed table has at most as many rows
    as the table had; each of its columns holds the kept rows' cells. *)
Theorem count_window_keeps_last_rows (self : PandasBackend)
  (child : Entity) (groupby_var : string) (base_frame : DataFrame)
  (n : nat) (t : time) (s : Series) :
  0 < n ->
  df_empty base_frame = false ->
  time_last self = Some t ->
  get_column base_frame groupby_var = Ok s ->
  exists windowed kept,
    agg_use_previous self child groupby_var
        (Some (mkTimedelta false (Z.of_nat n))) base_frame = Ok windowed /\
    df_columns windowed = map_columns (take VNaN kept) base_frame /\
    nrows windowed = List.length kept /\
    (forall k,
       filter (fun p => py_eq (nth p (s_values s) VNaN) k) kept
       = last_rows n (group_positions (s_values s) k)) /\
    (forall p, In p kept ->
       p < List.length (s_values s) /\
       isnull (nth p (s_values s) VNaN) = false) /\
    NoDup kept /\
    List.length kept <= List.length (s_values s).
Proof.
  intros Hn He Ht Hs.
  destruct (proj2 (proj2 (use_previous_window self child groupby_var
                            base_frame)) (Z.of_nat n) t s He Ht Hs)
    as [windowed [H1 [H2 [H3 [H4 _]]]]].
  set (kept := map snd (last_n_positions (Z.of_nat n) (s_values s))) in *.
  assert (Hkept : kept
                  = flat_map (fun k => iloc_last (Z.of_nat n)
                                         (group_positions (s_values s) k))
                             (group_keys (s_values s))).
  { unfold kept, last_n_positions. apply map_snd_flat_map_pair. }
  assert (Hin : forall p, In p kept ->
                  p < List.length (s_values s) /\
                  isnull (nth p (s_values s) VNaN) = false).
  { intros p Hp. rewrite Hkept in Hp. apply in_flat_map in Hp.
    destruct Hp as [k [_ Hp]]. apply kept_in_group in Hp.
    destruct Hp as [Hlt Heq]. split; [exact Hlt|].
    destruct (nth p (s_values s) VNaN); try reflexivity. discriminate. }
  assert (Hnd : NoDup kept).
  { rewrite Hkept. apply NoDup_kept_positions. apply group_keys_unique. }
  exists windowed, kept.
  split; [exact H1|]. split; [exact H2|]. split; [exact H3|].
  split; [|split; [exact Hin|split; [exact Hnd|]]].
  - intros k. rewrite H4. apply iloc_last_positive. exact Hn.
  - rewrite <- (length_seq (List.length (s_values s)) 0).
    apply NoDup_incl_length; [exact Hnd|].
    intros p Hp. apply in_seq. destruct (Hin p Hp). lia.
Qed.

Lemma count_window_keeps_last_rows_witness :
  exists windowed,
    agg_use_previous Shop.running_backend Shop.items "order_id"
        (Some (mkTimedelta false 1)) Shop.items_df = Ok windowed /\
    nrows windowed = 2 /\
    s_values (column_of windowed "item_id") = [VInt 11; VInt 12].
Proof.
  destruct (count_window_keeps_last_rows Shop.running_backend Shop.items
              "order_id" Shop.items_df 1 10%Z
              (series_of_list [VInt 1; VInt 1; VInt 2]))
    as [windowed [kept [H1 _]]].
  - lia.
  - reflexivity.
  - reflexivity.
  - reflexivity.
  - exists windowed. split; [exact H1|].
    cbv in H1. inversion H1. split; reflexivity.
Defined.

(* ================================================================= *)
(** ** The function applied to each group (lines 480-494) *)

Lemma column_values_present (df : DataFrame) (names : list string) :
  (forall n, In n names -> has_column df n = true) ->
  mapM (fun v => s <- get_column df v ;; Ok (s_values s)) names
  = Ok (map (fun v => s_values (column_of df v)) names).
Proof.
  induction names as [|n names IH]; intros H; [reflexivity|].
  cbn [mapM map]. rewrite IH by (intros; apply H; right; assumption).
  specialize (H n (or_introl eq_refl)).
  unfold has_column, dict_mem in H.
  unfold get_column, dict_item, column_of.
  destruct (dict_get (df_columns df) n); [reflexivity|discriminate].
Qed.

Lemma column_values_missing (df : DataFrame) (names : list string) e :
  mapM (fun v => s <- get_column df v ;; Ok (s_values s)) names = Err e ->
  exists n, In n names /\ has_column df n = false /\ e = KeyError n.
Proof.
  induction names as [|n names IH]; [discriminate|].
  cbn [mapM]. unfold get_column at 1, dict_item.
  destruct (dict_get (df_columns df) n) eqn:En; cbn [bind].
  - destruct (mapM _ names) as [vs|e'] eqn:Em; [discriminate|].
    cbn [bind]. intros H. inversion H. subst e'.
    destruct (IH eq_refl) as [m [Hm [Hc He]]].
    exists m. split; [right; exact Hm|]. auto.
  - intros H. inversion H. exists n.
    split; [left; reflexivity|]. split; [|reflexivity].
    unfold has_column, dict_mem. rewrite En. reflexivity.
Qed.

Lemma agg_wrapper_fold (t_last : time) (df : DataFrame)
  (feats : list feature) :
  (forall f bf, In f feats -> In bf (base_features f) ->
                has_column df (get_name bf) = true) ->
  NoDup (map get_name feats) ->
  forall d : dict value,
    (forall f, In f feats -> dict_get d (get_name f) = None) ->
    foldM (fun d f =>
             let func := get_function f in
             let variable_ids := map get_name (base_features f) in
             args <- mapM (fun v => s <- get_column df v ;;
                                    Ok (s_values s)) variable_ids ;;
             if uses_calc_time f
             then Ok (dict_set d (get_name f) (func args (Some t_last)))
             else Ok (dict_set d (get_name f) (func args None)))
          feats d
    = Ok (d ++ map (fun f => (get_name f, group_cell_of t_last df f)) feats).
Proof.
  induction feats as [|f feats IH]; intros Hcols Hnd d Hd.
  - cbn. rewrite app_nil_r. reflexivity.
  - cbn [foldM]. cbv zeta.
    rewrite column_values_present.
    2:{ intros n Hn. apply in_map_iff in Hn. destruct Hn as [bf [<- Hbf]].
        apply (Hcols f bf); [left; reflexivity|exact Hbf]. }
    cbn [bind]. rewrite map_map.
    assert (Hstep : (if uses_calc_time f
                     then Ok (dict_set d (get_name f)
                                (get_function f
                                   (map (fun x => s_values
                                                    (column_of df (get_name x)))
                                        (base_features f))
                                   (Some t_last)))
                     else Ok (dict_set d (get_name f)
                                (get_function f
                                   (map (fun x => s_values
                                                    (column_of df (get_name x)))
                                        (base_features f))
                                   None)))
                    = Ok (d ++ [(get_name f, group_cell_of t_last df f)])).
    { unfold group_cell_of, time_keyword.
      destruct (uses_calc_time f);
        rewrite dict_set_absent by (apply Hd; left; reflexivity);
        reflexivity. }
    rewrite Hstep. cbn [bind]. inversion Hnd as [|? ? Hnotin Hnd']. subst.
    rewrite IH.
    + rewrite <- app_assoc. reflexivity.
    + intros g bf Hg. apply Hcols. right. exact Hg.
    + exact Hnd'.
    + intros g Hg. rewrite dict_get_app, (Hd g (or_intror Hg)).
      cbn. destruct (String.eqb (get_name g) (get_name f)) eqn:E;
        [|reflexivity].
      apply String.eqb_eq in E. exfalso. apply Hnotin. rewrite <- E.
      apply in_map. exact Hg.
Qed.

Lemma agg_wrapper_fold_error (t_last : time) (df : DataFrame)
  (feats : list feature) :
  forall (d : dict value) e,
    foldM (fun d f =>
             let func := get_function f in
             let variable_ids := map get_name (base_features f) in
             args <- mapM (fun v => s <- get_column df v ;;
                                    Ok (s_values s)) variable_ids ;;
             if uses_calc_time f
             then Ok (dict_set d (get_name f) (func args (Some t_last)))
             else Ok (dict_set d (get_name f) (func args None)))
          feats d = Err e ->
    exists f bf, In f feats /\ In bf (base_features f) /\
                 has_column df (get_name bf) = false /\
                 e = KeyError (get_name bf).
Proof.
  induction feats as [|f feats IH]; intros d e H; [discriminate|].
  cbn [foldM] in H. cbv zeta in H.
  destruct (mapM (fun v => s <- get_column df v ;; Ok (s_values s))
                 (map get_name (base_features f))) as [args|e'] eqn:Em.
  - cbn [bind] in H.
    destruct (uses_calc_time f); cbn [bind] in H;
      destruct (IH _ _ H) as [g [bf [Hg Hrest]]];
      exists g, bf; (split; [right; exact Hg|exact Hrest]).
  - cbn [bind] in H. inversion H. subst e'.
    apply column_values_missing in Em.
    destruct Em as [n [Hn [Hc He]]]. apply in_map_iff in Hn.
    destruct Hn as [bf [<- Hbf]].
    exists f, bf. split; [left; reflexivity|]. auto.
Qed.

(** X8.  The function [agg_wrapper] builds, applied to the rows of one
    group, returns a table of one row labelled [0] with one column per
    feature (features of distinct names), in the order given: the cell is
    the feature's function applied to the group's base-feature columns,
    with the cutoff time as keyword when the feature is time-aware.  It
    raises only when a base feature has no column on the group's rows, and
    then a [KeyError] naming such a column. *)
Theorem agg_wrapper_one_row (feats : list feature) (t_last : time)
  (df : DataFrame) :
  (NoDup (map get_name feats) ->
   (forall f bf, In f feats -> In bf (base_features f) ->
                 has_column df (get_name bf) = true) ->
   agg_wrapper feats t_last df
   = Ok (mkDataFrame None [VInt 0]
           (map (fun f => (get_name f,
                           series_of_list [group_cell_of t_last df f]))
                feats))) /\
  (forall e,
     agg_wrapper feats t_last df = Err e ->
     exists f bf, In f feats /\ In bf (base_features f) /\
                  has_column df (get_name bf) = false /\
                  e = KeyError (get_name bf)).
Proof.
  unfold agg_wrapper. split.
  - intros Hnd Hcols.
    match goal with
    | |- bind ?r _ = _ =>
        assert (Hr : r = Ok (map (fun f => (get_name f,
                                            group_cell_of t_last df f))
                                 feats))
          by (apply (agg_wrapper_fold t_last df feats Hcols Hnd []);
              reflexivity);
        rewrite Hr
    end.
    cbn [bind]. rewrite map_map. reflexivity.
  - intros e H.
    match type of H with
    | bind ?r _ = _ => destruct r as [d|e'] eqn:Ef; [discriminate|]
    end.
    cbn [bind] in H. inversion H. subst e'.
    eapply agg_wrapper_fold_error. exact Ef.
Qed.

Lemma agg_wrapper_one_row_witness :
  agg_wrapper [Shop.item_count; Shop.item_id_max] 10%Z Shop.items_df
  = Ok (mkDataFrame None [VInt 0]
          [("COUNT(order_items)", series_of_list [VInt 3]);
           ("MAX(order_items.item_id)", series_of_list [VInt 12])]).
Proof.
  apply (proj1 (agg_wrapper_one_row [Shop.item_count; Shop.item_id_max]
                  10%Z Shop.items_df)).
  - cbn. constructor; [intros [H|[]]; discriminate|].
    constructor; [intros []|constructor].
  - intros f bf [<-|[<-|[]]] [<-|[]]; reflexivity.
Defined.

(* ================================================================= *)
(** ** Aggregation: default values for missing cells (lines 443-455) *)

Lemma fold_dict_set_other {A V : Type} (key : A -> string) (val : A -> V)
  (l : list A) :
  forall (d : dict V) k,
    (forall a, In a l -> key a <> k) ->
    dict_get (fold_left (fun d a => dict_set d (key a) (val a)) l d) k
    = dict_get d k.
Proof.
  induction l as [|a l IH]; intros d k H; [reflexivity|].
  cbn [fold_left]. rewrite IH.
  - apply dict_get_set_other. intros ->.
    apply (H a (or_introl eq_refl)). reflexivity.
  - intros b Hb. apply H. right. exact Hb.
Qed.

Lemma fold_dict_set_get {A V : Type} (key : A -> string) (val : A -> V)
  (l : list A) :
  forall (d : dict V) a,
    NoDup (map key l) -> In a l ->
    dict_get (fold_left (fun d a => dict_set d (key a) (val a)) l d) (key a)
    = Some (val a).
Proof.
  induction l as [|b l IH]; intros d a Hnd Hin; [contradiction|].
  cbn [fold_left]. cbn in Hnd. inversion Hnd as [|? ? Hnotin Hnd']. subst.
  destruct Hin as [->|Hin].
  - rewrite fold_dict_set_other.
    + apply dict_get_set_same.
    + intros c Hc Heq. apply Hnotin. rewrite <- Heq.
      apply in_map. exact Hc.
  - apply IH; assumption.
Qed.

Lemma dict_keys_set_present {V : Type} (d : dict V) k (v : V) :
  dict_mem d k = true -> dict_keys (dict_set d k v) = dict_keys d.
Proof.
  unfold dict_mem, dict_keys.
  induction d as [|[k1 v1] d IH]; [discriminate|].
  cbn. destruct (String.eqb k k1) eqn:E.
  - apply String.eqb_eq in E. subst. reflexivity.
  - intros H. cbn. rewrite (IH H). reflexivity.
Qed.

Lemma map_snd_combine {A B : Type} (l : list A) (l' : list B) :
  List.length l' = List.length l -> map snd (combine l l') = l'.
Proof.
  revert l'. induction l as [|a l IH]; intros [|b l'] H;
    try discriminate; [reflexivity|].
  cbn. f_equal. apply IH. cbn in H. lia.
Qed.

Lemma map_combine_map_combine {A B C : Type} (g : A * B -> C)
  (h : A * B -> B) (l : list A) (l' : list B) :
  map g (combine l (map h (combine l l')))
  = map (fun x => g (fst x, h x)) (combine l l').
Proof.
  revert l'. induction l as [|a l IH]; intros [|b l']; try reflexivity.
  cbn. f_equal. apply IH.
Qed.

Lemma select_In {A : Type} (mask : list bool) (l : list A) x :
  In x (select mask l) <->
  exists j, nth_error mask j = Some true /\ nth_error l j = Some x.
Proof.
  revert l. induction mask as [|b mask IH]; intros [|a l].
  - cbn. split; [contradiction|]. intros [[|j] [H _]]; discriminate.
  - cbn. split; [contradiction|]. intros [[|j] [H _]]; discriminate.
  - cbn. split; [contradiction|]. intros [[|j] [_ H]]; discriminate.
  - cbn [select]. destruct b.
    + cbn [In]. rewrite IH. split.
      * intros [<-|[j [H1 H2]]]; [exists 0; auto|exists (S j); auto].
      * intros [[|j] [H1 H2]]; cbn in *.
        -- left. congruence.
        -- right. exists j. auto.
    + rewrite IH. split.
      * intros [j [H1 H2]]. exists (S j). auto.
      * intros [[|j] [H1 H2]]; cbn in *; [discriminate|].
        exists j. auto.
Qed.

Lemma set_at_spec frame label name v s :
  get_column frame name = Ok s ->
  set_at frame label name v
  = Ok (set_column frame name
          (series_of_list
             (map (fun lx => if key_match label (fst lx) then v else snd lx)
                  (combine (df_index frame) (s_values s))))).
Proof. intros H. unfold set_at. rewrite H. reflexivity. Qed.

Lemma has_column_get_column df n s :
  get_column df n = Ok s -> has_column df n = true.
Proof.
  unfold get_column, dict_item, has_column, dict_mem.
  destruct (dict_get (df_columns df) n); [reflexivity|discriminate].
Qed.

Lemma get_column_column_of df n :
  has_column df n = true -> get_column df n = Ok (column_of df n).
Proof.
  unfold get_column, dict_item, has_column, dict_mem, column_of.
  destruct (dict_get (df_columns df) n); [reflexivity|discriminate].
Qed.

(** The loop of lines 449-450 for one column: a cell becomes [v] when its
    row label matches one of the labels gone through. *)
Lemma set_at_fold (name : string) (v : value) (nis : list value) :
  forall frame s,
    get_column frame name = Ok s ->
    exists frame',
      foldM (fun frame ni => set_at frame ni name v) nis frame = Ok frame' /\
      df_index frame' = df_index frame /\
      dict_keys (df_columns frame') = dict_keys (df_columns frame) /\
      (nis = [] -> frame' = frame) /\
      (nis <> [] ->
       s_values (column_of frame' name)
       = map (fun lx => if existsb (fun ni => key_match ni (fst lx)) nis
                        then v else snd lx)
             (combine (df_index frame) (s_values s))) /\
      (forall n, n <> name -> get_column frame' n = get_column frame n).
Proof.
  induction nis as [|ni nis IH]; intros frame s Hs.
  - exists frame. cbn. repeat split; auto. intros H. contradiction.
  - cbn [foldM]. rewrite (set_at_spec _ _ _ _ _ Hs). cbn [bind].
    set (s1 := series_of_list
                 (map (fun lx => if key_match ni (fst lx) then v
                                 else snd lx)
                      (combine (df_index frame) (s_values s)))).
    destruct (IH (set_column frame name s1) s1
                 (get_column_set_column _ _ _))
      as [frame' [H1 [H2 [H3 [H4 [H5 H6]]]]]].
    exists frame'. split; [exact H1|]. split; [exact H2|].
    split; [|split; [discriminate|split]].
    + rewrite H3. unfold set_column. cbn [df_columns with_columns].
      apply dict_keys_set_present.
      apply (has_column_get_column _ _ _ Hs).
    + intros _. destruct nis as [|ni' nis'].
      * rewrite (H4 eq_refl). unfold column_of, set_column.
        cbn [df_columns with_columns]. rewrite dict_get_set_same.
        unfold s1. cbn [series_of_list s_values existsb].
        apply map_ext. intros lx. rewrite orb_false_r. reflexivity.
      * rewrite H5 by discriminate.
        change (df_index (set_column frame name s1)) with (df_index frame).
        unfold s1. cbn [series_of_list s_values].
        rewrite map_combine_map_combine. apply map_ext. intros lx.
        cbn [fst snd existsb].
        destruct (key_match ni (fst lx)); cbn [orb]; [|reflexivity].
        destruct (key_match ni' (fst lx) ||
                  existsb (fun ni0 => key_match ni0 (fst lx)) nis');
          reflexivity.
    + intros n Hn. rewrite (H6 n Hn).
      apply get_column_set_column_other. exact Hn.
Qed.

(** With labels that tell the rows apart, a row's label matches the label
    of a row with a missing cell exactly when its own cell is missing. *)
Lemma null_labels_match (labels vals : list value) i :
  distinct_labels labels ->
  List.length vals = List.length labels ->
  i < List.length labels ->
  existsb (fun ni => key_match ni (nth i labels VNaN))
          (select (map isnull vals) labels)
  = isnull (nth i vals VNaN).
Proof.
  intros Hd Hlen Hi.
  destruct (isnull (nth i vals VNaN)) eqn:En.
  - apply existsb_exists. exists (nth i labels VNaN). split.
    + apply select_In. exists i. split.
      * rewrite nth_error_map.
        rewrite (nth_error_nth' vals VNaN) by lia. cbn. rewrite En.
        reflexivity.
      * apply nth_error_nth'. exact Hi.
    + apply (Hd i i Hi Hi). reflexivity.
  - destruct (existsb _ _) eqn:Ex; [|reflexivity].
    apply existsb_exists in Ex. destruct Ex as [ni [Hni Hm]].
    apply select_In in Hni. destruct Hni as [j [Hj1 Hj2]].
    assert (Hjl : j < List.length labels)
      by (apply nth_error_Some; congruence).
    rewrite <- (nth_error_nth _ _ VNaN Hj2) in Hm.
    apply (Hd j i Hjl Hi) in Hm. subst j.
    rewrite nth_error_map in Hj1.
    rewrite (nth_error_nth' vals VNaN) in Hj1 by lia. cbn in Hj1.
    congruence.
Qed.

Lemma map_combine_nth {B : Type} (g : value -> value -> B)
  (labels vals : list value) :
  List.length vals = List.length labels ->
  map (fun lx => g (fst lx) (snd lx)) (combine labels vals)
  = map (fun i => g (nth i labels VNaN) (nth i vals VNaN))
        (seq 0 (List.length labels)).
Proof.
  revert vals. induction labels as [|a labels IH]; intros [|b vals] H;
    try discriminate; [reflexivity|].
  cbn [combine map List.length seq nth fst snd]. f_equal.
  rewrite <- seq_shift, map_map. apply IH. cbn in H. lia.
Qed.

Lemma map_nth_seq (h : value -> value) (vals : list value) :
  map (fun i => h (nth i vals VNaN)) (seq 0 (List.length vals))
  = map h vals.
Proof.
  induction vals as [|b vals IH]; [reflexivity|].
  cbn [List.length seq map nth]. f_equal.
  rewrite <- seq_shift, map_map. exact IH.
Qed.

(** Lines 448-450 for one feature with an iterable default. *)
Lemma iter_default_step (f : feature) (frame : DataFrame) :
  has_column frame (get_name f) = true ->
  wf_frame frame = true ->
  distinct_labels (df_index frame) ->
  exists frame',
    (s <- get_column frame (get_name f) ;;
     foldM (fun frame ni => set_at frame ni (get_name f) (default_value f))
           (select (map isnull (s_values s)) (df_index frame)) frame)
      = Ok frame' /\
    df_index frame' = df_index frame /\
    dict_keys (df_columns frame') = dict_keys (df_columns frame) /\
    s_values (column_of frame' (get_name f))
      = filled (default_value f) (s_values (column_of frame (get_name f))) /\
    (forall n, n <> get_name f -> get_column frame' n = get_column frame n).
Proof.
  intros Hc Hwf Hd.
  pose proof (get_column_column_of _ _ Hc) as Hs. rewrite Hs. cbn [bind].
  set (s := column_of frame (get_name f)) in *.
  assert (Hlen : List.length (s_values s) = List.length (df_index frame)).
  { apply (wf_frame_column frame (get_name f) s Hwf).
    unfold get_column, dict_item in Hs.
    destruct (dict_get (df_columns frame) (get_name f));
      inversion Hs; reflexivity. }
  destruct (set_at_fold (get_name f) (default_value f)
              (select (map isnull (s_values s)) (df_index frame)) frame s Hs)
    as [frame' [H1 [H2 [H3 [H4 [H5 H6]]]]]].
  exists frame'. split; [exact H1|]. split; [exact H2|].
  split; [exact H3|]. split; [|exact H6].
  assert (Hall : map (fun lx =>
                        if existsb (fun ni => key_match ni (fst lx))
                             (select (map isnull (s_values s))
                                     (df_index frame))
                        then default_value f else snd lx)
                     (combine (df_index frame) (s_values s))
                 = filled (default_value f) (s_values s)).
  { rewrite (map_combine_nth
               (fun l x => if existsb (fun ni => key_match ni l)
                                (select (map isnull (s_values s))
                                        (df_index frame))
                           then default_value f else x)
               (df_index frame) (s_values s) Hlen).
    unfold filled. rewrite <- (map_nth_seq _ (s_values s)).
    rewrite Hlen. apply map_ext_in. intros i Hi. apply in_seq in Hi.
    rewrite (null_labels_match _ _ i Hd Hlen) by lia. reflexivity. }
  destruct (select (map isnull (s_values s)) (df_index frame))
    as [|ni nis] eqn:Esel.
  - rewrite (H4 eq_refl). fold s. rewrite <- Hall. cbn [existsb].
    symmetry. rewrite <- (map_snd_combine (df_index frame) (s_values s))
      at 2 by exact Hlen.
    reflexivity.
  - rewrite H5 by discriminate. exact Hall.
Qed.

Lemma wf_frame_same_shape (df df' : DataFrame) :
  df_index df' = df_index df ->
  (forall n s', get_column df' n = Ok s' ->
                List.length (s_values s') = nrows df) ->
  NoDup (dict_keys (df_columns df')) ->
  wf_frame df' = true.
Proof.
  intros Hidx Hcols Hnd. unfold wf_frame. apply forallb_forall.
  intros [n s'] Hin. cbn [snd]. unfold nrows. rewrite Hidx.
  apply Nat.eqb_eq. apply (Hcols n s').
  unfold get_column, dict_item.
  assert (Hget : dict_get (df_columns df') n = Some s').
  { clear Hcols. induction (df_columns df') as [|[k v] d IH];
      [contradiction|].
    cbn in Hnd. inversion Hnd as [|? ? Hnotin Hnd']. subst.
    cbn. destruct Hin as [Heq|Hin].
    - inversion Heq. subst. rewrite String.eqb_refl. reflexivity.
    - destruct (String.eqb n k) eqn:E; [|apply IH; assumption].
      apply String.eqb_eq in E. subst k. exfalso. apply Hnotin.
      unfold dict_keys. apply in_map_iff. exists (n, s'). auto. }
  rewrite Hget. reflexivity.
Qed.

Lemma set_at_fold_wf (name : string) (v : value) (nis : list value) :
  forall frame frame',
    wf_frame frame = true ->
    foldM (fun frame ni => set_at frame ni name v) nis frame = Ok frame' ->
    wf_frame frame' = true.
Proof.
  induction nis as [|ni nis IH]; intros frame frame' Hwf H.
  - cbn in H. inversion H. subst. exact Hwf.
  - cbn [foldM] in H. apply bind_Ok in H. destruct H as [fr [H1 H2]].
    apply (IH fr frame'); [|exact H2].
    unfold set_at in H1. apply bind_Ok in H1. destruct H1 as [s [Hs H1]].
    inversion H1. apply wf_frame_set_column; [exact Hwf|].
    rewrite length_map, length_combine.
    rewrite (wf_frame_column frame name s Hwf).
    + unfold nrows. apply Nat.min_id.
    + apply dict_item_inv. exact Hs.
Qed.

Lemma column_of_get_column df df' n :
  get_column df' n = get_column df n -> column_of df' n = column_of df n.
Proof.
  unfold get_column, dict_item, column_of.
  destruct (dict_get (df_columns df') n), (dict_get (df_columns df) n);
    intros H; inversion H; reflexivity.
Qed.

(** Lines 445-450: the features with an iterable default, one after the
    other. *)
Lemma iter_defaults_fold (its : list feature) :
  forall frame,
    NoDup (map get_name its) ->
    (forall f, In f its -> has_column frame (get_name f) = true) ->
    wf_frame frame = true ->
    (its <> [] -> distinct_labels (df_index frame)) ->
    exists frame',
      foldM (fun frame f =>
               s <- get_column frame (get_name f) ;;
               let nulls :=
                 select (map isnull (s_values s)) (df_index frame) in
               foldM (fun frame ni =>
                        set_at frame ni (get_name f) (default_value f))
                     nulls frame)
            its frame = Ok frame' /\
      df_index frame' = df_index frame /\
      dict_keys (df_columns frame') = dict_keys (df_columns frame) /\
      (forall f, In f its ->
         s_values (column_of frame' (get_name f))
         = filled (default_value f)
                  (s_values (column_of frame (get_name f)))) /\
      (forall n, ~ In n (map get_name its) ->
                 get_column frame' n = get_column frame n).
Proof.
  induction its as [|f its IH]; intros frame Hnd Hcols Hwf Hd.
  - exists frame. cbn. repeat split; auto. intros f [].
  - cbn in Hnd. inversion Hnd as [|? ? Hnotin Hnd']. subst.
    assert (Hlab : distinct_labels (df_index frame))
      by (apply Hd; discriminate).
    destruct (iter_default_step f frame (Hcols f (or_introl eq_refl))
                Hwf Hlab) as [fr [S1 [S2 [S3 [S4 S5]]]]].
    assert (Hne : forall g, In g its -> get_name g <> get_name f).
    { intros g Hg Heq. apply Hnotin. rewrite <- Heq. apply in_map.
      exact Hg. }
    assert (Hwf1 : wf_frame fr = true).
    { pose proof (get_column_column_of _ _ (Hcols f (or_introl eq_refl)))
        as Hs.
      rewrite Hs in S1. cbn [bind] in S1.
      eapply set_at_fold_wf; [exact Hwf|exact S1]. }
    destruct (IH fr Hnd') as [frame' [I1 [I2 [I3 [I4 I5]]]]].
    + intros g Hg. eapply has_column_get_column.
      rewrite (S5 _ (Hne g Hg)). apply get_column_column_of.
      apply Hcols. right. exact Hg.
    + exact Hwf1.
    + intros _. rewrite S2. exact Hlab.
    + exists frame'. cbn [foldM]. cbv zeta in S1. cbv zeta.
      rewrite S1. cbn [bind]. split; [exact I1|].
      split; [congruence|]. split; [congruence|]. split.
      * intros g [<-|Hg].
        -- rewrite (column_of_get_column fr frame' (get_name f)
                      (I5 _ Hnotin)).
           exact S4.
        -- rewrite (I4 g Hg).
           rewrite (column_of_get_column frame fr (get_name g)
                      (S5 _ (Hne g Hg))).
           reflexivity.
      * intros n Hn. cbn in Hn. rewrite I5 by tauto.
        apply S5. intros ->. tauto.
Qed.

Lemma dict_get_fillna (d : dict value) (df : DataFrame) n :
  dict_get (df_columns (fillna d df)) n
  = match dict_get d n with
    | Some v =>
        option_map (fun s => series_of_list (filled v (s_values s)))
                   (dict_get (df_columns df) n)
    | None => dict_get (df_columns df) n
    end.
Proof.
  unfold fillna. cbn [df_columns with_columns].
  induction (df_columns df) as [|[k s] cols IH].
  - cbn. destruct (dict_get d n); reflexivity.
  - cbn [map fst snd].
    destruct (String.eqb n k) eqn:E.
    + apply String.eqb_eq in E. subst k.
      destruct (dict_get d n); cbn; rewrite String.eqb_refl; reflexivity.
    + destruct (dict_get d k); cbn; rewrite E; exact IH.
Qed.

Lemma dict_keys_fillna (d : dict value) (df : DataFrame) :
  dict_keys (df_columns (fillna d df)) = dict_keys (df_columns df).
Proof.
  unfold fillna, dict_keys. cbn [df_columns with_columns].
  rewrite map_map. apply map_ext. intros [k s]. cbn.
  destruct (dict_get d k); reflexivity.
Qed.

(** Lines 443-455 on a table that has the features' columns. *)
Lemma agg_fill_defaults_spec (feats : list feature)
  (frame : DataFrame) :
  NoDup (map get_name feats) ->
  (forall f, In f feats -> has_column frame (get_name f) = true) ->
  wf_frame frame = true ->
  ((exists f, In f feats /\ has_iter (default_value f) = true) ->
   distinct_labels (df_index frame)) ->
  exists frame',
    agg_fill_defaults feats frame = Ok frame' /\
    df_index frame' = df_index frame /\
    dict_keys (df_columns frame') = dict_keys (df_columns frame) /\
    (forall f, In f feats ->
       s_values (column_of frame' (get_name f))
       = filled (default_value f)
                (s_values (column_of frame (get_name f)))) /\
    (forall n, ~ In n (map get_name feats) ->
               get_column frame' n = get_column frame n).
Proof.
  intros Hnd Hcols Hwf Hlab. unfold agg_fill_defaults. cbv zeta.
  set (its := filter (fun f => has_iter (default_value f)) feats).
  assert (Hits : forall f, In f its <->
                   In f feats /\ has_iter (default_value f) = true)
    by (intros f; apply filter_In).
  assert (Hsc : filter (fun f => negb (existsb (feature_eqb f) its)) feats
                = filter (fun f => negb (has_iter (default_value f))) feats).
  { apply filter_ext_in. intros f Hf. f_equal.
    destruct (has_iter (default_value f)) eqn:Ei.
    - apply existsb_exists. exists f. split; [|apply feature_eqb_refl].
      apply Hits. auto.
    - destruct (existsb (feature_eqb f) its) eqn:Ex; [|reflexivity].
      apply existsb_exists in Ex. destruct Ex as [g [Hg Hfg]].
      apply Hits in Hg. destruct Hg as [Hg Hgi].
      unfold feature_eqb in Hfg. apply andb_true_iff in Hfg.
      destruct Hfg as [Hn _]. apply String.eqb_eq in Hn.
      rewrite (NoDup_map_inj get_name feats f g Hnd Hf Hg Hn) in Ei.
      congruence. }
  rewrite Hsc. clear Hsc.
  set (scs := filter (fun f => negb (has_iter (default_value f))) feats).
  assert (Hscs : forall f, In f scs <->
                   In f feats /\ has_iter (default_value f) = false).
  { intros f. unfold scs. rewrite filter_In, negb_true_iff. reflexivity. }
  assert (Hnd_its : NoDup (map get_name its)).
  { unfold its. clear -Hnd. induction feats as [|f feats IH]; [constructor|].
    cbn in Hnd. inversion Hnd as [|? ? Hnotin Hnd']. subst.
    cbn [filter]. destruct (has_iter (default_value f)); [|auto].
    cbn. constructor; [|auto]. intros Hin. apply Hnotin.
    apply in_map_iff in Hin. destruct Hin as [g [Hg1 Hg2]].
    apply filter_In in Hg2. rewrite <- Hg1. apply in_map. apply Hg2. }
  assert (Hnd_scs : NoDup (map get_name scs)).
  { unfold scs. clear -Hnd. induction feats as [|f feats IH]; [constructor|].
    cbn in Hnd. inversion Hnd as [|? ? Hnotin Hnd']. subst.
    cbn [filter]. destruct (negb (has_iter (default_value f))); [|auto].
    cbn. constructor; [|auto]. intros Hin. apply Hnotin.
    apply in_map_iff in Hin. destruct Hin as [g [Hg1 Hg2]].
    apply filter_In in Hg2. rewrite <- Hg1. apply in_map. apply Hg2. }
  destruct (iter_defaults_fold its frame Hnd_its)
    as [fr [F1 [F2 [F3 [F4 F5]]]]].
  { intros f Hf. apply Hcols. apply Hits in Hf. apply Hf. }
  { exact Hwf. }
  { intros Hne. apply Hlab. destruct its as [|f its'] eqn:E;
      [contradiction|].
    exists f. apply Hits. left. reflexivity. }
  cbv zeta in F1. rewrite F1. cbn [bind].
  set (d := fold_left (fun d f => dict_set d (get_name f) (default_value f))
                      scs []).
  exists (fillna d fr). split; [reflexivity|]. split; [exact F2|].
  split; [rewrite dict_keys_fillna; exact F3|]. split.
  - intros f Hf. unfold column_of at 1. rewrite dict_get_fillna.
    destruct (has_iter (default_value f)) eqn:Ei.
    + assert (Hd : dict_get d (get_name f) = None).
      { unfold d. rewrite fold_dict_set_other; [reflexivity|].
        intros g Hg Heq. apply Hscs in Hg. destruct Hg as [Hg Hgi].
        rewrite (NoDup_map_inj get_name feats g f Hnd Hg Hf Heq) in Hgi.
        congruence. }
      rewrite Hd. fold (column_of fr (get_name f)).
      apply F4. apply Hits. auto.
    + assert (Hd : dict_get d (get_name f) = Some (default_value f)).
      { unfold d. apply fold_dict_set_get; [exact Hnd_scs|].
        apply Hscs. auto. }
      rewrite Hd.
      assert (Hsame : get_column fr (get_name f)
                      = get_column frame (get_name f)).
      { apply F5. intros Hin. apply in_map_iff in Hin.
        destruct Hin as [g [Hg1 Hg2]]. apply Hits in Hg2.
        destruct Hg2 as [Hg2 Hgi].
        rewrite (NoDup_map_inj get_name feats g f Hnd Hg2 Hf Hg1) in Hgi.
        congruence. }
      pose proof (get_column_column_of _ _ (Hcols f Hf)) as Hc.
      rewrite <- Hsame in Hc. unfold get_column, dict_item in Hc.
      destruct (dict_get (df_columns fr) (get_name f)) as [s|];
        [|discriminate].
      inversion Hc. reflexivity.
  - intros n Hn. unfold get_column, dict_item. rewrite dict_get_fillna.
    assert (Hd : dict_get d n = None).
    { unfold d. rewrite fold_dict_set_other; [reflexivity|].
      intros g Hg Heq. apply Hn. rewrite <- Heq. apply in_map.
      apply Hscs in Hg. apply Hg. }
    rewrite Hd.
    assert (Hsame : get_column fr n = get_column frame n).
    { apply F5. intros Hin. apply Hn. apply in_map_iff in Hin.
      destruct Hin as [g [Hg1 Hg2]]. rewrite <- Hg1. apply in_map.
      apply Hits in Hg2. apply Hg2. }
    exact Hsame.
Qed.

(** X9.  The default handling that ends the aggregation calculator, on a
    table where every feature of the group (features of distinct names)
    has its column and every column has one cell per row: it raises
    nothing; in each feature's column the missing cells hold the feature's
    default value afterwards and the other cells are what they were, so
    that no cell of the column is missing unless the default itself is;
    the row labels, the columns' names and order, and every column that is
    not a feature's stay.  Features with an iterable default are served
    cell by cell through the row labels, which must tell the rows
    apart. *)
Theorem missing_cells_get_defaults (feats : list feature)
  (frame : DataFrame) :
  NoDup (map get_name feats) ->
  (forall f, In f feats -> has_column frame (get_name f) = true) ->
  wf_frame frame = true ->
  ((exists f, In f feats /\ has_iter (default_value f) = true) ->
   distinct_labels (df_index frame)) ->
  exists frame',
    agg_fill_defaults feats frame = Ok frame' /\
    df_index frame' = df_index frame /\
    dict_keys (df_columns frame') = dict_keys (df_columns frame) /\
    (forall f, In f feats ->
       s_values (column_of frame' (get_name f))
       = filled (default_value f)
                (s_values (column_of frame (get_name f)))) /\
    (forall f, In f feats -> isnull (default_value f) = false ->
       existsb isnull (s_values (column_of frame' (get_name f))) = false) /\
    (forall n, ~ In n (map get_name feats) ->
               get_column frame' n = get_column frame n).
Proof.
  intros Hnd Hcols Hwf Hlab.
  destruct (agg_fill_defaults_spec feats frame Hnd Hcols Hwf Hlab)
    as [frame' [H1 [H2 [H3 [H4 H5]]]]].
  exists frame'. split; [exact H1|]. split; [exact H2|].
  split; [exact H3|]. split; [exact H4|]. split; [|exact H5].
  intros f Hf Hdef. rewrite (H4 f Hf). unfold filled.
  induction (s_values (column_of frame (get_name f))) as [|x vals IH];
    [reflexivity|].
  cbn [map existsb]. rewrite IH, orb_false_r.
  destruct (isnull x) eqn:Ex; [exact Hdef|exact Ex].
Qed.

Lemma missing_cells_get_defaults_witness :
  exists frame',
    agg_fill_defaults [Shop.item_count; Shop.item_ids]
        Shop.joined_orders_df = Ok frame' /\
    s_values (column_of frame' "COUNT(order_items)")
      = [VInt 2; VInt 1; VInt 0] /\
    s_values (column_of frame' "LIST(order_items.item_id)")
      = [VSeq [VInt 10; VInt 11]; VSeq [VInt 12]; VSeq []].
Proof.
  destruct (missing_cells_get_defaults [Shop.item_count; Shop.item_ids]
              Shop.joined_orders_df)
    as [frame' [H1 [_ [_ [H4 _]]]]].
  - cbn. constructor; [intros [H|[]]; discriminate|].
    constructor; [intros []|constructor].
  - intros f [<-|[<-|[]]]; reflexivity.
  - reflexivity.
  - intros _ i j Hi Hj. cbn in Hi, Hj.
    destruct i as [|[|[|i]]]; destruct j as [|[|[|j]]]; cbn;
      split; intros H; try reflexivity; try discriminate; lia.
  - exists frame'. split; [exact H1|]. split.
    + apply (H4 Shop.item_count). left. reflexivity.
    + apply (H4 Shop.item_ids). right. left. reflexivity.
Defined.

(* ================================================================= *)
(** ** Aggregation: numeric columns as floats (lines 457-462) *)

Lemma float_cell_floatable parse v :
  floatable v = true -> float_cell parse v = Ok (as_float v).
Proof. destruct v; cbn; intros H; try discriminate; reflexivity. Qed.

Lemma astype_float_ok parse (s : Series) :
  forallb floatable (s_values s) = true ->
  astype_float parse s = Ok (mkSeries Float64 (map as_float (s_values s))).
Proof.
  intros H. unfold astype_float.
  assert (Hm : mapM (float_cell parse) (s_values s)
               = Ok (map as_float (s_values s))).
  { induction (s_values s) as [|v vals IH]; [reflexivity|].
    cbn [forallb] in H. apply andb_true_iff in H. destruct H as [Hv H].
    cbn [mapM map]. rewrite (float_cell_floatable parse v Hv), (IH H).
    reflexivity. }
  rewrite Hm. reflexivity.
Qed.

(** [astype(float)] fails exactly when some cell does, with the error of
    the first such cell. *)
Lemma astype_float_error parse (s : Series) e :
  astype_float parse s = Err e ->
  exists v, In v (s_values s) /\ float_cell parse v = Err e.
Proof.
  unfold astype_float.
  destruct (mapM (float_cell parse) (s_values s)) as [vals|e'] eqn:Em;
    [discriminate|].
  cbn [bind]. intros H. inversion H. subst e'. clear H.
  induction (s_values s) as [|v vals IH]; [discriminate|].
  cbn [mapM] in Em.
  destruct (float_cell parse v) as [r|e1] eqn:Ev.
  - cbn [bind] in Em.
    destruct (mapM (float_cell parse) vals) as [rs|e2]; [discriminate|].
    cbn [bind] in Em. destruct (IH Em) as [v' [Hin Hv']].
    exists v'. split; [right; exact Hin|exact Hv'].
  - cbn [bind] in Em. inversion Em. subst e1.
    exists v. split; [left; reflexivity|exact Ev].
Qed.

Lemma astype_float_bad parse (s : Series) v e0 :
  In v (s_values s) -> float_cell parse v = Err e0 ->
  exists e, astype_float parse s = Err e.
Proof.
  intros Hin Hv. unfold astype_float.
  assert (Hm : exists e, mapM (float_cell parse) (s_values s) = Err e).
  { induction (s_values s) as [|x vals IH]; [contradiction|].
    cbn [mapM]. destruct (float_cell parse x) as [r|e1] eqn:Ex.
    - destruct Hin as [->|Hin]; [congruence|].
      destruct (IH Hin) as [e He]. rewrite He. exists e. reflexivity.
    - exists e1. reflexivity. }
  destruct Hm as [e He]. rewrite He. exists e. reflexivity.
Qed.

(** One turn of the loop of lines 459-462. *)
Lemma float_step ext (frame : DataFrame) (f : feature) :
  has_column frame (get_name f) = true ->
  (if negb (expanding f) && is_numeric (variable_type f) then
     s <- get_column frame (get_name f) ;;
     if str_mem (dtype_name (s_dtype s)) ["object"; "bool"] then
       s' <- astype_float (float_of_str ext) s ;;
       Ok (set_column frame (get_name f) s')
     else Ok frame
   else Ok frame)
  = if needs_float frame f then
      s' <- astype_float (float_of_str ext)
              (column_of frame (get_name f)) ;;
      Ok (set_column frame (get_name f) s')
    else Ok frame.
Proof.
  intros Hc. unfold needs_float.
  destruct (negb (expanding f) && is_numeric (variable_type f));
    [|reflexivity].
  rewrite (get_column_column_of _ _ Hc). cbn [bind andb].
  destruct (str_mem _ _); reflexivity.
Qed.

Lemma column_of_set_column_other df name s n :
  n <> name -> column_of (set_column df name s) n = column_of df n.
Proof.
  intros H. apply column_of_get_column.
  apply get_column_set_column_other. exact H.
Qed.

Lemma column_of_set_column df name s :
  column_of (set_column df name s) name = s.
Proof.
  unfold column_of, set_column. cbn [df_columns with_columns].
  rewrite dict_get_set_same. reflexivity.
Qed.

Lemma float_fold_ok ext (feats : list feature) :
  forall frame,
    NoDup (map get_name feats) ->
    (forall f, In f feats -> has_column frame (get_name f) = true) ->
    (forall f, In f feats -> needs_float frame f = true ->
       forallb floatable (s_values (column_of frame (get_name f))) = true) ->
    exists frame',
      agg_float_columns ext feats frame = Ok frame' /\
      df_index frame' = df_index frame /\
      dict_keys (df_columns frame') = dict_keys (df_columns frame) /\
      (forall f, In f feats ->
         column_of frame' (get_name f)
         = if needs_float frame f
           then mkSeries Float64
                  (map as_float (s_values (column_of frame (get_name f))))
           else column_of frame (get_name f)) /\
      (forall n, ~ In n (map get_name feats) ->
                 get_column frame' n = get_column frame n).
Proof.
  unfold agg_float_columns.
  induction feats as [|f feats IH]; intros frame Hnd Hcols Hfl.
  - exists frame. cbn. repeat split; auto. intros f [].
  - cbn [foldM].
    rewrite (float_step ext frame f (Hcols f (or_introl eq_refl))).
    cbn in Hnd. inversion Hnd as [|? ? Hnotin Hnd']. subst.
    assert (Hne : forall g, In g feats -> get_name g <> get_name f).
    { intros g Hg Heq. apply Hnotin. rewrite <- Heq. apply in_map.
      exact Hg. }
    set (fr := if needs_float frame f
               then set_column frame (get_name f)
                      (mkSeries Float64
                         (map as_float
                              (s_values (column_of frame (get_name f)))))
               else frame).
    assert (Hstep : (if needs_float frame f then
                       s' <- astype_float (float_of_str ext)
                               (column_of frame (get_name f)) ;;
                       Ok (set_column frame (get_name f) s')
                     else Ok frame) = Ok fr).
    { unfold fr. destruct (needs_float frame f) eqn:En; [|reflexivity].
      rewrite (astype_float_ok _ _ (Hfl f (or_introl eq_refl) En)).
      reflexivity. }
    rewrite Hstep. cbn [bind].
    assert (Hother : forall n, n <> get_name f ->
                       get_column fr n = get_column frame n).
    { intros n Hn. unfold fr. destruct (needs_float frame f);
        [|reflexivity].
      apply get_column_set_column_other. exact Hn. }
    assert (Hidx : df_index fr = df_index frame)
      by (unfold fr; destruct (needs_float frame f); reflexivity).
    assert (Hkeys : dict_keys (df_columns fr) = dict_keys (df_columns frame)).
    { unfold fr. destruct (needs_float frame f); [|reflexivity].
      unfold set_column. cbn [df_columns with_columns].
      apply dict_keys_set_present. apply (Hcols f). left. reflexivity. }
    assert (Hneeds : forall g, In g feats ->
                       needs_float fr g = needs_float frame g).
    { intros g Hg. unfold needs_float.
      rewrite (column_of_get_column frame fr (get_name g)
                 (Hother _ (Hne g Hg))).
      reflexivity. }
    destruct (IH fr Hnd') as [frame' [I1 [I2 [I3 [I4 I5]]]]].
    + intros g Hg. eapply has_column_get_column.
      rewrite (Hother _ (Hne g Hg)). apply get_column_column_of.
      apply Hcols. right. exact Hg.
    + intros g Hg Hn. rewrite (Hneeds g Hg) in Hn.
      rewrite (column_of_get_column frame fr (get_name g)
                 (Hother _ (Hne g Hg))).
      apply Hfl; [right; exact Hg|exact Hn].
    + exists frame'. split; [exact I1|]. split; [congruence|].
      split; [congruence|]. split.
      * intros g [<-|Hg].
        -- rewrite (column_of_get_column fr frame' (get_name f)
                      (I5 _ Hnotin)).
           unfold fr. destruct (needs_float frame f); [|reflexivity].
           apply column_of_set_column.
        -- rewrite (I4 g Hg), (Hneeds g Hg).
           rewrite (column_of_get_column frame fr (get_name g)
                      (Hother _ (Hne g Hg))).
           reflexivity.
      * intros n Hn. cbn in Hn. rewrite I5 by tauto.
        apply Hother. intros ->. tauto.
Qed.

Lemma float_fold_error ext (feats : list feature) :
  forall frame bad v e0,
    NoDup (map get_name feats) ->
    (forall f, In f feats -> has_column frame (get_name f) = true) ->
    In bad feats -> needs_float frame bad = true ->
    In v (s_values (column_of frame (get_name bad))) ->
    float_cell (float_of_str ext) v = Err e0 ->
    exists e f v',
      agg_float_columns ext feats frame = Err e /\
      In f feats /\ needs_float frame f = true /\
      In v' (s_values (column_of frame (get_name f))) /\
      float_cell (float_of_str ext) v' = Err e.
Proof.
  unfold agg_float_columns.
  induction feats as [|f feats IH];
    intros frame bad v e0 Hnd Hcols Hin Hn Hv Hbad; [contradiction|].
  cbn [foldM].
  rewrite (float_step ext frame f (Hcols f (or_introl eq_refl))).
  cbn in Hnd. inversion Hnd as [|? ? Hnotin Hnd']. subst.
  assert (Hne : forall g, In g feats -> get_name g <> get_name f).
  { intros g Hg Heq. apply Hnotin. rewrite <- Heq. apply in_map. exact Hg. }
  assert (Htail :
            forall fr,
              (forall n, n <> get_name f ->
                         column_of fr n = column_of frame n) ->
              (forall g, In g feats -> has_column fr (get_name g) = true) ->
              In bad feats ->
              exists e f' v',
                foldM (fun frame f =>
                         if negb (expanding f) &&
                            is_numeric (variable_type f) then
                           s <- get_column frame (get_name f) ;;
                           if str_mem (dtype_name (s_dtype s))
                                      ["object"; "bool"] then
                             s' <- astype_float (float_of_str ext) s ;;
                             Ok (set_column frame (get_name f) s')
                           else Ok frame
                         else Ok frame) feats fr = Err e /\
                In f' (f :: feats) /\ needs_float frame f' = true /\
                In v' (s_values (column_of frame (get_name f'))) /\
                float_cell (float_of_str ext) v' = Err e).
  { intros fr Hsame Hcfr Hb.
    destruct (IH fr bad v e0 Hnd' Hcfr Hb)
      as [e [f' [v' [H1 [H2 [H3 [H4 H5]]]]]]].
    - unfold needs_float. rewrite (Hsame _ (Hne bad Hb)). exact Hn.
    - rewrite (Hsame _ (Hne bad Hb)). exact Hv.
    - exact Hbad.
    - exists e, f', v'. split; [exact H1|]. split; [right; exact H2|].
      unfold needs_float in H3 |- *.
      rewrite (Hsame _ (Hne f' H2)) in H3, H4. auto. }
  destruct (needs_float frame f) eqn:En.
  - destruct (astype_float (float_of_str ext)
                (column_of frame (get_name f))) as [s'|e] eqn:Ea.
    + cbn [bind]. destruct Hin as [->|Hin].
      * destruct (astype_float_bad _ _ _ _ Hv Hbad) as [e He].
        rewrite He in Ea. discriminate.
      * apply Htail; [| |exact Hin].
        -- intros n Hneq. apply column_of_set_column_other. exact Hneq.
        -- intros g Hg. rewrite has_column_set_column.
           rewrite (Hcols g (or_intror Hg)). apply orb_true_r.
    + cbn [bind]. destruct (astype_float_error _ _ _ Ea) as [v' [Hv' He]].
      exists e, f, v'. split; [reflexivity|].
      split; [left; reflexivity|]. auto.
  - cbn [bind]. destruct Hin as [->|Hin]; [congruence|].
    apply Htail; [reflexivity| |exact Hin].
    intros g Hg. apply Hcols. right. exact Hg.
Qed.

(** X10.  The conversion that ends the aggregation calculator, on a table
    where every feature of the group (features of distinct names) has its
    column.  The column of a numeric, non-expanding feature that is held
    as objects or booleans becomes a float column: numbers and booleans
    are read as floats, missing cells stay missing.  Every other column,
    the row labels and the column order stay.  If such a column holds a
    cell that cannot be read as a float, the calculator ends on the error
    of such a cell: a [TypeError] for a timestamp, a [ValueError] for a
    list or for a string that Python's [float] rejects; a string that
    [float] accepts is no error. *)
Theorem numeric_columns_become_floats (ext : Externals)
  (feats : list feature) (frame : DataFrame) :
  NoDup (map get_name feats) ->
  (forall f, In f feats -> has_column frame (get_name f) = true) ->
  ((forall f, In f feats -> needs_float frame f = true ->
      forallb floatable (s_values (column_of frame (get_name f))) = true) ->
   exists frame',
     agg_float_columns ext feats frame = Ok frame' /\
     df_index frame' = df_index frame /\
     dict_keys (df_columns frame') = dict_keys (df_columns frame) /\
     (forall f, In f feats ->
        column_of frame' (get_name f)
        = if needs_float frame f
          then mkSeries Float64
                 (map as_float (s_values (column_of frame (get_name f))))
          else column_of frame (get_name f)) /\
     (forall n, ~ In n (map get_name feats) ->
                get_column frame' n = get_column frame n)) /\
  (forall bad v e0,
     In bad feats -> needs_float frame bad = true ->
     In v (s_values (column_of frame (get_name bad))) ->
     float_cell (float_of_str ext) v = Err e0 ->
     exists e f v',
       agg_float_columns ext feats frame = Err e /\
       In f feats /\ needs_float frame f = true /\
       In v' (s_values (column_of frame (get_name f))) /\
       float_cell (float_of_str ext) v' = Err e /\
       match v' with
       | VTime _ => exists m, e = TypeError m
       | VSeq _ => exists m, e = ValueError m
       | VStr x => float_of_str ext x = None /\ exists m, e = ValueError m
       | _ => False
       end).
Proof.
  intros Hnd Hcols. split.
  - intros Hfl. apply float_fold_ok; assumption.
  - intros bad v e0 Hin Hn Hv Hbad.
    destruct (float_fold_error ext feats frame bad v e0 Hnd Hcols Hin Hn
                Hv Hbad) as [e [f [v' [H1 [H2 [H3 [H4 H5]]]]]]].
    exists e, f, v'. repeat (split; [assumption|]).
    destruct v' as [|b|z|q|x|t|l]; cbn in H5; try discriminate.
    + destruct (float_of_str ext x) eqn:Ep; [discriminate|].
      split; [reflexivity|]. inversion H5. eauto.
    + inversion H5. eauto.
    + inversion H5. eauto.
Qed.

Lemma numeric_columns_become_floats_witness :
  exists frame',
    agg_float_columns Shop.ext [Shop.has_items] Shop.flagged_orders_df
      = Ok frame' /\
    column_of frame' "ANY(order_items)"
      = mkSeries Float64 [VFloat 1; VFloat 1; VFloat 0].
Proof.
  assert (Hnd : NoDup (map get_name [Shop.has_items]))
    by (cbn; constructor; [intros []|constructor]).
  assert (Hc : forall f, In f [Shop.has_items] ->
                 has_column Shop.flagged_orders_df (get_name f) = true)
    by (intros f [<-|[]]; reflexivity).
  destruct (proj1 (numeric_columns_become_floats Shop.ext [Shop.has_items]
                     Shop.flagged_orders_df Hnd Hc))
    as [frame' [H1 [_ [_ [H4 _]]]]].
  - intros f [<-|[]] _. reflexivity.
  - exists frame'. split; [exact H1|].
    apply (H4 Shop.has_items). left. reflexivity.
Defined.

(* ================================================================= *)
(** ** Joins on keys that match one row at most *)

Lemma filter_map_comm {A B : Type} (p : B -> bool) (g : A -> B)
  (l : list A) :
  filter p (map g l) = map g (filter (fun x => p (g x)) l).
Proof.
  induction l as [|a l IH]; [reflexivity|].
  cbn. destruct (p (g a)); cbn; rewrite IH; reflexivity.
Qed.

(** Filtering the positions of a list by their entries is filtering the
    entries. *)
Lemma filter_positions {A : Type} (p : A -> bool) (l : list A) (d : A) :
  map (fun j => nth j l d)
      (filter (fun j => p (nth j l d)) (seq 0 (List.length l)))
  = filter p l.
Proof.
  induction l as [|a l IH]; [reflexivity|].
  cbn [List.length seq]. rewrite <- seq_shift. cbn [filter nth].
  destruct (p a); cbn [map nth]; rewrite filter_map_comm, map_map;
    cbn [nth]; rewrite IH; reflexivity.
Qed.

Lemma filter_positions_length {A : Type} (p : A -> bool) (l : list A)
  (d : A) :
  List.length (filter (fun j => p (nth j l d)) (seq 0 (List.length l)))
  = List.length (filter p l).
Proof. rewrite <- (filter_positions p l d), length_map. reflexivity. Qed.

Lemma key_match_sym a b : key_match a b = key_match b a.
Proof.
  unfold key_match. rewrite py_eq_sym, andb_comm. reflexivity.
Qed.

(** Two values that match the same key match each other. *)
Lemma key_match_common k a b :
  key_match k a = true -> key_match k b = true -> key_match a b = true.
Proof.
  unfold key_match. intros Ha Hb.
  apply orb_true_iff in Ha. apply orb_true_iff in Hb.
  apply orb_true_iff.
  destruct Ha as [Ha|Ha], Hb as [Hb|Hb].
  - left. eapply py_eq_trans; [|exact Hb]. rewrite py_eq_sym. exact Ha.
  - apply andb_true_iff in Hb. destruct Hb as [Hk _].
    destruct k; try discriminate.
  - apply andb_true_iff in Ha. destruct Ha as [Hk _].
    destruct k; try discriminate.
  - apply andb_true_iff in Ha. apply andb_true_iff in Hb.
    right. apply andb_true_iff. split; [apply Ha|apply Hb].
Qed.

Lemma key_positions_spec k labels j :
  In j (key_positions k labels) <->
  j < List.length labels /\ key_match k (nth j labels VNaN) = true.
Proof.
  unfold key_positions. rewrite filter_In, in_seq. intuition lia.
Qed.

(** Labels that tell the rows apart are matched by a key once at most. *)
Lemma distinct_labels_positions labels k :
  distinct_labels labels -> List.length (key_positions k labels) <= 1.
Proof.
  intros Hd.
  assert (Hnd : NoDup (key_positions k labels))
    by (unfold key_positions; apply NoDup_filter, seq_NoDup).
  destruct (key_positions k labels) as [|a [|b r]] eqn:E; cbn; try lia.
  exfalso.
  assert (Ha : In a (key_positions k labels)) by (rewrite E; cbn; auto).
  assert (Hb : In b (key_positions k labels)) by (rewrite E; cbn; auto).
  apply key_positions_spec in Ha. apply key_positions_spec in Hb.
  destruct Ha as [Hal Ham]. destruct Hb as [Hbl Hbm].
  pose proof (proj1 (Hd a b Hal Hbl) (key_match_common _ _ _ Ham Hbm)).
  subst b. inversion Hnd as [|? ? Hnotin _]. apply Hnotin. left.
  reflexivity.
Qed.

Lemma In_insert_sorted x y l : In y (insert_sorted x l) -> y = x \/ In y l.
Proof.
  induction l as [|a l IH]; cbn.
  - intros [<-|[]]. left. reflexivity.
  - destruct (value_leb x a); cbn.
    + intros [<-|H]; auto.
    + intros [<-|H]; [right; left; reflexivity|].
      destruct (IH H); auto.
Qed.

Lemma In_sort_values y l : In y (sort_values l) -> In y l.
Proof.
  unfold sort_values. induction l as [|a l IH]; cbn; [auto|].
  intros H. apply In_insert_sorted in H. destruct H as [->|H]; auto.
Qed.

Lemma In_py_unique y l : In y (py_unique l) -> In y l.
Proof.
  induction l as [|a l IH]; cbn; [auto|].
  intros [<-|H]; [left; reflexivity|].
  apply filter_In in H. right. apply IH. apply H.
Qed.

(** A group key is the link of some row, and it is not missing. *)
Lemma group_keys_sound links g :
  In g (group_keys links) -> In g links /\ py_eq g g = true.
Proof.
  unfold group_keys. intros H. apply In_sort_values in H.
  apply In_py_unique in H. apply filter_In in H. exact H.
Qed.

Lemma key_match_group_key links k j :
  j < List.length (group_keys links) ->
  key_match k (nth j (group_keys links) VNaN)
  = py_eq (nth j (group_keys links) VNaN) k.
Proof.
  intros Hj. unfold key_match.
  destruct (group_keys_sound links (nth j (group_keys links) VNaN)
              (nth_In _ _ Hj)) as [_ Hself].
  destruct (nth j (group_keys links) VNaN); try discriminate;
    rewrite py_eq_sym, andb_false_r, orb_false_r; reflexivity.
Qed.

(** A key matches one group key at most. *)
Lemma group_keys_positions links k :
  List.length (key_positions k (group_keys links)) <= 1.
Proof.
  pose proof (group_keys_unique links k) as Hu.
  rewrite <- (filter_positions_length (fun g => py_eq g k)
                (group_keys links) VNaN) in Hu.
  unfold key_positions.
  rewrite (filter_ext_in _ (fun j => py_eq (nth j (group_keys links) VNaN)
                                           k)).
  - exact Hu.
  - intros j Hj. apply in_seq in Hj. apply key_match_group_key. lia.
Qed.

(** With right labels matched once at most, a left join keeps the left
    rows, each once and in order. *)
Lemma left_join_pairs_unique (keys labels : list value) :
  (forall k, List.length (key_positions k labels) <= 1) ->
  left_join_pairs keys labels
  = map (fun i => (i, hd_error (key_positions (nth i keys VNaN) labels)))
        (seq 0 (List.length keys)).
Proof.
  intros Hu. unfold left_join_pairs.
  induction (seq 0 (List.length keys)) as [|i l IH]; [reflexivity|].
  cbn [flat_map]. rewrite map_cons, IH. specialize (Hu (nth i keys VNaN)).
  destruct (key_positions (nth i keys VNaN) labels) as [|j [|j' r]];
    cbn in *; try reflexivity. lia.
Qed.

Lemma take_all (vals : list value) n :
  List.length vals = n -> take VNaN (seq 0 n) vals = vals.
Proof.
  intros <-. unfold take.
  rewrite (map_nth_seq (fun x => x)). apply map_id.
Qed.

Lemma nth_map_in {A B : Type} (F : A -> B) (l : list A) j d d' :
  j < List.length l -> nth j (map F l) d' = F (nth j l d).
Proof.
  intros H. rewrite (nth_indep _ d' (F d)) by (rewrite length_map; exact H).
  apply map_nth.
Qed.

(** Every table a join builds has one cell per row in every column. *)
Lemma wf_merged_frame left right pairs :
  wf_frame (merged_frame left right pairs) = true.
Proof.
  unfold wf_frame, merged_frame, nrows, suffixed, take_rows, map_columns,
    take, take_opt.
  cbn [df_index df_columns]. apply forallb_forall. intros c Hc.
  apply in_app_or in Hc.
  destruct Hc as [Hc|Hc]; apply in_map_iff in Hc;
    destruct Hc as [c1 [<- Hc]]; apply in_map_iff in Hc;
    destruct Hc as [c0 [<- _]]; cbn; rewrite !length_map;
    apply Nat.eqb_refl.
Qed.

Lemma merged_frame_left left right pairs n s :
  (forall k, In k (dict_keys (df_columns left)) ->
             ~ In k (dict_keys (df_columns right))) ->
  dict_get (df_columns left) n = Some s ->
  dict_get (df_columns (merged_frame left right pairs)) n
  = Some (mkSeries (s_dtype s) (take VNaN (map fst pairs) (s_values s))).
Proof.
  intros Hdisj Hs. unfold merged_frame. cbn [df_index df_columns take_rows].
  rewrite suffixed_disjoint.
  2:{ intros k Hk. rewrite dict_keys_map_columns in Hk. auto. }
  rewrite dict_get_app. unfold map_columns.
  rewrite (dict_get_map_snd
             (fun s => mkSeries (s_dtype s)
                                (take VNaN (map fst pairs) (s_values s)))).
  rewrite Hs. reflexivity.
Qed.

Lemma merged_frame_right left right pairs n s :
  (forall k, In k (dict_keys (df_columns left)) ->
             ~ In k (dict_keys (df_columns right))) ->
  dict_get (df_columns left) n = None ->
  dict_get (df_columns right) n = Some s ->
  exists s',
    dict_get (df_columns (merged_frame left right pairs)) n = Some s' /\
    s_values s' = map (joined_cell (s_values s)) (map snd pairs).
Proof.
  intros Hdisj Hl Hr. unfold merged_frame.
  cbn [df_index df_columns take_rows].
  rewrite suffixed_disjoint.
  2:{ intros k Hk. rewrite dict_keys_map_columns in Hk. auto. }
  rewrite suffixed_disjoint.
  2:{ intros k Hk Hin. unfold dict_keys in Hk. rewrite map_map in Hk.
      cbn [fst] in Hk. apply (Hdisj k Hin). exact Hk. }
  rewrite dict_get_app. unfold map_columns.
  rewrite (dict_get_map_snd
             (fun s => mkSeries (s_dtype s)
                                (take VNaN (map fst pairs) (s_values s)))).
  rewrite Hl. cbn [option_map].
  rewrite (dict_get_map_snd
             (fun s => mkSeries
                         (if all_paired (map snd pairs) then s_dtype s
                          else infer_dtype
                                 (take_opt (map snd pairs) (s_values s)))
                         (take_opt (map snd pairs) (s_values s)))).
  rewrite Hr. cbn [option_map]. eexists. split; reflexivity.
Qed.

(* ================================================================= *)
(** ** Aggregation: the value of a simple aggregate (lines 378-464) *)

Lemma no_instances_false_inv ext ent child gv frame base :
  agg_no_instances ext ent child gv frame base = Ok (Some false) ->
  df_empty base = false /\
  has_column base gv = true /\
  has_column frame (e_index ent) = true.
Proof.
  unfold agg_no_instances.
  destruct (df_empty base); cbn [negb]; [discriminate|].
  destruct (has_column base gv); cbn [negb]; [|discriminate].
  destruct (get_column frame (e_index ent)) as [fi|] eqn:Ef;
    [|discriminate].
  intros _. repeat split. eapply has_column_get_column. exact Ef.
Qed.

Lemma simple_has_base f :
  simple_aggregable f = true -> exists bf0 rest, base_features f = bf0 :: rest.
Proof.
  unfold simple_aggregable, counted_base_features. intros Hs.
  destruct (base_features f) as [|bf0 rest]; [|eauto].
  destruct (where_ f); cbn in Hs; discriminate.
Qed.

(** The buckets of a group of one simple feature. *)
Lemma partition_single ext f w :
  f_class f = AggregationPrimitive ->
  simple_aggregable f = true ->
  agg_partition ext [f] w
  = Ok (mkBuckets
          [(base_name f,
            [wrap_func_with_name (get_function f)
               (uuid1 ext (uuid_count w))])]
          [(dash (base_name f) (uuid1 ext (uuid_count w)), get_name f)]
          [],
        mkWorld (heap w) (S (uuid_count w))).
Proof.
  intros Hc Hs. destruct (simple_has_base f Hs) as [bf0 [rest Hbf]].
  unfold agg_partition. cbn [foldW]. unfold agg_partition_step.
  unfold bindM at 1.
  rewrite (bindM_step _ _ w _ w (lift_Ok _ w _ (can_agg_spec f Hc))), Hs.
  unfold base_name. rewrite Hbf.
  cbn [first lift bindM fresh_uuid ret to_agg agg_rename to_apply
       dict_mem dict_get dict_set negb].
  rewrite !String.eqb_refl. reflexivity.
Qed.

Lemma agg_agg_single ext f w index_var gv frame base links_s vals_s :
  get_column base gv = Ok links_s ->
  get_column base (base_name f) = Ok vals_s ->
  agg_agg_bucket
    (mkBuckets
       [(base_name f,
         [wrap_func_with_name (get_function f) (uuid1 ext (uuid_count w))])]
       [(dash (base_name f) (uuid1 ext (uuid_count w)), get_name f)]
       [])
    index_var gv frame base
  = merge_left_on frame
      (mkDataFrame (Some gv) (group_keys (s_values links_s))
         [(get_name f,
           agg_series f (s_values links_s) (s_values vals_s))])
      index_var.
Proof.
  intros Hl Hv. unfold agg_agg_bucket, groupby_agg, wrap_func_with_name.
  cbn [to_agg agg_rename List.length Nat.eqb negb mapM fst snd].
  rewrite Hl, Hv. cbn [bind map List.concat app fst snd].
  unfold rename_columns, select_columns, dict_values, with_columns,
    get_column, dict_item.
  cbn [df_columns df_index df_index_name map fst snd dict_get mapM].
  repeat (rewrite String.eqb_refl; cbn [bind]).
  reflexivity.
Qed.

Lemma hd_error_In {A : Type} (l : list A) a : hd_error l = Some a -> In a l.
Proof. destruct l; intros H; inversion H. left. reflexivity. Qed.

Lemma hd_error_None {A : Type} (l : list A) : hd_error l = None -> l = [].
Proof. destruct l; intros H; [reflexivity|discriminate]. Qed.

Lemma dict_get_In_keys {V : Type} (d : dict V) k v :
  dict_get d k = Some v -> In k (dict_keys d).
Proof.
  intros H. apply dict_mem_iff. unfold dict_mem. rewrite H. reflexivity.
Qed.

Lemma In_keys_dict_get {V : Type} (d : dict V) k :
  In k (dict_keys d) -> exists v, dict_get d k = Some v.
Proof.
  intros H. apply dict_mem_iff in H. unfold dict_mem in H.
  destruct (dict_get d k) as [v|]; [eauto|discriminate].
Qed.

(** The left join of lines 417-418 and 440-441 on a table of per-group
    results: the parent rows stay, and each new column holds, row by row,
    the cell of the one group whose key matches the row's key. *)
Lemma left_merge_values (index_var : string) (frame right : DataFrame)
  (links : list value) (keys_s : Series) :
  get_column frame index_var = Ok keys_s ->
  df_index right = group_keys links ->
  (forall k, In k (dict_keys (df_columns frame)) ->
             ~ In k (dict_keys (df_columns right))) ->
  wf_frame frame = true ->
  exists frame1,
    merge_left_on frame right index_var = Ok frame1 /\
    df_index frame1 = df_index frame /\
    wf_frame frame1 = true /\
    (forall n s, dict_get (df_columns right) n = Some s ->
       exists s1,
         dict_get (df_columns frame1) n = Some s1 /\
         s_values s1
         = map (fun key =>
                  joined_cell (s_values s)
                    (hd_error (key_positions key (group_keys links))))
               (s_values keys_s)) /\
    (forall n s, dict_get (df_columns frame) n = Some s ->
                 dict_get (df_columns frame1) n = Some s).
Proof.
  intros Hk Hidx Hdisj Hwf. unfold merge_left_on. rewrite Hk, Hidx.
  cbn [bind].
  rewrite (left_join_pairs_unique (s_values keys_s) (group_keys links)
             (group_keys_positions links)).
  set (pairs := map (fun i => (i, hd_error
                                    (key_positions
                                       (nth i (s_values keys_s) VNaN)
                                       (group_keys links))))
                    (seq 0 (List.length (s_values keys_s)))).
  assert (Hlen : List.length (s_values keys_s) = nrows frame).
  { apply (wf_frame_column frame index_var keys_s Hwf).
    apply dict_item_inv. exact Hk. }
  assert (Hfst : map fst pairs = seq 0 (nrows frame)).
  { unfold pairs. rewrite map_map. cbn [fst]. rewrite map_id, Hlen.
    reflexivity. }
  exists (merged_frame frame right pairs).
  split; [reflexivity|]. split; [|split; [apply wf_merged_frame|split]].
  - unfold merged_frame, take_rows. cbn [df_index]. rewrite Hfst.
    apply take_all. reflexivity.
  - intros n s Hs.
    assert (Hnone : dict_get (df_columns frame) n = None).
    { destruct (dict_get (df_columns frame) n) as [s0|] eqn:E;
        [|reflexivity].
      exfalso. apply (Hdisj n (dict_get_In_keys _ _ _ E)).
      apply (dict_get_In_keys _ _ _ Hs). }
    destruct (merged_frame_right frame right pairs n s Hdisj Hnone Hs)
      as [s1 [Hs1 Hv1]].
    exists s1. split; [exact Hs1|].
    rewrite Hv1. unfold pairs. rewrite !map_map. cbn [snd].
    apply (map_nth_seq
             (fun key => joined_cell (s_values s)
                           (hd_error (key_positions key
                                        (group_keys links))))).
  - intros n s Hs.
    rewrite (merged_frame_left frame right pairs n s Hdisj Hs), Hfst.
    rewrite take_all by (apply (wf_frame_column frame n s Hwf Hs)).
    destruct s; reflexivity.
Qed.

(** The cell the join picks for a parent key is the result of the group
    of the child rows linked to that key. *)
Lemma joined_apply_cell (h : value -> value) (links : list value)
  (key : value) :
  (forall g k, group_positions links g = group_positions links k ->
               h g = h k) ->
  joined_cell (map h (group_keys links))
              (hd_error (key_positions key (group_keys links)))
  = if existsb (fun l => py_eq l key) links then h key else VNaN.
Proof.
  intros Hh.
  destruct (hd_error (key_positions key (group_keys links))) as [j|] eqn:Eh.
  - apply hd_error_In in Eh. apply key_positions_spec in Eh.
    destruct Eh as [Hj Hm]. cbn [joined_cell].
    rewrite (nth_map_in _ _ j VNaN VNaN Hj).
    rewrite (key_match_group_key links key j Hj) in Hm.
    set (g := nth j (group_keys links) VNaN) in *.
    assert (Hg : In g links)
      by (apply (group_keys_sound links g); apply nth_In; exact Hj).
    assert (Hex : existsb (fun l => py_eq l key) links = true)
      by (apply existsb_exists; exists g; auto).
    rewrite Hex. apply Hh.
    unfold group_positions. apply filter_ext. intros p.
    destruct (py_eq (nth p links VNaN) g) eqn:E1,
             (py_eq (nth p links VNaN) key) eqn:E2; try reflexivity.
    + rewrite (py_eq_trans _ _ _ E1 Hm) in E2. discriminate.
    + rewrite py_eq_sym in Hm.
      rewrite (py_eq_trans _ _ _ E2 Hm) in E1. discriminate.
  - cbn [joined_cell].
    destruct (existsb (fun l => py_eq l key) links) eqn:Ex; [|reflexivity].
    exfalso. apply existsb_exists in Ex. destruct Ex as [l [Hl Hlk]].
    destruct (In_nth _ _ VNaN Hl) as [p [Hp Hnth]].
    rewrite <- Hnth in Hlk.
    pose proof (group_keys_cover links key p Hp Hlk) as Hcov.
    destruct (filter (fun g => py_eq g key) (group_keys links))
      as [|g r] eqn:Ef; [cbn in Hcov; lia|].
    assert (Hg : In g (filter (fun g => py_eq g key) (group_keys links)))
      by (rewrite Ef; left; reflexivity).
    apply filter_In in Hg. destruct Hg as [Hg Hgk].
    destruct (In_nth _ _ VNaN Hg) as [j [Hj Hnj]].
    assert (Hin : In j (key_positions key (group_keys links))).
    { apply key_positions_spec. split; [exact Hj|].
      rewrite (key_match_group_key links key j Hj), Hnj. exact Hgk. }
    apply hd_error_None in Eh. rewrite Eh in Hin. contradiction.
Qed.

(** The cell the join picks for a parent key is the aggregate over the
    child rows linked to that key. *)
Lemma joined_agg_cell (f : feature) (links vals : list value)
  (key : value) :
  joined_cell (s_values (agg_series f links vals))
              (hd_error (key_positions key (group_keys links)))
  = agg_cell f links vals key.
Proof.
  unfold agg_series, agg_cell. cbn [series_of_list s_values].
  apply (joined_apply_cell
           (fun k => get_function f
                       [take VNaN (group_positions links k) vals] None)).
  intros g k H. rewrite H. reflexivity.
Qed.

(** The join of lines 440-441 for one simple aggregate: the parent rows
    stay, and the new column holds each row's aggregate. *)
Lemma simple_merge_values (f : feature) (index_var gv : string)
  (frame : DataFrame) (links vals : list value) (keys_s : Series) :
  get_column frame index_var = Ok keys_s ->
  has_column frame (get_name f) = false ->
  wf_frame frame = true ->
  exists frame1 s1,
    merge_left_on frame
      (mkDataFrame (Some gv) (group_keys links)
         [(get_name f, agg_series f links vals)])
      index_var = Ok frame1 /\
    df_index frame1 = df_index frame /\
    wf_frame frame1 = true /\
    dict_get (df_columns frame1) (get_name f) = Some s1 /\
    s_values s1 = map (agg_cell f links vals) (s_values keys_s) /\
    (forall n s, dict_get (df_columns frame) n = Some s ->
                 dict_get (df_columns frame1) n = Some s).
Proof.
  intros Hk Hno Hwf.
  destruct (left_merge_values index_var frame
              (mkDataFrame (Some gv) (group_keys links)
                 [(get_name f, agg_series f links vals)])
              links keys_s Hk eq_refl)
    as [frame1 [M1 [M2 [M3 [M4 M5]]]]].
  { intros k Hk1 [Hk2|[]]. cbn in Hk2. subst k.
    unfold has_column in Hno. rewrite (dict_mem_In _ _ Hk1) in Hno.
    discriminate. }
  { exact Hwf. }
  destruct (M4 (get_name f) (agg_series f links vals))
    as [s1 [Hs1 Hv1]].
  { cbn. rewrite String.eqb_refl. reflexivity. }
  exists frame1, s1.
  split; [exact M1|]. split; [exact M2|]. split; [exact M3|].
  split; [exact Hs1|]. split; [|exact M5].
  rewrite Hv1. apply map_ext. intros key. apply joined_agg_cell.
Qed.

Lemma has_column_same_keys df df' n :
  dict_keys (df_columns df') = dict_keys (df_columns df) ->
  has_column df' n = has_column df n.
Proof.
  intros H. unfold has_column.
  destruct (dict_mem (df_columns df) n) eqn:E.
  - apply dict_mem_iff. rewrite H. apply dict_mem_iff. exact E.
  - destruct (dict_mem (df_columns df') n) eqn:E'; [|reflexivity].
    apply dict_mem_iff in E'. rewrite H in E'. apply dict_mem_iff in E'.
    congruence.
Qed.

Lemma forallb_filled (p : value -> bool) v vals :
  p v = true -> (forall x, In x vals -> isnull x = false -> p x = true) ->
  forallb p (filled v vals) = true.
Proof.
  intros Hv H. unfold filled. apply forallb_forall. intros y Hy.
  apply in_map_iff in Hy. destruct Hy as [x [<- Hx]].
  destruct (isnull x) eqn:E; [exact Hv|]. apply H; assumption.
Qed.

(** X11.  The aggregation calculator on its main path, when one feature
    of the group is left to compute and it is simple-aggregable.  With a
    child table that has rows related to the parent table, the calculator
    binds the parent entity to a new table with the parent's rows, labels
    and columns, and one more column under the feature's name.  In the
    row of a parent whose key equals the link of some child rows, the new
    cell is the feature's function applied to the cells those rows have in
    the base column, in row order; in the row of a parent without child
    rows, and wherever the function returned a missing value, it is the
    feature's default value.  The column holds these cells as they are, or
    read as floats when the feature is numeric and pandas held the column
    as objects or booleans.  One UUID is drawn; the old parent table
    object is left as it was. *)
Theorem simple_aggregate_values (ext : Externals) (self : PandasBackend)
  (feats : list feature) (entity_frames : entity_frames_t) (w w1 : world)
  (c : agg_locals) (f : feature) :
  agg_setup ext self feats entity_frames w = Ok (Some c, w1) ->
  l_features c = [f] ->
  f_class f = AggregationPrimitive ->
  simple_aggregable f = true ->
  agg_no_instances ext (l_entity c) (l_child_entity c) (l_groupby_var c)
      (l_frame c) (l_base_frame c) = Ok (Some false) ->
  has_column (l_base_frame c) (base_name f) = true ->
  wf_frame (l_frame c) = true ->
  (has_iter (default_value f) = true ->
   distinct_labels (df_index (l_frame c))) ->
  (is_numeric (variable_type f) = true ->
   floatable (default_value f) = true /\
   forall args, floatable (get_function f args None) = true) ->
  let links := s_values (column_of (l_base_frame c) (l_groupby_var c)) in
  let vals := s_values (column_of (l_base_frame c) (base_name f)) in
  let keys := s_values (column_of (l_frame c) (e_index (l_entity c))) in
  let expected :=
    filled (default_value f) (map (agg_cell f links vals) keys) in
  exists new_frame,
    _calculate_agg_features ext self feats entity_frames w
      = Ok (dict_set entity_frames (e_id (l_entity c))
                     (List.length (heap w)),
            mkWorld (heap w ++ [new_frame]) (S (uuid_count w))) /\
    df_index new_frame = df_index (l_frame c) /\
    (s_values (column_of new_frame (get_name f)) = expected \/
     s_values (column_of new_frame (get_name f)) = map as_float expected) /\
    (forall n, has_column (l_frame c) n = true ->
               get_column new_frame n = get_column (l_frame c) n).
Proof.
  intros Hsetup Hone Hclass Hsimple Hflag Hbase Hwf Hlab Hfloat
         links vals keys expected.
  destruct (agg_setup_reads _ _ _ _ _ _ _ Hsetup) as [-> [Hloc Hfeats]].
  destruct (no_instances_false_inv _ _ _ _ _ _ Hflag) as [He [Hgv Hidx]].
  assert (Hno : has_column (l_frame c) (get_name f) = false).
  { assert (Hin : In f (l_features c)) by (rewrite Hone; left; reflexivity).
    rewrite Hfeats in Hin. apply filter_In in Hin.
    destruct Hin as [_ Hin]. apply negb_true_iff in Hin. exact Hin. }
  pose proof (get_column_column_of _ _ Hgv) as Hlinks.
  pose proof (get_column_column_of _ _ Hbase) as Hvals.
  pose proof (get_column_column_of _ _ Hidx) as Hkeys.
  destruct (simple_merge_values f (e_index (l_entity c)) (l_groupby_var c)
              (l_frame c) links vals _ Hkeys Hno Hwf)
    as [frame1 [s1 [M1 [M2 [M3 [M4 [M5 M6]]]]]]].
  assert (Hnd : NoDup (map get_name [f]))
    by (cbn; constructor; [intros []|constructor]).
  assert (Hc1 : forall g, In g [f] -> has_column frame1 (get_name g) = true).
  { intros g [<-|[]]. unfold has_column, dict_mem. rewrite M4.
    reflexivity. }
  destruct (agg_fill_defaults_spec [f] frame1 Hnd Hc1 M3)
    as [frame2 [F1 [F2 [F3 [F4 F5]]]]].
  { intros [g [[<-|[]] Hg]]. rewrite M2. apply Hlab. exact Hg. }
  assert (Hv2 : s_values (column_of frame2 (get_name f)) = expected).
  { rewrite (F4 f (or_introl eq_refl)). unfold column_of. rewrite M4, M5.
    reflexivity. }
  assert (Hc2 : forall g, In g [f] -> has_column frame2 (get_name g) = true).
  { intros g Hg. rewrite (has_column_same_keys frame1 frame2 _ F3).
    apply Hc1. exact Hg. }
  destruct (float_fold_ok ext [f] frame2 Hnd Hc2)
    as [frame3 [G1 [G2 [G3 [G4 G5]]]]].
  { intros g [<-|[]] Hneed. rewrite Hv2. unfold needs_float in Hneed.
    apply andb_true_iff in Hneed. destruct Hneed as [Hneed _].
    apply andb_true_iff in Hneed. destruct Hneed as [_ Hnum].
    destruct (Hfloat Hnum) as [Hd Hfun].
    unfold expected. apply forallb_filled; [exact Hd|].
    intros x Hx _. apply in_map_iff in Hx. destruct Hx as [k [<- _]].
    unfold agg_cell. destruct (existsb _ links); [apply Hfun|reflexivity]. }
  exists frame3. split; [|split; [congruence|split]].
  - unfold _calculate_agg_features.
    rewrite (bindM_step _ _ _ _ _ Hsetup).
    rewrite (bindM_step _ _ _ _ _ (lift_Ok _ w _ Hflag)).
    assert (Hnodata : agg_no_data (l_base_frame c) (Some false) = Ok false)
      by (unfold agg_no_data; rewrite He; reflexivity).
    rewrite (bindM_step _ _ _ _ _ (lift_Ok _ w _ Hnodata)).
    unfold agg_compute. rewrite Hone.
    rewrite (bindM_step _ _ _ _ _ (partition_single ext f w Hclass Hsimple)).
    assert (Happly : agg_apply_bucket self
                       (mkBuckets
                          [(base_name f,
                            [wrap_func_with_name (get_function f)
                               (uuid1 ext (uuid_count w))])]
                          [(dash (base_name f) (uuid1 ext (uuid_count w)),
                            get_name f)] [])
                       (e_index (l_entity c)) (l_groupby_var c) (l_frame c)
                       (l_base_frame c) = Ok (l_frame c))
      by reflexivity.
    rewrite (bindM_step _ _ _ _ _ (lift_Ok _ _ _ Happly)).
    assert (Hagg : agg_agg_bucket
                     (mkBuckets
                        [(base_name f,
                          [wrap_func_with_name (get_function f)
                             (uuid1 ext (uuid_count w))])]
                        [(dash (base_name f) (uuid1 ext (uuid_count w)),
                          get_name f)] [])
                     (e_index (l_entity c)) (l_groupby_var c) (l_frame c)
                     (l_base_frame c) = Ok frame1).
    { rewrite (agg_agg_single ext f w _ _ _ _ _ _ Hlinks Hvals).
      exact M1. }
    rewrite (bindM_step _ _ _ _ _ (lift_Ok _ _ _ Hagg)).
    rewrite (bindM_step _ _ _ _ _ (lift_Ok _ _ _ F1)).
    rewrite (bindM_step _ _ _ _ _ (lift_Ok _ _ _ G1)).
    reflexivity.
  - rewrite (G4 f (or_introl eq_refl)).
    destruct (needs_float frame2 f); cbn [s_values].
    + right. rewrite Hv2. reflexivity.
    + left. exact Hv2.
  - intros n Hn.
    assert (Hne : ~ In n (map get_name [f])).
    { intros [Heq|[]]. rewrite <- Heq in Hn. congruence. }
    rewrite (G5 n Hne), (F5 n Hne).
    unfold has_column, dict_mem in Hn. unfold get_column, dict_item.
    destruct (dict_get (df_columns (l_frame c)) n) as [s|] eqn:En;
      [|discriminate].
    rewrite (M6 n s En). reflexivity.
Qed.

Lemma simple_aggregate_values_witness :
  exists new_frame,
    _calculate_agg_features Shop.ext Shop.running_backend [Shop.item_count]
        Shop.frames (Shop.world_of Shop.orders_df Shop.items_df)
      = Ok (dict_set Shop.frames "orders" 2,
            mkWorld [Shop.orders_df; Shop.items_df; new_frame] 1) /\
    df_index new_frame = [VInt 1; VInt 2; VInt 3] /\
    (s_values (column_of new_frame "COUNT(order_items)")
       = [VInt 2; VInt 1; VInt 0] \/
     s_values (column_of new_frame "COUNT(order_items)")
       = [VFloat 2; VFloat 1; VFloat 0]).
Proof.
  destruct (simple_aggregate_values Shop.ext Shop.running_backend
              [Shop.item_count] Shop.frames
              (Shop.world_of Shop.orders_df Shop.items_df) _ _
              Shop.item_count eq_refl eq_refl eq_refl eq_refl eq_refl
              eq_refl eq_refl)
    as [new_frame [H1 [H2 [H3 _]]]].
  - discriminate.
  - intros _. split; reflexivity.
  - exists new_frame. split; [exact H1|]. split; [exact H2|exact H3].
Defined.

(* ================================================================= *)
(** ** Which table objects a calculator changes *)

Lemma touches_only_refl loc w : touches_only loc w w.
Proof. split; [lia|auto]. Qed.

Lemma length_replace_nth {A : Type} (l : list A) n a :
  List.length (replace_nth n a l) = List.length l.
Proof.
  revert n. induction l as [|x l IH]; intros [|n]; cbn; auto.
Qed.

Lemma nth_error_replace_nth_other {A : Type} (l : list A) n a m :
  m <> n -> nth_error (replace_nth n a l) m = nth_error l m.
Proof.
  revert n m. induction l as [|x l IH]; intros [|n] [|m] H; cbn;
    try reflexivity.
  - contradiction.
  - apply IH. congruence.
Qed.

Lemma touches_only_replace loc w fr u :
  touches_only (Some loc) w (mkWorld (replace_nth loc fr (heap w)) u).
Proof.
  split; cbn [heap].
  - rewrite length_replace_nth. lia.
  - intros l frame Hl Hne. rewrite nth_error_replace_nth_other; [exact Hl|].
    congruence.
Qed.

Lemma touches_only_append loc w fr u :
  touches_only loc w (mkWorld (heap w ++ [fr]) u).
Proof.
  split; cbn [heap].
  - rewrite length_app. lia.
  - intros l frame Hl _. rewrite nth_error_app1; [exact Hl|].
    apply nth_error_Some. congruence.
Qed.

(** The partition draws UUIDs and touches no table. *)
Lemma agg_partition_heap ext feats :
  forall b w b' w',
    foldW (agg_partition_step ext) feats b w = Ok (b', w') ->
    heap w' = heap w.
Proof.
  induction feats as [|f feats IH]; intros b w b' w' H.
  - cbn in H. inversion H. reflexivity.
  - cbn [foldW] in H. apply bindM_Ok in H.
    destruct H as [b1 [w1 [H1 H2]]]. rewrite (IH _ _ _ _ H2).
    unfold agg_partition_step in H1. apply bindM_Ok in H1.
    destruct H1 as [can [w2 [Hc H1]]]. apply lift_inv in Hc.
    destruct Hc as [_ ->]. destruct can.
    + apply bindM_Ok in H1. destruct H1 as [bf0 [w3 [Hb H1]]].
      apply lift_inv in Hb. destruct Hb as [_ ->].
      apply bindM_Ok in H1. destruct H1 as [u [w4 [Hu H1]]].
      unfold fresh_uuid in Hu. inversion Hu. subst.
      unfold ret in H1. inversion H1. reflexivity.
    + unfold ret in H1. inversion H1. reflexivity.
Qed.

(** A run of the direct calculator that raises nothing stores one new
    table and rebinds the child entity to it. *)
Lemma direct_run_world self feats entity_frames w ef' w' :
  _calculate_direct_features self feats entity_frames w = Ok (ef', w') ->
  exists f0 new_df,
    hd_error feats = Some f0 /\
    dict_mem entity_frames (e_id (entity f0)) = true /\
    ef' = dict_set entity_frames (e_id (entity f0)) (List.length (heap w)) /\
    w' = mkWorld (heap w ++ [new_df]) (uuid_count w).
Proof.
  unfold _calculate_direct_features. intros H.
  apply bindM_Ok in H. destruct H as [f0 [w1 [H1 H]]].
  apply lift_inv in H1. destruct H1 as [H1 ->].
  apply bindM_Ok in H. destruct H as [parent [w1 [H2 H]]].
  apply lift_inv in H2. destruct H2 as [_ ->].
  apply bindM_Ok in H. destruct H as [u [w1 [H3 H]]].
  apply lift_inv in H3. destruct H3 as [H3 ->].
  apply bindM_Ok in H. destruct H as [path [w1 [H4 H]]].
  apply lift_inv in H4. destruct H4 as [_ ->].
  apply bindM_Ok in H. destruct H as [u5 [w1 [H5 H]]].
  apply lift_inv in H5. destruct H5 as [_ ->].
  apply bindM_Ok in H. destruct H as [ploc [w1 [H6 H]]].
  apply lift_inv in H6. destruct H6 as [_ ->].
  apply bindM_Ok in H. destruct H as [parent_df [w1 [H7 H]]].
  apply read_inv in H7. destruct H7 as [_ ->].
  apply bindM_Ok in H. destruct H as [cloc [w1 [H8 H]]].
  apply lift_inv in H8. destruct H8 as [_ ->].
  apply bindM_Ok in H. destruct H as [child_df [w1 [H9 H]]].
  apply read_inv in H9. destruct H9 as [_ ->].
  apply bindM_Ok in H. destruct H as [hop [w1 [H10 H]]].
  apply lift_inv in H10. destruct H10 as [_ ->].
  apply bindM_Ok in H. destruct H as [[col_map iaf] [w1 [H11 H]]].
  apply lift_inv in H11. destruct H11 as [_ ->].
  apply bindM_Ok in H. destruct H as [merge_df [w1 [H12 H]]].
  apply lift_inv in H12. destruct H12 as [_ ->].
  apply bindM_Ok in H. destruct H as [new_df [w1 [H13 H]]].
  apply lift_inv in H13. destruct H13 as [_ ->].
  apply bindM_Ok in H. destruct H as [nloc [w1 [H14 H]]].
  unfold alloc in H14. inversion H14. subst nloc w1.
  unfold ret in H. inversion H.
  exists f0, new_df. split; [apply first_inv; exact H1|].
  split; [|split; reflexivity].
  unfold py_assert in H3.
  destruct (dict_mem entity_frames (e_id (entity f0))); [reflexivity|].
  discriminate.
Qed.

(** A run of the aggregation calculator that raises nothing leaves the
    store as it was, or changes the parent's table object in place, or
    stores one new table and rebinds the parent entity to it. *)
Lemma agg_run_world ext self feats entity_frames w ef' w' :
  _calculate_agg_features ext self feats entity_frames w = Ok (ef', w') ->
  (ef' = entity_frames /\ w' = w) \/
  exists f0 loc,
    hd_error feats = Some f0 /\
    dict_get entity_frames (e_id (entity f0)) = Some loc /\
    ((ef' = entity_frames /\
      exists fr u, w' = mkWorld (replace_nth loc fr (heap w)) u) \/
     (exists fr u,
        ef' = dict_set entity_frames (e_id (entity f0))
                       (List.length (heap w)) /\
        w' = mkWorld (heap w ++ [fr]) u)).
Proof.
  unfold _calculate_agg_features. intros H.
  apply bindM_Ok in H. destruct H as [locals [w1 [Hs H]]].
  destruct locals as [c|].
  2:{ left. unfold ret in H. inversion H. subst.
      unfold agg_setup in Hs.
      apply bindM_Ok in Hs. destruct Hs as [t [w2 [H1 Hs]]].
      apply lift_inv in H1. destruct H1 as [_ ->].
      apply bindM_Ok in Hs. destruct Hs as [bf0 [w2 [H2 Hs]]].
      apply lift_inv in H2. destruct H2 as [_ ->].
      apply bindM_Ok in Hs. destruct Hs as [u [w2 [H3 Hs]]].
      apply lift_inv in H3. destruct H3 as [_ ->].
      apply bindM_Ok in Hs. destruct Hs as [loc [w2 [H4 Hs]]].
      apply lift_inv in H4. destruct H4 as [_ ->].
      apply bindM_Ok in Hs. destruct Hs as [frame [w2 [H5 Hs]]].
      apply read_inv in H5. destruct H5 as [_ ->].
      apply bindM_Ok in Hs. destruct Hs as [bloc [w2 [H6 Hs]]].
      apply lift_inv in H6. destruct H6 as [_ ->].
      apply bindM_Ok in Hs. destruct Hs as [base0 [w2 [H7 Hs]]].
      apply read_inv in H7. destruct H7 as [_ ->].
      destruct (Nat.eqb _ 0) in Hs.
      - unfold ret in Hs. inversion Hs. auto.
      - apply bindM_Ok in Hs. destruct Hs as [x1 [w2 [H8 Hs]]].
        apply lift_inv in H8. destruct H8 as [_ ->].
        apply bindM_Ok in Hs. destruct Hs as [x2 [w2 [H9 Hs]]].
        apply lift_inv in H9. destruct H9 as [_ ->].
        apply bindM_Ok in Hs. destruct Hs as [x3 [w2 [H10 Hs]]].
        apply lift_inv in H10. destruct H10 as [_ ->].
        unfold ret in Hs. inversion Hs. }
  destruct (agg_setup_inv _ _ _ _ _ _ _ Hs)
    as (test & bf0 & bloc & base0 & filtered & path & Hhd & _ & Hent & _ &
        Hloc & Hframe & _ & _ & _ & _ & _ & _ & _ & _ & ->).
  right. exists test, (l_loc c). split; [exact Hhd|]. split; [exact Hloc|].
  apply bindM_Ok in H. destruct H as [flag [w1 [Hf H]]].
  apply lift_inv in Hf. destruct Hf as [_ ->].
  apply bindM_Ok in H. destruct H as [nd [w1 [Hn H]]].
  apply lift_inv in Hn. destruct Hn as [_ ->].
  destruct nd.
  - left. apply bindM_Ok in H. destruct H as [u [w1 [Hw H]]].
    unfold ret in H. inversion H. subst ef' w1. split; [reflexivity|].
    unfold agg_write_defaults, set_default_column_at in Hw.
    rewrite (table_loop set_default_column (l_loc c) (l_features c) w
               (l_frame c) Hframe) in Hw.
    destruct (foldM set_default_column (l_features c) (l_frame c))
      as [fr|]; [|discriminate].
    inversion Hw. exists fr, (uuid_count w). reflexivity.
  - unfold agg_compute in H.
    apply bindM_Ok in H. destruct H as [b [w1 [Hp H]]].
    unfold agg_partition in Hp. apply agg_partition_heap in Hp.
    apply bindM_Ok in H. destruct H as [fr1 [w2 [H1 H]]].
    apply lift_inv in H1. destruct H1 as [_ ->].
    apply bindM_Ok in H. destruct H as [fr2 [w2 [H2 H]]].
    apply lift_inv in H2. destruct H2 as [_ ->].
    apply bindM_Ok in H. destruct H as [fr3 [w2 [H3 H]]].
    apply lift_inv in H3. destruct H3 as [_ ->].
    apply bindM_Ok in H. destruct H as [fr4 [w2 [H4 H]]].
    apply lift_inv in H4. destruct H4 as [_ ->].
    rewrite Hent in H.
    destruct (Nat.eqb (List.length (to_apply b)) 0 &&
              Nat.eqb (List.length (to_agg b)) 0).
    + left. apply bindM_Ok in H. destruct H as [u [w2 [Hw H]]].
      unfold write in Hw. inversion Hw. subst.
      unfold ret in H. inversion H. split.
      * apply dict_set_same_value. exact Hloc.
      * rewrite Hp. eauto.
    + right. apply bindM_Ok in H. destruct H as [nloc [w2 [Ha H]]].
      unfold alloc in Ha. inversion Ha. subst.
      unfold ret in H. inversion H. rewrite Hp. eauto.
Qed.

(** X12.  Whatever the class of the group's first feature, the calculator
    the dispatcher picks for it changes no table object but the one bound
    to the owning entity of that feature: every other table of the store
    is afterwards what it was, and no table is dropped (the child table of
    an aggregation and the parent table of a direct feature are only
    read).  In the table dictionary only the owning entity's binding may
    change; no entity is added or removed. *)
Theorem calculators_touch_only_owner (ext : Externals)
  (self : PandasBackend) (feats : list feature) (f0 : feature)
  (handler : list feature -> entity_frames_t -> M entity_frames_t)
  (entity_frames ef' : entity_frames_t) (w w' : world) :
  hd_error feats = Some f0 ->
  _feature_type_handler ext self f0 = Ok handler ->
  handler feats entity_frames w = Ok (ef', w') ->
  touches_only (dict_get entity_frames (e_id (entity f0))) w w' /\
  (forall k, k <> e_id (entity f0) ->
             dict_get ef' k = dict_get entity_frames k) /\
  (forall k, dict_mem ef' k = dict_mem entity_frames k).
Proof.
  intros Hhd Hh Hrun.
  assert (Hset : forall loc,
             dict_mem entity_frames (e_id (entity f0)) = true ->
             (forall k, k <> e_id (entity f0) ->
                dict_get (dict_set entity_frames (e_id (entity f0)) loc) k
                = dict_get entity_frames k) /\
             (forall k,
                dict_mem (dict_set entity_frames (e_id (entity f0)) loc) k
                = dict_mem entity_frames k)).
  { intros loc Hm. split.
    - intros k Hk. apply dict_get_set_other. exact Hk.
    - intros k. rewrite dict_mem_set.
      destruct (String.eqb k (e_id (entity f0))) eqn:E; [|reflexivity].
      apply String.eqb_eq in E. subst k. rewrite Hm. reflexivity. }
  unfold _feature_type_handler in Hh.
  destruct (f_class f0); inversion Hh; subst handler; clear Hh.
  - (* transform *)
    destruct (transform_run _ _ _ _ _ _ Hrun)
      as [g0 [loc [frame0 [frame' [H1 [H2 [H3 [_ [-> ->]]]]]]]]].
    rewrite Hhd in H1. inversion H1. subst g0. rewrite H2.
    split; [apply touches_only_replace|]. split; reflexivity.
  - (* direct *)
    destruct (direct_run_world _ _ _ _ _ _ Hrun)
      as [g0 [new_df [H1 [H2 [-> ->]]]]].
    rewrite Hhd in H1. inversion H1. subst g0.
    split; [apply touches_only_append|]. apply Hset. exact H2.
  - (* aggregation *)
    destruct (agg_run_world _ _ _ _ _ _ _ Hrun)
      as [[-> ->]|[g0 [loc [H1 [H2 Hcase]]]]].
    + split; [apply touches_only_refl|]. split; reflexivity.
    + rewrite Hhd in H1. inversion H1. subst g0. rewrite H2.
      destruct Hcase as [[-> [fr [u ->]]]|[fr [u [-> ->]]]].
      * split; [apply touches_only_replace|]. split; reflexivity.
      * split; [apply touches_only_append|]. apply Hset.
        unfold dict_mem. rewrite H2. reflexivity.
  - (* identity *)
    unfold _calculate_identity_features in Hrun.
    apply bindM_Ok in Hrun. destruct Hrun as [g0 [w1 [H1 Hrun]]].
    apply lift_inv in H1. destruct H1 as [_ ->].
    destruct (dict_get entity_frames (e_id (entity g0))) as [loc|];
      [|discriminate].
    apply bindM_Ok in Hrun. destruct Hrun as [frame [w1 [H2 Hrun]]].
    apply read_inv in H2. destruct H2 as [_ ->].
    apply bindM_Ok in Hrun. destruct Hrun as [u [w1 [H3 Hrun]]].
    apply lift_inv in H3. destruct H3 as [_ ->].
    unfold ret in Hrun. inversion Hrun. subst.
    split; [apply touches_only_refl|]. split; reflexivity.
Qed.

Lemma calculators_touch_only_owner_witness :
  exists new_frame,
    _calculate_agg_features Shop.ext Shop.running_backend [Shop.item_count]
        Shop.frames (Shop.world_of Shop.orders_df Shop.items_df)
      = Ok (dict_set Shop.frames "orders" 2,
            mkWorld [Shop.orders_df; Shop.items_df; new_frame] 1) /\
    touches_only (Some 0) (Shop.world_of Shop.orders_df Shop.items_df)
                 (mkWorld [Shop.orders_df; Shop.items_df; new_frame] 1).
Proof.
  destruct (_calculate_agg_features Shop.ext Shop.running_backend
              [Shop.item_count] Shop.frames
              (Shop.world_of Shop.orders_df Shop.items_df))
    as [[ef' w']|e] eqn:Erun; [|cbv in Erun; discriminate].
  pose proof (calculators_touch_only_owner Shop.ext Shop.running_backend
                [Shop.item_count] Shop.item_count _ Shop.frames ef'
                (Shop.world_of Shop.orders_df Shop.items_df) w'
                eq_refl eq_refl Erun) as [Ht _].
  cbv in Erun. inversion Erun. subst ef' w'.
  eexists. split; [reflexivity|exact Ht].
Defined.

(* ================================================================= *)
(** ** Direct features over distinct parent keys (lines 259-298) *)

(** The direct calculator on a single hop, for a group that meets
    [direct_group_ok]: the new child table is the left join. *)
Lemma direct_run (self : PandasBackend) (feats : list feature)
  (entity_frames : entity_frames_t) (w : world) (f0 : feature)
  (parent : Entity) (cloc ploc : nat) (child_df parent_df : DataFrame)
  (hop : Relationship) :
  hd_error feats = Some f0 ->
  parent_entity f0 = Some parent ->
  dict_get entity_frames (e_id (entity f0)) = Some cloc ->
  dict_get entity_frames (e_id parent) = Some ploc ->
  nth_error (heap w) cloc = Some child_df ->
  nth_error (heap w) ploc = Some parent_df ->
  find_forward_path (entityset self) (e_id (entity f0)) (e_id parent)
    = Some [hop] ->
  direct_group_ok child_df parent_df (parent_variable hop)
                  (child_variable hop) feats ->
  let links := s_values (column_of child_df (child_variable hop)) in
  let keys := s_values (column_of parent_df (parent_variable hop)) in
  let pairs := left_join_pairs links keys in
  exists new_df,
    _calculate_direct_features self feats entity_frames w
      = Ok (dict_set entity_frames (e_id (entity f0))
                     (List.length (heap w)),
            mkWorld (heap w ++ [new_df]) (uuid_count w)) /\
    wf_frame new_df = true /\
    df_index new_df = take VNaN (map fst pairs) (df_index child_df) /\
    (forall n s, dict_get (df_columns child_df) n = Some s ->
       s_values (column_of new_df n)
       = take VNaN (map fst pairs) (s_values s)) /\
    (forall f, In f feats ->
       s_values (column_of new_df (get_name f))
       = map (joined_cell (s_values (column_of parent_df (base_name f))))
             (map snd pairs)).
Proof.
  intros Hhd Hpar Hc Hp Hcdf Hpdf Hpath Hok links keys pairs.
  destruct feats as [|f feats']; [discriminate|].
  cbn [hd_error] in Hhd. inversion Hhd. subst f.
  unfold _calculate_direct_features.
  cbn [first]. unfold bindM at 1, lift at 1.
  rewrite Hpar. unfold bindM at 1, lift at 1.
  unfold dict_mem. rewrite Hc, Hp. cbn [andb py_assert].
  unfold bindM at 1, lift at 1.
  unfold bindM at 1, lift at 1. rewrite Hpath.
  cbn [List.length Nat.eqb py_assert]. unfold bindM at 1, lift at 1.
  unfold dict_item. rewrite Hp, Hc.
  unfold bindM at 1, lift at 1. unfold bindM at 1, read at 1.
  rewrite Hpdf.
  unfold bindM at 1, lift at 1. unfold bindM at 1, read at 1.
  rewrite Hcdf. cbn [first].
  unfold bindM at 1, lift at 1.
  pose proof Hok as [Hf [Hnb [Hnn [Hpv Hmv]]]].
  rewrite direct_col_map_fold.
  2:{ intros f Hin. destruct (Hf f Hin) as [H1 [H2 _]]. auto. }
  unfold bindM at 1, lift at 1.
  destruct (direct_merge_df_spec _ _ _ _ _ Hok)
    as [merge_df [Hm [Hmi [Hmc Hmn]]]].
  rewrite Hm. unfold bindM at 1, lift at 1.
  unfold merge_left_on, get_column, dict_item.
  unfold has_column, dict_mem in Hmv.
  destruct (dict_get (df_columns child_df) (child_variable hop))
    as [ks|] eqn:Eks; [|discriminate].
  cbn [bind]. unfold bindM, alloc, ret.
  assert (Hlinks : s_values ks = links).
  { unfold links, column_of. rewrite Eks. reflexivity. }
  rewrite Hlinks, Hmi. fold keys. fold pairs.
  assert (Hdisj : forall n, In n (dict_keys (df_columns child_df)) ->
                            ~ In n (dict_keys (df_columns merge_df))).
  { intros n Hn Hr. destruct (Hmn n Hr) as [f [Hin <-]].
    destruct (Hf f Hin) as [_ [Hcf _]].
    unfold has_column in Hcf. rewrite (dict_mem_In _ _ Hn) in Hcf.
    discriminate. }
  destruct (merged_frame_columns child_df merge_df pairs Hdisj)
    as [Hidx [Hleft Hright]].
  eexists. split; [reflexivity|]. split; [apply wf_merged_frame|].
  split; [exact Hidx|]. split.
  - exact Hleft.
  - intros f Hin. destruct (Hf f Hin) as [_ [Hcf _]].
    apply Hright; [|apply Hmc; exact Hin].
    unfold has_column, dict_mem in Hcf.
    destruct (dict_get (df_columns child_df) (get_name f));
      [discriminate|reflexivity].
Qed.

(** X13.  When the parent's key column tells the parent rows apart, the
    direct calculator neither drops nor repeats a child row: the new child
    table has the child's row labels in order and its columns as they
    were, every column with one cell per row.  A feature's cell in a child
    row is the cell of the base feature's column in the one parent row
    whose key matches the child's link, and a missing value when no parent
    key matches. *)
Theorem direct_features_keep_child_rows (self : PandasBackend)
  (feats : list feature) (entity_frames : entity_frames_t) (w : world)
  (f0 : feature) (parent : Entity) (cloc ploc : nat)
  (child_df parent_df : DataFrame) (hop : Relationship) :
  hd_error feats = Some f0 ->
  parent_entity f0 = Some parent ->
  dict_get entity_frames (e_id (entity f0)) = Some cloc ->
  dict_get entity_frames (e_id parent) = Some ploc ->
  nth_error (heap w) cloc = Some child_df ->
  nth_error (heap w) ploc = Some parent_df ->
  find_forward_path (entityset self) (e_id (entity f0)) (e_id parent)
    = Some [hop] ->
  direct_group_ok child_df parent_df (parent_variable hop)
                  (child_variable hop) feats ->
  wf_frame child_df = true ->
  distinct_labels (s_values (column_of parent_df (parent_variable hop))) ->
  let links := s_values (column_of child_df (child_variable hop)) in
  let keys := s_values (column_of parent_df (parent_variable hop)) in
  exists new_df,
    _calculate_direct_features self feats entity_frames w
      = Ok (dict_set entity_frames (e_id (entity f0))
                     (List.length (heap w)),
            mkWorld (heap w ++ [new_df]) (uuid_count w)) /\
    df_index new_df = df_index child_df /\
    wf_frame new_df = true /\
    (forall n, has_column child_df n = true ->
       s_values (column_of new_df n) = s_values (column_of child_df n)) /\
    (forall f i, In f feats -> i < List.length links ->
       let cell := nth i (s_values (column_of new_df (get_name f))) VNaN in
       let parent_cells := s_values (column_of parent_df (base_name f)) in
       (forall j, j < List.length keys ->
          key_match (nth i links VNaN) (nth j keys VNaN) = true ->
          cell = nth j parent_cells VNaN) /\
       ((forall j, j < List.length keys ->
           key_match (nth i links VNaN) (nth j keys VNaN) = false) ->
        cell = VNaN)).
Proof.
  intros Hhd Hpar Hc Hp Hcdf Hpdf Hpath Hok Hwf Hdist links keys.
  destruct (direct_run self feats entity_frames w f0 parent cloc ploc
              child_df parent_df hop Hhd Hpar Hc Hp Hcdf Hpdf Hpath Hok)
    as [new_df [H1 [H2 [H3 [H4 H5]]]]].
  fold links keys in H3, H4, H5.
  assert (Hpairs : left_join_pairs links keys
                   = map (fun i => (i, hd_error
                                         (key_positions (nth i links VNaN)
                                                        keys)))
                         (seq 0 (List.length links))).
  { apply left_join_pairs_unique. intros k.
    apply distinct_labels_positions. exact Hdist. }
  assert (Hlen : List.length links = nrows child_df).
  { destruct Hok as [_ [_ [_ [_ Hmv]]]].
    unfold has_column, dict_mem in Hmv. unfold links, column_of.
    destruct (dict_get (df_columns child_df) (child_variable hop))
      as [ks|] eqn:Eks; [|discriminate].
    apply (wf_frame_column child_df _ ks Hwf Eks). }
  assert (Hfst : map fst (left_join_pairs links keys)
                 = seq 0 (nrows child_df)).
  { rewrite Hpairs, map_map. cbn [fst]. rewrite map_id, Hlen.
    reflexivity. }
  exists new_df. split; [exact H1|]. split; [|split; [exact H2|split]].
  - rewrite H3, Hfst. apply take_all. reflexivity.
  - intros n Hn. unfold has_column, dict_mem in Hn.
    destruct (dict_get (df_columns child_df) n) as [s|] eqn:En;
      [|discriminate].
    rewrite (H4 n s En), Hfst. unfold column_of at 1. rewrite En.
    apply take_all. apply (wf_frame_column child_df n s Hwf En).
  - intros f i Hf Hi cell parent_cells. unfold cell.
    rewrite (H5 f Hf), Hpairs, !map_map. cbn [snd].
    rewrite (nth_map_in _ _ i 0 VNaN) by (rewrite length_seq; exact Hi).
    rewrite seq_nth by exact Hi. cbn [Nat.add].
    fold parent_cells.
    destruct (hd_error (key_positions (nth i links VNaN) keys))
      as [j0|] eqn:Eh.
    + apply hd_error_In in Eh. apply key_positions_spec in Eh.
      destruct Eh as [Hj0 Hm0]. cbn [joined_cell]. split.
      * intros j Hj Hm.
        pose proof (proj1 (Hdist j0 j Hj0 Hj)
                      (key_match_common _ _ _ Hm0 Hm)) as Heq.
        subst j. reflexivity.
      * intros Hnone. rewrite (Hnone j0 Hj0) in Hm0. discriminate.
    + apply hd_error_None in Eh. cbn [joined_cell]. split.
      * intros j Hj Hm.
        assert (Hin : In j (key_positions (nth i links VNaN) keys))
          by (apply key_positions_spec; auto).
        rewrite Eh in Hin. contradiction.
      * reflexivity.
Qed.

Lemma direct_features_keep_child_rows_witness :
  exists new_df,
    _calculate_direct_features (Shop.backend true) [Shop.order_item_count]
        Shop.frames
        (Shop.world_of Shop.counted_orders_df Shop.stray_items_df)
      = Ok (dict_set Shop.frames "order_items" 2,
            mkWorld [Shop.counted_orders_df; Shop.stray_items_df; new_df]
                    0) /\
    df_index new_df = [VInt 10; VInt 11; VInt 12] /\
    wf_frame new_df = true.
Proof.
  destruct (direct_features_keep_child_rows (Shop.backend true)
              [Shop.order_item_count] Shop.frames
              (Shop.world_of Shop.counted_orders_df Shop.stray_items_df)
              Shop.order_item_count Shop.orders 1 0
              Shop.stray_items_df Shop.counted_orders_df Shop.hop
              eq_refl eq_refl eq_refl eq_refl eq_refl eq_refl eq_refl)
    as [new_df [H1 [H2 [H3 _]]]].
  - repeat split.
    + destruct H as [<-|[]]. discriminate.
    + destruct H as [<-|[]]. reflexivity.
    + destruct H as [<-|[]]. reflexivity.
    + constructor; [intros []|constructor].
    + constructor; [intros []|constructor].
  - reflexivity.
  - intros i j Hi Hj. cbn in Hi, Hj.
    destruct i as [|[|[|i]]]; destruct j as [|[|[|j]]]; cbn;
      split; intros H; try reflexivity; try discriminate; lia.
  - exists new_df. auto.
Defined.

(* ================================================================= *)
(** ** What the last step needs of the finished table (lines 187-195) *)

(** What a run of the orchestrator up to its last step leaves. *)
Lemma computed_frames_inv ext self ids time_last_arg training_window
  precalculated ignored w self' te finished w1 :
  computed_frames ext self ids time_last_arg training_window precalculated
      ignored w = Ok ((self', te, finished), w1) ->
  ids <> [] /\
  self' = mkPandasBackend (entityset self) (target_eid self)
            (features self) (feature_tree self)
            (Some (match time_last_arg with
                   | Some t => t
                   | None => datetime_now ext
                   end)) /\
  es_entity (entityset self) (target_eid self) = Ok te.
Proof.
  unfold computed_frames. intros H.
  apply bindM_Ok in H. destruct H as [u [w2 [H1 H]]].
  apply lift_inv in H1. destruct H1 as [H1 ->].
  apply bindM_Ok in H. destruct H as [te' [w2 [H2 H]]].
  apply lift_inv in H2. destruct H2 as [H2 ->].
  cbn [entityset target_eid] in H2.
  apply bindM_Ok in H. destruct H as [ef [w2 [_ H]]].
  assert (Hids : ids <> []).
  { intros ->. cbn in H1. discriminate. }
  destruct ef as [ef|].
  - apply bindM_Ok in H. destruct H as [st [w3 [_ H]]].
    apply bindM_Ok in H. destruct H as [st' [w4 [_ H]]].
    unfold ret in H. inversion H. subst. auto.
  - unfold ret in H. inversion H. subst. auto.
Qed.

Lemma select_columns_missing (df : DataFrame) (names : list string) n :
  find (fun k => negb (has_column df k)) names = Some n ->
  select_columns df names = Err (KeyError n).
Proof.
  intros H. unfold select_columns.
  assert (Hm : mapM (fun k => s <- get_column df k ;; Ok (k, s)) names
               = Err (KeyError n)).
  { induction names as [|k names IH]; [discriminate|].
    cbn [find] in H. cbn [mapM].
    unfold get_column at 1, dict_item. unfold has_column, dict_mem in H.
    destruct (dict_get (df_columns df) k); cbn [negb] in H.
    - cbn [bind]. rewrite (IH H). reflexivity.
    - inversion H. reflexivity. }
  rewrite Hm. reflexivity.
Qed.

(** X14.  The last step of [calculate_all_features] reads the finished
    table of the target entity.  If that table lacks the entity's index
    column, the call ends on a [KeyError] naming it.  If every requested
    id labels a row, so that nothing is backfilled, and some requested
    feature has no column on the table, the call ends on a [KeyError]
    naming the first such feature: a feature that no calculator computed
    is not silently filled in. *)
Theorem result_needs_computed_columns (ext : Externals)
  (self : PandasBackend) (ids : list value) (time_last_arg : option time)
  (training_window : option Z) (precalculated : option (dict DataFrame))
  (ignored : option (list string)) (w w1 : world) (self' : PandasBackend)
  (target_entity : Entity) (eframes : dict entity_frames_t)
  (df : DataFrame) :
  computed_frames ext self ids time_last_arg training_window precalculated
      ignored w = Ok ((self', target_entity, Some eframes), w1) ->
  target_frame self' eframes w1 = Ok (df, w1) ->
  (has_column df (e_index target_entity) = false ->
   calculate_all_features ext self ids time_last_arg training_window
       precalculated ignored w
   = Err (KeyError (e_index target_entity))) /\
  (forall n,
     has_column df (e_index target_entity) = true ->
     missing_from (df_index df) ids = [] ->
     find (fun k => negb (has_column df k)) (map get_name (features self))
       = Some n ->
     calculate_all_features ext self ids time_last_arg training_window
         precalculated ignored w
     = Err (KeyError n)).
Proof.
  intros Hrun Htab.
  destruct (computed_frames_inv _ _ _ _ _ _ _ _ _ _ _ _ Hrun)
    as [Hids [Hself _]].
  assert (Hfeats : features self' = features self)
    by (rewrite Hself; reflexivity).
  assert (Hcall : calculate_all_features ext self ids time_last_arg
                    training_window precalculated ignored w
                  = lift (assemble_result self' target_entity ids df) w1).
  { unfold calculate_all_features.
    rewrite (bindM_step _ _ _ _ _ Hrun). cbn beta iota.
    rewrite (bindM_step _ _ _ _ _ Htab). reflexivity. }
  rewrite Hcall. split.
  - intros Hno. unfold assemble_result.
    destruct ids as [|i ids']; [contradiction|].
    cbn [filterM]. unfold in_series at 1, get_column, dict_item.
    unfold has_column, dict_mem in Hno.
    destruct (dict_get (df_columns df) (e_index target_entity));
      [discriminate|reflexivity].
  - intros n Hcol Hmiss Hfind. unfold assemble_result.
    rewrite (missing_ids_of_labels df _ ids Hcol), Hmiss. cbn [bind].
    rewrite Hfeats, (select_columns_missing df _ n Hfind). reflexivity.
Qed.

Lemma result_needs_computed_columns_witness :
  calculate_all_features Shop.ext Shop.short_planned_backend
      [VInt 1; VInt 2; VInt 3] (Some 10%Z) None None None Shop.w0
  = Err (KeyError "MAX(order_items.item_id)").
Proof.
  refine (proj2 (result_needs_computed_columns Shop.ext
                   Shop.short_planned_backend [VInt 1; VInt 2; VInt 3]
                   (Some 10%Z) None None None Shop.w0 _ _ _ _ _
                   eq_refl eq_refl)
                "MAX(order_items.item_id)" eq_refl eq_refl eq_refl).
Defined.

(* ================================================================= *)
(** ** The dispatcher in the loop over entities (lines 140-166, 212-222) *)

(** X15.  The dispatcher fails exactly on a feature that is of none of the
    four classes, with [UnknownFeature] and the class in the message.  In
    the loop over the entities, a first feature group headed by such a
    feature ends the run on that error before any calculator has run; an
    entity without table dictionary in the slice ends it on a [KeyError]
    naming the entity; an empty feature group ends it on an
    [IndexError]. *)
Theorem unknown_feature_class_is_fatal (ext : Externals)
  (self : PandasBackend) (eframes : dict entity_frames_t)
  (filter_eid : string) (w : world) :
  (forall f e,
     _feature_type_handler ext self f = Err e <->
     exists c, f_class f = OtherClass c /\
               e = UnknownFeature (String.append c " feature unknown")) /\
  (forall finished,
     dict_get eframes filter_eid = None ->
     process_entity ext self (eframes, finished) filter_eid w
     = Err (KeyError filter_eid)) /\
  (forall inner g0 group groups c,
     dict_get eframes filter_eid = Some inner ->
     dict_get (ordered_feature_groups (feature_tree self)) filter_eid
       = Some ((g0 :: group) :: groups) ->
     f_class g0 = OtherClass c ->
     process_entity ext self (eframes, []) filter_eid w
     = Err (UnknownFeature (String.append c " feature unknown"))) /\
  (forall inner groups,
     dict_get eframes filter_eid = Some inner ->
     dict_get (ordered_feature_groups (feature_tree self)) filter_eid
       = Some ([] :: groups) ->
     process_entity ext self (eframes, []) filter_eid w
     = Err (IndexError "list index out of range")).
Proof.
  split; [|split; [|split]].
  - intros f e. unfold _feature_type_handler. split.
    + destruct (f_class f) as [| | | |c]; try discriminate.
      intros H. inversion H. exists c. auto.
    + intros [c [-> ->]]. reflexivity.
  - intros finished Hnone. unfold process_entity.
    unfold bindM at 1, lift at 1, dict_item. rewrite Hnone. reflexivity.
  - intros inner g0 group groups c Hin Hg Hc. unfold process_entity.
    unfold bindM at 1, lift at 1, dict_item. rewrite Hin.
    cbn [foldW]. unfold bindM at 1, ret at 1. rewrite Hg.
    cbn [foldW first]. unfold bindM, lift, _feature_type_handler.
    rewrite Hc. reflexivity.
  - intros inner groups Hin Hg. unfold process_entity.
    unfold bindM at 1, lift at 1, dict_item. rewrite Hin.
    cbn [foldW]. unfold bindM at 1, ret at 1. rewrite Hg.
    cbn [foldW first]. reflexivity.
Qed.

(* ================================================================= *)
(** ** Sharing the tables of finished entities (lines 145-152) *)

Lemma get_frame_set_frame eframes k1 k2 loc eframes' :
  set_frame eframes k1 k2 loc = Ok eframes' ->
  (forall k, k <> k1 -> dict_get eframes' k = dict_get eframes k) /\
  (forall k, get_frame eframes' k1 k
             = if String.eqb k k2 then Ok loc else get_frame eframes k1 k).
Proof.
  unfold set_frame, get_frame, dict_item. intros H.
  destruct (dict_get eframes k1) as [inner|] eqn:E; [|discriminate].
  cbn [bind] in H. inversion H. subst eframes'. split.
  - intros k Hk. apply dict_get_set_other. exact Hk.
  - intros k. rewrite dict_get_set_same. cbn [bind].
    destruct (String.eqb k k2) eqn:Ek.
    + apply String.eqb_eq in Ek. subst k. rewrite dict_get_set_same.
      reflexivity.
    + rewrite dict_get_set_other; [reflexivity|].
      intros ->. rewrite String.eqb_refl in Ek. discriminate.
Qed.

Lemma get_frame_other eframes eframes' k1 k k' :
  dict_get eframes' k = dict_get eframes k ->
  k <> k1 ->
  get_frame eframes' k k' = get_frame eframes k k'.
Proof. unfold get_frame, dict_item. intros -> _. reflexivity. Qed.

(** The loop of lines 145-152 on the dictionary of dictionaries. *)
Lemma share_finished_fold (self : PandasBackend) (filter_eid : string)
  (finished : list string) :
  forall eframes eframes' w w',
    ~ In filter_eid finished ->
    foldW (fun eframes eid =>
             if no_path (find_backward_path (entityset self) filter_eid eid)
             then loc <~ lift (get_frame eframes eid eid) ;;
                  lift (set_frame eframes filter_eid eid loc)
             else ret eframes)
          finished eframes w = Ok (eframes', w') ->
    w' = w /\
    (forall k, k <> filter_eid -> dict_get eframes' k = dict_get eframes k) /\
    (forall eid,
       get_frame eframes' filter_eid eid
       = if str_mem eid finished &&
            no_path (find_backward_path (entityset self) filter_eid eid)
         then get_frame eframes eid eid
         else get_frame eframes filter_eid eid).
Proof.
  induction finished as [|e0 rest IH]; intros eframes eframes' w w' Hnot H.
  - cbn in H. inversion H. subst. cbn. auto.
  - cbn [foldW] in H. apply bindM_Ok in H.
    destruct H as [ef1 [w1 [H1 H2]]].
    assert (Hnot' : ~ In filter_eid rest) by (intros Hin; apply Hnot; right;
                                              exact Hin).
    assert (Hne0 : e0 <> filter_eid) by (intros ->; apply Hnot; left;
                                         reflexivity).
    destruct (IH ef1 eframes' w1 w' Hnot' H2) as [-> [I2 I3]].
    destruct (no_path (find_backward_path (entityset self) filter_eid e0))
      eqn:Ep.
    + apply bindM_Ok in H1. destruct H1 as [loc [w2 [Hg Hs]]].
      apply lift_inv in Hg. destruct Hg as [Hg ->].
      apply lift_inv in Hs. destruct Hs as [Hs ->].
      destruct (get_frame_set_frame _ _ _ _ _ Hs) as [S1 S2].
      split; [reflexivity|]. split.
      * intros k Hk. rewrite (I2 k Hk). apply S1. exact Hk.
      * intros eid. rewrite I3. change (str_mem eid (e0 :: rest))
          with (String.eqb eid e0 || str_mem eid rest).
        destruct (String.eqb eid e0) eqn:E0.
        -- apply String.eqb_eq in E0. subst eid. rewrite Ep.
           cbn [orb andb].
           destruct (str_mem e0 rest); cbn [andb].
           ++ apply get_frame_other with (k1 := filter_eid);
                [apply S1; exact Hne0|exact Hne0].
           ++ rewrite S2, String.eqb_refl. symmetry. exact Hg.
        -- cbn [orb].
           destruct (str_mem eid rest &&
                     no_path (find_backward_path (entityset self)
                                filter_eid eid)) eqn:Ec.
           ++ apply andb_true_iff in Ec. destruct Ec as [Ein _].
              apply str_mem_In in Ein.
              assert (Hne : eid <> filter_eid)
                by (intros ->; contradiction).
              apply get_frame_other with (k1 := filter_eid);
                [apply S1; exact Hne|exact Hne].
           ++ rewrite S2, E0. reflexivity.
    + unfold ret in H1. inversion H1. subst ef1 w1.
      split; [reflexivity|]. split; [exact I2|].
      intros eid. rewrite I3. change (str_mem eid (e0 :: rest))
          with (String.eqb eid e0 || str_mem eid rest).
      destruct (String.eqb eid e0) eqn:E0; cbn [orb]; [|reflexivity].
      apply String.eqb_eq in E0. subst eid. rewrite Ep.
      rewrite !andb_false_r. reflexivity.
Qed.

(** X16.  When the loop reaches an entity that is not finished yet and has
    no feature group, it changes no table and marks the entity finished.
    In the entity's table dictionary, every finished entity that is not
    one of its descendants is bound to that entity's own finished table,
    the same table object; the other bindings, and the dictionaries of
    the other entities, are as before. *)
Theorem finished_tables_are_shared (ext : Externals) (self : PandasBackend)
  (eframes eframes' : dict entity_frames_t) (finished finished' : list string)
  (filter_eid : string) (w w' : world) :
  dict_get (ordered_feature_groups (feature_tree self)) filter_eid = None ->
  ~ In filter_eid finished ->
  process_entity ext self (eframes, finished) filter_eid w
    = Ok ((eframes', finished'), w') ->
  w' = w /\
  finished' = finished ++ [filter_eid] /\
  (forall k, k <> filter_eid -> dict_get eframes' k = dict_get eframes k) /\
  (forall eid,
     In eid finished ->
     no_path (find_backward_path (entityset self) filter_eid eid) = true ->
     get_frame eframes' filter_eid eid = get_frame eframes eid eid) /\
  (forall eid,
     ~ In eid finished \/
     no_path (find_backward_path (entityset self) filter_eid eid) = false ->
     get_frame eframes' filter_eid eid = get_frame eframes filter_eid eid).
Proof.
  intros Hgroups Hnot H. unfold process_entity in H.
  apply bindM_Ok in H. destruct H as [u [w1 [H1 H]]].
  apply lift_inv in H1. destruct H1 as [_ ->].
  apply bindM_Ok in H. destruct H as [ef1 [w1 [H2 H]]].
  destruct (share_finished_fold self filter_eid finished _ _ _ _ Hnot H2)
    as [-> [S2 S3]].
  rewrite Hgroups in H. unfold bindM at 1, ret at 1 in H.
  unfold ret in H. inversion H. subst.
  split; [reflexivity|]. split; [reflexivity|]. split; [exact S2|]. split.
  - intros eid Hin Hp. rewrite S3, Hp.
    rewrite (proj2 (str_mem_In eid finished) Hin). reflexivity.
  - intros eid Hcase. rewrite S3.
    destruct Hcase as [Hn|Hp].
    + destruct (str_mem eid finished) eqn:E; [|reflexivity].
      apply str_mem_In in E. contradiction.
    + rewrite Hp, andb_false_r. reflexivity.
Qed.

Lemma finished_tables_are_shared_witness :
  exists eframes',
    process_entity Shop.ext (Shop.backend true)
        (Shop.both_frames, ["orders"]) "order_items"
        (Shop.world_of Shop.orders_df Shop.items_df)
      = Ok ((eframes', ["orders"; "order_items"]),
            Shop.world_of Shop.orders_df Shop.items_df) /\
    get_frame eframes' "order_items" "orders" = Ok 0 /\
    get_frame eframes' "order_items" "order_items" = Ok 1.
Proof.
  assert (Hnot : ~ In "order_items" ["orders"])
    by (intros [H|[]]; discriminate).
  eexists.
  pose proof (finished_tables_are_shared Shop.ext (Shop.backend true)
                Shop.both_frames _ ["orders"] _ "order_items"
                (Shop.world_of Shop.orders_df Shop.items_df) _
                eq_refl Hnot eq_refl) as [_ [_ [_ [H4 H5]]]].
  split; [reflexivity|]. split.
  - exact (H4 "orders" (or_introl eq_refl) eq_refl).
  - apply H5. left. intros [H|[]]. discriminate.
Defined.

(* ================================================================= *)
(** ** Precalculated feature values (lines 109-125) *)

Lemma merge_precalculated_loop (self : PandasBackend)
  (pre : dict DataFrame) (eframes : dict entity_frames_t) :
  merge_precalculated self pre eframes
  = if Nat.ltb 0 (List.length pre)
    then foldW (precalculated_turn self) pre (eframes, [])
    else ret (eframes, []).
Proof. reflexivity. Qed.

Lemma precalculated_step (self : PandasBackend)
  (eframes : dict entity_frames_t) (finished : list string)
  (entity_id : string) (values : DataFrame) (w : world)
  (eframes' : dict entity_frames_t) (finished' : list string) (w' : world) :
  precalculated_turn self (eframes, finished) (entity_id, values) w
  = Ok ((eframes', finished'), w') ->
  exists table,
    w' = mkWorld (heap w ++ [table]) (uuid_count w) /\
    (forall k, k <> entity_id -> dict_get eframes' k = dict_get eframes k) /\
    get_frame eframes' entity_id entity_id = Ok (List.length (heap w)) /\
    (if dict_mem eframes entity_id then
       finished' = finished /\
       exists loc frame,
         get_frame eframes entity_id entity_id = Ok loc /\
         nth_error (heap w) loc = Some frame /\
         table = merge_on_index frame values
     else
       finished' = finished ++ [entity_id] /\
       dict_get eframes' entity_id
         = Some [(entity_id, List.length (heap w))] /\
       exists ent,
         es_entity (entityset self) entity_id = Ok ent /\
         table = set_column values (e_index ent)
                   (series_of_list (df_index values))).
Proof.
  unfold precalculated_turn.
  destruct (dict_mem eframes entity_id) eqn:Em.
  - intros H.
    apply bindM_Ok in H. destruct H as [loc [w1 [H1 H]]].
    apply lift_inv in H1. destruct H1 as [H1 ->].
    apply bindM_Ok in H. destruct H as [frame [w1 [H2 H]]].
    apply read_inv in H2. destruct H2 as [H2 ->].
    apply bindM_Ok in H. destruct H as [nloc [w1 [H3 H]]].
    unfold alloc in H3. inversion H3. subst nloc w1.
    apply bindM_Ok in H. destruct H as [ef1 [w1 [H4 H]]].
    apply lift_inv in H4. destruct H4 as [H4 ->].
    unfold ret in H. inversion H. subst ef1 finished' w'.
    destruct (get_frame_set_frame _ _ _ _ _ H4) as [S1 S2].
    exists (merge_on_index frame values).
    split; [reflexivity|]. split; [exact S1|]. split.
    + rewrite S2, String.eqb_refl. reflexivity.
    + split; [reflexivity|]. exists loc, frame. auto.
  - intros H.
    apply bindM_Ok in H. destruct H as [ent [w1 [H1 H]]].
    apply lift_inv in H1. destruct H1 as [H1 ->].
    apply bindM_Ok in H. destruct H as [vals [w1 [H2 H]]].
    apply lift_inv in H2. destruct H2 as [H2 ->].
    apply bindM_Ok in H. destruct H as [nloc [w1 [H3 H]]].
    unfold alloc in H3. inversion H3. subst nloc w1.
    unfold ret in H. inversion H. subst eframes' finished' w'.
    unfold assign_list in H2.
    destruct (Nat.eqb (List.length (df_index values)) (nrows values));
      [|discriminate].
    inversion H2. subst vals.
    eexists. split; [reflexivity|]. split; [|split].
    + intros k Hk. apply dict_get_set_other. exact Hk.
    + unfold get_frame, dict_item. rewrite dict_get_set_same.
      cbn. rewrite String.eqb_refl. reflexivity.
    + split; [reflexivity|]. split; [apply dict_get_set_same|].
      exists ent. auto.
Qed.

(** The loop of lines 111-125 over precalculated tables of distinct
    entities. *)
Lemma precalculated_fold (self : PandasBackend) (pre : dict DataFrame) :
  forall eframes finished w eframes' finished' w',
    NoDup (dict_keys pre) ->
    foldW (precalculated_turn self) pre (eframes, finished) w
      = Ok ((eframes', finished'), w') ->
    exists tables,
      w' = mkWorld (heap w ++ tables) (uuid_count w) /\
      List.length tables = List.length pre /\
      finished' = finished ++ filter (fun k => negb (dict_mem eframes k))
                                     (dict_keys pre) /\
      (forall k, ~ In k (dict_keys pre) ->
                 dict_get eframes' k = dict_get eframes k) /\
      (forall i k values,
         nth_error pre i = Some (k, values) ->
         get_frame eframes' k k = Ok (List.length (heap w) + i) /\
         exists table,
           nth_error tables i = Some table /\
           if dict_mem eframes k then
             exists loc frame,
               get_frame eframes k k = Ok loc /\
               nth_error (heap w ++ tables) loc = Some frame /\
               table = merge_on_index frame values
           else
             dict_get eframes' k = Some [(k, List.length (heap w) + i)] /\
             exists ent,
               es_entity (entityset self) k = Ok ent /\
               table = set_column values (e_index ent)
                         (series_of_list (df_index values))).
Proof.
  induction pre as [|[k0 v0] pre IH];
    intros eframes finished w eframes' finished' w' Hnd H.
  - cbn in H. inversion H. subst. exists []. cbn.
    rewrite !app_nil_r. destruct w'.
    split; [reflexivity|]. split; [reflexivity|]. split; [reflexivity|].
    split; [reflexivity|]. intros [|i] k values Hi; discriminate.
  - cbn [foldW] in H. apply bindM_Ok in H.
    destruct H as [[ef1 fin1] [w1 [H1 H2]]].
    cbn in Hnd. inversion Hnd as [|? ? Hnotin Hnd']. subst.
    destruct (precalculated_step _ _ _ _ _ _ _ _ _ H1)
      as [t0 [-> [S1 [S2 S3]]]].
    destruct (IH _ _ _ _ _ _ Hnd' H2)
      as [tables [-> [I1 [I2 [I3 I4]]]]].
    cbn [heap uuid_count] in *.
    assert (Hmem : forall k, k <> k0 -> dict_mem ef1 k = dict_mem eframes k).
    { intros k Hk. unfold dict_mem. rewrite (S1 k Hk). reflexivity. }
    assert (Hk0 : forall k, In k (dict_keys pre) -> k <> k0).
    { intros k Hk ->. contradiction. }
    exists (t0 :: tables). split; [|split; [|split; [|split]]].
    + rewrite <- app_assoc. reflexivity.
    + cbn. rewrite I1. reflexivity.
    + rewrite I2. cbn [dict_keys map fst filter].
      rewrite (filter_ext_in _ (fun k => negb (dict_mem eframes k))
                 (map fst pre)).
      2:{ intros k Hk. rewrite (Hmem k (Hk0 k Hk)). reflexivity. }
      destruct (dict_mem eframes k0).
      * destruct S3 as [-> _]. reflexivity.
      * destruct S3 as [-> _]. cbn [negb]. rewrite <- app_assoc.
        reflexivity.
    + intros k Hk. cbn in Hk. rewrite I3 by tauto. apply S1.
      intros ->. tauto.
    + intros [|i] k values Hi.
      * cbn in Hi. inversion Hi. subst k values.
        assert (Hsame : dict_get eframes' k0 = dict_get ef1 k0)
          by (apply I3; exact Hnotin).
        rewrite Nat.add_0_r. split.
        -- unfold get_frame, dict_item. rewrite Hsame. exact S2.
        -- exists t0. split; [reflexivity|].
           destruct (dict_mem eframes k0).
           ++ destruct S3 as [_ [loc [frame [L1 [L2 L3]]]]].
              exists loc, frame. split; [exact L1|]. split; [|exact L3].
              rewrite nth_error_app1; [exact L2|].
              apply nth_error_Some. congruence.
           ++ destruct S3 as [_ [S3 S4]].
              split; [congruence|exact S4].
      * cbn [nth_error] in Hi.
        destruct (I4 i k values Hi) as [J1 [table [J2 J3]]].
        assert (Hk : k <> k0).
        { apply Hk0. unfold dict_keys. apply in_map_iff.
          exists (k, values). split; [reflexivity|].
          eapply nth_error_In. exact Hi. }
        rewrite length_app in J1, J3. cbn [List.length] in J1, J3.
        replace (List.length (heap w) + 1 + i)
          with (List.length (heap w) + S i) in J1, J3 by lia.
        split; [exact J1|]. exists table. split; [exact J2|].
        rewrite (Hmem k Hk) in J3.
        destruct (dict_mem eframes k) eqn:Em; [|exact J3].
        destruct J3 as [loc [frame [K1 [K2 K3]]]].
        exists loc, frame. split; [|split; [|exact K3]].
        -- rewrite <- K1. symmetry.
           apply get_frame_other with (k1 := k0); [apply S1|]; exact Hk.
        -- rewrite <- app_assoc in K2. exact K2.
Qed.

(** X17.  Precalculated feature values, given per entity, enter the
    tables before any calculator runs.  For an entity the slice serves,
    the slice's table is joined with the precalculated one on equal row
    labels, as a new table to which the entity is rebound.  For an entity
    the slice does not serve, the precalculated table gets the entity's
    index column, filled with its row labels, becomes the entity's only
    table, and the entity counts as finished.  One table is stored per
    entity, after the tables already there, which are left as they were;
    the finished entities are, in order, those the slice did not serve;
    the other entities' dictionaries are untouched.  Without precalculated
    values nothing happens. *)
Theorem precalculated_values_enter_tables (self : PandasBackend)
  (pre : dict DataFrame) (eframes eframes' : dict entity_frames_t)
  (finished : list string) (w w' : world) :
  NoDup (dict_keys pre) ->
  (forall k loc, get_frame eframes k k = Ok loc ->
                 loc < List.length (heap w)) ->
  merge_precalculated self pre eframes w = Ok ((eframes', finished), w') ->
  exists tables,
    w' = mkWorld (heap w ++ tables) (uuid_count w) /\
    List.length tables = List.length pre /\
    finished = filter (fun k => negb (dict_mem eframes k)) (dict_keys pre) /\
    (forall k, ~ In k (dict_keys pre) ->
               dict_get eframes' k = dict_get eframes k) /\
    (forall i k values,
       nth_error pre i = Some (k, values) ->
       get_frame eframes' k k = Ok (List.length (heap w) + i) /\
       exists table,
         nth_error tables i = Some table /\
         if dict_mem eframes k then
           exists loc frame,
             get_frame eframes k k = Ok loc /\
             nth_error (heap w) loc = Some frame /\
             table = merge_on_index frame values
         else
           dict_get eframes' k = Some [(k, List.length (heap w) + i)] /\
           exists ent,
             es_entity (entityset self) k = Ok ent /\
             table = set_column values (e_index ent)
                       (series_of_list (df_index values))).
Proof.
  intros Hnd Hvalid H. rewrite merge_precalculated_loop in H.
  destruct pre as [|item pre'].
  - cbn in H. inversion H. subst. exists []. cbn.
    rewrite app_nil_r. destruct w'.
    split; [reflexivity|]. split; [reflexivity|]. split; [reflexivity|].
    split; [reflexivity|]. intros [|i] k values Hi; discriminate.
  - change (Nat.ltb 0 (List.length (item :: pre'))) with true in H.
    cbv iota in H.
    destruct (precalculated_fold self (item :: pre') _ _ _ _ _ _ Hnd H)
      as [tables [H1 [H2 [H3 [H4 H5]]]]].
    exists tables. split; [exact H1|]. split; [exact H2|].
    split; [exact H3|]. split; [exact H4|].
    intros i k values Hi. destruct (H5 i k values Hi) as [J1 [table [J2 J3]]].
    split; [exact J1|]. exists table. split; [exact J2|].
    destruct (dict_mem eframes k); [|exact J3].
    destruct J3 as [loc [frame [K1 [K2 K3]]]].
    exists loc, frame. split; [exact K1|]. split; [|exact K3].
    rewrite nth_error_app1 in K2; [exact K2|].
    apply (Hvalid k loc K1).
Qed.

Lemma precalculated_values_enter_tables_witness :
  exists eframes' tables,
    merge_precalculated (Shop.backend true)
        [("order_items", Shop.precalculated_flags);
         ("orders", Shop.precalculated_counts)]
        Shop.items_frames (Shop.world_of Shop.orders_df Shop.items_df)
      = Ok ((eframes', ["orders"]),
            mkWorld ([Shop.orders_df; Shop.items_df] ++ tables) 0) /\
    List.length tables = 2 /\
    get_frame eframes' "order_items" "order_items" = Ok 2 /\
    get_frame eframes' "orders" "orders" = Ok 3.
Proof.
  assert (Hnd : NoDup (dict_keys [("order_items", Shop.precalculated_flags);
                                  ("orders", Shop.precalculated_counts)])).
  { cbn. constructor; [intros [H|[]]; discriminate|].
    constructor; [intros []|constructor]. }
  assert (Hvalid : forall k loc,
             get_frame Shop.items_frames k k = Ok loc ->
             loc < List.length
                     (heap (Shop.world_of Shop.orders_df Shop.items_df))).
  { intros k loc H. unfold get_frame, dict_item in H. cbn in H.
    destruct (String.eqb k "order_items") eqn:E; cbn in H;
      [|discriminate].
    rewrite E in H. inversion H. cbn. lia. }
  destruct (precalculated_values_enter_tables (Shop.backend true)
              [("order_items", Shop.precalculated_flags);
               ("orders", Shop.precalculated_counts)]
              Shop.items_frames _ _
              (Shop.world_of Shop.orders_df Shop.items_df) _
              Hnd Hvalid eq_refl)
    as [tables [H1 [H2 [_ [_ H5]]]]].
  eexists. exists tables. split; [|split; [exact H2|split]].
  - change (mkWorld ([Shop.orders_df; Shop.items_df] ++ tables) 0)
      with (mkWorld
              (heap (Shop.world_of Shop.orders_df Shop.items_df) ++ tables)
              (uuid_count (Shop.world_of Shop.orders_df Shop.items_df))).
    rewrite <- H1. reflexivity.
  - exact (proj1 (H5 0 _ _ eq_refl)).
  - exact (proj1 (H5 1 _ _ eq_refl)).
Defined.

(* ================================================================= *)
(** ** The child rows an aggregate sees (lines 321-339) *)

Lemma select_all (s n : nat) {A : Type} (l : list A) :
  List.length l <= n -> select (map (fun _ => true) (seq s n)) l = l.
Proof.
  revert s l. induction n as [|n IH]; intros s [|a l] H; cbn in *;
    try reflexivity; try lia.
  rewrite IH by lia. reflexivity.
Qed.

Lemma select_map {A B : Type} (f : A -> B) (m : list bool) (l : list A) :
  map f (select m l) = select m (map f l).
Proof.
  revert l. induction m as [|b m IH]; intros [|a l]; try reflexivity.
  cbn. destruct b; cbn; rewrite IH; reflexivity.
Qed.

Lemma select_nil_r {A : Type} (m : list bool) : select m (@nil A) = [].
Proof. destruct m; reflexivity. Qed.

Lemma select_select {A : Type} (m1 m2 : list bool) (l : list A) :
  select (select m1 m2) (select m1 l)
  = select (map (fun p => fst p && snd p) (combine m1 m2)) l.
Proof.
  revert m2 l. induction m1 as [|b m1 IH]; intros m2 l.
  - reflexivity.
  - destruct l as [|a l]; [rewrite !select_nil_r; reflexivity|].
    destruct m2 as [|b2 m2]; [reflexivity|].
    cbn [select combine map fst snd]. destruct b; cbn [andb select].
    + destruct b2; rewrite IH; reflexivity.
    + apply IH.
Qed.

Lemma select_as_take (m : list bool) (l : list value) :
  List.length m = List.length l ->
  select m l
  = take VNaN (filter (fun i => nth i m false) (seq 0 (List.length l))) l.
Proof.
  revert l. induction m as [|b m IH]; intros [|a l] H; try discriminate;
    [reflexivity|].
  cbn [select List.length seq]. rewrite <- seq_shift. cbn [filter nth].
  rewrite filter_map_comm. cbn [nth]. unfold take in *.
  destruct b; cbn [map nth]; rewrite map_map; cbn [nth];
    rewrite IH by (cbn in H; lia); reflexivity.
Qed.

Lemma length_select_eq {A B : Type} (m : list bool) (l1 : list A)
  (l2 : list B) :
  List.length l1 = List.length l2 ->
  List.length (select m l1) = List.length (select m l2).
Proof.
  revert l1 l2. induction m as [|b m IH]; intros [|a l1] [|c l2] H;
    try discriminate; try reflexivity.
  cbn. destruct b; cbn; rewrite (IH l1 l2) by (cbn in H; lia); reflexivity.
Qed.

Lemma bool_mask_inv (s : Series) mask :
  bool_mask s = Ok mask ->
  mask = map (fun v => match v with VBool b => b | _ => false end)
             (s_values s).
Proof.
  unfold bool_mask. revert mask.
  induction (s_values s) as [|v vals IH]; intros mask H.
  - inversion H. reflexivity.
  - cbn [mapM] in H. destruct v; try discriminate. cbn [bind] in H.
    destruct (mapM _ vals) as [bs|]; [|discriminate].
    inversion H. cbn. rewrite (IH bs eq_refl). reflexivity.
Qed.

Lemma dict_get_filter_rows mask df n :
  dict_get (df_columns (filter_rows mask df)) n
  = option_map (fun s => mkSeries (s_dtype s) (select mask (s_values s)))
               (dict_get (df_columns df) n).
Proof.
  unfold filter_rows, map_columns. cbn [df_columns].
  apply (dict_get_map_snd
           (fun s => mkSeries (s_dtype s) (select mask (s_values s)))).
Qed.

Lemma masked_all df : wf_frame df = true ->
  masked (map (fun _ => true) (seq 0 (nrows df))) df df.
Proof.
  intros Hwf. split.
  - rewrite select_all; [reflexivity|]. unfold nrows. lia.
  - intros n. destruct (dict_get (df_columns df) n) as [s|] eqn:E;
      [|reflexivity].
    cbn. rewrite select_all; [reflexivity|].
    rewrite (wf_frame_column df n s Hwf E). lia.
Qed.

Lemma masked_filter_rows mask df : masked mask df (filter_rows mask df).
Proof.
  split; [reflexivity|]. intros n. rewrite dict_get_filter_rows.
  destruct (dict_get (df_columns df) n); reflexivity.
Qed.

Lemma masked_trans m1 m2 df df1 df2 :
  masked m1 df df1 -> masked (select m1 m2) df1 df2 ->
  masked (map (fun p => fst p && snd p) (combine m1 m2)) df df2.
Proof.
  intros [A1 A2] [B1 B2]. split.
  - rewrite B1, A1. apply select_select.
  - intros n. rewrite B2. specialize (A2 n).
    destruct (dict_get (df_columns df1) n) as [s1|],
             (dict_get (df_columns df) n) as [s|];
      cbn in *; try discriminate; [|reflexivity].
    inversion A2 as [Hs]. rewrite Hs. rewrite select_select. reflexivity.
Qed.

Lemma map_nth_seq_gen {B : Type} (h : value -> B) (vals : list value) :
  map (fun i => h (nth i vals VNaN)) (seq 0 (List.length vals))
  = map h vals.
Proof.
  induction vals as [|b vals IH]; [reflexivity|].
  cbn [List.length seq map nth]. f_equal.
  rewrite <- seq_shift, map_map. exact IH.
Qed.

Lemma combine_map_same {A : Type} (f g : A -> bool) (l : list A) :
  map (fun p => fst p && snd p) (combine (map f l) (map g l))
  = map (fun i => f i && g i) l.
Proof. induction l as [|a l IH]; cbn; [|rewrite IH]; reflexivity. Qed.

Lemma select_and_length {A : Type} (f g : nat -> bool) (s n : nat)
  (l : list A) :
  List.length (select (map (fun i => f i && g i) (seq s n)) l)
  <= List.length (select (map f (seq s n)) l).
Proof.
  revert s l. induction n as [|n IH]; intros s [|a l]; cbn; try lia.
  specialize (IH (S s) l).
  destruct (f s), (g s); cbn; lia.
Qed.

(** Lines 321-323 seen as a mask over the child rows. *)
Lemma where_masked (where' : option feature) (base0 filtered : DataFrame) :
  wf_frame base0 = true ->
  agg_where where' base0 = Ok filtered ->
  masked (map (where_holds where' base0) (seq 0 (nrows base0)))
         base0 filtered.
Proof.
  intros Hwf H. unfold agg_where in H. destruct where' as [wf|].
  - apply bind_Ok in H. destruct H as [s [Hs H]].
    apply bind_Ok in H. destruct H as [mask [Hm H]].
    inversion H. subst filtered.
    assert (Hmask : map (where_holds (Some wf) base0) (seq 0 (nrows base0))
                    = mask).
    { rewrite (bool_mask_inv s mask Hm). unfold where_holds.
      rewrite (has_column_column_of _ _ _ Hs).
      rewrite <- (wf_frame_column base0 (get_name wf) s Hwf
                    (dict_item_inv _ _ _ Hs)).
      apply (map_nth_seq_gen
               (fun v => match v with VBool b => b | _ => false end)). }
    rewrite Hmask. apply masked_filter_rows.
  - inversion H. subst filtered. apply masked_all. exact Hwf.
Qed.

(** Lines 330-339 (no window, or an absolute one) seen as a mask over the
    child rows that passed the where clause. *)
Lemma window_masked (self : PandasBackend) (child : Entity) (gv : string)
  (up : option Timedelta) (t : time) (where' : option feature)
  (base0 filtered windowed : DataFrame) :
  wf_frame base0 = true ->
  time_last self = Some t ->
  (forall u, up = Some u -> is_absolute u = true) ->
  (forall u ti, up = Some u -> e_time_index child = Some ti ->
                has_column base0 ti = true) ->
  masked (map (where_holds where' base0) (seq 0 (nrows base0)))
         base0 filtered ->
  agg_use_previous self child gv up filtered = Ok windowed ->
  masked (map (fun i => where_holds where' base0 i &&
                        in_time_window t up (e_time_index child) base0 i)
              (seq 0 (nrows base0)))
         base0 windowed.
Proof.
  intros Hwf Ht Habs Hcol Hm H.
  set (wmask := map (where_holds where' base0) (seq 0 (nrows base0))) in *.
  assert (Hplain : (forall i, in_time_window t up (e_time_index child)
                                base0 i = true) ->
                   windowed = filtered ->
                   masked (map (fun i => where_holds where' base0 i &&
                                         in_time_window t up
                                           (e_time_index child) base0 i)
                               (seq 0 (nrows base0)))
                          base0 windowed).
  { intros Hall ->.
    rewrite (map_ext _ (where_holds where' base0)); [exact Hm|].
    intros i. rewrite Hall. apply andb_true_r. }
  unfold agg_use_previous in H. destruct up as [u|].
  2:{ inversion H. apply Hplain; [reflexivity|auto]. }
  destruct (e_time_index child) as [ti|] eqn:Eti.
  2:{ apply Hplain; [reflexivity|].
      destruct (negb (df_empty filtered)); [|inversion H; reflexivity].
      unfold self_time_last in H. rewrite Ht in H. cbn [bind] in H.
      rewrite (Habs u eq_refl) in H. inversion H. reflexivity. }
  pose proof (Hcol u ti eq_refl eq_refl) as Hti.
  unfold has_column, dict_mem in Hti.
  destruct (dict_get (df_columns base0) ti) as [st|] eqn:Est;
    [|discriminate].
  destruct Hm as [M1 M2].
  pose proof (M2 ti) as Mti. rewrite Est in Mti. cbn in Mti.
  destruct (dict_get (df_columns filtered) ti) as [st'|] eqn:Est';
    [|discriminate].
  cbn in Mti. inversion Mti as [Hst'].
  destruct (df_empty filtered) eqn:Ee; cbn [negb] in H.
  - inversion H. subst windowed.
    assert (Hrows : select wmask (df_index base0) = []).
    { unfold df_empty in Ee. apply orb_true_iff in Ee.
      destruct Ee as [Ee|Ee].
      - apply Nat.eqb_eq in Ee. unfold nrows in Ee. rewrite M1 in Ee.
        apply length_zero_iff_nil. exact Ee.
      - apply Nat.eqb_eq in Ee. apply length_zero_iff_nil in Ee.
        rewrite Ee in Est'. discriminate. }
    assert (Hnone : forall (l : list value),
               List.length l = nrows base0 ->
               select (map (fun i => where_holds where' base0 i &&
                                     in_time_window t (Some u) (Some ti)
                                       base0 i)
                           (seq 0 (nrows base0))) l = [] /\
               select wmask l = []).
    { intros l Hl.
      assert (Hw : select wmask l = []).
      { apply length_zero_iff_nil.
        rewrite (length_select_eq wmask l (df_index base0) Hl), Hrows.
        reflexivity. }
      split; [|exact Hw]. apply length_zero_iff_nil.
      pose proof (select_and_length (where_holds where' base0)
                    (in_time_window t (Some u) (Some ti) base0)
                    0 (nrows base0) l) as Hle.
      unfold wmask in Hw. rewrite Hw in Hle.
      apply Nat.le_0_r in Hle. exact Hle. }
    split.
    + rewrite M1. destruct (Hnone (df_index base0) eq_refl) as [-> ->].
      reflexivity.
    + intros n. rewrite (M2 n).
      destruct (dict_get (df_columns base0) n) as [s|] eqn:En;
        [|reflexivity].
      destruct (Hnone (s_values s)
                  (wf_frame_column base0 n s Hwf En)) as [Ha Hb].
      cbn [option_map]. rewrite Hb. f_equal. symmetry. exact Ha.
  - unfold self_time_last in H. rewrite Ht in H. cbn [bind] in H.
    rewrite (Habs u eq_refl) in H.
    unfold get_column, dict_item in H. rewrite Est' in H.
    cbn [bind] in H. inversion H. subst windowed.
    assert (Hmask : map (time_ge (t - td_value u)%Z) (s_values st')
                    = select wmask
                        (map (in_time_window t (Some u) (Some ti) base0)
                             (seq 0 (nrows base0)))).
    { rewrite Hst', select_map. f_equal. unfold in_time_window.
      unfold column_of. rewrite Est.
      rewrite <- (wf_frame_column base0 ti st Hwf Est).
      symmetry. apply (map_nth_seq_gen (time_ge (t - td_value u)%Z)). }
    rewrite Hmask.
    rewrite <- (combine_map_same (where_holds where' base0)
                  (in_time_window t (Some u) (Some ti) base0)).
    apply masked_trans with (df1 := filtered).
    + split; assumption.
    + apply masked_filter_rows.
Qed.

(** X18.  The child rows the aggregates of a group see, when the group's
    first feature has no window or an absolute one: they are the rows of
    the child table, in order, where the where feature's cell is [True]
    (all rows without where clause) and whose time-index cell is a time
    not before the cutoff minus the window's duration (all rows without
    window or without time index).  Row labels and every column are cut
    to these rows; the where clause and the window are those of the first
    feature of the group, for all its features. *)
Theorem child_rows_seen_by_aggregates (ext : Externals)
  (self : PandasBackend) (feats : list feature)
  (entity_frames : entity_frames_t) (w w1 : world) (c : agg_locals)
  (test bf0 : feature) (bloc : nat) (base0 : DataFrame) (t : time) :
  agg_setup ext self feats entity_frames w = Ok (Some c, w1) ->
  hd_error feats = Some test ->
  hd_error (base_features test) = Some bf0 ->
  dict_get entity_frames (e_id (entity bf0)) = Some bloc ->
  nth_error (heap w) bloc = Some base0 ->
  wf_frame base0 = true ->
  time_last self = Some t ->
  (forall u, use_previous test = Some u -> is_absolute u = true) ->
  (forall u ti, use_previous test = Some u ->
                e_time_index (entity bf0) = Some ti ->
                has_column base0 ti = true) ->
  let kept :=
    filter (fun i => where_holds (where_ test) base0 i &&
                     in_time_window t (use_previous test)
                       (e_time_index (entity bf0)) base0 i)
           (seq 0 (nrows base0)) in
  df_index (l_base_frame c) = take VNaN kept (df_index base0) /\
  (forall n s, dict_get (df_columns base0) n = Some s ->
     s_values (column_of (l_base_frame c) n)
     = take VNaN kept (s_values s)) /\
  (forall n, has_column (l_base_frame c) n = has_column base0 n).
Proof.
  intros Hsetup Hhd Hbf Hbloc Hbase Hwf Ht Habs Hcol kept.
  destruct (agg_setup_inv _ _ _ _ _ _ _ Hsetup)
    as (test' & bf0' & bloc' & base0' & filtered & path & Hhd' & Hbf' & _ &
        _ & _ & _ & Hbloc' & Hbase' & _ & _ & Hwhere & _ & _ & Hwin & _).
  rewrite Hhd in Hhd'. inversion Hhd'. subst test'.
  rewrite Hbf in Hbf'. inversion Hbf'. subst bf0'.
  rewrite Hbloc in Hbloc'. inversion Hbloc'. subst bloc'.
  rewrite Hbase in Hbase'. inversion Hbase'. subst base0'.
  pose proof (where_masked _ _ _ Hwf Hwhere) as Hm.
  pose proof (window_masked self (entity bf0) (l_groupby_var c)
                (use_previous test) t (where_ test) base0 filtered
                (l_base_frame c) Hwf Ht Habs Hcol Hm Hwin) as [F1 F2].
  set (fmask := map (fun i => where_holds (where_ test) base0 i &&
                              in_time_window t (use_previous test)
                                (e_time_index (entity bf0)) base0 i)
                    (seq 0 (nrows base0))) in *.
  assert (Hlen : List.length fmask = nrows base0)
    by (unfold fmask; rewrite length_map, length_seq; reflexivity).
  assert (Hkept : forall l : list value,
             List.length l = nrows base0 ->
             select fmask l = take VNaN kept l).
  { intros l Hl. rewrite select_as_take by congruence.
    f_equal. rewrite Hl. unfold kept. apply filter_ext_in.
    intros i Hi. apply in_seq in Hi. unfold fmask.
    rewrite (nth_map_in _ _ i 0 false)
      by (rewrite length_seq; lia).
    rewrite seq_nth by lia. reflexivity. }
  split; [|split].
  - rewrite F1. apply Hkept. reflexivity.
  - intros n s Hs. unfold column_of. pose proof (F2 n) as Hn.
    rewrite Hs in Hn. cbn in Hn.
    destruct (dict_get (df_columns (l_base_frame c)) n) as [s'|];
      [|discriminate].
    cbn in Hn. inversion Hn as [Hv]. rewrite Hv.
    apply Hkept. apply (wf_frame_column base0 n s Hwf Hs).
  - intros n. unfold has_column, dict_mem. pose proof (F2 n) as Hn.
    destruct (dict_get (df_columns (l_base_frame c)) n),
             (dict_get (df_columns base0) n);
      cbn in Hn; try discriminate; reflexivity.
Qed.


Lemma child_rows_seen_by_aggregates_witness :
  exists c w1,
    agg_setup Shop.ext Shop.running_backend [Shop.recent_big_count]
        Shop.frames (Shop.world_of Shop.orders_df Shop.flagged_items_df)
      = Ok (Some c, w1) /\
    df_index (l_base_frame c) = [VInt 10; VInt 13] /\
    s_values (column_of (l_base_frame c) "order_id") = [VInt 1; VInt 2].
Proof.
  assert (Habs : forall u, use_previous Shop.recent_big_count = Some u ->
                           is_absolute u = true).
  { intros u H. inversion H. reflexivity. }
  assert (Hcol : forall u ti,
             use_previous Shop.recent_big_count = Some u ->
             e_time_index (entity (Shop.identity Shop.items "item_id"))
             = Some ti ->
             has_column Shop.flagged_items_df ti = true).
  { intros u ti _ H. inversion H. reflexivity. }
  pose proof (child_rows_seen_by_aggregates Shop.ext Shop.running_backend
                [Shop.recent_big_count] Shop.frames
                (Shop.world_of Shop.orders_df Shop.flagged_items_df) _ _
                Shop.recent_big_count (Shop.identity Shop.items "item_id")
                1 Shop.flagged_items_df 10%Z
                eq_refl eq_refl eq_refl eq_refl eq_refl eq_refl eq_refl
                Habs Hcol) as [H1 [H2 _]].
  eexists. eexists. split; [vm_compute; reflexivity|]. split.
  - etransitivity; [exact H1|reflexivity].
  - etransitivity; [exact (H2 "order_id" _ eq_refl)|reflexivity].
Defined.


(* ================================================================= *)
(** ** Aggregation: features applied group by group (lines 406-418) *)

(** A flag [False] means some child row is linked: there is a group. *)
Lemma related_links ext ent child gv frame base :
  agg_no_instances ext ent child gv frame base = Ok (Some false) ->
  group_keys (s_values (column_of base gv)) <> [].
Proof.
  intros H.
  assert (Hrel : exists fi,
             check_no_related_instances (s_values fi)
               (s_values (column_of base gv)) = false).
  { unfold agg_no_instances in H.
    destruct (df_empty base); cbn [negb] in H; [discriminate|].
    destruct (has_column base gv) eqn:Hgv; cbn [negb] in H;
      [|discriminate].
    destruct (get_column frame (e_index ent)) as [fi|]; [|discriminate].
    rewrite (get_column_column_of _ _ Hgv) in H. cbn [bind] in H.
    exists fi.
    destruct (negb (dtype_eqb (s_dtype fi) (s_dtype (column_of base gv)))
              || is_category (s_dtype fi)).
    - unfold astype_object in H.
      destruct (astype_object_rejects ext fi); [discriminate|].
      destruct (astype_object_rejects ext (column_of base gv));
        [discriminate|].
      cbn in H. inversion H as [Hc]. rewrite Hc. reflexivity.
    - inversion H as [Hc]. rewrite Hc. reflexivity. }
  destruct Hrel as [fi Hrel].
  rewrite check_no_related_instances_spec, negb_false_iff in Hrel.
  apply related_iff in Hrel. destruct Hrel as [a [b [_ [Hb Hab]]]].
  assert (Hbb : py_eq b b = true).
  { apply (py_eq_trans b a b); [|exact Hab].
    rewrite py_eq_sym. exact Hab. }
  destruct (In_nth _ _ VNaN Hb) as [p [Hp Hnth]].
  rewrite <- Hnth in Hbb at 1.
  pose proof (group_keys_cover _ b p Hp Hbb) as Hcov.
  intros Hnil. rewrite Hnil in Hcov. cbn in Hcov. lia.
Qed.

Lemma feature_eqb_name f g :
  feature_eqb f g = true -> get_name f = get_name g.
Proof.
  unfold feature_eqb. intros H. apply andb_true_iff in H.
  apply String.eqb_eq. exact (proj1 H).
Qed.

(** The buckets of features none of which is simple-aggregable: all are
    applied, in order, and no UUID is drawn. *)
Lemma partition_complex ext (fs : list feature) :
  forall b w,
    (forall f, In f fs -> f_class f = AggregationPrimitive /\
                          simple_aggregable f = false) ->
    NoDup (map get_name (to_apply b ++ fs)) ->
    foldW (agg_partition_step ext) fs b w
    = Ok (mkBuckets (to_agg b) (agg_rename b) (to_apply b ++ fs), w).
Proof.
  induction fs as [|f fs IH]; intros b w Hall Hnd.
  - cbn [foldW ret]. rewrite app_nil_r. destruct b; reflexivity.
  - cbn [foldW]. unfold agg_partition_step at 1.
    destruct (Hall f (or_introl eq_refl)) as [Hc Hs].
    unfold bindM at 1.
    rewrite (bindM_step _ _ w _ w (lift_Ok _ w _ (can_agg_spec f Hc))), Hs.
    assert (Hnew : existsb (feature_eqb f) (to_apply b) = false).
    { destruct (existsb (feature_eqb f) (to_apply b)) eqn:E;
        [|reflexivity].
      exfalso. apply existsb_exists in E. destruct E as [g [Hg Hfg]].
      apply feature_eqb_name in Hfg.
      rewrite map_app in Hnd. cbn [map] in Hnd.
      apply NoDup_remove_2 in Hnd. apply Hnd. apply in_or_app. left.
      rewrite Hfg. apply in_map. exact Hg. }
    rewrite Hnew. cbn [ret].
    rewrite IH.
    + cbn [to_agg agg_rename to_apply]. rewrite <- app_assoc.
      reflexivity.
    + intros g Hg. apply Hall. right. exact Hg.
    + cbn [to_apply]. rewrite <- app_assoc. exact Hnd.
Qed.


Lemma agg_wrapper_table (feats : list feature) (t_last : time)
  (df : DataFrame) :
  NoDup (map get_name feats) ->
  (forall f bf, In f feats -> In bf (base_features f) ->
                has_column df (get_name bf) = true) ->
  agg_wrapper feats t_last df
  = Ok (mkDataFrame None [VInt 0]
          (map (fun f => (get_name f,
                          series_of_list [group_cell_of t_last df f]))
               feats)).
Proof.
  intros Hnd Hcols. unfold agg_wrapper.
  match goal with
  | |- bind ?r _ = _ =>
      assert (Hr : r = Ok (map (fun f => (get_name f,
                                          group_cell_of t_last df f))
                               feats))
        by (apply (agg_wrapper_fold t_last df feats Hcols Hnd []);
            reflexivity);
      rewrite Hr
  end.
  cbn [bind]. rewrite map_map. reflexivity.
Qed.

Lemma has_column_group_frame links k df n :
  has_column (group_frame links k df) n = has_column df n.
Proof.
  apply has_column_same_keys. unfold group_frame, take_rows.
  cbn [df_columns]. apply dict_keys_map_columns.
Qed.

Lemma dict_get_named {V : Type} (G : feature -> V) (fs : list feature) f :
  NoDup (map get_name fs) -> In f fs ->
  dict_get (map (fun g => (get_name g, G g)) fs) (get_name f) = Some (G f).
Proof.
  induction fs as [|g fs IH]; intros Hnd Hin; [contradiction|].
  cbn [map dict_get]. inversion Hnd as [|x l Hx Hnd']. subst x l.
  destruct Hin as [->|Hin].
  - rewrite String.eqb_refl. reflexivity.
  - destruct (String.eqb (get_name f) (get_name g)) eqn:E.
    + apply String.eqb_eq in E. exfalso. apply Hx. rewrite <- E.
      apply in_map. exact Hin.
    + apply IH; assumption.
Qed.

(** One more group stacked under the results so far. *)
Lemma applied_rows_step (fs : list feature)
  (cell : value -> feature -> value) (ks : list value) (acc : DataFrame)
  (k : value) :
  NoDup (map get_name fs) ->
  applied_rows fs cell ks acc ->
  applied_rows fs cell (ks ++ [k])
    (append acc
       (mkDataFrame None [VSeq [k; VInt 0]]
          (map (fun f => (get_name f, series_of_list [cell k f])) fs))).
Proof.
  intros Hnd [I1 [I2 I3]].
  set (cols := map (fun f => (get_name f, series_of_list [cell k f])) fs).
  assert (Hkeys : dict_keys cols = map get_name fs).
  { unfold cols, dict_keys. rewrite map_map. reflexivity. }
  split; [|split].
  - unfold append. cbn [df_index]. rewrite I1, map_app. reflexivity.
  - intros H. destruct ks; discriminate.
  - intros _. destruct ks as [|k0 ks'].
    + pose proof (I2 eq_refl) as Hempty.
      assert (Hall : filter (fun c : string * Series =>
                               negb (has_column acc (fst c))) cols = cols).
      { apply forallb_filter_id. apply forallb_forall. intros c _.
        unfold has_column, dict_mem. rewrite Hempty. reflexivity. }
      unfold append. cbn [df_columns]. rewrite Hempty, Hall.
      cbn [map app]. split.
      * unfold dict_keys. rewrite map_map. cbn [fst]. exact Hkeys.
      * intros f Hf. unfold column_of. cbn [df_columns].
        rewrite (dict_get_map_snd
                   (fun s => joined_series (absent_series (nrows acc)) s)).
        unfold cols.
        rewrite (dict_get_named (fun f => series_of_list [cell k f])
                   fs f Hnd Hf).
        cbn [option_map]. unfold nrows. rewrite I1. reflexivity.
    + destruct (I3 ltac:(discriminate)) as [K1 K2].
      assert (Hnone : filter (fun c : string * Series =>
                                negb (has_column acc (fst c))) cols = []).
      { apply filter_none. intros c Hc.
        apply negb_false_iff. apply dict_mem_iff. rewrite K1, <- Hkeys.
        apply in_map. exact Hc. }
      unfold append. cbn [df_columns]. rewrite Hnone.
      cbn [map]. rewrite app_nil_r. split.
      * unfold dict_keys. rewrite map_map. cbn [fst]. exact K1.
      * intros f Hf. unfold column_of at 1. cbn [df_columns nrows df_index].
        rewrite (dict_get_map_keyed
                   (fun n s =>
                      joined_series s
                        (match dict_get cols n with
                         | Some s' => s'
                         | None => absent_series
                                     (List.length [VSeq [k; VInt 0]])
                         end))).
        assert (Hin : In (get_name f) (dict_keys (df_columns acc)))
          by (rewrite K1; apply in_map; exact Hf).
        destruct (In_keys_dict_get _ _ Hin) as [s Hs].
        rewrite Hs. cbn [option_map]. unfold cols.
        rewrite (dict_get_named (fun f => series_of_list [cell k f])
                   fs f Hnd Hf).
        cbn [joined_series s_values series_of_list].
        rewrite map_app, <- (K2 f Hf). unfold column_of. rewrite Hs.
        reflexivity.
Qed.


(** [groupby(...).apply(wrap)] for the function [agg_wrapper] builds. *)
Lemma groupby_apply_rows (fs : list feature) (t_last : time)
  (links : list value) (base : DataFrame) :
  NoDup (map get_name fs) ->
  (forall f bf, In f fs -> In bf (base_features f) ->
                has_column base (get_name bf) = true) ->
  forall ks seen acc,
    applied_rows fs
      (fun k f => group_cell_of t_last (group_frame links k base) f)
      seen acc ->
    exists r,
      foldM (fun acc k =>
               g <- agg_wrapper fs t_last (group_frame links k base) ;;
               Ok (append acc
                     (mkDataFrame None
                        (map (fun l => VSeq [k; l]) (df_index g))
                        (df_columns g))))
            ks acc = Ok r /\
      applied_rows fs
        (fun k f => group_cell_of t_last (group_frame links k base) f)
        (seen ++ ks) r.
Proof.
  intros Hnd Hcols. induction ks as [|k ks IH]; intros seen acc Hinv.
  - exists acc. rewrite app_nil_r. split; [reflexivity|exact Hinv].
  - cbn [foldM].
    rewrite (agg_wrapper_table fs t_last (group_frame links k base) Hnd).
    2:{ intros f bf Hf Hbf. rewrite has_column_group_frame.
        apply (Hcols f bf Hf Hbf). }
    cbn [bind df_index df_columns map].
    destruct (IH (seen ++ [k]) _
                (applied_rows_step fs _ seen acc k Hnd Hinv))
      as [r [Hr Hinv']].
    exists r. split; [exact Hr|].
    rewrite <- app_assoc in Hinv'. exact Hinv'.
Qed.

Lemma reset_applied_rows (fs : list feature)
  (cell : value -> feature -> value) (ks : list value) (df : DataFrame) :
  applied_rows fs cell ks df ->
  reset_index_level1 df = Ok (mkDataFrame None ks (df_columns df)).
Proof.
  intros [I1 _]. unfold reset_index_level1. rewrite I1.
  assert (Hm : mapM (fun l => match l with
                              | VSeq [k; _] => Ok k
                              | _ => Err (IndexError "Too many levels")
                              end)
                    (map (fun k => VSeq [k; VInt 0]) ks) = Ok ks).
  { clear I1. induction ks as [|k ks IH]; [reflexivity|].
    cbn [map mapM bind]. rewrite IH. reflexivity. }
  rewrite Hm. reflexivity.
Qed.

(** X19.  The aggregation calculator on its main path, when none of the
    features left to compute is simple-aggregable (several base features,
    a time-aware function, an expanding feature).  With a child table
    that has rows related to the parent table, the features are applied
    group by group: the calculator binds the parent entity to a new table
    with the parent's rows, labels and columns, and one more column under
    each feature's name.  In the row of a parent whose key equals the
    link of some child rows, the new cell is the feature's function
    applied to all its base columns cut to those rows, in row order, with
    the cutoff time as keyword when the feature is time-aware; in the row
    of a parent without child rows, and wherever the function returned a
    missing value, it is the feature's default value.  A column holds
    these cells as they are, or read as floats when the feature is
    numeric and pandas held the column as objects or booleans.  No UUID
    is drawn; the old parent table object is left as it was. *)
Theorem applied_aggregate_values (ext : Externals) (self : PandasBackend)
  (feats : list feature) (entity_frames : entity_frames_t) (w w1 : world)
  (c : agg_locals) (t : time) :
  agg_setup ext self feats entity_frames w = Ok (Some c, w1) ->
  l_features c <> [] ->
  NoDup (map get_name (l_features c)) ->
  (forall f, In f (l_features c) ->
     f_class f = AggregationPrimitive /\ simple_aggregable f = false) ->
  agg_no_instances ext (l_entity c) (l_child_entity c) (l_groupby_var c)
      (l_frame c) (l_base_frame c) = Ok (Some false) ->
  time_last self = Some t ->
  (forall f bf, In f (l_features c) -> In bf (base_features f) ->
     has_column (l_base_frame c) (get_name bf) = true) ->
  wf_frame (l_frame c) = true ->
  ((exists f, In f (l_features c) /\ has_iter (default_value f) = true) ->
   distinct_labels (df_index (l_frame c))) ->
  (forall f, In f (l_features c) -> is_numeric (variable_type f) = true ->
     floatable (default_value f) = true /\
     forall args kw, floatable (get_function f args kw) = true) ->
  let links := s_values (column_of (l_base_frame c) (l_groupby_var c)) in
  let keys := s_values (column_of (l_frame c) (e_index (l_entity c))) in
  exists new_frame,
    _calculate_agg_features ext self feats entity_frames w
      = Ok (dict_set entity_frames (e_id (l_entity c))
                     (List.length (heap w)),
            mkWorld (heap w ++ [new_frame]) (uuid_count w)) /\
    df_index new_frame = df_index (l_frame c) /\
    (forall f, In f (l_features c) ->
       let expected :=
         filled (default_value f)
                (map (apply_cell t f links (l_base_frame c)) keys) in
       s_values (column_of new_frame (get_name f)) = expected \/
       s_values (column_of new_frame (get_name f))
       = map as_float expected) /\
    (forall n, has_column (l_frame c) n = true ->
               get_column new_frame n = get_column (l_frame c) n).
Proof.
  intros Hsetup Hsome Hnd Hall Hflag Ht Hcols Hwf Hlab Hfloat links keys.
  destruct (agg_setup_reads _ _ _ _ _ _ _ Hsetup) as [-> [Hloc Hfeats]].
  destruct (no_instances_false_inv _ _ _ _ _ _ Hflag) as [He [Hgv Hidx]].
  pose proof (related_links _ _ _ _ _ _ Hflag) as Hgroups.
  fold links in Hgroups.
  assert (Hno : forall f, In f (l_features c) ->
                          has_column (l_frame c) (get_name f) = false).
  { intros f Hin. rewrite Hfeats in Hin.
    apply filter_In in Hin. destruct Hin as [_ Hin].
    apply negb_true_iff in Hin. exact Hin. }
  clear Hfeats.
  set (fs := l_features c) in *.
  set (base := l_base_frame c) in *.
  set (cell := fun k f => group_cell_of t (group_frame links k base) f).
  pose proof (get_column_column_of _ _ Hgv) as Hlinks.
  pose proof (get_column_column_of _ _ Hidx) as Hkeys.
  (* the groups' results, stacked *)
  destruct (groupby_apply_rows fs t links base Hnd Hcols
              (group_keys links) [] (mkDataFrame None [] []))
    as [stacked [Hstacked Hrows]].
  { split; [reflexivity|]. split; [reflexivity|].
    intros H. contradiction. }
  cbn [app] in Hrows.
  pose proof (reset_applied_rows _ _ _ _ Hrows) as Hreset.
  destruct Hrows as [_ [_ Hrows]].
  destruct (Hrows Hgroups) as [R1 R2].
  set (right := mkDataFrame None (group_keys links) (df_columns stacked))
    in *.
  (* joined onto the parent table *)
  destruct (left_merge_values (e_index (l_entity c)) (l_frame c) right
              links _ Hkeys eq_refl)
    as [frame1 [M1 [M2 [M3 [M4 M5]]]]].
  { intros k Hk1 Hk2. cbn [right df_columns] in Hk2. rewrite R1 in Hk2.
    apply in_map_iff in Hk2. destruct Hk2 as [f [<- Hf]].
    pose proof (Hno f Hf) as Hn. unfold has_column in Hn.
    rewrite (dict_mem_In _ _ Hk1) in Hn. discriminate. }
  { exact Hwf. }
  assert (Hv1 : forall f, In f fs ->
             has_column frame1 (get_name f) = true /\
             s_values (column_of frame1 (get_name f))
             = map (apply_cell t f links base) keys).
  { intros f Hf.
    assert (Hin : In (get_name f) (dict_keys (df_columns stacked)))
      by (rewrite R1; apply in_map; exact Hf).
    destruct (In_keys_dict_get _ _ Hin) as [s Hs].
    destruct (M4 (get_name f) s Hs) as [s1 [Hs1 Hval]].
    split; [unfold has_column, dict_mem; rewrite Hs1; reflexivity|].
    unfold column_of at 1. rewrite Hs1, Hval.
    pose proof (R2 f Hf) as Hcell. unfold column_of in Hcell.
    rewrite Hs in Hcell. rewrite Hcell.
    apply map_ext. intros key.
    assert (Hh : forall g k,
               group_positions links g = group_positions links k ->
               cell g f = cell k f).
    { intros g k Hgk. unfold cell, group_frame. rewrite Hgk.
      reflexivity. }
    exact (joined_apply_cell (fun k => cell k f) links key Hh). }
  assert (Hc1 : forall g, In g fs -> has_column frame1 (get_name g) = true)
    by (intros g Hg; apply (Hv1 g Hg)).
  destruct (agg_fill_defaults_spec fs frame1 Hnd Hc1 M3)
    as [frame2 [F1 [F2 [F3 [F4 F5]]]]].
  { intros Hiter. rewrite M2. apply Hlab. exact Hiter. }
  assert (Hv2 : forall f, In f fs ->
             s_values (column_of frame2 (get_name f))
             = filled (default_value f)
                      (map (apply_cell t f links base) keys)).
  { intros f Hf. rewrite (F4 f Hf), (proj2 (Hv1 f Hf)). reflexivity. }
  assert (Hc2 : forall g, In g fs -> has_column frame2 (get_name g) = true).
  { intros g Hg. rewrite (has_column_same_keys frame1 frame2 _ F3).
    apply Hc1. exact Hg. }
  destruct (float_fold_ok ext fs frame2 Hnd Hc2)
    as [frame3 [G1 [G2 [G3 [G4 G5]]]]].
  { intros g Hg Hneed. rewrite (Hv2 g Hg). unfold needs_float in Hneed.
    apply andb_true_iff in Hneed. destruct Hneed as [Hneed _].
    apply andb_true_iff in Hneed. destruct Hneed as [_ Hnum].
    destruct (Hfloat g Hg Hnum) as [Hd Hfun].
    apply forallb_filled; [exact Hd|].
    intros x Hx _. apply in_map_iff in Hx. destruct Hx as [k [<- _]].
    unfold apply_cell, group_cell_of.
    destruct (existsb _ links); [apply Hfun|reflexivity]. }
  assert (Hlen : Nat.eqb (List.length fs) 0 = false).
  { destruct fs; [contradiction|reflexivity]. }
  exists frame3. split; [|split; [congruence|split]].
  - unfold _calculate_agg_features.
    rewrite (bindM_step _ _ _ _ _ Hsetup).
    rewrite (bindM_step _ _ _ _ _ (lift_Ok _ w _ Hflag)).
    assert (Hnodata : agg_no_data (l_base_frame c) (Some false) = Ok false)
      by (unfold agg_no_data; fold base; rewrite He; reflexivity).
    rewrite (bindM_step _ _ _ _ _ (lift_Ok _ w _ Hnodata)).
    unfold agg_compute, agg_partition. fold fs. fold base.
    rewrite (bindM_step _ _ _ _ _
               (partition_complex ext fs (mkBuckets [] [] []) w Hall Hnd)).
    cbn [to_agg agg_rename to_apply app].
    assert (Happly : agg_apply_bucket self (mkBuckets [] [] fs)
                       (e_index (l_entity c)) (l_groupby_var c)
                       (l_frame c) base = Ok frame1).
    { unfold agg_apply_bucket, self_time_last, groupby_apply.
      cbn [to_apply]. rewrite Hlen, Ht. cbn [negb bind].
      rewrite Hlinks. cbn [bind]. fold links.
      rewrite Hstacked. cbn [bind]. rewrite Hreset. cbn [bind].
      exact M1. }
    rewrite (bindM_step _ _ _ _ _ (lift_Ok _ _ _ Happly)).
    assert (Hagg : agg_agg_bucket (mkBuckets [] [] fs)
                     (e_index (l_entity c)) (l_groupby_var c) frame1 base
                   = Ok frame1) by reflexivity.
    rewrite (bindM_step _ _ _ _ _ (lift_Ok _ _ _ Hagg)).
    rewrite (bindM_step _ _ _ _ _ (lift_Ok _ _ _ F1)).
    rewrite (bindM_step _ _ _ _ _ (lift_Ok _ _ _ G1)).
    cbn [to_apply to_agg]. rewrite Hlen. reflexivity.
  - intros f Hf expected. rewrite (G4 f Hf).
    destruct (needs_float frame2 f); cbn [s_values].
    + right. rewrite (Hv2 f Hf). reflexivity.
    + left. exact (Hv2 f Hf).
  - intros n Hn.
    assert (Hne : ~ In n (map get_name fs)).
    { intros Hin. apply in_map_iff in Hin. destruct Hin as [f [<- Hf]].
      rewrite (Hno f Hf) in Hn. discriminate. }
    rewrite (G5 n Hne), (F5 n Hne).
    unfold has_column, dict_mem in Hn. unfold get_column, dict_item.
    destruct (dict_get (df_columns (l_frame c)) n) as [s|] eqn:En;
      [|discriminate].
    rewrite (M5 n s En). reflexivity.
Qed.


Lemma applied_aggregate_values_witness :
  exists new_frame,
    _calculate_agg_features Shop.ext Shop.running_backend
        [Shop.time_since_last] Shop.frames
        (Shop.world_of Shop.orders_df Shop.items_df)
      = Ok (dict_set Shop.frames "orders" 2,
            mkWorld [Shop.orders_df; Shop.items_df; new_frame] 0) /\
    df_index new_frame = [VInt 1; VInt 2; VInt 3] /\
    (s_values (column_of new_frame "TIME_SINCE_LAST(order_items.time)")
       = [VInt 4; VInt 3; VNaN] \/
     s_values (column_of new_frame "TIME_SINCE_LAST(order_items.time)")
       = [VFloat 4; VFloat 3; VNaN]).
Proof.
  destruct (applied_aggregate_values Shop.ext Shop.running_backend
              [Shop.time_since_last] Shop.frames
              (Shop.world_of Shop.orders_df Shop.items_df) _ _ 10%Z
              eq_refl)
    as [new_frame [H1 [H2 [H3 _]]]].
  - discriminate.
  - cbn. constructor; [intros []|constructor].
  - intros f [<-|[]]. split; reflexivity.
  - reflexivity.
  - reflexivity.
  - intros f bf [<-|[]] [<-|[]]. reflexivity.
  - reflexivity.
  - intros [f [[<-|[]] H]]. discriminate.
  - intros f [<-|[]] _. split; [reflexivity|].
    intros args kw. cbn [get_function Shop.time_since_last].
    unfold Shop.time_since.
    destruct kw; [destruct (last (hd [] args) VNaN)|]; reflexivity.
  - exists new_frame. split; [exact H1|]. split; [exact H2|].
    exact (H3 Shop.time_since_last (or_introl eq_refl)).
Defined.


(* ================================================================= *)
(** * The tables through the orchestrator's loop (lines 108-166)

    What every calculator leaves of the tables it finds: their rows, their
    columns and the cells of the columns that are not feature columns.
    The finished table of the target entity is therefore the table the
    slice provider handed out, with the feature columns added. *)

Section Extending.

Variable names : list string.

Lemma extends_refl T : extends names T T.
Proof. repeat split; auto. Qed.

Lemma extends_trans T1 T2 T3 :
  extends names T1 T2 -> extends names T2 T3 -> extends names T1 T3.
Proof.
  intros [A1 [A2 [A3 [A4 A5]]]] [B1 [B2 [B3 [B4 B5]]]].
  split; [congruence|]. split; [auto|]. split; [auto|]. split.
  - intros n Hn. destruct (B4 n Hn) as [H|H]; [apply A4; exact H|].
    right. exact H.
  - intros n Hn H1. rewrite (B5 n Hn (A3 n H1)). apply A5; assumption.
Qed.

Lemma world_extends_refl w : world_extends names w w.
Proof.
  split; [lia|]. split.
  - intros l T H. exists T. split; [exact H|apply extends_refl].
  - intros l T H. exists l, T. split; [exact H|apply extends_refl].
Qed.

Lemma world_extends_trans w1 w2 w3 :
  world_extends names w1 w2 -> world_extends names w2 w3 ->
  world_extends names w1 w3.
Proof.
  intros [A1 [A2 A3]] [B1 [B2 B3]]. split; [lia|]. split.
  - intros l T H. destruct (A2 l T H) as [T2 [H2 E2]].
    destruct (B2 l T2 H2) as [T3 [H3 E3]].
    exists T3. split; [exact H3|]. eapply extends_trans; eassumption.
  - intros l T3 H. destruct (B3 l T3 H) as [l2 [T2 [H2 E2]]].
    destruct (A3 l2 T2 H2) as [l1 [T1 [H1 E1]]].
    exists l1, T1. split; [exact H1|]. eapply extends_trans; eassumption.
Qed.

(** A table object extended in place. *)
Lemma world_extends_write w loc T T' :
  nth_error (heap w) loc = Some T -> extends names T T' ->
  world_extends names w (with_table w loc T').
Proof.
  intros Hloc Hext. split; [cbn; lia|]. split.
  - intros l X Hl. destruct (Nat.eq_dec l loc) as [->|Hne].
    + rewrite Hloc in Hl. inversion Hl. subst X. exists T'.
      split; [apply (nth_error_with_table_same w loc T' T Hloc)|exact Hext].
    + exists X. rewrite nth_error_with_table by exact Hne.
      split; [exact Hl|apply extends_refl].
  - intros l X Hl. destruct (Nat.eq_dec l loc) as [->|Hne].
    + rewrite (nth_error_with_table_same w loc T' T Hloc) in Hl.
      inversion Hl. subst X. exists loc, T. split; assumption.
    + rewrite nth_error_with_table in Hl by exact Hne.
      exists l, X. split; [exact Hl|apply extends_refl].
Qed.

(** A new table that extends one of the store. *)
Lemma world_extends_alloc w l0 T T' u :
  nth_error (heap w) l0 = Some T -> extends names T T' ->
  uuid_count w <= u ->
  world_extends names w (mkWorld (heap w ++ [T']) u).
Proof.
  intros Hl0 Hext Hu. split; [exact Hu|]. split; cbn [heap].
  - intros l X Hl. exists X. split; [|apply extends_refl].
    rewrite nth_error_app1; [exact Hl|].
    apply nth_error_Some. congruence.
  - intros l X Hl. destruct (Nat.lt_ge_cases l (List.length (heap w)))
      as [Hlt|Hge].
    + rewrite nth_error_app1 in Hl by exact Hlt.
      exists l, X. split; [exact Hl|apply extends_refl].
    + rewrite nth_error_app2 in Hl by exact Hge.
      destruct (l - List.length (heap w)) as [|k]; cbn in Hl.
      * inversion Hl. subst X. exists l0, T. split; assumption.
      * destruct k; discriminate.
Qed.

(** Only UUIDs were drawn. *)
Lemma world_extends_count w u :
  uuid_count w <= u -> world_extends names w (mkWorld (heap w) u).
Proof.
  intros Hu. split; [exact Hu|]. split; cbn [heap].
  - intros l T H. exists T. split; [exact H|apply extends_refl].
  - intros l T H. exists l, T. split; [exact H|apply extends_refl].
Qed.

(** A table that extends a sound one is sound, when no key column is
    among [names]. *)
Lemma extends_sound (keys : list string) T T' :
  (forall n, In n keys -> ~ In n names) ->
  extends names T T' ->
  wf_frame T = true /\
  (forall n, In n keys -> has_column T n = true ->
             unique_cells (s_values (column_of T n))) ->
  wf_frame T' = true /\
  (forall n, In n keys -> has_column T' n = true ->
             unique_cells (s_values (column_of T' n))).
Proof.
  intros Hdisj [E1 [E2 [E3 [E4 E5]]]] [Hwf Hk].
  split; [apply E2; exact Hwf|].
  intros n Hn Hc.
  assert (Hc0 : has_column T n = true).
  { destruct (E4 n Hc) as [H|H]; [exact H|].
    exfalso. exact (Hdisj n Hn H). }
  rewrite (E5 n (Hdisj n Hn) Hc0). apply Hk; assumption.
Qed.

Lemma sound_frames_extends K ef w w' :
  (forall e n, In n (K e) -> ~ In n names) ->
  sound_frames K ef w -> world_extends names w w' -> sound_frames K ef w'.
Proof.
  intros Hdisj Hs [_ [Hfw _]] e loc Hloc.
  destruct (Hs e loc Hloc) as [T [E HT]].
  destruct (Hfw loc T E) as [T' [H1 Hext]].
  exists T'. split; [exact H1|].
  exact (extends_sound (K e) T T' (Hdisj e) Hext HT).
Qed.

End Extending.

Lemma extends_mono names names' T T' :
  incl names names' -> extends names T T' -> extends names' T T'.
Proof.
  intros Hi [A1 [A2 [A3 [A4 A5]]]].
  split; [exact A1|]. split; [exact A2|]. split; [exact A3|]. split.
  - intros n Hn. destruct (A4 n Hn) as [H|H]; [left; exact H|].
    right. apply Hi. exact H.
  - intros n Hn. apply A5. intros H. apply Hn. apply Hi. exact H.
Qed.

Lemma world_extends_mono names names' w w' :
  incl names names' -> world_extends names w w' ->
  world_extends names' w w'.
Proof.
  intros Hi [A1 [A2 A3]]. split; [exact A1|]. split.
  - intros l T H. destruct (A2 l T H) as [T' [H1 H2]].
    exists T'. split; [exact H1|]. eapply extends_mono; eassumption.
  - intros l T' H. destruct (A3 l T' H) as [l0 [T [H1 H2]]].
    exists l0, T. split; [exact H1|]. eapply extends_mono; eassumption.
Qed.


Lemma get_column_eq_has df df' n :
  get_column df' n = get_column df n -> has_column df' n = has_column df n.
Proof.
  unfold get_column, dict_item, has_column, dict_mem.
  destruct (dict_get (df_columns df') n), (dict_get (df_columns df) n);
    intros H; try reflexivity; discriminate.
Qed.

(** A table that kept its rows and changed columns named in [names]
    only. *)
Lemma extends_of_columns names T T' :
  df_index T' = df_index T ->
  (wf_frame T = true -> wf_frame T' = true) ->
  (forall n, ~ In n names -> get_column T' n = get_column T n) ->
  (forall n, In n names -> has_column T n = true ->
             has_column T' n = true) ->
  extends names T T'.
Proof.
  intros Hidx Hwf Hother Hold. split; [exact Hidx|].
  split; [exact Hwf|]. split; [|split].
  - intros n Hn. destruct (in_dec string_dec n names) as [Hin|Hout].
    + apply Hold; assumption.
    + rewrite (get_column_eq_has _ _ _ (Hother n Hout)). exact Hn.
  - intros n Hn. destruct (in_dec string_dec n names) as [Hin|Hout].
    + right. exact Hin.
    + left. rewrite <- (get_column_eq_has _ _ _ (Hother n Hout)). exact Hn.
  - intros n Hn _. rewrite (column_of_get_column _ _ _ (Hother n Hn)).
    reflexivity.
Qed.

(** The transform calculator (lines 228-257). *)
Lemma transform_effect names self g ef w ef' w' g0 :
  _calculate_transform_features self g ef w = Ok (ef', w') ->
  hd_error g = Some g0 ->
  incl (map get_name g) names ->
  calc_effect names (e_id (entity g0)) (map get_name g) ef w ef' w'.
Proof.
  intros Hrun Hhd Hincl.
  destruct (transform_run _ _ _ _ _ _ Hrun)
    as (f0 & loc & frame0 & frame' & Hhd' & Hloc & Hframe & Hfold & -> & ->).
  rewrite Hhd in Hhd'. inversion Hhd'. subst f0.
  destruct (transform_fold_inv _ _ _ _ Hfold) as [T1 [_ [T3 [T4 T5]]]].
  assert (Hext : extends names frame0 frame').
  { apply extends_of_columns; [exact T1|exact T5| |].
    - intros n Hn. apply T4. intros Hin. apply Hn. apply Hincl. exact Hin.
    - intros n Hin Hc.
      destruct (in_dec string_dec n (map get_name g)) as [Hg|Hg].
      + apply in_map_iff in Hg. destruct Hg as [f [<- Hf]].
        apply T3. exact Hf.
      + rewrite (get_column_eq_has _ _ _ (T4 n Hg)). exact Hc. }
  split; [eapply world_extends_write; eassumption|].
  split; [reflexivity|].
  exists loc, loc, frame0, frame'.
  split; [exact Hloc|]. split; [exact Hloc|]. split; [exact Hframe|].
  split; [apply (nth_error_with_table_same w loc frame' frame0 Hframe)|].
  split; [exact Hext|].
  intros n Hn. apply in_map_iff in Hn. destruct Hn as [f [<- Hf]].
  apply T3. exact Hf.
Qed.

(** The identity calculator (lines 224-226). *)
Lemma identity_effect names self g ef w ef' w' g0 :
  _calculate_identity_features self g ef w = Ok (ef', w') ->
  hd_error g = Some g0 ->
  calc_effect names (e_id (entity g0)) [get_name g0] ef w ef' w'.
Proof.
  intros Hrun Hhd. unfold _calculate_identity_features in Hrun.
  apply bindM_Ok in Hrun. destruct Hrun as [f0 [w1 [H1 Hrun]]].
  apply lift_inv in H1. destruct H1 as [H1 ->].
  apply first_inv in H1. rewrite Hhd in H1. inversion H1. subst f0.
  destruct (dict_get ef (e_id (entity g0))) as [loc|] eqn:Eloc;
    [|discriminate].
  apply bindM_Ok in Hrun. destruct Hrun as [frame [w1 [H2 Hrun]]].
  apply read_inv in H2. destruct H2 as [H2 ->].
  apply bindM_Ok in Hrun. destruct Hrun as [u [w1 [H3 Hrun]]].
  apply lift_inv in H3. destruct H3 as [H3 ->].
  inversion Hrun. subst ef' w'.
  assert (Hc : has_column frame (get_name g0) = true).
  { unfold py_assert in H3.
    destruct (has_column frame (get_name g0)); [reflexivity|discriminate]. }
  split; [apply world_extends_refl|]. split; [reflexivity|].
  exists loc, loc, frame, frame.
  repeat (split; [assumption|]). split; [apply extends_refl|].
  intros n [<-|[]]. exact Hc.
Qed.


(** The early return of line 319: every feature of the group has its
    column already. *)
Lemma agg_setup_none_inv ext self feats ef w w1 :
  agg_setup ext self feats ef w = Ok (None, w1) ->
  exists test loc frame,
    hd_error feats = Some test /\
    dict_get ef (e_id (entity test)) = Some loc /\
    nth_error (heap w) loc = Some frame /\
    (forall f, In f feats -> has_column frame (get_name f) = true) /\
    w1 = w.
Proof.
  unfold agg_setup. intros H.
  apply bindM_Ok in H. destruct H as [test [w2 [H1 H]]].
  apply lift_inv in H1. destruct H1 as [H1 ->].
  apply bindM_Ok in H. destruct H as [bf0 [w2 [H2 H]]].
  apply lift_inv in H2. destruct H2 as [H2 ->].
  apply bindM_Ok in H. destruct H as [u [w2 [H3 H]]].
  apply lift_inv in H3. destruct H3 as [_ ->].
  apply bindM_Ok in H. destruct H as [loc [w2 [H4 H]]].
  apply lift_inv in H4. destruct H4 as [H4 ->].
  apply bindM_Ok in H. destruct H as [frame [w2 [H5 H]]].
  apply read_inv in H5. destruct H5 as [H5 ->].
  apply bindM_Ok in H. destruct H as [bloc [w2 [H6 H]]].
  apply lift_inv in H6. destruct H6 as [H6 ->].
  apply bindM_Ok in H. destruct H as [base0 [w2 [H7 H]]].
  apply read_inv in H7. destruct H7 as [H7 ->].
  destruct (Nat.eqb (List.length
                       (filter (fun f => negb (has_column frame (get_name f)))
                               feats)) 0) eqn:El.
  - inversion H. subst w1.
    exists test, loc, frame.
    split; [apply first_inv; exact H1|].
    split; [apply dict_item_inv; exact H4|]. split; [exact H5|].
    split; [|reflexivity].
    intros f Hf. apply Nat.eqb_eq in El. apply length_zero_iff_nil in El.
    destruct (has_column frame (get_name f)) eqn:E; [reflexivity|].
    assert (Hin : In f (filter (fun f => negb (has_column frame
                                                 (get_name f))) feats))
      by (apply filter_In; split; [exact Hf|rewrite E; reflexivity]).
    rewrite El in Hin. contradiction.
  - apply bindM_Ok in H. destruct H as [filtered [w2 [H8 H]]].
    apply lift_inv in H8. destruct H8 as [H8 ->].
    apply bindM_Ok in H. destruct H as [path [w2 [H9 H]]].
    apply lift_inv in H9. destruct H9 as [H9 ->].
    apply bindM_Ok in H. destruct H as [windowed [w2 [H10 H]]].
    apply lift_inv in H10. destruct H10 as [H10 ->].
    inversion H.
Qed.

(** The three ways the aggregation calculator returns. *)
Lemma agg_run_inv ext self g ef w ef' w' :
  _calculate_agg_features ext self g ef w = Ok (ef', w') ->
  (agg_setup ext self g ef w = Ok (None, w) /\ ef' = ef /\ w' = w) \/
  exists c,
    agg_setup ext self g ef w = Ok (Some c, w) /\
    ((agg_write_defaults (l_loc c) (l_features c) w = Ok (tt, w') /\
      ef' = ef) \/
     (df_empty (l_base_frame c) = false /\
      agg_no_instances ext (l_entity c) (l_child_entity c)
        (l_groupby_var c) (l_frame c) (l_base_frame c) = Ok (Some false) /\
      agg_compute ext self c ef w = Ok (ef', w'))).
Proof.
  unfold _calculate_agg_features. intros H.
  apply bindM_Ok in H. destruct H as [locals [w1 [Hs H]]].
  destruct locals as [c|].
  - pose proof (agg_setup_reads _ _ _ _ _ _ _ Hs) as [-> _].
    right. exists c. split; [exact Hs|].
    apply bindM_Ok in H. destruct H as [flag [w1 [Hf H]]].
    apply lift_inv in Hf. destruct Hf as [Hf ->].
    apply bindM_Ok in H. destruct H as [nd [w1 [Hn H]]].
    apply lift_inv in Hn. destruct Hn as [Hn ->].
    destruct nd.
    + left. apply bindM_Ok in H. destruct H as [u [w1 [Hw H]]].
      inversion H. subst. destruct u. split; [exact Hw|reflexivity].
    + right. unfold agg_no_data in Hn.
      destruct (df_empty (l_base_frame c)); [discriminate|].
      destruct flag as [[|]|]; try discriminate.
      split; [reflexivity|]. split; [exact Hf|exact H].
  - destruct (agg_setup_none_inv _ _ _ _ _ _ Hs)
      as (test & loc & frame & _ & _ & _ & _ & ->).
    inversion H. subst. left. split; [exact Hs|]. split; reflexivity.
Qed.

Lemma wf_frame_set_series df k s :
  wf_frame df = true -> List.length (s_values s) = nrows df ->
  wf_frame (set_column df k s) = true.
Proof.
  intros Hwf Hlen. unfold wf_frame, set_column.
  cbn [with_columns df_columns]. apply forallb_dict_set.
  - exact Hwf.
  - cbn [snd]. change (nrows (with_columns df _)) with (nrows df).
    rewrite Hlen. apply Nat.eqb_refl.
Qed.

(** The default columns of lines 373-374, written one after the other. *)
Lemma defaults_fold_extends (feats : list feature) :
  forall frame frame',
    foldM set_default_column feats frame = Ok frame' ->
    df_index frame' = df_index frame /\
    (wf_frame frame = true -> wf_frame frame' = true) /\
    (forall n, ~ In n (map get_name feats) ->
               get_column frame' n = get_column frame n) /\
    (forall n, has_column frame n = true \/ In n (map get_name feats) ->
               has_column frame' n = true).
Proof.
  induction feats as [|f feats IH]; intros frame frame' H.
  - cbn in H. inversion H. subst.
    repeat split; auto. intros n [Hn|[]]. exact Hn.
  - cbn [foldM] in H. rewrite set_default_column_spec in H.
    cbn [bind] in H. destruct (IH _ _ H) as [I1 [I2 [I3 I4]]].
    split; [rewrite I1; reflexivity|]. split; [|split].
    + intros Hwf. apply I2. apply wf_frame_set_column; [exact Hwf|].
      apply repeat_length.
    + intros n Hn. cbn [map In] in Hn. rewrite I3 by tauto.
      apply get_column_set_column_other. intros ->. tauto.
    + intros n Hn. apply I4. rewrite has_column_set_column.
      destruct Hn as [Hn|[<-|Hn]].
      * left. rewrite Hn. apply orb_true_r.
      * left. rewrite String.eqb_refl. reflexivity.
      * right. exact Hn.
Qed.


(* ================================================================= *)
(** ** The partition of a group into the two buckets (lines 384-404) *)

Lemma string_length_append (a b : string) :
  String.length (String.append a b) = String.length a + String.length b.
Proof. induction a as [|x a IH]; cbn; [|rewrite IH]; reflexivity. Qed.

(** Two strings that end on suffixes of one length end on one suffix. *)
Lemma append_suffix (a c b d : string) :
  String.append a b = String.append c d ->
  String.length b = String.length d -> b = d.
Proof.
  revert c. induction a as [|x a IH]; intros [|y c] H Hlen; cbn in H.
  - exact H.
  - exfalso. subst b. cbn in Hlen. rewrite string_length_append in Hlen.
    lia.
  - exfalso. subst d. cbn in Hlen. rewrite string_length_append in Hlen.
    lia.
  - inversion H. eapply IH; eassumption.
Qed.

(** The keys of [agg_rename] built on two UUIDs of one length differ when
    the UUIDs do. *)
Lemma dash_uuid v v' u u' :
  dash v u = dash v' u' -> String.length u = String.length u' -> u = u'.
Proof.
  unfold dash. intros H Hlen.
  assert (Hs : String.append "-" u = String.append "-" u').
  { apply (append_suffix v v'); [exact H|]. cbn. rewrite Hlen.
    reflexivity. }
  cbn in Hs. inversion Hs. reflexivity.
Qed.

Lemma can_agg_class f can :
  _can_agg f = Ok can -> f_class f = AggregationPrimitive.
Proof.
  unfold _can_agg. destruct (f_class f); cbn; intros H;
    try discriminate. reflexivity.
Qed.

Lemma dict_set_nonempty {V : Type} (d : dict V) k v : dict_set d k v <> [].
Proof.
  destruct d as [|[k1 v1] d]; cbn; [discriminate|].
  destruct (String.eqb k k1); discriminate.
Qed.

(** The partition loop on features of distinct names, when the UUIDs it
    draws are fresh: the features that are not simple-aggregable are
    applied, in order, and [agg_rename] ends on the names of the others. *)
Lemma partition_shape ext (fs : list feature) :
  forall b w b' w',
    foldW (agg_partition_step ext) fs b w = Ok (b', w') ->
    fresh_uuids ext (uuid_count w') ->
    NoDup (map get_name (to_apply b ++ fs)) ->
    (forall k, In k (dict_keys (agg_rename b)) ->
       exists v i, k = dash v (uuid1 ext i) /\ i < uuid_count w) ->
    heap w' = heap w /\ uuid_count w <= uuid_count w' /\
    (forall f, In f fs -> f_class f = AggregationPrimitive) /\
    to_apply b'
      = to_apply b ++ filter (fun f => negb (simple_aggregable f)) fs /\
    dict_values (agg_rename b')
      = dict_values (agg_rename b)
        ++ map get_name (filter simple_aggregable fs) /\
    (to_agg b' = [] ->
     to_agg b = [] /\ filter simple_aggregable fs = []).
Proof.
  induction fs as [|f fs IH]; intros b w b' w' H Hfresh Hnd Hkeys.
  - cbn in H. inversion H. subst. rewrite !app_nil_r.
    repeat split; auto. intros f [].
  - cbn [foldW] in H. apply bindM_Ok in H.
    destruct H as [b1 [w1 [Hstep H]]].
    unfold agg_partition_step in Hstep.
    apply bindM_Ok in Hstep. destruct Hstep as [can [w2 [Hc Hstep]]].
    apply lift_inv in Hc. destruct Hc as [Hc ->].
    pose proof (can_agg_class f can Hc) as Hclass.
    rewrite (can_agg_spec f Hclass) in Hc. inversion Hc. subst can.
    destruct (simple_aggregable f) eqn:Es.
    + apply bindM_Ok in Hstep. destruct Hstep as [bf0 [w2 [Hb Hstep]]].
      apply lift_inv in Hb. destruct Hb as [Hb ->].
      apply bindM_Ok in Hstep. destruct Hstep as [uid [w2 [Hu Hstep]]].
      unfold fresh_uuid in Hu. inversion Hu. subst uid w2. clear Hu.
      inversion Hstep. subst b1 w1. clear Hstep.
      destruct (IH _ _ _ _ H Hfresh) as [I1 [I2 [I3 [I4 [I5 I6]]]]].
      { cbn [to_apply]. rewrite map_app in Hnd |- *. cbn [map] in Hnd.
        apply NoDup_remove_1 in Hnd. exact Hnd. }
      { cbn [agg_rename uuid_count]. intros k Hk.
        apply dict_keys_set in Hk. destruct Hk as [->|Hk].
        - exists (get_name bf0), (uuid_count w). split; [reflexivity|lia].
        - destruct (Hkeys k Hk) as [v [i [E Hi]]].
          exists v, i. split; [exact E|lia]. }
      cbn [heap uuid_count to_apply agg_rename to_agg] in *.
      assert (Habsent : dict_get (agg_rename b)
                          (dash (get_name bf0) (uuid1 ext (uuid_count w)))
                        = None).
      { destruct (dict_get (agg_rename b)
                    (dash (get_name bf0) (uuid1 ext (uuid_count w))))
          as [x|] eqn:E; [|reflexivity].
        exfalso. apply dict_get_In_keys in E.
        destruct (Hkeys _ E) as [v [i [Ed Hi]]].
        destruct (Hfresh i (uuid_count w)) as [Hlen Hne]; [lia|lia|].
        apply (Hne ltac:(lia)). symmetry.
        apply (dash_uuid (get_name bf0) v); [exact Ed|].
        symmetry. exact Hlen. }
      rewrite (dict_set_absent _ _ _ Habsent) in I5.
      split; [exact I1|]. split; [lia|]. split; [|split; [|split]].
      * intros g [<-|Hg]; [exact Hclass|apply I3; exact Hg].
      * cbn [filter]. rewrite Es. cbn [negb]. exact I4.
      * cbn [filter]. rewrite Es. cbn [map]. rewrite I5.
        unfold dict_values. rewrite map_app, <- app_assoc. reflexivity.
      * intros E. destruct (I6 E) as [E1 _].
        exfalso. exact (dict_set_nonempty _ _ _ E1).
    + inversion Hstep. subst b1 w1. clear Hstep.
      assert (Hnew : existsb (feature_eqb f) (to_apply b) = false).
      { destruct (existsb (feature_eqb f) (to_apply b)) eqn:E;
          [|reflexivity].
        exfalso. apply existsb_exists in E. destruct E as [g [Hg Hfg]].
        apply feature_eqb_name in Hfg.
        rewrite map_app in Hnd. cbn [map] in Hnd.
        apply NoDup_remove_2 in Hnd. apply Hnd. apply in_or_app. left.
        rewrite Hfg. apply in_map. exact Hg. }
      rewrite Hnew in H.
      destruct (IH _ _ _ _ H Hfresh) as [I1 [I2 [I3 [I4 [I5 I6]]]]].
      { cbn [to_apply]. rewrite <- app_assoc. exact Hnd. }
      { cbn [agg_rename]. exact Hkeys. }
      cbn [heap uuid_count to_apply agg_rename to_agg] in *.
      split; [exact I1|]. split; [exact I2|]. split; [|split; [|split]].
      * intros g [<-|Hg]; [exact Hclass|apply I3; exact Hg].
      * cbn [filter]. rewrite Es. cbn [negb]. rewrite I4, <- app_assoc.
        reflexivity.
      * cbn [filter]. rewrite Es. exact I5.
      * cbn [filter]. rewrite Es. exact I6.
Qed.


(* ================================================================= *)
(** ** Left joins that keep the rows (lines 294-296, 417-418, 440-441) *)

Lemma has_column_merged_frame left right pairs n :
  (forall k, In k (dict_keys (df_columns left)) ->
             ~ In k (dict_keys (df_columns right))) ->
  has_column (merged_frame left right pairs) n
  = has_column left n || has_column right n.
Proof.
  intros Hdisj. unfold has_column, dict_mem, merged_frame.
  cbn [df_index df_columns take_rows].
  rewrite suffixed_disjoint.
  2:{ intros k Hk. rewrite dict_keys_map_columns in Hk. auto. }
  rewrite suffixed_disjoint.
  2:{ intros k Hk Hin. unfold dict_keys in Hk. rewrite map_map in Hk.
      cbn [fst] in Hk. apply (Hdisj k Hin). exact Hk. }
  rewrite dict_get_app. unfold map_columns.
  rewrite (dict_get_map_snd
             (fun s => mkSeries (s_dtype s)
                                (take VNaN (map fst pairs) (s_values s)))).
  rewrite (dict_get_map_snd
             (fun s => mkSeries
                         (if all_paired (map snd pairs) then s_dtype s
                          else infer_dtype
                                 (take_opt (map snd pairs) (s_values s)))
                         (take_opt (map snd pairs) (s_values s)))).
  destruct (dict_get (df_columns left) n),
           (dict_get (df_columns right) n); reflexivity.
Qed.

(** A left join on a right-hand table whose labels tell its rows apart
    and whose columns are new: the left rows and columns stay, the right
    columns are added. *)
Lemma left_merge_shape (key : string) (frame right frame1 : DataFrame) :
  merge_left_on frame right key = Ok frame1 ->
  unique_cells (df_index right) ->
  (forall k, In k (dict_keys (df_columns frame)) ->
             ~ In k (dict_keys (df_columns right))) ->
  wf_frame frame = true ->
  df_index frame1 = df_index frame /\
  wf_frame frame1 = true /\
  (forall n s, dict_get (df_columns frame) n = Some s ->
               dict_get (df_columns frame1) n = Some s) /\
  (forall n, has_column frame1 n
             = has_column frame n || has_column right n).
Proof.
  intros Hm Huniq Hdisj Hwf. unfold merge_left_on in Hm.
  apply bind_Ok in Hm. destruct Hm as [ks [Hk Hm]].
  inversion Hm. subst frame1. clear Hm.
  rewrite (left_join_pairs_unique (s_values ks) (df_index right) Huniq).
  set (pairs := map (fun i => (i, hd_error
                                    (key_positions
                                       (nth i (s_values ks) VNaN)
                                       (df_index right))))
                    (seq 0 (List.length (s_values ks)))).
  assert (Hlen : List.length (s_values ks) = nrows frame).
  { apply (wf_frame_column frame key ks Hwf).
    apply dict_item_inv. exact Hk. }
  assert (Hfst : map fst pairs = seq 0 (nrows frame)).
  { unfold pairs. rewrite map_map. cbn [fst]. rewrite map_id, Hlen.
    reflexivity. }
  split; [|split; [apply wf_merged_frame|split]].
  - unfold merged_frame, take_rows. cbn [df_index]. rewrite Hfst.
    apply take_all. reflexivity.
  - intros n s Hs.
    rewrite (merged_frame_left frame right pairs n s Hdisj Hs), Hfst.
    rewrite take_all by (apply (wf_frame_column frame n s Hwf Hs)).
    destruct s; reflexivity.
  - intros n. apply has_column_merged_frame. exact Hdisj.
Qed.

(** What a left join of that kind makes of the left table. *)
Lemma left_merge_extends names (key : string)
  (frame right frame1 : DataFrame) :
  merge_left_on frame right key = Ok frame1 ->
  unique_cells (df_index right) ->
  (forall k, In k (dict_keys (df_columns right)) ->
             has_column frame k = false /\ In k names) ->
  wf_frame frame = true ->
  extends names frame frame1 /\
  wf_frame frame1 = true /\
  forall n, has_column right n = true -> has_column frame1 n = true.
Proof.
  intros Hm Huniq Hnew Hwf.
  destruct (left_merge_shape key frame right frame1 Hm Huniq)
    as [M1 [M2 [M3 M4]]]; [|exact Hwf|].
  { intros k Hk Hk'. destruct (Hnew k Hk') as [Hno _].
    unfold has_column in Hno. rewrite (dict_mem_In _ _ Hk) in Hno.
    discriminate. }
  split; [|split; [exact M2|]].
  - split; [exact M1|]. split; [intros _; exact M2|]. split; [|split].
    + intros n Hn. rewrite M4, Hn. reflexivity.
    + intros n Hn. rewrite M4 in Hn. apply orb_true_iff in Hn.
      destruct Hn as [Hn|Hn]; [left; exact Hn|right].
      apply (Hnew n). apply dict_mem_iff. exact Hn.
    + intros n _ Hn. unfold has_column, dict_mem in Hn.
      unfold column_of.
      destruct (dict_get (df_columns frame) n) as [s|] eqn:Es;
        [|discriminate].
      rewrite (M3 n s Es). reflexivity.
  - intros n Hn. rewrite M4, Hn. apply orb_true_r.
Qed.

Lemma unique_cells_group_keys links : unique_cells (group_keys links).
Proof. intros k. apply group_keys_positions. Qed.


(* ================================================================= *)
(** ** The steps of the aggregation proper (lines 406-462) *)

Lemma mapM_columns_ok (df : DataFrame) (names : list string) args :
  mapM (fun v => s <- get_column df v ;; Ok (s_values s)) names = Ok args ->
  forall n, In n names -> has_column df n = true.
Proof.
  revert args. induction names as [|m names IH]; intros args H n Hn;
    [contradiction|].
  cbn [mapM] in H. apply bind_Ok in H. destruct H as [a [Ha H]].
  apply bind_Ok in H. destruct H as [rest [Hrest _]].
  destruct Hn as [<-|Hn].
  - apply bind_Ok in Ha. destruct Ha as [s [Hs _]].
    eapply has_column_get_column. exact Hs.
  - eapply IH; eassumption.
Qed.

(** The function of a group returns only if every base column is
    there. *)
Lemma agg_wrapper_ok_columns feats t df g :
  agg_wrapper feats t df = Ok g ->
  forall f bf, In f feats -> In bf (base_features f) ->
               has_column df (get_name bf) = true.
Proof.
  unfold agg_wrapper. intros H. apply bind_Ok in H.
  destruct H as [d [Hd _]]. revert Hd. generalize (@nil (string * value)).
  induction feats as [|f0 feats IH]; intros d0 Hd f bf Hf Hbf;
    [contradiction|].
  cbn [foldM] in Hd. apply bind_Ok in Hd. destruct Hd as [d1 [Hstep Hd]].
  destruct Hf as [<-|Hf].
  - cbv zeta in Hstep. apply bind_Ok in Hstep.
    destruct Hstep as [args [Hargs _]].
    apply (mapM_columns_ok _ _ _ Hargs). apply in_map. exact Hbf.
  - eapply IH; eassumption.
Qed.

(** Lines 406-418. *)
Lemma apply_bucket_extends names self b index_var gv frame base frame1 :
  agg_apply_bucket self b index_var gv frame base = Ok frame1 ->
  NoDup (map get_name (to_apply b)) ->
  (forall f, In f (to_apply b) ->
     has_column frame (get_name f) = false /\ In (get_name f) names) ->
  wf_frame frame = true ->
  group_keys (s_values (column_of base gv)) <> [] ->
  extends names frame frame1 /\ wf_frame frame1 = true /\
  forall f, In f (to_apply b) -> has_column frame1 (get_name f) = true.
Proof.
  intros H Hnd Hnew Hwf Hgroups. unfold agg_apply_bucket in H.
  destruct (to_apply b) as [|f0 fs'] eqn:Efs.
  { cbn in H. inversion H. subst frame1.
    split; [apply extends_refl|]. split; [exact Hwf|]. intros f []. }
  rewrite <- Efs in *.
  assert (Hlen : negb (Nat.eqb (List.length (to_apply b)) 0) = true)
    by (rewrite Efs; reflexivity).
  rewrite Hlen in H. clear Hlen.
  apply bind_Ok in H. destruct H as [t [Ht H]].
  apply bind_Ok in H. destruct H as [by_ [Hby H]].
  apply bind_Ok in H. destruct H as [stacked [Hst H]].
  apply bind_Ok in H. destruct H as [right [Hreset Hm]].
  rewrite (has_column_column_of _ _ _ Hby) in Hgroups.
  set (links := s_values by_) in *.
  assert (Hcols : forall f bf, In f (to_apply b) ->
                    In bf (base_features f) ->
                    has_column base (get_name bf) = true).
  { pose proof Hst as Hst'. unfold groupby_apply in Hst'.
    destruct (group_keys links) as [|k0 ks]; [contradiction|].
    cbn [foldM] in Hst'. apply bind_Ok in Hst'.
    destruct Hst' as [acc [Hstep _]].
    apply bind_Ok in Hstep. destruct Hstep as [g [Hg _]].
    intros f bf Hf Hbf.
    rewrite <- (has_column_group_frame links k0 base).
    apply (agg_wrapper_ok_columns _ _ _ _ Hg f bf Hf Hbf). }
  destruct (groupby_apply_rows (to_apply b) t links base Hnd Hcols
              (group_keys links) [] (mkDataFrame None [] []))
    as [r [Hr Hrows]].
  { split; [reflexivity|]. split; [reflexivity|].
    intros E. contradiction. }
  cbn [app] in Hrows. unfold groupby_apply in Hst. rewrite Hst in Hr.
  inversion Hr. subst r. clear Hr.
  rewrite (reset_applied_rows _ _ _ _ Hrows) in Hreset.
  inversion Hreset. subst right. clear Hreset.
  destruct Hrows as [_ [_ Hrows]]. destruct (Hrows Hgroups) as [R1 _].
  destruct (left_merge_extends names index_var frame _ frame1 Hm)
    as [E1 [E2 E3]].
  - cbn [df_index]. apply unique_cells_group_keys.
  - cbn [df_columns]. intros k Hk. rewrite R1 in Hk.
    apply in_map_iff in Hk. destruct Hk as [f [<- Hf]].
    apply Hnew. exact Hf.
  - exact Hwf.
  - split; [exact E1|]. split; [exact E2|].
    intros f Hf. apply E3. apply dict_mem_iff. cbn [df_columns].
    rewrite R1. apply in_map. exact Hf.
Qed.

Lemma select_columns_inv df names r :
  select_columns df names = Ok r ->
  df_index r = df_index df /\ dict_keys (df_columns r) = names.
Proof.
  unfold select_columns. intros H. apply bind_Ok in H.
  destruct H as [cols [Hc H]]. inversion H. subst r. clear H.
  split; [reflexivity|]. cbn [with_columns df_columns].
  revert cols Hc. induction names as [|n names IH]; intros cols Hc.
  - cbn in Hc. inversion Hc. reflexivity.
  - cbn [mapM] in Hc. apply bind_Ok in Hc. destruct Hc as [c [Hc1 Hc]].
    apply bind_Ok in Hc. destruct Hc as [rest [Hrest Hc]].
    inversion Hc. subst cols. cbn [dict_keys map].
    apply bind_Ok in Hc1. destruct Hc1 as [s [_ Hc1]].
    inversion Hc1. subst c. cbn [fst]. f_equal. apply IH. exact Hrest.
Qed.

(** Lines 420-441. *)
Lemma agg_bucket_extends names b index_var gv frame base frame2 :
  agg_agg_bucket b index_var gv frame base = Ok frame2 ->
  (forall n, In n (dict_values (agg_rename b)) ->
     has_column frame n = false /\ In n names) ->
  wf_frame frame = true ->
  extends names frame frame2 /\ wf_frame frame2 = true /\
  (to_agg b <> [] ->
   forall n, In n (dict_values (agg_rename b)) ->
             has_column frame2 n = true).
Proof.
  intros H Hnew Hwf. unfold agg_agg_bucket in H.
  destruct (to_agg b) as [|e0 es] eqn:Eto.
  { cbn in H. inversion H. subst frame2.
    split; [apply extends_refl|]. split; [exact Hwf|].
    intros E. contradiction. }
  rewrite <- Eto in *.
  assert (Hlen : negb (Nat.eqb (List.length (to_agg b)) 0) = true)
    by (rewrite Eto; reflexivity).
  rewrite Hlen in H. clear Hlen.
  apply bind_Ok in H. destruct H as [by_ [Hby H]].
  apply bind_Ok in H. destruct H as [[keys cols] [Hagg H]].
  apply bind_Ok in H. destruct H as [sel [Hsel Hm]].
  assert (Hkeys : keys = group_keys (s_values by_)).
  { unfold groupby_agg in Hagg. apply bind_Ok in Hagg.
    destruct Hagg as [cs [_ Hagg]]. inversion Hagg. reflexivity. }
  destruct (select_columns_inv _ _ _ Hsel) as [S1 S2].
  cbn [rename_columns with_columns df_index] in S1.
  destruct (left_merge_extends names index_var frame sel frame2 Hm)
    as [E1 [E2 E3]].
  - rewrite S1, Hkeys. apply unique_cells_group_keys.
  - rewrite S2. exact Hnew.
  - exact Hwf.
  - split; [exact E1|]. split; [exact E2|].
    intros _ n Hn. apply E3. apply dict_mem_iff. rewrite S2. exact Hn.
Qed.

Lemma wf_frame_fillna d df :
  wf_frame df = true -> wf_frame (fillna d df) = true.
Proof.
  unfold wf_frame, fillna. cbn [with_columns df_columns].
  change (nrows (mkDataFrame (df_index_name df) (df_index df) _))
    with (nrows df).
  intros H. rewrite forallb_forall in H. apply forallb_forall.
  intros c Hc. apply in_map_iff in Hc. destruct Hc as [c0 [<- Hc0]].
  specialize (H c0 Hc0).
  destruct (dict_get d (fst c0)); [|exact H].
  cbn [snd series_of_list s_values]. rewrite length_map. exact H.
Qed.

Lemma iter_fold_shape (its : list feature) :
  forall frame frame1,
    foldM (fun frame f =>
             s <- get_column frame (get_name f) ;;
             let nulls :=
               select (map isnull (s_values s)) (df_index frame) in
             foldM (fun frame ni =>
                      set_at frame ni (get_name f) (default_value f))
                   nulls frame)
          its frame = Ok frame1 ->
    df_index frame1 = df_index frame /\
    dict_keys (df_columns frame1) = dict_keys (df_columns frame) /\
    (wf_frame frame = true -> wf_frame frame1 = true) /\
    (forall n, ~ In n (map get_name its) ->
               get_column frame1 n = get_column frame n).
Proof.
  induction its as [|f its IH]; intros frame frame1 H.
  - cbn in H. inversion H. subst. repeat split; auto.
  - cbn [foldM] in H. apply bind_Ok in H. destruct H as [fr [Hstep H]].
    apply bind_Ok in Hstep. destruct Hstep as [s [Hs Hstep]].
    cbv zeta in Hstep.
    destruct (set_at_fold (get_name f) (default_value f)
                (select (map isnull (s_values s)) (df_index frame))
                frame s Hs) as [fr' [F1 [F2 [F3 [_ [_ F6]]]]]].
    rewrite Hstep in F1. inversion F1. subst fr'. clear F1.
    destruct (IH _ _ H) as [I1 [I2 [I3 I4]]].
    split; [congruence|]. split; [congruence|]. split.
    + intros Hwf. apply I3.
      apply (set_at_fold_wf _ _ _ _ _ Hwf Hstep).
    + intros n Hn. cbn [map In] in Hn. rewrite I4 by tauto.
      apply F6. intros ->. tauto.
Qed.

(** Lines 443-455. *)
Lemma fill_defaults_shape feats frame frame' :
  agg_fill_defaults feats frame = Ok frame' ->
  df_index frame' = df_index frame /\
  dict_keys (df_columns frame') = dict_keys (df_columns frame) /\
  (wf_frame frame = true -> wf_frame frame' = true) /\
  (forall n, ~ In n (map get_name feats) ->
             get_column frame' n = get_column frame n).
Proof.
  unfold agg_fill_defaults. intros H. cbv zeta in H.
  apply bind_Ok in H. destruct H as [fr [Hit H]].
  inversion H. subst frame'. clear H.
  destruct (iter_fold_shape _ _ _ Hit) as [I1 [I2 [I3 I4]]].
  split; [exact I1|]. split; [rewrite dict_keys_fillna; exact I2|].
  split; [intros Hwf; apply wf_frame_fillna; auto|].
  intros n Hn. unfold get_column, dict_item. rewrite dict_get_fillna.
  rewrite (fold_dict_set_other get_name default_value).
  - cbn [dict_get]. apply I4. intros Hin. apply Hn.
    apply in_map_iff in Hin. destruct Hin as [f [<- Hf]].
    apply filter_In in Hf. apply in_map. exact (proj1 Hf).
  - intros f Hf Heq. apply Hn. rewrite <- Heq. apply in_map.
    apply filter_In in Hf. exact (proj1 Hf).
Qed.

Lemma mapM_length {A B : Type} (f : A -> result B) (l : list A) r :
  mapM f l = Ok r -> List.length r = List.length l.
Proof.
  revert r. induction l as [|a l IH]; intros r H.
  - cbn in H. inversion H. reflexivity.
  - cbn [mapM] in H. apply bind_Ok in H. destruct H as [b [_ H]].
    apply bind_Ok in H. destruct H as [rest [Hrest H]].
    inversion H. cbn. rewrite (IH _ Hrest). reflexivity.
Qed.

(** Lines 457-462. *)
Lemma float_columns_shape ext (feats : list feature) :
  forall frame frame',
    agg_float_columns ext feats frame = Ok frame' ->
    df_index frame' = df_index frame /\
    dict_keys (df_columns frame') = dict_keys (df_columns frame) /\
    (wf_frame frame = true -> wf_frame frame' = true) /\
    (forall n, ~ In n (map get_name feats) ->
               get_column frame' n = get_column frame n).
Proof.
  unfold agg_float_columns.
  induction feats as [|f feats IH]; intros frame frame' H.
  - cbn in H. inversion H. subst. repeat split; auto.
  - cbn [foldM] in H. apply bind_Ok in H. destruct H as [fr [Hstep H]].
    destruct (IH _ _ H) as [I1 [I2 [I3 I4]]].
    assert (Hfr : df_index fr = df_index frame /\
                  dict_keys (df_columns fr) = dict_keys (df_columns frame) /\
                  (wf_frame frame = true -> wf_frame fr = true) /\
                  (forall n, n <> get_name f ->
                             get_column fr n = get_column frame n)).
    { destruct (negb (expanding f) && is_numeric (variable_type f)).
      2:{ inversion Hstep. subst. repeat split; auto. }
      apply bind_Ok in Hstep. destruct Hstep as [s [Hs Hstep]].
      destruct (str_mem (dtype_name (s_dtype s)) ["object"; "bool"]).
      2:{ inversion Hstep. subst. repeat split; auto. }
      apply bind_Ok in Hstep. destruct Hstep as [s' [Ha Hstep]].
      inversion Hstep. subst fr. clear Hstep.
      split; [reflexivity|]. split; [|split].
      - unfold set_column. cbn [df_columns with_columns].
        apply dict_keys_set_present.
        apply (has_column_get_column _ _ _ Hs).
      - intros Hwf. apply wf_frame_set_series; [exact Hwf|].
        unfold astype_float in Ha. apply bind_Ok in Ha.
        destruct Ha as [vals [Hv Ha]]. inversion Ha. cbn [s_values].
        rewrite (mapM_length _ _ _ Hv).
        apply (wf_frame_column frame (get_name f) s Hwf).
        apply dict_item_inv. exact Hs.
      - intros n Hn. apply get_column_set_column_other. exact Hn. }
    destruct Hfr as [F1 [F2 [F3 F4]]].
    split; [congruence|]. split; [congruence|]. split; [auto|].
    intros n Hn. cbn [map In] in Hn. rewrite I4 by tauto.
    apply F4. intros ->. tauto.
Qed.

Lemma extends_of_shape names feats frame frame' :
  incl (map get_name feats) names ->
  df_index frame' = df_index frame ->
  dict_keys (df_columns frame') = dict_keys (df_columns frame) ->
  (wf_frame frame = true -> wf_frame frame' = true) ->
  (forall n, ~ In n (map get_name feats) ->
             get_column frame' n = get_column frame n) ->
  extends names frame frame'.
Proof.
  intros Hincl H1 H2 H3 H4.
  apply extends_of_columns; [exact H1|exact H3| |].
  - intros n Hn. apply H4. intros Hin. apply Hn. apply Hincl. exact Hin.
  - intros n _ Hc. rewrite (has_column_same_keys frame frame' n H2).
    exact Hc.
Qed.


(* ================================================================= *)
(** ** What the aggregation calculator leaves (lines 300-464) *)

Lemma fresh_uuids_le ext n m :
  n <= m -> fresh_uuids ext m -> fresh_uuids ext n.
Proof. intros Hle H i j Hi Hj. apply H; lia. Qed.

Lemma NoDup_map_filter {A B : Type} (h : A -> B) (p : A -> bool)
  (l : list A) :
  NoDup (map h l) -> NoDup (map h (filter p l)).
Proof.
  induction l as [|a l IH]; intros H; [constructor|].
  cbn [map] in H. inversion H as [|x xs Hx Hnd]. subst.
  cbn [filter]. destruct (p a); [|apply IH; exact Hnd].
  cbn [map]. constructor; [|apply IH; exact Hnd].
  intros Hin. apply Hx. apply in_map_iff in Hin.
  destruct Hin as [b [Hb Hin]]. apply filter_In in Hin.
  rewrite <- Hb. apply in_map. exact (proj1 Hin).
Qed.

Lemma NoDup_map_eq {A B : Type} (h : A -> B) (l : list A) a b :
  NoDup (map h l) -> In a l -> In b l -> h a = h b -> a = b.
Proof.
  induction l as [|x l IH]; intros Hnd Ha Hb Heq; [contradiction|].
  cbn [map] in Hnd. inversion Hnd as [|y ys Hx Hnd']. subst.
  destruct Ha as [->|Ha], Hb as [->|Hb].
  - reflexivity.
  - exfalso. apply Hx. rewrite Heq. apply in_map. exact Hb.
  - exfalso. apply Hx. rewrite <- Heq. apply in_map. exact Ha.
  - apply IH; assumption.
Qed.

(** The main path: a new table that extends the parent's. *)
Lemma agg_compute_effect ext self g ef w c ef' w' g0 :
  agg_setup ext self g ef w = Ok (Some c, w) ->
  agg_no_instances ext (l_entity c) (l_child_entity c) (l_groupby_var c)
    (l_frame c) (l_base_frame c) = Ok (Some false) ->
  agg_compute ext self c ef w = Ok (ef', w') ->
  hd_error g = Some g0 ->
  NoDup (map get_name g) ->
  fresh_uuids ext (uuid_count w') ->
  wf_frame (l_frame c) = true ->
  calc_effect (map get_name g) (e_id (entity g0)) (map get_name g)
              ef w ef' w'.
Proof.
  intros Hsetup Hflag Hrun Hhd Hnd Hfresh Hwf.
  destruct (agg_setup_inv _ _ _ _ _ _ _ Hsetup)
    as (test & bf0 & bloc & base0 & filtered & path & Hhd' & _ & Hent &
        _ & Hloc & Hframe & _ & _ & Hfeats & Hsome & _).
  rewrite Hhd in Hhd'. inversion Hhd'. subst test. clear Hhd'.
  pose proof (related_links _ _ _ _ _ _ Hflag) as Hgroups.
  set (fs := l_features c) in *.
  assert (Hfs : forall f, In f fs ->
                  In f g /\ has_column (l_frame c) (get_name f) = false).
  { intros f Hf. rewrite Hfeats in Hf. apply filter_In in Hf.
    destruct Hf as [H1 H2]. apply negb_true_iff in H2. auto. }
  assert (Hndfs : NoDup (map get_name fs))
    by (rewrite Hfeats; apply NoDup_map_filter; exact Hnd).
  assert (Hinclfs : incl (map get_name fs) (map get_name g)).
  { intros n Hn. apply in_map_iff in Hn. destruct Hn as [f [<- Hf]].
    apply in_map. apply (Hfs f Hf). }
  unfold agg_compute in Hrun. fold fs in Hrun.
  apply bindM_Ok in Hrun. destruct Hrun as [b [wb [Hpart Hrun]]].
  apply bindM_Ok in Hrun. destruct Hrun as [frame1 [w1 [Hap Hrun]]].
  apply lift_inv in Hap. destruct Hap as [Hap ->].
  apply bindM_Ok in Hrun. destruct Hrun as [frame2 [w1 [Hag Hrun]]].
  apply lift_inv in Hag. destruct Hag as [Hag ->].
  apply bindM_Ok in Hrun. destruct Hrun as [frame3 [w1 [Hfd Hrun]]].
  apply lift_inv in Hfd. destruct Hfd as [Hfd ->].
  apply bindM_Ok in Hrun. destruct Hrun as [frame4 [w1 [Hfl Hrun]]].
  apply lift_inv in Hfl. destruct Hfl as [Hfl ->].
  assert (Hcount : uuid_count w' = uuid_count wb).
  { destruct (Nat.eqb (List.length (to_apply b)) 0 &&
              Nat.eqb (List.length (to_agg b)) 0).
    - apply bindM_Ok in Hrun. destruct Hrun as [u [w1 [Hw Hrun]]].
      inversion Hw. subst w1. inversion Hrun. reflexivity.
    - apply bindM_Ok in Hrun. destruct Hrun as [nloc [w1 [Hal Hrun]]].
      inversion Hal. subst w1. inversion Hrun. reflexivity. }
  unfold agg_partition in Hpart.
  destruct (partition_shape ext fs _ _ _ _ Hpart)
    as [P1 [P2 [P3 [P4 [P5 P6]]]]].
  { rewrite <- Hcount. exact Hfresh. }
  { cbn [to_apply app]. exact Hndfs. }
  { cbn [agg_rename dict_keys map]. intros k []. }
  cbn [to_apply agg_rename dict_values map app] in P4, P5, P6.
  (* the applied features *)
  destruct (apply_bucket_extends (map get_name (to_apply b)) self b _ _ _ _
              _ Hap) as [A1 [A2 A3]].
  { rewrite P4. apply NoDup_map_filter. exact Hndfs. }
  { intros f Hf. split; [|apply in_map; exact Hf].
    rewrite P4 in Hf. apply filter_In in Hf. apply (Hfs f (proj1 Hf)). }
  { exact Hwf. }
  { exact Hgroups. }
  (* the simple aggregates *)
  destruct (agg_bucket_extends (dict_values (agg_rename b)) b _ _ _ _ _ Hag)
    as [B1 [B2 B3]].
  { intros n Hn. split; [|exact Hn].
    rewrite P5 in Hn. apply in_map_iff in Hn.
    destruct Hn as [f [<- Hfin]]. apply filter_In in Hfin.
    destruct Hfin as [Hfin Hsimple].
    destruct (has_column frame1 (get_name f)) eqn:E; [|reflexivity].
    exfalso. destruct A1 as [_ [_ [_ [A4 _]]]].
    destruct (A4 _ E) as [H|H].
    - rewrite (proj2 (Hfs f Hfin)) in H. discriminate.
    - apply in_map_iff in H. destruct H as [f' [Hname Hf']].
      rewrite P4 in Hf'. apply filter_In in Hf'.
      destruct Hf' as [Hf' Hcomplex].
      assert (f' = f)
        by (apply (NoDup_map_eq get_name fs); assumption).
      subst f'. rewrite Hsimple in Hcomplex. discriminate. }
  { exact A2. }
  destruct (fill_defaults_shape _ _ _ Hfd) as [D1 [D2 [D3 D4]]].
  destruct (float_columns_shape _ _ _ _ Hfl) as [F1 [F2 [F3 F4]]].
  assert (Hext : extends (map get_name g) (l_frame c) frame4).
  { apply (extends_trans _ _ frame1).
    { apply (extends_mono (map get_name (to_apply b))); [|exact A1].
      intros n Hn. apply Hinclfs. apply in_map_iff in Hn.
      destruct Hn as [f [<- Hf']]. rewrite P4 in Hf'.
      apply filter_In in Hf'. apply in_map. exact (proj1 Hf'). }
    apply (extends_trans _ _ frame2).
    { apply (extends_mono (dict_values (agg_rename b))); [|exact B1].
      intros n Hn. apply Hinclfs. rewrite P5 in Hn.
      apply in_map_iff in Hn. destruct Hn as [f [<- Hf']].
      apply filter_In in Hf'. apply in_map. exact (proj1 Hf'). }
    apply (extends_trans _ _ frame3).
    { apply (extends_of_shape _ fs); auto. }
    apply (extends_of_shape _ fs); auto. }
  assert (Hmust : forall n, In n (map get_name g) ->
                    has_column frame4 n = true).
  { intros n Hn. apply in_map_iff in Hn. destruct Hn as [f [<- Hfg]].
    destruct (has_column (l_frame c) (get_name f)) eqn:E.
    { destruct Hext as [_ [_ [E3 _]]]. apply E3. exact E. }
    assert (Hffs : In f fs).
    { rewrite Hfeats. apply filter_In.
      split; [exact Hfg|]. rewrite E. reflexivity. }
    rewrite (has_column_same_keys frame3 frame4 _ F2).
    rewrite (has_column_same_keys frame2 frame3 _ D2).
    destruct (simple_aggregable f) eqn:Es.
    - assert (Hin : In f (filter simple_aggregable fs))
        by (apply filter_In; auto).
      apply B3.
      + intros Eto. destruct (P6 Eto) as [_ Enone].
        rewrite Enone in Hin. contradiction.
      + rewrite P5. apply in_map. exact Hin.
    - destruct B1 as [_ [_ [B13 _]]]. apply B13. apply A3.
      rewrite P4. apply filter_In. split; [exact Hffs|].
      rewrite Es. reflexivity. }
  assert (Hbranch : Nat.eqb (List.length (to_apply b)) 0 &&
                    Nat.eqb (List.length (to_agg b)) 0 = false).
  { destruct fs as [|f1 fs1] eqn:Efs; [contradiction|].
    destruct (simple_aggregable f1) eqn:Es.
    - destruct (to_agg b) as [|x xs] eqn:Eto;
        [|apply andb_false_r].
      destruct (P6 eq_refl) as [_ Enone]. cbn [filter] in Enone.
      rewrite Es in Enone. discriminate.
    - rewrite P4. cbn [filter]. rewrite Es. reflexivity. }
  rewrite Hbranch in Hrun.
  apply bindM_Ok in Hrun. destruct Hrun as [nloc [w1 [Hal Hrun]]].
  unfold alloc in Hal. inversion Hal. subst nloc w1. clear Hal.
  inversion Hrun. subst ef' w'. clear Hrun.
  rewrite P1. rewrite <- Hent.
  split.
  { eapply world_extends_alloc; [exact Hframe|exact Hext|exact P2]. }
  split.
  { intros e He. apply dict_get_set_other. exact He. }
  exists (l_loc c), (List.length (heap w)), (l_frame c), frame4.
  split; [rewrite Hent; exact Hloc|].
  split; [apply dict_get_set_same|]. split; [exact Hframe|].
  split; [|split; [exact Hext|exact Hmust]].
  cbn [heap]. rewrite nth_error_app2 by lia.
  rewrite Nat.sub_diag. reflexivity.
Qed.

(** The aggregation calculator, however it returns. *)
Lemma agg_effect K ext self g ef w ef' w' g0 :
  _calculate_agg_features ext self g ef w = Ok (ef', w') ->
  hd_error g = Some g0 ->
  NoDup (map get_name g) ->
  fresh_uuids ext (uuid_count w') ->
  sound_frames K ef w ->
  calc_effect (map get_name g) (e_id (entity g0)) (map get_name g)
              ef w ef' w'.
Proof.
  intros Hrun Hhd Hnd Hfresh Hsound.
  destruct (agg_run_inv _ _ _ _ _ _ _ Hrun)
    as [[Hs [-> ->]]|[c [Hs [[Hdef ->]|[_ [Hflag Hcomp]]]]]].
  - destruct (agg_setup_none_inv _ _ _ _ _ _ Hs)
      as (test & loc & frame & Hhd' & Hloc & Hframe & Hall & _).
    rewrite Hhd in Hhd'. inversion Hhd'. subst test.
    split; [apply world_extends_refl|]. split; [reflexivity|].
    exists loc, loc, frame, frame.
    repeat (split; [assumption|]). split; [apply extends_refl|].
    intros n Hn. apply in_map_iff in Hn. destruct Hn as [f [<- Hf]].
    apply Hall. exact Hf.
  - destruct (agg_setup_inv _ _ _ _ _ _ _ Hs)
      as (test & bf0 & bloc & base0 & filtered & path & Hhd' & _ & Hent &
          _ & Hloc & Hframe & _ & _ & Hfeats & _).
    rewrite Hhd in Hhd'. inversion Hhd'. subst test. clear Hhd'.
    unfold agg_write_defaults, set_default_column_at in Hdef.
    rewrite (table_loop set_default_column (l_loc c) (l_features c) w
               (l_frame c) Hframe) in Hdef.
    destruct (foldM set_default_column (l_features c) (l_frame c))
      as [fr|e] eqn:Efold; [|discriminate].
    inversion Hdef. subst w'. clear Hdef.
    destruct (defaults_fold_extends _ _ _ Efold) as [D1 [D2 [D3 D4]]].
    assert (Hincl : incl (map get_name (l_features c)) (map get_name g)).
    { intros n Hn. apply in_map_iff in Hn. destruct Hn as [f [<- Hf]].
      rewrite Hfeats in Hf. apply filter_In in Hf. apply in_map.
      exact (proj1 Hf). }
    assert (Hext : extends (map get_name g) (l_frame c) fr).
    { apply extends_of_columns; [exact D1|exact D2| |].
      - intros n Hn. apply D3. intros Hin. apply Hn. apply Hincl.
        exact Hin.
      - intros n _ Hc. apply D4. left. exact Hc. }
    split; [eapply world_extends_write; eassumption|].
    split; [reflexivity|].
    exists (l_loc c), (l_loc c), (l_frame c), fr.
    split; [exact Hloc|]. split; [exact Hloc|]. split; [exact Hframe|].
    split; [apply (nth_error_with_table_same w _ fr _ Hframe)|].
    split; [exact Hext|].
    intros n Hn. apply in_map_iff in Hn. destruct Hn as [f [<- Hf]].
    apply D4.
    destruct (has_column (l_frame c) (get_name f)) eqn:E;
      [left; reflexivity|right].
    apply in_map. rewrite Hfeats. apply filter_In.
    split; [exact Hf|]. rewrite E. reflexivity.
  - apply (agg_compute_effect ext self g ef w c ef' w' g0); auto.
    destruct (agg_setup_inv _ _ _ _ _ _ _ Hs)
      as (test & bf0 & bloc & base0 & filtered & path & _ & _ & _ &
          _ & Hloc & Hframe & _).
    destruct (Hsound _ _ Hloc) as [T [HT [Hwf _]]].
    rewrite Hframe in HT. inversion HT. subst T. exact Hwf.
Qed.


(* ================================================================= *)
(** ** What the direct calculator leaves (lines 259-298) *)

Lemma direct_run_inv self g ef w ef' w' g0 :
  _calculate_direct_features self g ef w = Ok (ef', w') ->
  hd_error g = Some g0 ->
  exists parent hop ploc cloc parent_df child_df col_map iaf merge_df
         new_df,
    find_forward_path (entityset self) (e_id (entity g0)) (e_id parent)
      = Some [hop] /\
    dict_get ef (e_id parent) = Some ploc /\
    dict_get ef (e_id (entity g0)) = Some cloc /\
    nth_error (heap w) ploc = Some parent_df /\
    nth_error (heap w) cloc = Some child_df /\
    direct_col_map child_df (parent_variable hop) (child_variable hop) g
      = Ok (col_map, iaf) /\
    direct_merge_df parent_df col_map iaf (child_variable hop)
      = Ok merge_df /\
    merge_left_on child_df merge_df (child_variable hop) = Ok new_df /\
    ef' = dict_set ef (e_id (entity g0)) (List.length (heap w)) /\
    w' = mkWorld (heap w ++ [new_df]) (uuid_count w).
Proof.
  intros H Hhd. unfold _calculate_direct_features in H.
  apply bindM_Ok in H. destruct H as [f0 [w1 [H1 H]]].
  apply lift_inv in H1. destruct H1 as [H1 ->].
  apply first_inv in H1. rewrite Hhd in H1. inversion H1. subst f0.
  apply bindM_Ok in H. destruct H as [parent [w1 [H2 H]]].
  apply lift_inv in H2. destruct H2 as [_ ->].
  apply bindM_Ok in H. destruct H as [u [w1 [H3 H]]].
  apply lift_inv in H3. destruct H3 as [_ ->].
  apply bindM_Ok in H. destruct H as [path [w1 [H4 H]]].
  apply lift_inv in H4. destruct H4 as [H4 ->].
  apply bindM_Ok in H. destruct H as [u' [w1 [H5 H]]].
  apply lift_inv in H5. destruct H5 as [H5 ->].
  apply bindM_Ok in H. destruct H as [ploc [w1 [H6 H]]].
  apply lift_inv in H6. destruct H6 as [H6 ->].
  apply bindM_Ok in H. destruct H as [parent_df [w1 [H7 H]]].
  apply read_inv in H7. destruct H7 as [H7 ->].
  apply bindM_Ok in H. destruct H as [cloc [w1 [H8 H]]].
  apply lift_inv in H8. destruct H8 as [H8 ->].
  apply bindM_Ok in H. destruct H as [child_df [w1 [H9 H]]].
  apply read_inv in H9. destruct H9 as [H9 ->].
  apply bindM_Ok in H. destruct H as [hop [w1 [H10 H]]].
  apply lift_inv in H10. destruct H10 as [H10 ->].
  apply bindM_Ok in H. destruct H as [[col_map iaf] [w1 [H11 H]]].
  apply lift_inv in H11. destruct H11 as [H11 ->].
  apply bindM_Ok in H. destruct H as [merge_df [w1 [H12 H]]].
  apply lift_inv in H12. destruct H12 as [H12 ->].
  apply bindM_Ok in H. destruct H as [new_df [w1 [H13 H]]].
  apply lift_inv in H13. destruct H13 as [H13 ->].
  apply bindM_Ok in H. destruct H as [nloc [w1 [H14 H]]].
  unfold alloc in H14. inversion H14. subst nloc w1. clear H14.
  inversion H. subst ef' w'. clear H.
  assert (Hpath : find_forward_path (entityset self) (e_id (entity g0))
                    (e_id parent) = Some [hop]).
  { destruct (find_forward_path (entityset self) (e_id (entity g0))
                (e_id parent)) as [p|]; [|discriminate].
    inversion H4. subst p. unfold py_assert in H5.
    destruct path as [|h [|h2 rest]]; cbn in H5; try discriminate.
    cbn in H10. inversion H10. reflexivity. }
  exists parent, hop, ploc, cloc, parent_df, child_df, col_map, iaf,
         merge_df, new_df.
  split; [exact Hpath|]. split; [apply dict_item_inv; exact H6|].
  split; [apply dict_item_inv; exact H8|].
  repeat (split; [assumption|]). split; reflexivity.
Qed.

Lemma NoDup_keys_get {V : Type} (d : dict V) k v :
  NoDup (dict_keys d) -> In (k, v) d -> dict_get d k = Some v.
Proof.
  induction d as [|[k1 v1] d IH]; intros Hnd Hin; [contradiction|].
  cbn [dict_keys map fst] in Hnd. inversion Hnd as [|x xs Hx Hnd']. subst.
  cbn [dict_get]. destruct Hin as [Hin|Hin].
  - inversion Hin. subst. rewrite String.eqb_refl. reflexivity.
  - destruct (String.eqb k k1) eqn:E.
    + apply String.eqb_eq in E. subst k1. exfalso. apply Hx.
      change k with (fst (k, v)). apply in_map. exact Hin.
    + apply IH; assumption.
Qed.

Lemma dict_get_In_pair {V : Type} (d : dict V) k v :
  dict_get d k = Some v -> In (k, v) d.
Proof.
  induction d as [|[k1 v1] d IH]; [discriminate|].
  cbn [dict_get]. destruct (String.eqb k k1) eqn:E.
  - apply String.eqb_eq in E. subst k1. intros H. inversion H. left.
    reflexivity.
  - intros H. right. apply IH. exact H.
Qed.

Lemma NoDup_keys_set {V : Type} (d : dict V) k (v : V) :
  NoDup (dict_keys d) -> NoDup (dict_keys (dict_set d k v)).
Proof.
  intros Hnd. destruct (dict_get d k) as [x|] eqn:E.
  - rewrite dict_keys_set_present; [exact Hnd|].
    unfold dict_mem. rewrite E. reflexivity.
  - rewrite (dict_set_absent _ _ _ E). unfold dict_keys.
    rewrite map_app. cbn [map fst].
    apply NoDup_app_remove_r with (l' := []).
    rewrite <- app_assoc. cbn [app].
    apply Permutation_NoDup with (l := k :: map fst d).
    + apply Permutation_cons_append.
    + constructor; [|exact Hnd].
      intros Hin. apply dict_mem_iff in Hin. unfold dict_mem in Hin.
      rewrite E in Hin. discriminate.
Qed.

(** The entries of a dictionary of distinct keys after an assignment. *)
Lemma In_dict_set {V : Type} (d : dict V) k0 (v0 : V) k v :
  NoDup (dict_keys d) ->
  (In (k, v) (dict_set d k0 v0) <->
   (k = k0 /\ v = v0) \/ (k <> k0 /\ In (k, v) d)).
Proof.
  intros Hnd. split.
  - intros Hin. pose proof (NoDup_keys_set d k0 v0 Hnd) as Hnd'.
    pose proof (NoDup_keys_get _ _ _ Hnd' Hin) as Hget.
    destruct (string_dec k k0) as [->|Hne].
    + rewrite dict_get_set_same in Hget. inversion Hget. left. auto.
    + rewrite dict_get_set_other in Hget by exact Hne.
      right. split; [exact Hne|]. apply dict_get_In_pair. exact Hget.
  - intros [[-> ->]|[Hne Hin]]; apply dict_get_In_pair.
    + apply dict_get_set_same.
    + rewrite dict_get_set_other by exact Hne.
      apply NoDup_keys_get; assumption.
Qed.


(** The dictionary [col_map] of lines 274-284 for a group of distinct
    base features: besides the entry of the join key it maps the base
    feature of each feature that is not yet on the child table to that
    feature's name; the feature remembered as defined on the join key is
    so. *)
Lemma direct_col_map_shape child pv mv (feats : list feature) :
  forall seen cm iaf cm' iaf',
    foldM (fun acc f =>
             bf0 <- first (base_features f) ;;
             let index_as_feature :=
               if String.eqb (get_name bf0) pv
               then Some f else snd acc in
             if has_column child (get_name f)
             then Ok (fst acc, index_as_feature)
             else Ok (dict_set (fst acc) (get_name bf0) (get_name f),
                      index_as_feature))
          feats (cm, iaf) = Ok (cm', iaf') ->
    NoDup (map base_name (seen ++ feats)) ->
    NoDup (dict_keys cm) ->
    (forall k v, In (k, v) cm ->
       (k = pv /\ v = mv) \/
       exists f, In f seen /\ base_name f = k /\ get_name f = v /\
                 has_column child v = false) ->
    (forall f, In f seen -> has_column child (get_name f) = false ->
               In (base_name f, get_name f) cm) ->
    (forall f, iaf = Some f -> In f seen /\ base_name f = pv) ->
    NoDup (dict_keys cm') /\
    (forall k v, In (k, v) cm' ->
       (k = pv /\ v = mv) \/
       exists f, In f (seen ++ feats) /\ base_name f = k /\
                 get_name f = v /\ has_column child v = false) /\
    (forall f, In f (seen ++ feats) ->
               has_column child (get_name f) = false ->
               In (base_name f, get_name f) cm') /\
    (forall f, iaf' = Some f ->
               In f (seen ++ feats) /\ base_name f = pv).
Proof.
  induction feats as [|f feats IH];
    intros seen cm iaf cm' iaf' H Hndb Hnd I1 I2 I3.
  - cbn in H. inversion H. subst. rewrite app_nil_r. auto.
  - cbn [foldM] in H. apply bind_Ok in H.
    destruct H as [[cm1 iaf1] [Hstep H]].
    apply bind_Ok in Hstep. destruct Hstep as [bf0 [Hbf Hstep]].
    assert (Hbase : base_name f = get_name bf0).
    { unfold base_name. destruct (base_features f); inversion Hbf.
      reflexivity. }
    cbv zeta in Hstep. cbn [fst snd] in Hstep. rewrite <- Hbase in Hstep.
    assert (Happ : (seen ++ [f]) ++ feats = seen ++ f :: feats)
      by (rewrite <- app_assoc; reflexivity).
    assert (Hiaf : forall g,
               (if String.eqb (base_name f) pv then Some f else iaf)
               = Some g ->
               In g (seen ++ [f]) /\ base_name g = pv).
    { intros g Hg. destruct (String.eqb (base_name f) pv) eqn:E.
      - inversion Hg. subst g. apply String.eqb_eq in E.
        split; [apply in_or_app; right; left; reflexivity|exact E].
      - destruct (I3 g Hg) as [Hin Hb].
        split; [apply in_or_app; left; exact Hin|exact Hb]. }
    rewrite <- Happ. rewrite <- Happ in Hndb.
    destruct (has_column child (get_name f)) eqn:Eskip.
    + inversion Hstep. subst cm1 iaf1. clear Hstep.
      apply (IH (seen ++ [f]) _ _ _ _ H Hndb Hnd).
      * intros k v Hin. destruct (I1 k v Hin) as [Hl|[g [Hg Hr]]];
          [left; exact Hl|right].
        exists g. split; [apply in_or_app; left; exact Hg|exact Hr].
      * intros g Hg Hno. apply in_app_or in Hg.
        destruct Hg as [Hg|[<-|[]]]; [apply I2; assumption|].
        rewrite Eskip in Hno. discriminate.
      * exact Hiaf.
    + inversion Hstep. subst cm1 iaf1. clear Hstep.
      apply (IH (seen ++ [f]) _ _ _ _ H Hndb (NoDup_keys_set _ _ _ Hnd)).
      * intros k v Hin. apply (In_dict_set cm _ _ k v Hnd) in Hin.
        destruct Hin as [[-> ->]|[_ Hin]].
        -- right. exists f.
           split; [apply in_or_app; right; left; reflexivity|]. auto.
        -- destruct (I1 k v Hin) as [Hl|[g [Hg Hr]]];
             [left; exact Hl|right].
           exists g. split; [apply in_or_app; left; exact Hg|exact Hr].
      * intros g Hg Hno. apply (In_dict_set cm _ _ _ _ Hnd).
        apply in_app_or in Hg. destruct Hg as [Hg|[<-|[]]].
        -- right. split; [|apply I2; assumption].
           intros Heq. rewrite Happ, map_app in Hndb. cbn [map] in Hndb.
           apply NoDup_remove_2 in Hndb. apply Hndb.
           apply in_or_app. left. rewrite <- Heq. apply in_map. exact Hg.
        -- left. auto.
      * exact Hiaf.
Qed.

Lemma select_columns_ok df names sel :
  select_columns df names = Ok sel ->
  df_columns sel = map (fun n => (n, column_of df n)) names /\
  forall n, In n names -> has_column df n = true.
Proof.
  unfold select_columns. intros H. apply bind_Ok in H.
  destruct H as [cols [Hc H]]. inversion H. subst sel. clear H.
  cbn [with_columns df_columns].
  revert cols Hc. induction names as [|n names IH]; intros cols Hc.
  - cbn in Hc. inversion Hc. split; [reflexivity|intros n []].
  - cbn [mapM] in Hc. apply bind_Ok in Hc. destruct Hc as [c [Hc1 Hc]].
    apply bind_Ok in Hc. destruct Hc as [rest [Hrest Hc]].
    inversion Hc. subst cols. clear Hc.
    apply bind_Ok in Hc1. destruct Hc1 as [s [Hs Hc1]].
    inversion Hc1. subst c. clear Hc1.
    destruct (IH _ Hrest) as [I1 I2]. split.
    + cbn [map]. rewrite (has_column_column_of _ _ _ Hs), I1.
      reflexivity.
    + intros m [<-|Hm]; [eapply has_column_get_column; exact Hs|].
      apply I2. exact Hm.
Qed.

(** The slice of the parent table after the renaming of line 287. *)
Lemma renamed_selection parent (cm : dict string) sel :
  NoDup (dict_keys cm) ->
  select_columns parent (dict_keys cm) = Ok sel ->
  df_columns (rename_columns cm sel)
  = map (fun kv => (snd kv, column_of parent (fst kv))) cm /\
  df_index (rename_columns cm sel) = df_index parent /\
  forall k, In k (dict_keys cm) -> has_column parent k = true.
Proof.
  intros Hnd Hsel. destruct (select_columns_ok _ _ _ Hsel) as [S1 S2].
  split; [|split; [|exact S2]].
  - unfold rename_columns. cbn [with_columns df_columns]. rewrite S1.
    unfold dict_keys. rewrite !map_map. apply map_ext_in.
    intros [k v] Hin. cbn [fst snd].
    rewrite (NoDup_keys_get _ _ _ Hnd Hin). reflexivity.
  - unfold select_columns in Hsel. apply bind_Ok in Hsel.
    destruct Hsel as [cols [_ Hsel]]. inversion Hsel. reflexivity.
Qed.

Lemma dict_get_renamed {V : Type} (F : string -> V) (cm : dict string)
  n s :
  dict_get (map (fun kv => (snd kv, F (fst kv))) cm) n = Some s ->
  exists k, In (k, n) cm /\ s = F k.
Proof.
  induction cm as [|[k v] cm IH]; [discriminate|].
  cbn [map dict_get fst snd]. destruct (String.eqb n v) eqn:E.
  - apply String.eqb_eq in E. subst v. intros H. inversion H.
    exists k. split; [left; reflexivity|reflexivity].
  - intros H. destruct (IH H) as [k' [Hin Hs]].
    exists k'. split; [right; exact Hin|exact Hs].
Qed.


(** The table joined onto the child table (lines 286-292): it is labelled
    by the parent's join key, and its columns are the features of the
    group that the child table lacks. *)
Lemma direct_merge_df_shape child parent pv mv g cm iaf merge_df :
  direct_col_map child pv mv g = Ok (cm, iaf) ->
  direct_merge_df parent cm iaf mv = Ok merge_df ->
  NoDup (map get_name g) -> NoDup (map base_name g) ->
  ~ In mv (map get_name g) ->
  df_index merge_df = s_values (column_of parent pv) /\
  has_column parent pv = true /\
  (forall v, In v (dict_keys (df_columns merge_df)) ->
     has_column child v = false /\ In v (map get_name g)) /\
  (forall f, In f g -> has_column child (get_name f) = false ->
     has_column merge_df (get_name f) = true).
Proof.
  intros Hcm Hmd Hnd Hndb Hmv. unfold direct_col_map in Hcm.
  destruct (direct_col_map_shape child pv mv g [] _ _ _ _ Hcm)
    as [C5 [C1 [C2 C3]]].
  { exact Hndb. }
  { cbn. constructor; [intros []|constructor]. }
  { intros k v [Hin|[]]. inversion Hin. left. auto. }
  { intros f []. }
  { intros f Hf. discriminate. }
  cbn [app] in C1, C2, C3.
  unfold direct_merge_df in Hmd. apply bind_Ok in Hmd.
  destruct Hmd as [sel [Hsel Hmd]]. cbv zeta in Hmd.
  destruct (renamed_selection parent cm sel C5 Hsel) as [R1 [_ R3]].
  remember (rename_columns cm sel) as merge0 eqn:Em0. clear Em0.
  assert (Hentry : forall k v, In (k, v) cm -> v <> mv ->
             has_column child v = false /\ In v (map get_name g)).
  { intros k v Hin Hne. destruct (C1 k v Hin) as [[_ E]|[f [Hf [_ [E Hc]]]]];
      [contradiction|].
    split; [exact Hc|]. rewrite <- E. apply in_map. exact Hf. }
  assert (Hname : forall f, In f g -> get_name f <> mv).
  { intros f Hf E. apply Hmv. rewrite <- E. apply in_map. exact Hf. }
  destruct iaf as [fi|].
  - destruct (C3 fi eq_refl) as [Hfi Hbase].
    unfold set_index in Hmd. apply bind_Ok in Hmd.
    destruct Hmd as [s [Hs Hmd]]. inversion Hmd. subst merge_df. clear Hmd.
    cbn [df_index df_columns]. apply dict_item_inv in Hs.
    rewrite R1 in Hs. apply dict_get_renamed in Hs.
    destruct Hs as [k [Hin ->]].
    assert (Hk : k = pv).
    { destruct (C1 k _ Hin) as [[_ E]|[f [Hf [Hb [E _]]]]].
      - exfalso. exact (Hname fi Hfi E).
      - assert (f = fi) by (apply (NoDup_map_eq get_name g); assumption).
        subst f. congruence. }
    subst k.
    split; [reflexivity|].
    split; [apply R3; change pv with (fst (pv, get_name fi));
            apply in_map; exact Hin|].
    rewrite R1. split.
    + intros v Hv. unfold dict_keys in Hv. rewrite map_map in Hv.
      cbn [fst] in Hv. apply in_map_iff in Hv.
      destruct Hv as [[k v'] [E Hkv]]. cbn [snd] in E. subst v'.
      apply (Hentry k v Hkv). intros ->.
      destruct (C1 k mv Hkv) as [[-> _]|[f [Hf [_ [E _]]]]].
      * pose proof (NoDup_keys_get _ _ _ C5 Hin) as G1.
        pose proof (NoDup_keys_get _ _ _ C5 Hkv) as G2.
        rewrite G1 in G2. inversion G2 as [E]. exact (Hname fi Hfi E).
      * exact (Hname f Hf E).
    + intros f Hf Hno. apply dict_mem_iff. unfold dict_keys.
      cbn [df_columns]. rewrite map_map. cbn [fst].
      apply in_map_iff. exists (base_name f, get_name f).
      split; [reflexivity|]. apply C2; assumption.
  - unfold set_index in Hmd. apply bind_Ok in Hmd.
    destruct Hmd as [s [Hs Hmd]]. inversion Hmd. subst merge_df. clear Hmd.
    cbn [df_index df_columns]. apply dict_item_inv in Hs.
    rewrite R1 in Hs. apply dict_get_renamed in Hs.
    destruct Hs as [k [Hin ->]].
    assert (Hk : k = pv).
    { destruct (C1 k _ Hin) as [[E _]|[f [Hf [_ [E _]]]]]; [exact E|].
      exfalso. exact (Hname f Hf E). }
    subst k.
    split; [reflexivity|].
    split; [apply R3; change pv with (fst (pv, mv));
            apply in_map; exact Hin|].
    rewrite R1. split.
    + intros v Hv. unfold dict_keys in Hv. apply in_map_iff in Hv.
      destruct Hv as [[v' s'] [E Hkv]]. cbn [fst] in E. subst v'.
      apply filter_In in Hkv. destruct Hkv as [Hkv Hne].
      cbn [fst] in Hne. apply negb_true_iff in Hne.
      apply String.eqb_neq in Hne.
      apply in_map_iff in Hkv. destruct Hkv as [[k v'] [E Hkv]].
      cbn [fst snd] in E. inversion E. subst v'.
      apply (Hentry k v Hkv Hne).
    + intros f Hf Hno. apply dict_mem_iff. unfold dict_keys.
      cbn [df_columns]. apply in_map_iff.
      exists (get_name f, column_of parent (base_name f)).
      split; [reflexivity|]. apply filter_In. split.
      * apply in_map_iff. exists (base_name f, get_name f).
        split; [reflexivity|]. apply C2; assumption.
      * cbn [fst]. apply negb_true_iff. apply String.eqb_neq.
        apply Hname. exact Hf.
Qed.

(** The direct calculator: a new child table that extends the old one. *)
Lemma direct_effect K self g ef w ef' w' g0 :
  _calculate_direct_features self g ef w = Ok (ef', w') ->
  hd_error g = Some g0 ->
  NoDup (map get_name g) -> NoDup (map base_name g) ->
  sound_frames K ef w ->
  (forall c p hop,
     find_forward_path (entityset self) c p = Some [hop] ->
     In (parent_variable hop) (K p) /\
     ~ In (child_variable hop) (map get_name g)) ->
  calc_effect (map get_name g) (e_id (entity g0)) (map get_name g)
              ef w ef' w'.
Proof.
  intros Hrun Hhd Hnd Hndb Hsound Hpaths.
  destruct (direct_run_inv _ _ _ _ _ _ _ Hrun Hhd)
    as (parent & hop & ploc & cloc & parent_df & child_df & cm & iaf &
        merge_df & new_df & Hpath & Hploc & Hcloc & Hpdf & Hcdf & Hcm &
        Hmd & Hm & -> & ->).
  destruct (Hpaths _ _ _ Hpath) as [HK Hmv].
  destruct (direct_merge_df_shape _ _ _ _ _ _ _ _ Hcm Hmd Hnd Hndb Hmv)
    as [S1 [S2 [S3 S4]]].
  destruct (Hsound _ _ Hploc) as [T [HT [_ Hkeys]]].
  rewrite Hpdf in HT. inversion HT. subst T. clear HT.
  destruct (Hsound _ _ Hcloc) as [T [HT [Hwf _]]].
  rewrite Hcdf in HT. inversion HT. subst T. clear HT.
  destruct (left_merge_extends (map get_name g) _ child_df merge_df new_df
              Hm) as [E1 [E2 E3]].
  { rewrite S1. apply Hkeys; assumption. }
  { exact S3. }
  { exact Hwf. }
  split.
  { eapply world_extends_alloc; [exact Hcdf|exact E1|lia]. }
  split.
  { intros e He. apply dict_get_set_other. exact He. }
  exists cloc, (List.length (heap w)), child_df, new_df.
  split; [exact Hcloc|]. split; [apply dict_get_set_same|].
  split; [exact Hcdf|]. split; [|split; [exact E1|]].
  - cbn [heap]. rewrite nth_error_app2 by lia.
    rewrite Nat.sub_diag. reflexivity.
  - intros n Hn. apply in_map_iff in Hn. destruct Hn as [f [<- Hf]].
    destruct (has_column child_df (get_name f)) eqn:E.
    + destruct E1 as [_ [_ [E13 _]]]. apply E13. exact E.
    + apply E3. apply S4; assumption.
Qed.


(* ================================================================= *)
(** ** One group, one turn, the whole loop (lines 140-166) *)

Lemma computed_incl (tree : FeatureTree) e groups g :
  In (e, groups) (ordered_feature_groups tree) -> In g groups ->
  incl (map get_name (computed_by g)) (computed_names tree).
Proof.
  intros He Hg n Hn. unfold computed_names. apply in_flat_map.
  exists (e, groups). split; [exact He|]. cbn [snd].
  apply in_flat_map. exists g. split; [exact Hg|exact Hn].
Qed.

Lemma calc_effect_mono names names' owner must ef w ef' w' :
  incl names names' ->
  calc_effect names owner must ef w ef' w' ->
  calc_effect names' owner must ef w ef' w'.
Proof.
  intros Hi [A1 [A2 (loc & loc' & T & T' & B1 & B2 & B3 & B4 & B5 & B6)]].
  split; [eapply world_extends_mono; eassumption|].
  split; [exact A2|].
  exists loc, loc', T, T'.
  repeat (split; [assumption|]).
  split; [eapply extends_mono; eassumption|exact B6].
Qed.

(** Whatever calculator the dispatcher picks: when it returns, the table
    of the group's entity is extended and has the group's columns. *)
Lemma handler_effect K ext self names g g0 handler ef w ef' w' :
  _feature_type_handler ext self g0 = Ok handler ->
  handler g ef w = Ok (ef', w') ->
  hd_error g = Some g0 ->
  (f_class g0 <> IdentityFeature -> NoDup (map get_name g)) ->
  (f_class g0 = DirectFeature -> NoDup (map base_name g)) ->
  incl (map get_name (computed_by g)) names ->
  sound_keys (entityset self) K names ->
  fresh_uuids ext (uuid_count w') ->
  sound_frames K ef w ->
  calc_effect names (e_id (entity g0)) (ensured_by g) ef w ef' w'.
Proof.
  intros Hh Hrun Hhd Hnd Hndb Hincl [Hkn Hpaths] Hfresh Hsound.
  destruct g as [|g1 g']; [discriminate|].
  cbn [hd_error] in Hhd. inversion Hhd. subst g1.
  unfold _feature_type_handler in Hh. unfold computed_by in Hincl.
  unfold ensured_by.
  destruct (f_class g0) eqn:Ec; inversion Hh; subst handler; clear Hh.
  - apply (transform_effect names self (g0 :: g') ef w ef' w' g0);
      auto.
  - eapply calc_effect_mono; [exact Hincl|].
    apply (direct_effect K self (g0 :: g') ef w ef' w' g0); auto.
    + apply Hnd. discriminate.
    + intros c p hop Hp. destruct (Hpaths c p hop Hp) as [H1 H2].
      split; [exact H1|]. intros Hin. apply H2. apply Hincl. exact Hin.
  - eapply calc_effect_mono; [exact Hincl|].
    apply (agg_effect K ext self (g0 :: g') ef w ef' w' g0); auto.
    apply Hnd. discriminate.
  - apply (identity_effect names self (g0 :: g') ef w ef' w' g0); auto.
Qed.

Lemma calc_effect_sound K names owner must ef w ef' w' :
  (forall e n, In n (K e) -> ~ In n names) ->
  calc_effect names owner must ef w ef' w' ->
  sound_frames K ef w -> sound_frames K ef' w'.
Proof.
  intros Hdisj [A1 [A2 (loc & loc' & T & T' & B1 & B2 & B3 & B4 & B5 & _)]]
         Hs e l Hl.
  destruct (String.eqb e owner) eqn:E.
  - apply String.eqb_eq in E. subst e. rewrite B2 in Hl. inversion Hl.
    subst l. exists T'. split; [exact B4|].
    destruct (Hs owner loc B1) as [T0 [H0 HT]].
    rewrite B3 in H0. inversion H0. subst T0.
    exact (extends_sound names (K owner) T T' (Hdisj owner) B5 HT).
  - apply String.eqb_neq in E. rewrite (A2 e E) in Hl.
    exact (sound_frames_extends names K ef w w' Hdisj Hs A1 e l Hl).
Qed.

Lemma get_frame_inv (eframes : dict entity_frames_t) k1 k2 loc :
  get_frame eframes k1 k2 = Ok loc <->
  exists inner, dict_get eframes k1 = Some inner /\
                dict_get inner k2 = Some loc.
Proof.
  unfold get_frame, dict_item.
  destruct (dict_get eframes k1) as [inner|]; cbn [bind].
  - destruct (dict_get inner k2) as [l|] eqn:E; split.
    + intros H. inversion H. subst. eauto.
    + intros [i [H1 H2]]. inversion H1. subst i. congruence.
    + discriminate.
    + intros [i [H1 H2]]. inversion H1. subst i. congruence.
  - split; [discriminate|]. intros [i [H1 _]]. discriminate.
Qed.


Lemma process_entity_turns ext self eframes finished filter_eid :
  process_entity ext self (eframes, finished) filter_eid
  = (lift (dict_item eframes filter_eid) ;;;
     eframes <~ foldW (share_turn self filter_eid) finished eframes ;;
     eframes <~
       match dict_get (ordered_feature_groups (feature_tree self))
                      filter_eid with
       | Some groups => foldW (group_turn ext self filter_eid) groups eframes
       | None => ret eframes
       end ;;
     ret (eframes, finished ++ [filter_eid])).
Proof. reflexivity. Qed.

(** UUIDs are drawn, never given back. *)
Lemma partition_count ext (fs : list feature) :
  forall b w b' w',
    foldW (agg_partition_step ext) fs b w = Ok (b', w') ->
    uuid_count w <= uuid_count w'.
Proof.
  induction fs as [|f fs IH]; intros b w b' w' H.
  - cbn in H. inversion H. subst. lia.
  - cbn [foldW] in H. apply bindM_Ok in H.
    destruct H as [b1 [w1 [Hstep H]]]. apply IH in H.
    unfold agg_partition_step in Hstep.
    apply bindM_Ok in Hstep. destruct Hstep as [can [w2 [Hc Hstep]]].
    apply lift_inv in Hc. destruct Hc as [_ ->].
    destruct can.
    + apply bindM_Ok in Hstep. destruct Hstep as [bf0 [w2 [Hb Hstep]]].
      apply lift_inv in Hb. destruct Hb as [_ ->].
      apply bindM_Ok in Hstep. destruct Hstep as [uid [w2 [Hu Hstep]]].
      unfold fresh_uuid in Hu. inversion Hu. subst uid w2. clear Hu.
      inversion Hstep. subst b1 w1. cbn [uuid_count] in H. lia.
    + inversion Hstep. subst b1 w1. exact H.
Qed.

Lemma agg_count ext self g ef w ef' w' :
  _calculate_agg_features ext self g ef w = Ok (ef', w') ->
  uuid_count w <= uuid_count w'.
Proof.
  intros Hrun.
  destruct (agg_run_inv _ _ _ _ _ _ _ Hrun)
    as [[Hs [-> ->]]|[c [Hs [[Hdef ->]|[_ [Hflag Hcomp]]]]]].
  - lia.
  - destruct (agg_setup_reads _ _ _ _ _ _ _ Hs) as [_ [Hframe _]].
    unfold agg_write_defaults, set_default_column_at in Hdef.
    rewrite (table_loop set_default_column (l_loc c) (l_features c) w
               (l_frame c) Hframe) in Hdef.
    destruct (foldM set_default_column (l_features c) (l_frame c))
      as [fr|e]; [|discriminate].
    inversion Hdef. cbn [uuid_count with_table]. lia.
  - unfold agg_compute in Hcomp.
    apply bindM_Ok in Hcomp. destruct Hcomp as [b [wb [Hpart Hrun']]].
    apply bindM_Ok in Hrun'. destruct Hrun' as [frame1 [w1 [Hap Hrun']]].
    apply lift_inv in Hap. destruct Hap as [_ ->].
    apply bindM_Ok in Hrun'. destruct Hrun' as [frame2 [w1 [Hag Hrun']]].
    apply lift_inv in Hag. destruct Hag as [_ ->].
    apply bindM_Ok in Hrun'. destruct Hrun' as [frame3 [w1 [Hfd Hrun']]].
    apply lift_inv in Hfd. destruct Hfd as [_ ->].
    apply bindM_Ok in Hrun'. destruct Hrun' as [frame4 [w1 [Hfl Hrun']]].
    apply lift_inv in Hfl. destruct Hfl as [_ ->].
    assert (Hcount : uuid_count w' = uuid_count wb).
    { destruct (Nat.eqb (List.length (to_apply b)) 0 &&
                Nat.eqb (List.length (to_agg b)) 0).
      - apply bindM_Ok in Hrun'. destruct Hrun' as [u [w1 [Hw Hrun']]].
        inversion Hw. subst w1. inversion Hrun'. reflexivity.
      - apply bindM_Ok in Hrun'. destruct Hrun' as [nloc [w1 [Hal Hrun']]].
        inversion Hal. subst w1. inversion Hrun'. reflexivity. }
    rewrite Hcount. unfold agg_partition in Hpart.
    exact (partition_count ext _ _ _ _ _ Hpart).
Qed.

Lemma handler_count ext self g g0 handler ef w ef' w' :
  _feature_type_handler ext self g0 = Ok handler ->
  handler g ef w = Ok (ef', w') ->
  hd_error g = Some g0 ->
  uuid_count w <= uuid_count w'.
Proof.
  intros Hh Hrun Hhd. unfold _feature_type_handler in Hh.
  destruct (f_class g0) eqn:Ec; inversion Hh; subst handler; clear Hh.
  - destruct (transform_effect (map get_name g) self g ef w ef' w' g0
                Hrun Hhd (incl_refl _)) as [[H _] _]. exact H.
  - destruct (direct_run_inv _ _ _ _ _ _ _ Hrun Hhd)
      as (parent & hop & ploc & cloc & parent_df & child_df & cm & iaf &
          merge_df & new_df & _ & _ & _ & _ & _ & _ & _ & _ & _ & ->).
    cbn [uuid_count]. lia.
  - exact (agg_count _ _ _ _ _ _ _ Hrun).
  - destruct (identity_effect [] self g ef w ef' w' g0 Hrun Hhd)
      as [[H _] _]. exact H.
Qed.

Lemma group_turn_inv ext self filter_eid eframes g eframes1 w w1 :
  group_turn ext self filter_eid eframes g w = Ok (eframes1, w1) ->
  exists g0 handler ef ef1,
    hd_error g = Some g0 /\
    _feature_type_handler ext self g0 = Ok handler /\
    dict_get eframes filter_eid = Some ef /\
    handler g ef w = Ok (ef1, w1) /\
    eframes1 = dict_set eframes filter_eid ef1.
Proof.
  intros H. unfold group_turn in H.
  apply bindM_Ok in H. destruct H as [g0 [w2 [H1 H]]].
  apply lift_inv in H1. destruct H1 as [H1 ->]. apply first_inv in H1.
  apply bindM_Ok in H. destruct H as [handler [w2 [H2 H]]].
  apply lift_inv in H2. destruct H2 as [H2 ->].
  apply bindM_Ok in H. destruct H as [ef [w2 [H3 H]]].
  apply lift_inv in H3. destruct H3 as [H3 ->]. apply dict_item_inv in H3.
  apply bindM_Ok in H. destruct H as [ef1 [w2 [H4 H]]].
  inversion H. subst eframes1 w2.
  exists g0, handler, ef, ef1. auto.
Qed.

Lemma groups_count ext self filter_eid groups :
  forall eframes w eframes' w',
    foldW (group_turn ext self filter_eid) groups eframes w
      = Ok (eframes', w') ->
    uuid_count w <= uuid_count w'.
Proof.
  induction groups as [|g groups IH]; intros eframes w eframes' w' H.
  - cbn in H. inversion H. subst. lia.
  - cbn [foldW] in H. apply bindM_Ok in H.
    destruct H as [eframes1 [w1 [Hstep H]]]. apply IH in H.
    destruct (group_turn_inv _ _ _ _ _ _ _ _ Hstep)
      as (g0 & handler & ef & ef1 & H1 & H2 & _ & H4 & _).
    pose proof (handler_count _ _ _ _ _ _ _ _ _ H2 H4 H1). lia.
Qed.


Lemma dict_get_set {V : Type} (d : dict V) k k' v :
  dict_get (dict_set d k v) k'
  = if String.eqb k' k then Some v else dict_get d k'.
Proof.
  destruct (String.eqb k' k) eqn:E.
  - apply String.eqb_eq in E. subst k'. apply dict_get_set_same.
  - apply String.eqb_neq in E. apply dict_get_set_other. exact E.
Qed.

(** The groups of one turn: the store is extended, the dictionaries stay
    sound, and the target entity's table is extended; in the target's own
    turn it has the columns of the groups it owns. *)
Lemma groups_effect K ext self names filter_eid target groups :
  sound_keys (entityset self) K names ->
  (forall g g0, In g groups -> hd_error g = Some g0 ->
     (f_class g0 <> IdentityFeature -> NoDup (map get_name g)) /\
     (f_class g0 = DirectFeature -> NoDup (map base_name g)) /\
     incl (map get_name (computed_by g)) names) ->
  forall eframes w eframes' w',
    foldW (group_turn ext self filter_eid) groups eframes w
      = Ok (eframes', w') ->
    fresh_uuids ext (uuid_count w') ->
    sound_store K eframes w ->
    world_extends names w w' /\
    sound_store K eframes' w' /\
    forall loc T,
      get_frame eframes target target = Ok loc ->
      nth_error (heap w) loc = Some T ->
      exists loc' T',
        get_frame eframes' target target = Ok loc' /\
        nth_error (heap w') loc' = Some T' /\
        extends names T T' /\
        (filter_eid = target ->
         forall g g0, In g groups -> hd_error g = Some g0 ->
           e_id (entity g0) = target ->
           forall n, In n (ensured_by g) -> has_column T' n = true).
Proof.
  intros Hkeys.
  induction groups as [|g groups IH];
    intros Hgroups eframes w eframes' w' Hrun Hfresh Hs.
  - cbn in Hrun. inversion Hrun. subst eframes' w'.
    split; [apply world_extends_refl|]. split; [exact Hs|].
    intros loc T H1 H2. exists loc, T.
    split; [exact H1|]. split; [exact H2|].
    split; [apply extends_refl|]. intros _ g g0 [].
  - cbn [foldW] in Hrun. apply bindM_Ok in Hrun.
    destruct Hrun as [eframes1 [w1 [Hstep Hrest]]].
    pose proof (groups_count _ _ _ _ _ _ _ _ Hrest) as Hcount.
    destruct (group_turn_inv _ _ _ _ _ _ _ _ Hstep)
      as (g0 & handler & ef & ef1 & H1 & H2 & H3 & H4 & ->).
    destruct (Hgroups g g0 (or_introl eq_refl) H1) as [G1 [G2 G3]].
    assert (Hcalc : calc_effect names (e_id (entity g0)) (ensured_by g)
                      ef w ef1 w1).
    { apply (handler_effect K ext self names g g0 handler); auto.
      - eapply fresh_uuids_le; [|exact Hfresh]. exact Hcount.
      - exact (Hs filter_eid ef H3). }
    assert (Hs1 : sound_store K (dict_set eframes filter_eid ef1) w1).
    { intros F' ef'' HF. rewrite dict_get_set in HF.
      destruct (String.eqb F' filter_eid) eqn:E.
      - inversion HF. subst ef''.
        eapply calc_effect_sound;
          [exact (proj1 Hkeys)|exact Hcalc|exact (Hs filter_eid ef H3)].
      - eapply sound_frames_extends;
          [exact (proj1 Hkeys)|exact (Hs F' ef'' HF)|apply Hcalc]. }
    destruct (IH (fun g' g0' Hin => Hgroups g' g0' (or_intror Hin))
                _ _ _ _ Hrest Hfresh Hs1) as [I1 [I2 I3]].
    split; [eapply world_extends_trans; [apply Hcalc|exact I1]|].
    split; [exact I2|].
    intros loc T Hloc HT.
    assert (Hmid : exists loc1 T1,
               get_frame (dict_set eframes filter_eid ef1) target target
                 = Ok loc1 /\
               nth_error (heap w1) loc1 = Some T1 /\
               extends names T T1 /\
               (filter_eid = target -> e_id (entity g0) = target ->
                forall n, In n (ensured_by g) -> has_column T1 n = true)).
    { apply get_frame_inv in Hloc. destruct Hloc as [inner [L1 L2]].
      destruct Hcalc
        as [C1 [C2 (cl & cl' & cT & cT' & B1 & B2 & B3 & B4 & B5 & B6)]].
      destruct (String.eqb target filter_eid) eqn:E.
      - apply String.eqb_eq in E. subst filter_eid.
        rewrite H3 in L1. inversion L1. subst inner.
        destruct (String.eqb target (e_id (entity g0))) eqn:E2.
        + apply String.eqb_eq in E2. rewrite <- E2 in B1, B2.
          rewrite L2 in B1. inversion B1. subst cl.
          rewrite HT in B3. inversion B3. subst cT.
          exists cl', cT'. split.
          { apply get_frame_inv. exists ef1.
            split; [apply dict_get_set_same|exact B2]. }
          split; [exact B4|]. split; [exact B5|].
          intros _ _ n Hn. apply B6. exact Hn.
        + apply String.eqb_neq in E2.
          destruct C1 as [_ [Cfw _]].
          destruct (Cfw loc T HT) as [T1 [HT1 Hext]].
          exists loc, T1. split.
          { apply get_frame_inv. exists ef1.
            split; [apply dict_get_set_same|].
            rewrite (C2 target E2). exact L2. }
          split; [exact HT1|]. split; [exact Hext|].
          intros _ Ho. exfalso. apply E2. symmetry. exact Ho.
      - apply String.eqb_neq in E.
        destruct C1 as [_ [Cfw _]].
        destruct (Cfw loc T HT) as [T1 [HT1 Hext]].
        exists loc, T1. split.
        { apply get_frame_inv. exists inner.
          split; [|exact L2].
          rewrite dict_get_set_other by exact E. exact L1. }
        split; [exact HT1|]. split; [exact Hext|].
        intros Ho. exfalso. apply E. symmetry. exact Ho. }
    destruct Hmid as [loc1 [T1 [M1 [M2 [M3 M4]]]]].
    destruct (I3 loc1 T1 M1 M2) as [loc' [T' [N1 [N2 [N3 N4]]]]].
    exists loc', T'. split; [exact N1|]. split; [exact N2|].
    split; [eapply extends_trans; eassumption|].
    intros HF g' g0' [<-|Hin] Hhd Hown n Hn.
    + rewrite H1 in Hhd. inversion Hhd. subst g0'.
      destruct N3 as [_ [_ [N33 _]]]. apply N33.
      apply M4; assumption.
    + exact (N4 HF g' g0' Hin Hhd Hown n Hn).
Qed.

Lemma share_turn_effect K self filter_eid target eframes eid eframes1
  w w1 :
  share_turn self filter_eid eframes eid w = Ok (eframes1, w1) ->
  sound_store K eframes w ->
  w1 = w /\ sound_store K eframes1 w /\
  get_frame eframes1 target target = get_frame eframes target target /\
  (forall k, dict_get eframes k <> None -> dict_get eframes1 k <> None).
Proof.
  intros H Hs. unfold share_turn in H.
  destruct (no_path (find_backward_path (entityset self) filter_eid eid)).
  2:{ inversion H. subst. auto. }
  apply bindM_Ok in H. destruct H as [loc [w2 [H1 H]]].
  apply lift_inv in H1. destruct H1 as [H1 ->].
  apply lift_inv in H. destruct H as [H ->].
  unfold set_frame in H. apply bind_Ok in H.
  destruct H as [inner [H2 H]]. apply dict_item_inv in H2.
  inversion H. subst eframes1. clear H.
  pose proof H1 as H1'. apply get_frame_inv in H1'.
  destruct H1' as [in2 [L1 L2]].
  split; [reflexivity|]. split; [|split].
  - intros F' ef'' HF. rewrite dict_get_set in HF.
    destruct (String.eqb F' filter_eid) eqn:E.
    + inversion HF. subst ef''. intros e l Hl.
      rewrite dict_get_set in Hl.
      destruct (String.eqb e eid) eqn:E2.
      * apply String.eqb_eq in E2. subst e. inversion Hl. subst l.
        exact (Hs eid in2 L1 eid loc L2).
      * exact (Hs filter_eid inner H2 e l Hl).
    + exact (Hs F' ef'' HF).
  - destruct (String.eqb target filter_eid) eqn:E.
    + apply String.eqb_eq in E. subst filter_eid.
      unfold get_frame at 1 2. unfold dict_item.
      rewrite dict_get_set_same, H2. cbn [bind].
      rewrite dict_get_set.
      destruct (String.eqb target eid) eqn:E2; [|reflexivity].
      apply String.eqb_eq in E2. subst eid.
      rewrite L1 in H2. inversion H2. subst in2. rewrite L2.
      reflexivity.
    + apply String.eqb_neq in E. unfold get_frame, dict_item.
      rewrite dict_get_set_other by exact E. reflexivity.
  - intros k Hk. rewrite dict_get_set.
    destruct (String.eqb k filter_eid); [discriminate|exact Hk].
Qed.

Lemma sharing_effect K self filter_eid target finished :
  forall eframes w eframes' w',
    foldW (share_turn self filter_eid) finished eframes w
      = Ok (eframes', w') ->
    sound_store K eframes w ->
    w' = w /\ sound_store K eframes' w /\
    get_frame eframes' target target = get_frame eframes target target.
Proof.
  induction finished as [|eid finished IH];
    intros eframes w eframes' w' H Hs.
  - cbn in H. inversion H. subst. auto.
  - cbn [foldW] in H. apply bindM_Ok in H.
    destruct H as [eframes1 [w1 [Hstep H]]].
    destruct (share_turn_effect K self filter_eid target _ _ _ _ _ Hstep
                Hs) as [-> [S1 [S2 _]]].
    destruct (IH _ _ _ _ H S1) as [-> [I1 I2]].
    split; [reflexivity|]. split; [exact I1|].
    rewrite I2. exact S2.
Qed.


Lemma process_entity_inv ext self eframes finished filter_eid st' w w' :
  process_entity ext self (eframes, finished) filter_eid w
    = Ok (st', w') ->
  exists eframes1 eframes',
    dict_get eframes filter_eid <> None /\
    foldW (share_turn self filter_eid) finished eframes w
      = Ok (eframes1, w) /\
    match dict_get (ordered_feature_groups (feature_tree self))
                   filter_eid with
    | Some groups =>
        foldW (group_turn ext self filter_eid) groups eframes1 w
          = Ok (eframes', w')
    | None => eframes' = eframes1 /\ w' = w
    end /\
    st' = (eframes', finished ++ [filter_eid]).
Proof.
  rewrite process_entity_turns. intros H.
  apply bindM_Ok in H. destruct H as [ef [w1 [H1 H]]].
  apply lift_inv in H1. destruct H1 as [H1 ->].
  apply dict_item_inv in H1.
  apply bindM_Ok in H. destruct H as [eframes1 [w1 [H2 H]]].
  assert (Hw : w1 = w).
  { clear H H1. revert eframes eframes1 w1 H2.
    induction finished as [|eid fin IH]; intros eframes eframes1 w1 H2.
    - cbn in H2. inversion H2. reflexivity.
    - cbn [foldW] in H2. apply bindM_Ok in H2.
      destruct H2 as [e1 [w2 [Hs H2]]].
      assert (w2 = w).
      { unfold share_turn in Hs.
        destruct (no_path _).
        - apply bindM_Ok in Hs. destruct Hs as [loc [w3 [A Hs]]].
          apply lift_inv in A. destruct A as [_ ->].
          apply lift_inv in Hs. apply Hs.
        - inversion Hs. reflexivity. }
      subst w2. exact (IH _ _ _ H2). }
  subst w1.
  apply bindM_Ok in H. destruct H as [eframes' [w2 [H3 H]]].
  inversion H. subst st' w2. clear H.
  exists eframes1, eframes'.
  split; [rewrite H1; discriminate|]. split; [exact H2|].
  split; [|reflexivity].
  destruct (dict_get (ordered_feature_groups (feature_tree self))
              filter_eid) as [groups|].
  - exact H3.
  - inversion H3. auto.
Qed.

Lemma process_count ext self eframes finished filter_eid st' w w' :
  process_entity ext self (eframes, finished) filter_eid w
    = Ok (st', w') ->
  uuid_count w <= uuid_count w'.
Proof.
  intros H. destruct (process_entity_inv _ _ _ _ _ _ _ _ H)
    as (e1 & e' & _ & _ & H3 & _).
  destruct (dict_get (ordered_feature_groups (feature_tree self))
              filter_eid) as [groups|].
  - exact (groups_count _ _ _ _ _ _ _ _ H3).
  - destruct H3 as [_ ->]. lia.
Qed.

Lemma loop_count ext self ordered :
  forall st w st' w',
    foldW (process_entity ext self) ordered st w = Ok (st', w') ->
    uuid_count w <= uuid_count w'.
Proof.
  induction ordered as [|e ordered IH]; intros st w st' w' H.
  - cbn in H. inversion H. subst. lia.
  - cbn [foldW] in H. apply bindM_Ok in H.
    destruct H as [st1 [w1 [Hstep H]]]. apply IH in H.
    destruct st as [eframes fin].
    pose proof (process_count _ _ _ _ _ _ _ _ Hstep). lia.
Qed.

Lemma In_dict_get {V : Type} (d : dict V) k v :
  dict_get d k = Some v -> In (k, v) d.
Proof.
  induction d as [|[k1 v1] d IH]; [discriminate|].
  cbn [dict_get]. destruct (String.eqb k k1) eqn:E.
  - apply String.eqb_eq in E. intros H. inversion H. subst.
    left. reflexivity.
  - intros H. right. apply IH. exact H.
Qed.

(** One filter entity (lines 140-166). *)
Lemma process_effect K ext self target eframes finished filter_eid
  eframes' finished' w w' :
  let names := computed_names (feature_tree self) in
  process_entity ext self (eframes, finished) filter_eid w
    = Ok ((eframes', finished'), w') ->
  sound_keys (entityset self) K names ->
  sound_groups (feature_tree self) ->
  fresh_uuids ext (uuid_count w') ->
  sound_store K eframes w ->
  world_extends names w w' /\
  sound_store K eframes' w' /\
  forall loc T,
    get_frame eframes target target = Ok loc ->
    nth_error (heap w) loc = Some T ->
    exists loc' T',
      get_frame eframes' target target = Ok loc' /\
      nth_error (heap w') loc' = Some T' /\
      extends names T T' /\
      (filter_eid = target ->
       forall n, planned_column (feature_tree self) target n ->
                 has_column T' n = true).
Proof.
  intros names Hrun Hkeys Hgroups Hfresh Hs.
  destruct (process_entity_inv _ _ _ _ _ _ _ _ Hrun)
    as (e1 & e2 & _ & H2 & H3 & Hst).
  inversion Hst. subst e2 finished'. clear Hst.
  destruct (sharing_effect K self filter_eid target _ _ _ _ _ H2 Hs)
    as [_ [S1 S2]].
  destruct (dict_get (ordered_feature_groups (feature_tree self))
              filter_eid) as [groups|] eqn:Eg.
  - assert (Hgs : forall g g0, In g groups -> hd_error g = Some g0 ->
              (f_class g0 <> IdentityFeature -> NoDup (map get_name g)) /\
              (f_class g0 = DirectFeature -> NoDup (map base_name g)) /\
              incl (map get_name (computed_by g)) names).
    { intros g g0 Hg Hhd.
      destruct (Hgroups filter_eid groups g g0 (In_dict_get _ _ _ Eg)
                  Hg Hhd) as [A B].
      split; [exact A|]. split; [exact B|].
      eapply computed_incl; [exact (In_dict_get _ _ _ Eg)|exact Hg]. }
    destruct (groups_effect K ext self names filter_eid target groups
                Hkeys Hgs _ _ _ _ H3 Hfresh S1) as [G1 [G2 G3]].
    split; [exact G1|]. split; [exact G2|].
    intros loc T Hloc HT. rewrite <- S2 in Hloc.
    destruct (G3 loc T Hloc HT) as [loc' [T' [N1 [N2 [N3 N4]]]]].
    exists loc', T'. split; [exact N1|]. split; [exact N2|].
    split; [exact N3|].
    intros HF n (groups' & g & g0 & D1 & D2 & D3 & D4 & D5).
    subst filter_eid. rewrite Eg in D1. inversion D1. subst groups'.
    exact (N4 eq_refl g g0 D2 D3 D4 n D5).
  - destruct H3 as [-> ->].
    split; [apply world_extends_refl|]. split; [exact S1|].
    intros loc T Hloc HT. exists loc, T.
    split; [rewrite S2; exact Hloc|]. split; [exact HT|].
    split; [apply extends_refl|].
    intros HF n (groups' & g & g0 & D1 & _).
    subst filter_eid. rewrite Eg in D1. discriminate.
Qed.

(** The loop over the ordered entities (lines 140-166). *)
Lemma loop_effect K ext self target ordered :
  let names := computed_names (feature_tree self) in
  sound_keys (entityset self) K names ->
  sound_groups (feature_tree self) ->
  forall eframes finished w eframes' finished' w',
    foldW (process_entity ext self) ordered (eframes, finished) w
      = Ok ((eframes', finished'), w') ->
    fresh_uuids ext (uuid_count w') ->
    sound_store K eframes w ->
    world_extends names w w' /\
    sound_store K eframes' w' /\
    forall loc T,
      get_frame eframes target target = Ok loc ->
      nth_error (heap w) loc = Some T ->
      exists loc' T',
        get_frame eframes' target target = Ok loc' /\
        nth_error (heap w') loc' = Some T' /\
        extends names T T' /\
        (In target ordered ->
         forall n, planned_column (feature_tree self) target n ->
                   has_column T' n = true).
Proof.
  intros names Hkeys Hgroups.
  induction ordered as [|e ordered IH];
    intros eframes finished w eframes' finished' w' Hrun Hfresh Hs.
  - cbn in Hrun. inversion Hrun. subst.
    split; [apply world_extends_refl|]. split; [exact Hs|].
    intros loc T H1 H2. exists loc, T.
    split; [exact H1|]. split; [exact H2|].
    split; [apply extends_refl|]. intros [].
  - cbn [foldW] in Hrun. apply bindM_Ok in Hrun.
    destruct Hrun as [[eframes1 fin1] [w1 [Hstep Hrest]]].
    pose proof (loop_count _ _ _ _ _ _ _ Hrest) as Hcount.
    destruct (process_effect K ext self target _ _ _ _ _ _ _ Hstep Hkeys
                Hgroups) as [P1 [P2 P3]].
    { eapply fresh_uuids_le; [|exact Hfresh]. exact Hcount. }
    { exact Hs. }
    destruct (IH _ _ _ _ _ _ Hrest Hfresh P2) as [I1 [I2 I3]].
    split; [eapply world_extends_trans; eassumption|].
    split; [exact I2|].
    intros loc T Hloc HT.
    destruct (P3 loc T Hloc HT) as [loc1 [T1 [M1 [M2 [M3 M4]]]]].
    destruct (I3 loc1 T1 M1 M2) as [loc' [T' [N1 [N2 [N3 N4]]]]].
    exists loc', T'. split; [exact N1|]. split; [exact N2|].
    split; [eapply extends_trans; eassumption|].
    intros [He|Hin] n Hn.
    + destruct N3 as [_ [_ [N33 _]]]. apply N33.
      apply (M4 He n Hn).
    + exact (N4 Hin n Hn).
Qed.


(* ================================================================= *)
(** ** The precalculated values enter the tables (lines 109-125) *)

Lemma py_in_select x m l :
  py_in x (select m l) = true -> py_in x l = true.
Proof.
  revert l. induction m as [|b m IH]; intros [|a l] H;
    try (cbn in H; discriminate).
  cbn [select] in H. unfold py_in in *. cbn [existsb].
  destruct b.
  - cbn [existsb] in H. apply orb_true_iff in H.
    destruct H as [H|H]; [rewrite H; reflexivity|].
    rewrite (IH l H). apply orb_true_r.
  - rewrite (IH l H). apply orb_true_r.
Qed.

Lemma py_nodup_select m l :
  py_nodup l = true -> py_nodup (select m l) = true.
Proof.
  revert l. induction m as [|b m IH]; intros [|a l] H; try reflexivity.
  cbn [py_nodup] in H. apply andb_true_iff in H. destruct H as [H1 H2].
  cbn [select]. destruct b; [|apply IH; exact H2].
  cbn [py_nodup]. rewrite (IH l H2), andb_true_r.
  apply negb_true_iff. apply negb_true_iff in H1.
  destruct (py_in a (select m l)) eqn:E; [|reflexivity].
  apply py_in_select in E. congruence.
Qed.

Lemma forallb_select {A : Type} (p : A -> bool) m (l : list A) :
  forallb p l = true -> forallb p (select m l) = true.
Proof.
  revert l. induction m as [|b m IH]; intros [|a l] H; try reflexivity.
  cbn [forallb] in H. apply andb_true_iff in H. destruct H as [H1 H2].
  cbn [select]. destruct b; [|apply IH; exact H2].
  cbn [forallb]. rewrite H1, (IH l H2). reflexivity.
Qed.

Lemma filter_select_length {A : Type} (p : A -> bool) m (l : list A) :
  List.length (filter p (select m l)) <= List.length (filter p l).
Proof.
  revert l. induction m as [|b m IH]; intros [|a l]; cbn [select filter];
    try (cbn; lia).
  specialize (IH l).
  destruct b; cbn [filter]; destruct (p a); cbn [List.length]; lia.
Qed.

Lemma key_positions_length k l :
  List.length (key_positions k l) = List.length (filter (key_match k) l).
Proof.
  unfold key_positions.
  transitivity (List.length
                  (filter (key_match k)
                          (map (fun i => nth i l VNaN)
                               (seq 0 (List.length l))))).
  - rewrite filter_map_comm, length_map. reflexivity.
  - rewrite (map_nth_seq_gen (fun v => v)), map_id. reflexivity.
Qed.

Lemma unique_cells_select m l :
  unique_cells l -> unique_cells (select m l).
Proof.
  intros H k. specialize (H k). rewrite key_positions_length in *.
  pose proof (filter_select_length (key_match k) m l). lia.
Qed.

(** With distinct row labels on the right, the left rows an inner join
    keeps are the ones with a matching label, in order. *)
Lemma inner_join_rows keys labels :
  unique_cells labels ->
  map fst (inner_join_pairs keys labels)
  = filter (fun i =>
              nth i (map (fun k => match key_positions k labels with
                                   | [] => false
                                   | _ => true
                                   end) keys) false)
           (seq 0 (List.length keys)).
Proof.
  intros Hu. unfold inner_join_pairs.
  assert (Hgen : forall s, (forall i, In i s -> i < List.length keys) ->
            map fst (flat_map
                       (fun i => map (fun j => (i, Some j))
                                     (key_positions (nth i keys VNaN)
                                                    labels)) s)
            = filter (fun i =>
                        nth i (map (fun k =>
                                      match key_positions k labels with
                                      | [] => false
                                      | _ => true
                                      end) keys) false) s).
  { induction s as [|i s IH]; intros Hs; [reflexivity|].
    cbn [flat_map filter]. rewrite map_app, IH
      by (intros j Hj; apply Hs; right; exact Hj).
    rewrite (nth_indep _ false
               ((fun k => match key_positions k labels with
                          | [] => false
                          | _ => true
                          end) VNaN))
      by (rewrite length_map; apply Hs; left; reflexivity).
    rewrite (map_nth (fun k => match key_positions k labels with
                               | [] => false
                               | _ => true
                               end)).
    specialize (Hu (nth i keys VNaN)).
    destruct (key_positions (nth i keys VNaN) labels) as [|j [|j2 js]].
    - reflexivity.
    - reflexivity.
    - cbn in Hu. lia. }
  apply Hgen. intros i Hi. apply in_seq in Hi. lia.
Qed.

(** The table [pd.merge(F, V, left_index=True, right_index=True)] makes
    of a table [F] and precalculated values [V] with other columns. *)
Lemma merge_on_index_shape (F V : DataFrame) :
  unique_cells (df_index V) ->
  (forall n, has_column V n = true -> has_column F n = false) ->
  wf_frame F = true ->
  exists mask,
    df_index (merge_on_index F V) = select mask (df_index F) /\
    wf_frame (merge_on_index F V) = true /\
    (forall n, has_column (merge_on_index F V) n
               = has_column F n || has_column V n) /\
    (forall n, has_column F n = true ->
       s_values (column_of (merge_on_index F V) n)
       = select mask (s_values (column_of F n))).
Proof.
  intros Hu Hdisj Hwf.
  assert (Hd : forall k, In k (dict_keys (df_columns F)) ->
                 ~ In k (dict_keys (df_columns V))).
  { intros k Hk Hv. apply dict_mem_iff in Hk. apply dict_mem_iff in Hv.
    specialize (Hdisj k Hv). unfold has_column in Hdisj. congruence. }
  set (mask := map (fun k => match key_positions k (df_index V) with
                             | [] => false
                             | _ => true
                             end) (df_index F)).
  assert (Hlen : List.length mask = List.length (df_index F))
    by (unfold mask; apply length_map).
  exists mask. split; [|split; [apply wf_merged_frame|split]].
  - unfold merge_on_index, merged_frame, take_rows. cbn [df_index].
    rewrite (inner_join_rows _ _ Hu). fold mask.
    symmetry. apply select_as_take. exact Hlen.
  - intros n. apply has_column_merged_frame. exact Hd.
  - intros n Hn. unfold has_column, dict_mem in Hn.
    destruct (dict_get (df_columns F) n) as [s|] eqn:Es; [|discriminate].
    unfold column_of at 1 2. unfold merge_on_index.
    rewrite (merged_frame_left F V _ n s Hd Es), Es.
    cbn [s_values]. rewrite (inner_join_rows _ _ Hu). fold mask.
    pose proof (wf_frame_column F n s Hwf Es) as Hl. unfold nrows in Hl.
    rewrite <- Hl. symmetry. apply select_as_take. lia.
Qed.

Lemma precalculated_turn_inv self eframes fin k V st' w w' :
  precalculated_turn self (eframes, fin) (k, V) w = Ok (st', w') ->
  (exists inner loc F,
     dict_get eframes k = Some inner /\ dict_get inner k = Some loc /\
     nth_error (heap w) loc = Some F /\
     w' = mkWorld (heap w ++ [merge_on_index F V]) (uuid_count w) /\
     st' = (dict_set eframes k
              (dict_set inner k (List.length (heap w))), fin)) \/
  (exists ent,
     dict_get eframes k = None /\
     w' = mkWorld (heap w ++ [set_column V (e_index ent)
                                (series_of_list (df_index V))])
                  (uuid_count w) /\
     st' = (dict_set eframes k [(k, List.length (heap w))],
            fin ++ [k])).
Proof.
  intros H. unfold precalculated_turn in H. unfold dict_mem in H.
  destruct (dict_get eframes k) as [inner|] eqn:Ek.
  - left.
    apply bindM_Ok in H. destruct H as [loc [w1 [H1 H]]].
    apply lift_inv in H1. destruct H1 as [H1 ->].
    apply get_frame_inv in H1. destruct H1 as [inner' [L1 L2]].
    rewrite Ek in L1. inversion L1. subst inner'.
    apply bindM_Ok in H. destruct H as [F [w1 [H2 H]]].
    apply read_inv in H2. destruct H2 as [H2 ->].
    apply bindM_Ok in H. destruct H as [nloc [w1 [H3 H]]].
    unfold alloc in H3. inversion H3. subst nloc w1. clear H3.
    apply bindM_Ok in H. destruct H as [eframes1 [w1 [H4 H]]].
    apply lift_inv in H4. destruct H4 as [H4 ->].
    unfold set_frame, dict_item in H4. rewrite Ek in H4.
    cbn [bind] in H4. inversion H4. subst eframes1.
    inversion H. subst st' w'.
    exists inner, loc, F. auto.
  - right.
    apply bindM_Ok in H. destruct H as [ent [w1 [H1 H]]].
    apply lift_inv in H1. destruct H1 as [H1 ->].
    apply bindM_Ok in H. destruct H as [values [w1 [H2 H]]].
    apply lift_inv in H2. destruct H2 as [H2 ->].
    unfold assign_list in H2.
    destruct (Nat.eqb (List.length (df_index V)) (nrows V));
      [|discriminate].
    inversion H2. subst values.
    apply bindM_Ok in H. destruct H as [nloc [w1 [H3 H]]].
    unfold alloc in H3. inversion H3. subst nloc w1. clear H3.
    inversion H. subst st' w'.
    exists ent. auto.
Qed.

Lemma nth_error_grow {A : Type} (l : list A) x loc a :
  nth_error l loc = Some a -> nth_error (l ++ [x]) loc = Some a.
Proof.
  intros H. rewrite nth_error_app1; [exact H|].
  apply nth_error_Some. congruence.
Qed.

Lemma sound_frames_grow K ef w T u :
  sound_frames K ef w ->
  sound_frames K ef (mkWorld (heap w ++ [T]) u).
Proof.
  intros Hs e loc Hl. destruct (Hs e loc Hl) as [T0 [H0 HT]].
  exists T0. split; [|exact HT]. cbn [heap].
  apply nth_error_grow. exact H0.
Qed.

(** One precalculated table: the tables stay ready. *)
Lemma precalculated_turn_ready K self idx ids eframes fin k V eframes'
  fin' w w' :
  precalculated_turn self (eframes, fin) (k, V) w
    = Ok ((eframes', fin'), w') ->
  ready_tables K self idx ids eframes w ->
  wf_frame V = true ->
  unique_cells (df_index V) ->
  (forall n, In n (K k) -> has_column V n = false) ->
  (forall loc F,
     get_frame eframes k k = Ok loc ->
     nth_error (heap w) loc = Some F ->
     forall n, has_column V n = true -> has_column F n = false) ->
  ready_tables K self idx ids eframes' w' /\
  uuid_count w' = uuid_count w /\
  (forall k', k' <> k -> dict_get eframes' k' = dict_get eframes k') /\
  (forall loc T, nth_error (heap w) loc = Some T ->
                 nth_error (heap w') loc = Some T).
Proof.
  intros Hrun [Hs (tl & tT & R1 & R2 & R3 & R4 & R5 & R6)] Hwf Hu HK Hnew.
  destruct (precalculated_turn_inv _ _ _ _ _ _ _ _ Hrun)
    as [(inner & loc & F & E1 & E2 & E3 & -> & Est)|
        (ent & E1 & -> & Est)];
    inversion Est; subst eframes' fin'; clear Est.
  - assert (Hloc : get_frame eframes k k = Ok loc)
      by (apply get_frame_inv; exists inner; auto).
    destruct (Hs k inner E1 k loc E2) as [F' [HF' [HwfF HkeysF]]].
    rewrite E3 in HF'. inversion HF'. subst F'. clear HF'.
    destruct (merge_on_index_shape F V Hu (Hnew loc F Hloc E3) HwfF)
      as [mask [M1 [M2 [M3 M4]]]].
    assert (Hnewloc : nth_error (heap w ++ [merge_on_index F V])
                        (List.length (heap w))
                      = Some (merge_on_index F V)).
    { rewrite nth_error_app2 by lia. rewrite Nat.sub_diag. reflexivity. }
    split; [split|].
    + intros F0 ef0 H0. rewrite dict_get_set in H0.
      destruct (String.eqb F0 k) eqn:E.
      * inversion H0. subst ef0. intros e l Hl.
        rewrite dict_get_set in Hl.
        destruct (String.eqb e k) eqn:E'.
        -- apply String.eqb_eq in E'. subst e. inversion Hl. subst l.
           exists (merge_on_index F V). cbn [heap].
           split; [exact Hnewloc|]. split; [exact M2|].
           intros n Hn Hc. rewrite M3, (HK n Hn), orb_false_r in Hc.
           rewrite (M4 n Hc). apply unique_cells_select.
           apply HkeysF; assumption.
        -- apply (sound_frames_grow K inner w _ _ (Hs k inner E1) e l Hl).
      * apply sound_frames_grow. exact (Hs F0 ef0 H0).
    + destruct (String.eqb (target_eid self) k) eqn:E.
      * apply String.eqb_eq in E. subst k.
        rewrite Hloc in R1. inversion R1. subst tl.
        rewrite E3 in R2. inversion R2. subst tT.
        exists (List.length (heap w)), (merge_on_index F V).
        split.
        { apply get_frame_inv. eexists.
          split; [apply dict_get_set_same|apply dict_get_set_same]. }
        split; [exact Hnewloc|].
        split; [rewrite M3, R3; reflexivity|].
        split; [rewrite M1; apply py_nodup_select; exact R4|].
        split; [rewrite M1; apply forallb_select; exact R5|].
        intros f Hf. destruct (R6 f Hf) as [H|H]; [left; exact H|].
        right. rewrite M3, H. reflexivity.
      * apply String.eqb_neq in E. exists tl, tT.
        split.
        { unfold get_frame, dict_item in *.
          rewrite dict_get_set_other by exact E. exact R1. }
        split; [cbn [heap]; apply nth_error_grow; exact R2|].
        auto.
    + split; [reflexivity|]. split.
      * intros k' Hk'. apply dict_get_set_other. exact Hk'.
      * intros l T HT. cbn [heap]. apply nth_error_grow. exact HT.
  - set (V' := set_column V (e_index ent) (series_of_list (df_index V))).
    assert (Hnewloc : nth_error (heap w ++ [V']) (List.length (heap w))
                      = Some V').
    { rewrite nth_error_app2 by lia. rewrite Nat.sub_diag. reflexivity. }
    split; [split|].
    + intros F0 ef0 H0. rewrite dict_get_set in H0.
      destruct (String.eqb F0 k) eqn:E.
      * inversion H0. subst ef0. intros e l Hl.
        cbn [dict_get] in Hl.
        destruct (String.eqb e k) eqn:E'; [|discriminate].
        apply String.eqb_eq in E'. subst e. inversion Hl. subst l.
        exists V'. cbn [heap]. split; [exact Hnewloc|]. split.
        { apply wf_frame_set_column; [exact Hwf|reflexivity]. }
        intros n Hn Hc. unfold V' in Hc |- *.
        rewrite has_column_set_column, (HK n Hn), orb_false_r in Hc.
        apply String.eqb_eq in Hc. subst n.
        unfold column_of, set_column. cbn [df_columns with_columns].
        rewrite dict_get_set_same. exact Hu.
      * apply sound_frames_grow. exact (Hs F0 ef0 H0).
    + assert (E : target_eid self <> k).
      { intros <-. apply get_frame_inv in R1.
        destruct R1 as [i [A _]]. congruence. }
      exists tl, tT. split.
      { unfold get_frame, dict_item in *.
        rewrite dict_get_set_other by exact E. exact R1. }
      split; [cbn [heap]; apply nth_error_grow; exact R2|].
      auto.
    + split; [reflexivity|]. split.
      * intros k' Hk'. apply dict_get_set_other. exact Hk'.
      * intros l T HT. cbn [heap]. apply nth_error_grow. exact HT.
Qed.

(** Lines 109-125: after the precalculated values are merged in, the
    tables are ready for the walk. *)
Lemma precalculated_ready K self idx ids pre :
  forall eframes fin w eframes' fin' w',
    foldW (precalculated_turn self) pre (eframes, fin) w
      = Ok ((eframes', fin'), w') ->
    ready_tables K self idx ids eframes w ->
    sound_precalculated K pre eframes w ->
    ready_tables K self idx ids eframes' w' /\
    uuid_count w' = uuid_count w.
Proof.
  induction pre as [|[k V] pre IH];
    intros eframes fin w eframes' fin' w' Hrun Hready [Hnd Hpre].
  - cbn in Hrun. inversion Hrun. subst. auto.
  - cbn [foldW] in Hrun. apply bindM_Ok in Hrun.
    destruct Hrun as [[eframes1 fin1] [w1 [Hstep Hrest]]].
    destruct (Hpre k V (or_introl eq_refl)) as [P1 [P2 [P3 P4]]].
    destruct (precalculated_turn_ready K self idx ids _ _ _ _ _ _ _ _
                Hstep Hready P1 P2 P3 P4) as [S1 [S2 [S3 S4]]].
    cbn [dict_keys map fst] in Hnd.
    inversion Hnd as [|x xs Hx Hnd']. subst x xs.
    destruct (IH _ _ _ _ _ _ Hrest S1) as [I1 I2].
    { split; [exact Hnd'|]. intros k' V' Hin.
      destruct (Hpre k' V' (or_intror Hin)) as [Q1 [Q2 [Q3 Q4]]].
      split; [exact Q1|]. split; [exact Q2|]. split; [exact Q3|].
      assert (Hk' : k' <> k).
      { intros ->. apply Hx. change k with (fst (k, V')).
        apply in_map. exact Hin. }
      intros loc F Hloc HF.
      assert (Hloc0 : get_frame eframes k' k' = Ok loc).
      { unfold get_frame, dict_item in *.
        rewrite (S3 k' Hk') in Hloc. exact Hloc. }
      apply (Q4 loc F Hloc0).
      apply get_frame_inv in Hloc0. destruct Hloc0 as [inner [A B]].
      destruct Hready as [Hs _].
      destruct (Hs k' inner A k' loc B) as [F0 [HF0 _]].
      rewrite (S4 loc F0 HF0) in HF. inversion HF. subst F0.
      exact HF0. }
    split; [exact I1|]. lia.
Qed.


Lemma distinct_keys_unique vals :
  distinct_keys vals = true -> unique_cells vals.
Proof.
  intros H k. rewrite key_positions_length.
  induction vals as [|x rest IH]; [cbn; lia|].
  cbn [distinct_keys] in H. apply andb_true_iff in H.
  destruct H as [H1 H2]. specialize (IH H2). cbn [filter].
  destruct (key_match k x) eqn:E; [|exact IH].
  rewrite filter_none; [cbn; lia|].
  intros y Hy. destruct (key_match k y) eqn:Ey; [|reflexivity].
  exfalso. apply negb_true_iff in H1.
  assert (Hex : existsb (key_match x) rest = true).
  { apply existsb_exists. exists y. split; [exact Hy|].
    exact (key_match_common k x y E Ey). }
  congruence.
Qed.

(* ================================================================= *)
(** ** The result table (lines 74-195) *)

Lemma backfilled_rows (labels ids : list value) :
  forall i, In i ids ->
    exists l, In l (labels ++ missing_from labels ids) /\
              (l = i \/ py_eq i l = true).
Proof.
  intros i Hi. destruct (py_in i labels) eqn:E.
  - apply py_in_true in E. destruct E as [y [Hy Heq]].
    exists y. split; [apply in_or_app; left; exact Hy|right; exact Heq].
  - exists i. split; [|left; reflexivity].
    apply in_or_app. right. unfold missing_from. apply filter_In.
    split; [exact Hi|]. rewrite E. reflexivity.
Qed.

(** Claim C1.  Take a non-empty batch of instance ids, and let the inputs
    keep their contracts: the target entity is among the ordered
    entities; the features of a group have distinct names
    ([sound_groups]); key columns and link variables are no computed
    columns, and a one-hop path ends in a key column of the parent
    ([sound_keys]); the UUIDs drawn are distinct strings of one length;
    the tables of the slice provider are well formed and tell their rows
    apart by their entity's key columns, the target entity's own table
    has the index column, distinct row labels among the requested ids and
    a column for every requested feature that the feature tree plans no
    group for ([ready_tables]); and the precalculated tables have
    distinct row labels and columns of their own
    ([sound_precalculated]).  Then, whenever lines 74-172 return,
    [calculate_all_features] returns a table whose columns are the
    requested features' names in the order the features were passed in,
    and in which every requested id has a row.  For distinct ids that
    equal themselves, every requested id labels exactly one row, no row
    has another label, and there are as many rows as ids.  When the slice
    provider had data, the rows of the finished table of the target
    entity come first, and the ids without a row in it get the rows that
    follow: with distinct feature names, each such row holds, column by
    column, the features' default values. *)
Theorem one_row_per_instance (ext : Externals) (self : PandasBackend)
  (K : string -> list string)
  (ids : list value) (time_last_arg : option time)
  (training_window : option Z) (precalculated : option (dict DataFrame))
  (ignored : option (list string)) (w w1 : world)
  (self' : PandasBackend) (target_entity : Entity)
  (finished : option (dict entity_frames_t)) :
  ids <> [] ->
  features self <> [] ->
  In (target_eid self) (ordered_for ext self ignored) ->
  sound_groups (feature_tree self) ->
  sound_keys (entityset self) K (computed_names (feature_tree self)) ->
  (forall eframes w0,
     get_pandas_data_slice (entityset self) (ordered_for ext self ignored)
       (target_eid self) ids time_last_arg training_window w
       = Ok (Some eframes, w0) ->
     ready_tables K self (e_index target_entity) ids eframes w0 /\
     sound_precalculated K (match precalculated with
                            | Some d => d
                            | None => []
                            end) eframes w0) ->
  computed_frames ext self ids time_last_arg training_window precalculated
      ignored w = Ok ((self', target_entity, finished), w1) ->
  fresh_uuids ext (uuid_count w1) ->
  exists res,
    calculate_all_features ext self ids time_last_arg training_window
        precalculated ignored w = Ok (res, w1) /\
    dict_keys (df_columns res) = map get_name (features self) /\
    (forall i, In i ids ->
       exists l, In l (df_index res) /\ (l = i \/ py_eq i l = true)) /\
    (py_nodup ids = true -> self_equal ids = true ->
     (forall i, In i ids -> count_label i (df_index res) = 1) /\
     (forall l, In l (df_index res) -> py_in l ids = true) /\
     nrows res = List.length ids) /\
    (forall eframes,
       finished = Some eframes ->
       exists df,
         target_frame self' eframes w1 = Ok (df, w1) /\
         wf_frame df = true /\
         df_index res = df_index df ++ missing_from (df_index df) ids /\
         (NoDup (map get_name (features self)) ->
          forall k m j f,
            nth_error (missing_from (df_index df) ids) k = Some m ->
            nth_error (features self) j = Some f ->
            nth_error (df_index res) (nrows df + k) = Some m /\
            column_name res j = Some (get_name f) /\
            cell res j (nrows df + k) = Some (default_value f))).
Proof.
  intros Hne Hfe Hord Hgroups Hkeys Hslice Hrun Hfresh.
  pose proof Hrun as Hrun0.
  unfold calculate_all_features.
  rewrite (bindM_step _ _ _ _ _ Hrun0). clear Hrun0.
  unfold computed_frames in Hrun.
  apply bindM_Ok in Hrun. destruct Hrun as [u [w2 [Ha Hrun]]].
  apply lift_inv in Ha. destruct Ha as [_ ->].
  apply bindM_Ok in Hrun. destruct Hrun as [te [w2 [Hte Hrun]]].
  apply lift_inv in Hte. destruct Hte as [_ ->].
  apply bindM_Ok in Hrun. destruct Hrun as [ef [w0 [Hsl Hrun]]].
  destruct ef as [eframes0|].
  - apply bindM_Ok in Hrun. destruct Hrun as [[ef1 fin1] [w3 [Hmerge Hrun]]].
    apply bindM_Ok in Hrun.
    destruct Hrun as [[ef2 fin2] [w4 [Hloop Hrun]]].
    inversion Hrun. subst self' te finished w4. clear Hrun.
    destruct (Hslice eframes0 w0 Hsl) as [Hready Hpre].
    set (self' := mkPandasBackend (entityset self) (target_eid self)
                    (features self) (feature_tree self)
                    (Some (match time_last_arg with
                           | Some t => t
                           | None => datetime_now ext
                           end))) in *.
    assert (Hready1 : ready_tables K self (e_index target_entity) ids
                        ef1 w3 /\ uuid_count w3 = uuid_count w0).
    { rewrite merge_precalculated_loop in Hmerge.
      destruct (Nat.ltb 0 _).
      - exact (precalculated_ready K self' (e_index target_entity) ids
                 _ _ _ _ _ _ _ Hmerge Hready Hpre).
      - inversion Hmerge. subst. auto. }
    destruct Hready1 as [[Hs (tl & T & R1 & R2 & R3 & R4 & R5 & R6)] _].
    destruct (loop_effect K ext self' (target_eid self) _ Hkeys Hgroups
                _ _ _ _ _ _ Hloop Hfresh Hs) as [_ [Hs2 Htrack]].
    destruct (Htrack tl T R1 R2) as [loc' [T' [N1 [N2 [N3 N4]]]]].
    assert (Hdf : target_frame self' ef2 w1 = Ok (T', w1)).
    { unfold target_frame. cbn [target_eid self'].
      rewrite (bindM_step _ _ _ _ _ (lift_Ok _ w1 _ N1)).
      unfold read. rewrite N2. reflexivity. }
    cbn [fst]. rewrite (bindM_step _ _ _ _ _ Hdf).
    assert (Hwf : wf_frame T' = true).
    { apply get_frame_inv in N1. destruct N1 as [inner [A B]].
      destruct (Hs2 _ inner A _ loc' B) as [T0 [H0 [H1 _]]].
      rewrite N2 in H0. inversion H0. subst T0. exact H1. }
    pose proof N3 as [E1 [_ [E3 _]]].
    assert (Hcols : forallb (has_column T')
                      (map get_name (features self)) = true).
    { apply forallb_forall. intros n Hn. apply in_map_iff in Hn.
      destruct Hn as [f [<- Hf]].
      destruct (R6 f Hf) as [Hd|Hc].
      - exact (N4 Hord _ Hd).
      - apply E3. exact Hc. }
    destruct (assemble_result_shape self' target_entity ids T')
      as [res [Hres [Hidx Hnames]]];
      [exact Hfe|apply E3; exact R3|left; exact Hcols|].
    exists res. rewrite Hres. cbn [lift].
    split; [reflexivity|]. split; [exact Hnames|].
    split; [rewrite Hidx; apply backfilled_rows|].
    rewrite <- E1 in R4, R5.
    split.
    { intros Hnd Hse.
      destruct (backfilled_labels (df_index T') ids Hnd Hse R4 R5)
        as [Hone Hall].
      split; [rewrite Hidx; exact Hone|].
      split; [rewrite Hidx; exact Hall|].
      unfold nrows. rewrite Hidx. apply backfilled_length; assumption. }
    intros eframes' Hef. inversion Hef. subst eframes'.
    exists T'. split; [exact Hdf|]. split; [exact Hwf|].
    split; [exact Hidx|].
    intros Hndn k m j f Hk Hj.
    apply (assemble_result_defaults self' target_entity ids T' res Hres);
      auto.
  - inversion Hrun. subst self' te finished w0. clear Hrun.
    destruct (generate_default_df_plain
                (mkPandasBackend (entityset self) (target_eid self)
                   (features self) (feature_tree self)
                   (Some (match time_last_arg with
                          | Some t => t
                          | None => datetime_now ext
                          end))) ids) as [f0 [_ Hgen]]; [exact Hfe|].
    rewrite Hgen. cbn [lift]. eexists. split; [reflexivity|].
    unfold nrows. cbn [df_index df_columns features].
    assert (Hm : missing_from [] ids = ids).
    { unfold missing_from. clear.
      induction ids as [|a l IH]; [reflexivity|].
      change (a :: filter (fun i => negb (py_in i [])) l = a :: l).
      f_equal. exact IH. }
    split; [unfold dict_keys; rewrite map_map; reflexivity|].
    split; [intros i Hi; exists i; auto|].
    split; [|intros eframes Hef; discriminate].
    intros Hnd Hse.
    destruct (backfilled_labels [] ids Hnd Hse eq_refl eq_refl)
      as [Hone Hall].
    rewrite Hm in Hone, Hall. cbn [app] in Hone, Hall.
    split; [exact Hone|]. split; [exact Hall|reflexivity].
Qed.

Lemma one_row_per_instance_witness :
  exists res w1,
    calculate_all_features Shop.ext (Shop.backend true)
        [VInt 1; VInt 2; VInt 3; VInt 4] (Some 10%Z) None None None Shop.w0
      = Ok (res, w1) /\
    nrows res = 4 /\
    dict_keys (df_columns res) = ["COUNT(order_items)"].
Proof.
  destruct (fun H1 H2 H3 H4 H5 H6 H7 =>
              one_row_per_instance Shop.ext (Shop.backend true)
                (fun _ => ["id"])
                [VInt 1; VInt 2; VInt 3; VInt 4] (Some 10%Z) None None None
                Shop.w0 _ _ _ _ H1 H2 H3 H4 H5 H6 eq_refl H7)
    as [res [R1 [R2 [_ [R3 _]]]]].
  - discriminate.
  - discriminate.
  - left. reflexivity.
  - intros e groups g g0 Hin Hg Hhd. cbn in Hin.
    destruct Hin as [Hin|[]]. inversion Hin. subst e groups.
    destruct Hg as [<-|[]]. cbn in Hhd. inversion Hhd. subst g0.
    split; [|discriminate].
    intros _. repeat constructor. intros [].
  - split.
    + intros e n [<-|[]] [Hn|[]]. discriminate.
    + intros c p r Hp. cbn in Hp. unfold Shop.related in Hp.
      destruct (String.eqb c "order_items" && String.eqb p "orders");
        [|discriminate].
      inversion Hp. subst r. split; [left; reflexivity|].
      intros [Hn|[]]. discriminate.
  - intros eframes w0 Hsl. cbn in Hsl. inversion Hsl. subst eframes w0.
    split; [split|].
    + intros F ef HF. cbn in HF.
      destruct (String.eqb F "orders"); [|discriminate].
      inversion HF. subst ef. intros e loc Hl. cbn in Hl.
      destruct (String.eqb e "orders").
      * inversion Hl. subst loc. exists Shop.orders_df.
        split; [reflexivity|]. split; [reflexivity|].
        intros n [<-|[]] _. apply distinct_keys_unique. reflexivity.
      * destruct (String.eqb e "order_items"); [|discriminate].
        inversion Hl. subst loc. exists Shop.items_df.
        split; [reflexivity|]. split; [reflexivity|].
        intros n [<-|[]] Hc. discriminate.
    + exists 0, Shop.orders_df.
      split; [reflexivity|]. split; [reflexivity|].
      split; [reflexivity|]. split; [reflexivity|].
      split; [reflexivity|].
      intros f [<-|[]]. left.
      exists [[Shop.item_count]], [Shop.item_count], Shop.item_count.
      split; [reflexivity|]. split; [left; reflexivity|].
      split; [reflexivity|]. split; [reflexivity|left; reflexivity].
    + split; [constructor|intros k V []].
  - intros i j Hi Hj. vm_compute in Hi, Hj.
    assert (i = 0) by lia. assert (j = 0) by lia. subst i j.
    split; [reflexivity|]. intros E. contradiction.
  - destruct (R3 eq_refl eq_refl) as [_ [_ R4]].
    exists res. eexists. split; [exact R1|]. split; [exact R4|exact R2].
Defined.
